(* ===== verification/_CoqProject ===== *)
-Q . S2P
Prelude.v
PyDict.v
Fnmatch.v
Sha256.v
Errors.v
ErrorCodes.v
Types.v
Identity.v
Envelope.v
Ledger.v
Prog.v
System.v
Reprocessor.v
Analyzer.v
Chunker.v
Parsers.v
Embedder.v
Indexer.v
InMemoryIndexer.v
Vertical.v
Pipeline.v
Rely.v
Registry.v
Templates.v
Provisioner.v
ProvisionerLogic.v
ProvisionerSafety.v
ProvisionerAlone.v
InMemoryProvisioner.v
Scenarios.v
ScenarioStores.v
Caches.v
CachedRegistry.v
Net.v
Tables.v
MemoryTable.v
TableRegistry.v
TableScenarios.v
AzureSearch.v
MemorySearch.v
AzureIndexer.v
AzureProvisioner.v
EmbedderAdapters.v
Json.v
EnvelopeJson.v
Quickstart.v
TableRefinement.v
Construction.v
ScenarioBackend.v
ProvisionerClaims.v
Routing.v
ProvisionerTable.v
Deployment.v
IndexConcurrency.v
PipelineAzure.v
