(* ===== verification/Prelude.v ===== *)
(** * Vestibule: a verification development

    Vestibule (src/src/vestibule) ingests documents for retrieval: a document arrives with an
    envelope, gets a deterministic id, is registered in a state ledger, and then passes the
    stages analyze, chunk, embed and index, each run by workers that may be duplicated,
    redelivered or killed at any point. Documents whose scenario cannot be resolved are parked
    for a human reviewer; failed documents can be requeued or archived by an operator. All
    coordination goes through the ledger: a stage's writes are compare-and-set transitions of
    a small state machine, and a worker that loses a race must tell a benign loss (a duplicate
    has already done the work) from a real error. The vector index a scenario writes to is
    provisioned on demand by whichever worker claims it first in the index registry.

    ** Files, and the code they model

    - [Prelude], [PyDict], [Fnmatch], [Sha256]: the parts of Python and of its standard library
      the code uses: results that may be exceptions, strings as UTF-8 bytes, slices and stable
      sorting, ordered dictionaries, [fnmatch.fnmatchcase], SHA-256 (executable, with the
      published test vectors).
    - [Errors], [ErrorCodes]: errors/registry.py and the [register_error] calls of every
      module.
    - [Types]: the records, enums and exceptions the components share (the model.py files);
      floats are IEEE binary64 numbers.
    - [Identity]: identity/derive.py. [Envelope]: envelope/model.py.
    - [Ledger]: ledger/store.py: the transition table, the benign-loss test, the in-memory
      store; the state machine as the relation [edge].
    - [Prog], [System]: how components run. A method is a [prog], a finite tree of atomic calls
      on shared objects; [run] executes one alone and [sched_step] one call of one of many, so
      [rtc sched_step] is every interleaving. [System] has the shared objects ([world]) and
      their calls ([sysE], [handle]), and the environment [Env]: the clock, and the index
      adapter, embedding provider and scenario store, which are interfaces in the code.
    - [Reprocessor]: reprocessor/model.py and reprocessor.py.
    - [Analyzer]: analyzer/detect.py, registry.py, analyzer.py.
    - [Chunker]: chunker/token_counter.py, the strategies, chunker.py.
    - [Embedder]: embedder/embedder.py.
    - [Indexer]: indexer/indexer.py, and the laws of an index adapter as the class
      [IndexLaws]. [InMemoryIndexer]: indexer/adapters/in_memory.py, which implements them.
    - [Vertical]: vertical/loader.py and review_queue.py.
    - [Pipeline]: concurrent workers, and one document through all stages in the order of
      examples/quickstart.py.
    - [Rely]: reasoning about one program while others run ([safe], [safe_pool]), about programs
      whose calls are programs of a lower layer ([returns_via]) and about a part of the state.
    - [Registry]: provisioning/model.py and provisioning/registry.py: the entries, the
      in-memory registry, and the laws every registry promises as the class [RegistryLaws].
      [Templates]: provisioning/templates.py and the template validators.
    - [Provisioner]: provisioning/provisioner.py. [ProvisionerLogic]: a program logic for it, the
      rules a system must validate ([ProvRules]) for [ensure] to keep its promises there.
      [ProvisionerSafety]: it under concurrency, against [RegistryLaws] and [AdapterLaws]
      (provisioning/adapters/base.py), whose calls validate the rules.
      [ProvisionerAlone]: one call with no other worker running, with [CreateLaws] besides. [InMemoryProvisioner]:
      provisioning/adapters/in_memory.py, which keeps the adapter laws, and concrete runs.
    - [Parsers]: analyzer/parsers: the walk over PyMuPDF's pages and the mapping of Document
      Intelligence's results.
    - [Scenarios]: scenario/model.py and _validation.py. [ScenarioStores]: scenario/stores/base.py
      and yaml_store.py. [Caches]: scenario/stores/cached_store.py, and what it shares with
      [CachedRegistry]: provisioning/stores/cached_registry.py.
    - [Net]: the pattern every adapter for a remote service repeats, [_call_with_timeout] inside
      [_with_retry], over a network that may lose, repeat, fail or delay a request ([fate]).
      tenacity is the class [Tenacity].
    - [Tables]: the backend over Azure Table Storage (_azure_table_backend.py, of which the
      provisioning and the scenario stores have a copy each) with the service's laws
      ([TableLaws]), and optimistic concurrency over it; [MemoryTable]: a table in memory that
      keeps the laws. [TableRegistry]: provisioning/stores/table_storage_registry.py and
      _entity_codec.py. [TableScenarios]: scenario/stores/table_storage_store.py and
      _entity_codec.py.
    - [AzureSearch]: what the two adapters for Azure AI Search share, and the service's laws
      ([SearchLaws], [DocumentLaws]); [MemorySearch]: a service in memory that keeps them.
      [AzureIndexer]: indexer/adapters/azure_ai_search.py and _azure_search_backend.py.
      [AzureProvisioner]: the same two files of provisioning/adapters.
    - [EmbedderAdapters]: embedder/adapters/azure_openai.py and fastembed.py.
    - [Json]: the standard library's [json.loads] on text and bytes, with its errors and limits.
      [EnvelopeJson]: [envelope_to_json] and [envelope_from_json] of envelope/model.py.
    - [Quickstart]: examples/quickstart.py as a whole, on the in-memory stores.
    - [TableRefinement]: the table-backed registry as an implementation of the in-memory one.
      [ScenarioBackend]: scenario/stores/_azure_table_backend.py.
    - [Construction]: the constructors of the adapters for optional packages and their
      [_load_real_backend]. [ProvisionerClaims]: who may create an index.
      [ProvisionerTable]: the provisioner with the table-backed registry. [Deployment]: the
      provisioner with the cached and table-backed registry and the Azure adapter, request by
      request, whose requests validate the rules of [ProvisionerLogic] again.
    - [IndexConcurrency]: many workers on one Azure index. [PipelineAzure]: the stages of
      [Pipeline] with the Azure index, request by request.
    - [Routing]: the vertical loader with its constructor, over the YAML scenario store.

    Each component is a [Module] of its file with the source's names. State is passed
    explicitly; what a method returns or raises is a [result].

    ** What the theorems show

    - The ledger refines the state machine on every branch, an indexed document has passed
      every stage in order, terminal rows are frozen, a loss judged benign really was one, and
      listings are sound, ordered and complete ([Ledger]).
    - Under any interleaving of any number of stage calls no document moves backwards, a failed
      one is never reopened and the ledger stays well-formed; and a document whose steps
      succeed ends indexed, with a record for every chunk ([Pipeline]). The example script
      indexes its document and answers its query with the most similar records ([Quickstart]). With the Azure index
      and a network that loses and delays requests the ledger's guarantees stay, and the index
      only ever holds whole records of the right documents ([PipelineAzure]).
    - For each stage, every outcome: what is returned or raised, and the row it leaves
      ([Analyzer], [Chunker], [Embedder], [Indexer], and [Reprocessor] and [Vertical] for the
      operators' calls).
    - Chunking: regions and sections are partitions, tables are never split, merged or lost,
      merging tails terminates and keeps the text, ids and positions are right, tables render
      correctly. Embedding: batching is invisible and within limits. Indexing: a returned
      upsert stored everything, replaced a stale version completely and touched no other
      document, over any lawful adapter; searches respect every filter.
    - Identity: derived ids are well-formed and injective up to a SHA-256 collision. Envelopes:
      only valid ones can be constructed, a message is accepted exactly when it describes one,
      and an envelope survives being written and read ([EnvelopeJson]); the JSON parser returns
      or raises for every input and reads what is printed ([Json]). Error codes: registration
      never clashes.
    - Provisioning: under any interleaving of concurrent [ensure]s and any backend failure, the
      registry stays consistent, entries move only along the claim protocol, failed and retired
      ones never change, and whatever is ready or returned is a live index with the recorded
      schema ([ProvisionerSafety]), and every creation spends a claim its worker has won
      ([ProvisionerClaims]); alone, [ensure] terminates, provisions a missing index,
      finishes the claim of a dead worker, and settles every other entry as documented
      ([ProvisionerAlone]); the production stack keeps all of the safety on the two Azure
      services, with stale caches and requests executed late, twice or never ([Deployment]); template directories load exactly when every file is acceptable
      ([Templates]).
    - Parsing: the elements of a PDF are its non-empty blocks and its tables, each once, page by
      page and from top to bottom, and table text is not repeated as prose; those of a scanned
      one are the paragraphs and the tables of the analysis ([Parsers]).
    - Scenarios: in an accepted scenario the settings of embedder and indexer agree, so the vectors
      of the embedding stage have the dimensions of the index, exactly when the target dimension
      is not negative, which is not validated ([Scenarios]); the YAML store
      loads exactly when every file is valid ([ScenarioStores]), and a loader constructed over it
      sends every mapped document to an enabled scenario ([Routing]).
    - Caches: a client alone cannot tell a cached store from the wrapped one, answers under
      concurrency are at most a TTL old, and a cached registry is again a lawful registry.
    - Table storage: entries and scenarios survive encoding; under any interleaving and with
      requests lost, repeated or delayed, no update of the registry and no edit of a scenario is
      lost ([TableRegistry], [TableScenarios]); over a network that answers, and when every index
      name belongs to one vertical, a client cannot tell the table-backed registry from the
      in-memory one ([TableRefinement]), nor can [ensure]
      ([ProvisionerTable]), and the two copies of the backend agree ([ScenarioBackend]).
    - Azure AI Search: over any network the index adapter stores what it does not report as
      failed and touches nothing else, its answers are those of the stored records, and a deletion
      removes what the service reports as removed; with a service that never reports a failed
      deletion these are [IndexLaws] ([azure_laws]), and what is proved of the indexing stage
      holds with it. Concurrent workers never corrupt or mix records and
      only touch the documents they are called for ([IndexConcurrency]), and the provisioner adapter keeps [AdapterLaws], so
      the provisioner is safe with it; schemas are established and never changed; requests are
      bounded, and the error raised is the one the last request's failure determines ([gave_up],
      [AzureIndexer], [AzureProvisioner]); likewise for the
      embeddings of Azure OpenAI ([EmbedderAdapters]). Without its package an adapter fails at
      construction with a permanent code ([Construction]).
    - A few theorems exhibit behaviours the documentation excludes: [id_format_accepts_trailing_newline],
      [batch_requeue_archive_race], [analyze_redelivery_writes], [assign_undoes_reject],
      [section_path_not_exact], [retirement_races], [scenario_validation_gaps],
      [cached_store_invalidate_race], [table_registry_departures],
      [upsert_to_other_vertical_duplicates], [created_index_refuses_documents],
      [partial_delete_unreported], [envelope_from_json_escapes], [construction_outcomes],
      [late_upload_reverts].

    ** Bounds and fuel

    Programs are finite trees and every loop is structural, except: [Prelude.batches], bounded
    by the number of items (each batch takes at least one); [Fnmatch.translate] and
    [Fnmatch.chunks_from], bounded by the length of the pattern (each step consumes a
    character); SHA-256's padding and schedule, whose sizes are computed;
    [Json.scan_once], whose fuel of two per byte and one more is always enough
    ([scan_never_out_of_fuel]); and [Provisioner.resume], whose fuel counts the tail calls and polls of [ensure]. The safety
    theorems hold for any fuel; [ensure_terminates] shows that [ensure_fuel], one step per poll
    that fits into the timeout and a few more, is enough when no other worker interferes. Integers are Python's
    unbounded ones, except inside SHA-256, where they are 32-bit words.

    ** Assumptions

    Code outside the repository is an argument: PyMuPDF and Document Intelligence
    ([AnalyzerEnv], [Parsers]), the tokenizer and the text splitter ([TokenCounter],
    [ChunkerEnv]), the adapters and the clock ([Env], [ProvisionerEnv]), the YAML parser and
    pydantic's typing of a mapping ([Templates], [ScenarioStores]), tenacity ([Tenacity], the
    loop its documentation describes, for any wait strategy), the Azure SDKs ([TableClient],
    [SearchSDK], [OpenAIClient]) and whether they are installed ([Packages]), pydantic's writer
    ([Pydantic], [DumpLaws]) and the date codecs and the JSON of stored fields. No law is assumed of them except
    where a theorem states it as a hypothesis, and each such theorem has a witness. [TableLaws]
    are the documented conditional writes of Table Storage. [DocumentLaws] treats the index as
    up to date: a write that was answered is seen by the next search, which Azure AI Search
    promises only after a short delay; the contents of a document are the values last written.
    [TableLaws] are idealised in that an absent key can always be created (the service refuses
    some characters and sizes) and that an ETag is never used twice. [f_sum] adds floats from
    left to right, as [sum] does up to Python 3.11; from 3.12 on it compensates rounding errors.
    A call on a shared object is atomic, as the code's locks make it; logging is left out;
    instants are integers.

    ** Not modelled

    The command line and the printing of the example, logging, and [__repr__]s. Interfaces
    without code (abstract base classes and protocols) appear as the classes and call types that
    stand for them.

    ** What is left

    [Deployment] and [PipelineAzure] are about safety; that the production stack makes progress is
    shown with the table registry over a network that answers ([ProvisionerTable]) and for the
    adapter alone ([AzureProvisioner]), not for both at once. Retiring an index is outside
    [Deployment], as an operator's [mark_retired] does race a claim ([retirement_races]). *)
From stdpp Require Export base list strings pretty gmap.
From stdpp Require Export sorting.
From Stdlib Require Export Ascii ZArith Lia.

#[local] Open Scope Z_scope.

Declare Scope py_scope.
Delimit Scope py_scope with py.

(** ** Results of fallible calls *)

(** A Python call either returns a value or raises: [Ok] is a normal return, [Exc]
    an exception that propagates. *)
Inductive result (E A : Type) : Type :=
| Ok (a : A)
| Exc (e : E).
Arguments Ok {E A} a.
Arguments Exc {E A} e.

Definition rbind {E A B} (m : result E A) (f : A → result E B) : result E B :=
  match m with Ok a => f a | Exc e => Exc e end.

Notation "'let*' x ':=' m 'in' k" := (rbind m (fun x => k))
  (at level 10, x pattern, m at level 100, k at level 200) : py_scope.

(** A comprehension [[f(x) for x in l]] whose body may raise: left to right, the first
    exception wins. *)
Fixpoint rmap {E A B} (f : A → result E B) (l : list A) : result E (list B) :=
  match l with
  | [] => Ok []
  | x :: l' => rbind (f x) (λ y, rbind (rmap f l') (λ ys, Ok (y :: ys)))
  end.

(** ** Dynamically typed values

    Only the distinctions the validators draw ([isinstance] against [str], [int] and
    [bool], and [None]) are kept; every other Python object is a [PyOther]. *)
Inductive pyval : Type :=
| PyNone
| PyBool (b : bool)
| PyInt (z : Z)
| PyStr (s : string)
| PyOther (tag : string).

#[export] Instance pyval_eq_dec : EqDecision pyval.
Proof. solve_decision. Defined.

(** ** Strings

    A Python [str] is represented by the string of its UTF-8 bytes, so that
    [s.encode("utf-8")] is the identity and the comparisons, concatenations, prefix
    tests and ASCII patterns of the source mean the same on both sides. *)

(** [str(v)]; the tag of a [PyOther] is its [str]. *)
Definition py_str (v : pyval) : string :=
  match v with
  | PyNone => "None"
  | PyBool b => if b then "True" else "False"
  | PyInt z => pretty z
  | PyStr s => s
  | PyOther tag => tag
  end.

(** The position an index denotes in a sequence of length [n]: a negative one counts from the
    end, and [None] stands for [IndexError]. *)
Definition py_index (n : nat) (i : Z) : option nat :=
  if bool_decide (0 ≤ i) then (if bool_decide (i < Z.of_nat n) then Some (Z.to_nat i) else None)
  else if bool_decide (0 ≤ Z.of_nat n + i) then Some (Z.to_nat (Z.of_nat n + i)) else None.

(** [x or default] on an optional string: [None] and [""] are both falsy. *)
Definition py_or (o : option string) (d : string) : string :=
  match o with
  | Some s => if decide (s = "") then d else s
  | None => d
  end.

(** [sep.join(parts)]. *)
Fixpoint py_join (sep : string) (parts : list string) : string :=
  match parts with
  | [] => ""
  | [s] => s
  | s :: rest => s +:+ sep +:+ py_join sep rest
  end.

(** ** Lists *)

(** [l[:limit]]: a negative bound counts from the end. *)
Definition py_take {A} (limit : Z) (l : list A) : list A :=
  if bool_decide (limit < 0) then take (length l - Z.to_nat (- limit))%nat l
  else take (Z.to_nat limit) l.

(** Python's stable sort. [strictly y x] says that [y] must come before [x]; elements
    that are not strictly ordered keep their original relative order, which is also what
    [list.sort(reverse=True)] guarantees. *)
Fixpoint py_insert {A} (strictly : A → A → bool) (x : A) (l : list A) : list A :=
  match l with
  | [] => [x]
  | y :: l' => if strictly y x then y :: py_insert strictly x l' else x :: l
  end.

Fixpoint py_sort {A} (strictly : A → A → bool) (l : list A) : list A :=
  match l with
  | [] => []
  | x :: l' => py_insert strictly x (py_sort strictly l')
  end.

(** [for start in range(0, len(items), size): yield items[start : start + size]], for a
    positive [size]; [fuel] bounds the number of batches and [length items] is enough. *)
Fixpoint batches {A} (fuel : nat) (size : nat) (items : list A) : list (list A) :=
  match fuel, items with
  | O, _ => []
  | _, [] => []
  | S fuel', _ => take size items :: batches fuel' size (drop size items)
  end.

Definition batched {A} (items : list A) (size : nat) : list (list A) :=
  batches (length items) size items.

(** [range(0, n, size)] raises for a zero step and is empty for a negative one. *)
Definition py_batched {A} {E} (range_error : E) (items : list A) (size : Z) : result E (list (list A)) :=
  if bool_decide (size = 0) then Exc range_error
  else if bool_decide (size < 0) then Ok []
  else Ok (batched items (Z.to_nat size)).

(** [{key: ... for ...}] style de-duplication that keeps the first occurrence. *)
Fixpoint dedup_first {A} `{EqDecision A} (seen l : list A) : list A :=
  match l with
  | [] => seen
  | x :: l' => if decide (x ∈ seen) then dedup_first seen l' else dedup_first (seen ++ [x]) l'
  end.

(** ** Automation *)

Create HintDb py.

(** Case analysis on the scrutinee of every [match] and [decide] of the goal and the
    hypotheses, followed by simplification. *)
Ltac py_cases :=
  repeat first
    [ progress simplify_eq/=
    | case_decide
    | case_bool_decide
    | match goal with
      | |- context [match ?x with _ => _ end] => is_var x; destruct x
      | H : context [match ?x with _ => _ end] |- _ => is_var x; destruct x
      end
    | case_match ].

Ltac py_solve := py_cases; try done; eauto with py.

(** ** Generic lemmas *)

Lemma rbind_ok {E A B} (m : result E A) (f : A → result E B) b :
  rbind m f = Ok b → ∃ a, m = Ok a ∧ f a = Ok b.
Proof. destruct m; simpl; [eauto | done]. Qed.

Lemma rmap_ok {E A B} (f : A → result E B) l ys :
  rmap f l = Ok ys ↔ Forall2 (λ x y, f x = Ok y) l ys.
Proof.
  revert ys. induction l as [|x l IH]; intros ys; simpl.
  - split; [by intros [= <-]|]. by intros ->%Forall2_nil_inv_l.
  - split.
    + intros (y & Hy & (zs & Hz & [= <-])%rbind_ok)%rbind_ok. constructor; [done|]. by apply IH.
    + intros (y & zs & Hy & Hz & ->)%Forall2_cons_inv_l. rewrite Hy. simpl. by rewrite (proj2 (IH zs) Hz).
Qed.

Lemma py_insert_perm {A} (R : A → A → bool) x (l : list A) : py_insert R x l ≡ₚ x :: l.
Proof.
  induction l as [|y l IH]; simpl; [done|].
  destruct (R y x); [|done]. rewrite IH. apply Permutation_swap.
Qed.

Lemma py_sort_perm {A} (R : A → A → bool) (l : list A) : py_sort R l ≡ₚ l.
Proof. induction l as [|x l IH]; simpl; [done|]. by rewrite py_insert_perm, IH. Qed.

Lemma py_insert_hdrel {A} (R : A → A → bool) (S : relation A) a x l :
  S a x → HdRel S a l → HdRel S a (py_insert R x l).
Proof. intros Ha Hl. destruct l as [|y l]; simpl; [by constructor|]. inversion Hl; subst. destruct (R y x); by constructor. Qed.

(** Sorting yields a list sorted for any relation that the strict test respects. *)
Lemma py_sort_sorted {A} (R : A → A → bool) (S : relation A) (l : list A) :
  (∀ x y, R y x = true → S y x) → (∀ x y, R y x = false → S x y) →
  Sorted S (py_sort R l).
Proof.
  intros Ht Hf. induction l as [|x l IH]; simpl; [constructor|].
  revert IH. generalize (py_sort R l). intros s.
  induction s as [|y s IHs]; intros Hs; simpl; [repeat constructor|].
  inversion Hs; subst. destruct (R y x) eqn:E.
  - constructor; [by apply IHs|]. by apply py_insert_hdrel; [apply Ht|].
  - constructor; [done|]. constructor. by apply Hf.
Qed.

Lemma py_insert_filter {A} (R : A → A → bool) (P : A → Prop) `{!∀ x, Decision (P x)} x (l : list A) :
  (P x → ∀ y, P y → R y x = false) →
  filter P (py_insert R x l) = filter P (x :: l).
Proof.
  intros HR. induction l as [|y l IH]; simpl; [done|].
  destruct (R y x) eqn:E; [|done].
  rewrite !filter_cons, IH. rewrite filter_cons.
  destruct (decide (P y)), (decide (P x)); try done.
  exfalso. rewrite HR in E; done.
Qed.

(** Stability: the elements of one equivalence class keep their original order. *)
Lemma py_sort_stable {A} (R : A → A → bool) (P : A → Prop) `{!∀ x, Decision (P x)} (l : list A) :
  (∀ x y, P x → P y → R y x = false) → filter P (py_sort R l) = filter P l.
Proof.
  intros HR. induction l as [|x l IH]; simpl; [done|].
  rewrite py_insert_filter by eauto. rewrite !filter_cons, IH. done.
Qed.

Lemma py_take_sublist {A} z (l : list A) : py_take z l `sublist_of` l.
Proof. unfold py_take. case_bool_decide; apply sublist_take. Qed.

Lemma py_take_length {A} z (l : list A) :
  0 ≤ z → length (py_take z l) = Nat.min (Z.to_nat z) (length l).
Proof. intros Hz. unfold py_take. rewrite bool_decide_eq_false_2 by lia. by rewrite length_take. Qed.

Lemma batches_concat {A} fuel size (items : list A) :
  (0 < size)%nat → (length items ≤ fuel)%nat → mjoin (batches fuel size items) = items.
Proof.
  intros Hs. revert items. induction fuel as [|fuel IH]; intros [|x items] Hf; simpl in *; try done; [lia|].
  destruct size as [|size]; [lia|]. simpl. f_equal.
  rewrite IH; [by rewrite take_drop|]. rewrite length_drop. lia.
Qed.

(** Batching neither drops, duplicates nor reorders anything. *)
Lemma batched_concat {A} (items : list A) size : (0 < size)%nat → mjoin (batched items size) = items.
Proof. intros. by apply batches_concat. Qed.

Lemma elem_of_mjoin_sublist {A} (l : list A) (ls : list (list A)) : l ∈ ls → l `sublist_of` mjoin ls.
Proof.
  induction ls as [|l' ls IH]; [by intros ?%elem_of_nil|]. intros [->|Hl]%elem_of_cons; simpl.
  - by apply sublist_inserts_r.
  - by apply sublist_inserts_l, IH.
Qed.

(** Every batch is a part of the items. *)
Lemma py_batched_sublist {A E} (x : E) (items : list A) size bs b : py_batched x items size = Ok bs → b ∈ bs → b `sublist_of` items.
Proof.
  unfold py_batched. case_bool_decide; [done|]. case_bool_decide; intros [= <-]; [by intros ?%elem_of_nil|]. intros Hb.
  rewrite <- (batched_concat items (Z.to_nat size)) by lia. by apply elem_of_mjoin_sublist.
Qed.

Lemma py_batched_pos {A E} (x : E) (items : list A) size :
  0 < size → py_batched x items size = Ok (batched items (Z.to_nat size)).
Proof. intros. unfold py_batched. by rewrite !bool_decide_eq_false_2 by lia. Qed.

Lemma batched_sizes {A} (items : list A) size b :
  (0 < size)%nat → b ∈ batched items size → (0 < length b ≤ size)%nat.
Proof.
  intros Hs. unfold batched. generalize (length items). intros fuel. revert items.
  induction fuel as [|fuel IH]; intros [|x items]; simpl; try (by rewrite elem_of_nil).
  rewrite elem_of_cons. intros [->|Hb]; [|eauto].
  rewrite length_take. simpl. lia.
Qed.

Lemma string_app_assoc (a b c : string) : (a +:+ b) +:+ c = a +:+ (b +:+ c).
Proof. induction a as [|x a IH]; [done|]. unfold String.app in *. simpl. by rewrite IH. Qed.

Lemma string_app_inv_length (a b c d : string) :
  String.length a = String.length c → a +:+ b = c +:+ d → a = c ∧ b = d.
Proof.
  revert c. induction a as [|x a IH]; intros [|y c]; simpl; try done.
  intros Hl Heq. unfold String.app in *. simpl in Heq. simplify_eq. destruct (IH c) as [-> ->]; auto.
Qed.

(** Joining an already joined, non-empty tail changes nothing. *)
Lemma py_join_app sep l k : k ≠ [] → py_join sep (l ++ [py_join sep k]) = py_join sep (l ++ k).
Proof.
  intros Hk. induction l as [|x l IH]; simpl; [done|]. rewrite IH.
  destruct l as [|y l]; simpl; [|done]. by destruct k.
Qed.

Lemma py_join_pair sep a b : py_join sep [a; b] = a +:+ sep +:+ b.
Proof. done. Qed.

Lemma elem_of_dedup_first {A} `{EqDecision A} (x : A) seen l : x ∈ dedup_first seen l ↔ x ∈ seen ∨ x ∈ l.
Proof.
  revert seen. induction l as [|y l IH]; intros seen; simpl; [set_solver|]. case_decide; rewrite IH; set_solver.
Qed.

Lemma NoDup_dedup_first {A} `{EqDecision A} (seen l : list A) : NoDup seen → NoDup (dedup_first seen l).
Proof.
  revert seen. induction l as [|y l IH]; intros seen Hs; simpl; [done|]. case_decide; [by apply IH|].
  apply IH. apply NoDup_app. split_and!; [done|set_solver|apply NoDup_singleton].
Qed.

Lemma NoDup_map_inj {A B} (f : A → B) l x y : NoDup (map f l) → x ∈ l → y ∈ l → f x = f y → x = y.
Proof.
  induction l as [|z l IH]; simpl; intros Hnd Hx Hy Hf; [set_solver|]. apply NoDup_cons in Hnd as [Hz Hnd].
  assert (Hin : ∀ u, u ∈ l → f u ≠ f z) by (intros u Hu Heq; apply Hz; rewrite <- Heq; by apply (list_elem_of_fmap_2 f)).
  apply elem_of_cons in Hx as [->|Hx]; apply elem_of_cons in Hy as [->|Hy]; [done|by destruct (Hin y)|by destruct (Hin x)|by apply IH].
Qed.

Lemma NoDup_submseteq_of {A} (l k : list A) : l ⊆+ k → NoDup k → NoDup l.
Proof. intros [rest ->]%submseteq_Permutation Hnd. by apply NoDup_app in Hnd as [? _]. Qed.
