(* ===== verification/PyDict.v ===== *)
(** * Insertion-ordered dictionaries

    Python's [dict]: a finite map that also remembers the order in which its keys were
    first inserted. [d[k] = v] keeps the position of an existing key and appends a new one;
    [list(d.values())] follows that order. The stores of the program iterate over their
    dictionaries, so the order is observable and is modelled. The second half relates a
    dictionary to the finite map it represents, for the abstract specifications. *)
From S2P Require Import Prelude.
#[local] Open Scope Z_scope.

Section dict.
Context {K V : Type} `{EqDecision K}.

(** The entries in insertion order. *)
Definition dict := list (K * V).

(** [d.get(k)]. *)
Fixpoint dict_get (k : K) (d : list (K * V)) : option V :=
  match d with
  | [] => None
  | (k', v) :: d' => if decide (k = k') then Some v else dict_get k d'
  end.

(** [d[k] = v]. *)
Fixpoint dict_set (k : K) (v : V) (d : list (K * V)) : list (K * V) :=
  match d with
  | [] => [(k, v)]
  | (k', v') :: d' => if decide (k = k') then (k', v) :: d' else (k', v') :: dict_set k v d'
  end.

(** [d.pop(k, None)], keeping only the effect on [d]. *)
Fixpoint dict_pop (k : K) (d : list (K * V)) : list (K * V) :=
  match d with
  | [] => []
  | (k', v') :: d' => if decide (k = k') then d' else (k', v') :: dict_pop k d'
  end.

(** [list(d.values())]. *)
Definition dict_values (d : list (K * V)) : list V := d.*2.

(** The representation invariant: one entry per key. *)
Definition dict_wf (d : list (K * V)) : Prop := NoDup d.*1.

(** ** Lookup after update *)

Lemma dict_get_set k k' v d :
  dict_get k (dict_set k' v d) = if decide (k = k') then Some v else dict_get k d.
Proof. induction d as [|[j w] d IH]; py_cases; congruence. Qed.

Lemma dict_get_set_eq k v d : dict_get k (dict_set k v d) = Some v.
Proof. rewrite dict_get_set. by rewrite decide_True. Qed.

Lemma dict_get_set_ne k k' v d : k ≠ k' → dict_get k (dict_set k' v d) = dict_get k d.
Proof. intros. rewrite dict_get_set. by rewrite decide_False. Qed.

Lemma dict_get_elem k v d : dict_get k d = Some v → (k, v) ∈ d.
Proof. induction d as [|[j w] d IH]; simpl; [done|]. case_decide; simplify_eq; set_solver. Qed.

Lemma dict_get_None k d : dict_get k d = None ↔ k ∉ d.*1.
Proof. induction d as [|[j w] d IH]; simpl; [set_solver|]. case_decide; set_solver. Qed.

Lemma dict_get_value k v d : dict_get k d = Some v → v ∈ dict_values d.
Proof. intros Hg%dict_get_elem. unfold dict_values. apply list_elem_of_fmap. by exists (k, v). Qed.

Lemma dict_elem_get k v d : dict_wf d → (k, v) ∈ d → dict_get k d = Some v.
Proof.
  unfold dict_wf. induction d as [|[j w] d IH]; simpl; [set_solver|].
  intros [Hj Hd]%NoDup_cons [?|Hin]%elem_of_cons; simplify_eq; [by rewrite decide_True|].
  rewrite decide_False; [eauto|]. intros ->. apply Hj. apply list_elem_of_fmap. by exists (j, v).
Qed.

(** ** Shape of updates *)

Lemma dict_set_keys_old k v d : k ∈ d.*1 → (dict_set k v d).*1 = d.*1.
Proof. induction d as [|[j w] d IH]; simpl; [set_solver|]. case_decide; [done|]. intros. simpl. f_equal. apply IH. set_solver. Qed.

Lemma dict_set_new k v d : dict_get k d = None → dict_set k v d = d ++ [(k, v)].
Proof. induction d as [|[j w] d IH]; simpl; [done|]. case_decide; [done|]. intros. by rewrite IH. Qed.

Lemma dict_set_wf k v d : dict_wf d → dict_wf (dict_set k v d).
Proof.
  unfold dict_wf. intros Hd. destruct (dict_get k d) as [w|] eqn:E.
  - rewrite dict_set_keys_old; [done|]. apply dict_get_elem in E. apply list_elem_of_fmap. by exists (k, w).
  - rewrite dict_set_new by done. apply dict_get_None in E. rewrite fmap_app. simpl.
    apply NoDup_app. split; [done|]. split; [set_solver|apply NoDup_singleton].
Qed.

Lemma dict_set_values_forall (P : V → Prop) k v d :
  P v → Forall P (dict_values d) → Forall P (dict_values (dict_set k v d)).
Proof.
  intros Hv. unfold dict_values. induction d as [|[j w] d IH]; simpl; [by constructor|].
  intros [? ?]%Forall_cons. case_decide; simpl; constructor; auto.
Qed.

Lemma dict_pop_sublist k d : dict_pop k d `sublist_of` d.
Proof. induction d as [|[j w] d IH]; simpl; [done|]. case_decide; by constructor. Qed.

Lemma dict_pop_wf k d : dict_wf d → dict_wf (dict_pop k d).
Proof. unfold dict_wf. intros Hd. eapply sublist_NoDup; [exact Hd|]. apply fmap_sublist, dict_pop_sublist. Qed.

Lemma dict_get_pop k k' d :
  dict_wf d → dict_get k (dict_pop k' d) = if decide (k = k') then None else dict_get k d.
Proof.
  unfold dict_wf. induction d as [|[j w] d IH]; simpl; [by case_decide|].
  intros [Hj Hd]%NoDup_cons. destruct (decide (k' = j)) as [->|].
  - destruct (decide (k = j)) as [->|]; [by apply dict_get_None|done].
  - simpl. destruct (decide (k = j)) as [->|]; [by rewrite decide_False|auto].
Qed.

Lemma dict_wf_nil : dict_wf [].
Proof. constructor. Qed.
End dict.

(** ** The finite map a dictionary represents *)
Section dict_map.
Context {K V : Type} `{Countable K}.
Implicit Types d : list (K * V).

Definition dict_map (d : list (K * V)) : gmap K V := list_to_map d.

Lemma dict_map_lookup k d : dict_map d !! k = dict_get k d.
Proof.
  unfold dict_map. induction d as [|[j w] d IH]; simpl; [apply lookup_empty|].
  case_decide; [subst; apply lookup_insert_eq | rewrite lookup_insert_ne; auto].
Qed.

Lemma dict_map_set k v d : dict_map (dict_set k v d) = <[k:=v]> (dict_map d).
Proof.
  apply map_eq. intros i. rewrite dict_map_lookup, dict_get_set, lookup_insert, dict_map_lookup.
  by repeat case_decide; subst.
Qed.

Lemma dict_map_pop k d : dict_wf d → dict_map (dict_pop k d) = delete k (dict_map d).
Proof.
  intros. apply map_eq. intros i. rewrite dict_map_lookup, dict_get_pop, lookup_delete, dict_map_lookup by done.
  by repeat case_decide; subst.
Qed.
End dict_map.

#[export] Hint Resolve dict_wf_nil dict_set_wf dict_pop_wf : py.
#[export] Hint Rewrite @dict_get_set_eq : py.
