(* ===== verification/Fnmatch.v ===== *)
(** * Shell-style patterns: [fnmatch.fnmatchcase]

    The matcher of Python's standard library that source mappings use, on the characters of a
    UTF-8 string. A set [[...]] is read the way [fnmatch.translate] reads it: a leading [!]
    negates, a [\]] right after the opening is literal, hyphens form ranges from left to right,
    ranges whose bounds are out of order are dropped, and a set without a closing bracket is a
    literal [\[]. *)
From S2P Require Import Prelude.
#[local] Open Scope nat_scope.

Module Fnmatch.

(** ** Characters of a UTF-8 string *)

Definition is_continuation (c : ascii) : bool := (128 <=? nat_of_ascii c) && (nat_of_ascii c <? 192).

Definition starts_inside (s : string) : bool := match s with String c _ => is_continuation c | "" => false end.

Fixpoint chars (s : string) : list string :=
  match s with
  | "" => []
  | String c s' =>
    match chars s' with
    | x :: rest => if starts_inside s' then String c x :: rest else String c "" :: x :: rest
    | [] => [String c ""]
    end
  end.

(** ** Patterns *)

Inductive glob :=
| GStar
| GAny
| GNever
| GChar (c : string)
| GSet (negated : bool) (ranges : list (string * string)).

(** The part of a list before its first [x], and the part after it. *)
Fixpoint split_at (x : string) (l : list string) : option (list string * list string) :=
  match l with
  | [] => None
  | y :: l' => if decide (y = x) then Some ([], l') else
    match split_at x l' with Some (a, b) => Some (y :: a, b) | None => None end
  end.

(** What stands between the brackets, and the pattern after them. *)
Definition find_close (rest : list string) : option (list string * list string) :=
  let '(pre, r1) := match rest with "!" :: r => (["!"], r) | _ => ([], rest) end in
  let '(pre, r2) := match r1 with "]" :: r => (pre ++ ["]"], r) | _ => (pre, r1) end in
  match split_at "]" r2 with Some (mid, after) => Some (pre ++ mid, after) | None => None end.

(** [pat.find('-', k, j)] relative to the start of the list. *)
Fixpoint find_hyphen (k : nat) (l : list string) : option nat :=
  match l with
  | [] => None
  | x :: l' =>
    match k with
    | S k' => S <$> find_hyphen k' l'
    | O => if decide (x = "-") then Some 0 else S <$> find_hyphen 0 l'
    end
  end.

(** The chunks between the hyphens that form ranges; each step drops at least one character,
    so the length of the text is enough fuel. *)
Fixpoint chunks_from (fuel k : nat) (l : list string) : list (list string) :=
  match fuel with
  | O => [l]
  | S fuel' =>
    match find_hyphen k l with
    | None => [l]
    | Some p => take p l :: chunks_from fuel' 2 (drop (S p) l)
    end
  end.

(** An empty last chunk stands for a literal hyphen at the end. *)
Fixpoint close_chunks (cs : list (list string)) : list (list string) :=
  match cs with
  | [c; []] => [c ++ ["-"]]
  | c :: rest => c :: close_chunks rest
  | [] => []
  end.

(** Ranges whose lower bound exceeds the upper one are removed, from right to left. *)
Fixpoint squash (cs : list (list string)) : list (list string) :=
  match cs with
  | [] => []
  | c :: rest =>
    match squash rest with
    | d :: rest' =>
      match list.last c, head d with
      | Some lo, Some hi => if String.ltb hi lo then (take (length c - 1) c ++ tail d) :: rest' else c :: d :: rest'
      | _, _ => c :: d :: rest'
      end
    | [] => [c]
    end
  end.

Fixpoint ranges_of (cs : list (list string)) : list (string * string) :=
  match cs with
  | [] => []
  | c :: rest =>
    map (λ x, (x, x)) c ++
    match list.last c, head rest ≫= head with Some lo, Some hi => [(lo, hi)] | _, _ => [] end ++ ranges_of rest
  end.

Definition set_of (stuff : list string) : glob :=
  let start := match stuff with "!" :: _ => 2 | _ => 1 end in
  let cs := if decide ("-" ∈ stuff) then squash (close_chunks (chunks_from (length stuff) start stuff)) else [stuff] in
  match cs with
  | [[]] => GNever
  | [["!"]] => GAny
  | ("!" :: c) :: rest => GSet true (ranges_of (c :: rest))
  | _ => GSet false (ranges_of cs)
  end.

(** [fnmatch.translate]; consecutive stars are kept, which matches the same names. Each step
    consumes a character, so the length of the pattern is enough fuel. *)
Fixpoint translate (fuel : nat) (pat : list string) : list glob :=
  match fuel, pat with
  | S fuel', c :: rest =>
    if decide (c = "*") then GStar :: translate fuel' rest
    else if decide (c = "?") then GAny :: translate fuel' rest
    else if decide (c = "[") then
      match find_close rest with
      | None => GChar "[" :: translate fuel' rest
      | Some (stuff, after) => set_of stuff :: translate fuel' after
      end
    else GChar c :: translate fuel' rest
  | _, _ => []
  end.

(** ** Matching *)

Definition glob_char (g : glob) (c : string) : bool :=
  match g with
  | GStar | GAny => true
  | GNever => false
  | GChar x => bool_decide (c = x)
  | GSet negated ranges => xorb negated (existsb (λ r, String.leb r.1 c && String.leb c r.2) ranges)
  end.

Fixpoint glob_match (ps : list glob) (cs : list string) : bool :=
  match ps with
  | [] => match cs with [] => true | _ => false end
  | GStar :: ps' =>
    (fix star (cs : list string) : bool := glob_match ps' cs || match cs with [] => false | _ :: cs' => star cs' end) cs
  | p :: ps' => match cs with [] => false | c :: cs' => glob_char p c && glob_match ps' cs' end
  end.

Definition fnmatchcase (name pat : string) : bool := glob_match (translate (length (chars pat)) (chars pat)) (chars name).

(** ** Lemmas *)

Lemma chars_concat s : String.concat "" (chars s) = s.
Proof.
  induction s as [|c s IH]; [done|]. simpl. destruct (chars s) as [|x rest]; simpl in IH; [by subst|].
  rewrite <- IH at 2. destruct (starts_inside s); by destruct rest.
Qed.

Lemma chars_inj s t : chars s = chars t → s = t.
Proof. intros H. by rewrite <- (chars_concat s), <- (chars_concat t), H. Qed.

Definition plain (c : string) : bool := bool_decide (c ∉ ["*"; "?"; "["]).

Lemma translate_plain fuel p rest :
  Forall (λ c, plain c = true) p → length (p ++ rest) ≤ fuel →
  translate fuel (p ++ rest) = map GChar p ++ translate (fuel - length p) rest.
Proof.
  revert fuel. induction p as [|c p IH]; intros fuel Hp Hl; simpl in *; [by rewrite Nat.sub_0_r|].
  destruct fuel as [|fuel]; [lia|]. apply Forall_cons in Hp as [Hc Hp]. unfold plain in Hc. apply bool_decide_eq_true in Hc.
  simpl. rewrite !decide_False by set_solver. by rewrite IH by (done || lia).
Qed.

Lemma match_literals p ps cs :
  glob_match (map GChar p ++ ps) cs = true ↔ ∃ rest, cs = p ++ rest ∧ glob_match ps rest = true.
Proof.
  revert cs. induction p as [|c p IH]; intros cs; simpl; [naive_solver|]. destruct cs as [|x cs]; [naive_solver|].
  rewrite andb_true_iff, bool_decide_eq_true, IH. naive_solver.
Qed.

Lemma match_star_end cs : glob_match [GStar] cs = true.
Proof. induction cs as [|c cs IH]; [done|]. simpl in *. done. Qed.

(** A pattern without metacharacters matches exactly the equal name. *)
Lemma fnmatch_literal name pat :
  Forall (λ c, plain c = true) (chars pat) → fnmatchcase name pat = true ↔ name = pat.
Proof.
  intros Hp. unfold fnmatchcase. rewrite <- (app_nil_r (chars pat)) at 2. rewrite translate_plain; [|done|by rewrite app_nil_r].
  rewrite match_literals. replace (translate _ []) with (@nil glob) by (by destruct (length (chars pat) - length (chars pat))). split.
  - intros (rest & Heq & Hm). destruct rest; [|done]. rewrite app_nil_r in Heq. by apply chars_inj.
  - intros ->. exists []. by rewrite app_nil_r.
Qed.

(** A literal followed by a star matches exactly the names that start with the literal. *)
Lemma fnmatch_prefix name pat lit :
  chars pat = lit ++ ["*"] → Forall (λ c, plain c = true) lit →
  fnmatchcase name pat = true ↔ ∃ rest, chars name = lit ++ rest.
Proof.
  intros Hp Hl. unfold fnmatchcase. rewrite Hp, translate_plain by done. rewrite length_app. simpl.
  replace (length lit + 1 - length lit) with 1 by lia. simpl translate. rewrite match_literals.
  split; intros (rest & H); exists rest; [tauto|]. split; [done|apply match_star_end].
Qed.
End Fnmatch.
