(* ===== verification/Sha256.v ===== *)
(** * SHA-256

    [hashlib.sha256(data).hexdigest()] as the standard (FIPS 180-4) defines it, on 32-bit
    words represented by [Z] with the wrap-around written out. Executable: the examples
    at the end evaluate the standard's test vectors. *)
From S2P Require Import Prelude.
#[local] Open Scope Z_scope.

Module Sha256.

(** ** Words and bytes *)

Definition w32 (x : Z) : Z := x `mod` 2 ^ 32.
Definition add32 (x y : Z) : Z := w32 (x + y).
Definition rotr (n x : Z) : Z := Z.lor (Z.shiftr x n) (w32 (Z.shiftl x (32 - n))).
Definition not32 (x : Z) : Z := Z.lxor x (2 ^ 32 - 1).

Definition byte_of_ascii (c : Ascii.ascii) : Z := Z.of_N (Ascii.N_of_ascii c).

(** The bytes of a UTF-8 string. *)
Fixpoint bytes_of_string (s : string) : list Z :=
  match s with
  | EmptyString => []
  | String c s' => byte_of_ascii c :: bytes_of_string s'
  end.

(** ** The compression function *)

(** The standard defines its constants from the fractional parts of the cube and square
    roots of the first primes; they are computed that way. *)
Fixpoint has_divisor (n : Z) (ds : list Z) : bool :=
  match ds with
  | [] => false
  | d :: ds' => (n `mod` d =? 0) || has_divisor n ds'
  end.

(** The primes among the candidates, given those already found. *)
Fixpoint sieve (found candidates : list Z) : list Z :=
  match candidates with
  | [] => found
  | n :: rest => if has_divisor n found then sieve found rest else sieve (found ++ [n]) rest
  end.

(** The first sixty-four primes: the last of them is 311. *)
Definition first_primes : list Z := sieve [] (seqZ 2 310).

(** The largest [r] of at most [bits] bits, extending [acc], whose cube is at most [n]. *)
Fixpoint cube_root (bits : nat) (acc n : Z) : Z :=
  match bits with
  | O => acc
  | S b =>
    let r := acc + 2 ^ Z.of_nat b in
    cube_root b (if r * r * r <=? n then r else acc) n
  end.

Definition k_constants : list Z :=
  Eval vm_compute in map (λ p, w32 (cube_root 40 0 (p * 2 ^ 96))) first_primes.

Record state := State { sa : Z; sb : Z; sc : Z; sd : Z; se : Z; sf : Z; sg : Z; sh : Z }.

Definition root_constant (i : nat) : Z := w32 (Z.sqrt (nth i first_primes 0 * 2 ^ 64)).

Definition initial : state :=
  Eval vm_compute in
  State (root_constant 0) (root_constant 1) (root_constant 2) (root_constant 3)
        (root_constant 4) (root_constant 5) (root_constant 6) (root_constant 7).

Definition small_sigma0 (x : Z) : Z := Z.lxor (Z.lxor (rotr 7 x) (rotr 18 x)) (Z.shiftr x 3).
Definition small_sigma1 (x : Z) : Z := Z.lxor (Z.lxor (rotr 17 x) (rotr 19 x)) (Z.shiftr x 10).
Definition big_sigma0 (x : Z) : Z := Z.lxor (Z.lxor (rotr 2 x) (rotr 13 x)) (rotr 22 x).
Definition big_sigma1 (x : Z) : Z := Z.lxor (Z.lxor (rotr 6 x) (rotr 11 x)) (rotr 25 x).
Definition ch (x y z : Z) : Z := Z.lxor (Z.land x y) (Z.land (not32 x) z).
Definition maj (x y z : Z) : Z := Z.lxor (Z.lxor (Z.land x y) (Z.land x z)) (Z.land y z).

Definition round (s : state) (k w : Z) : state :=
  let t1 := w32 (sh s + big_sigma1 (se s) + ch (se s) (sf s) (sg s) + k + w) in
  let t2 := w32 (big_sigma0 (sa s) + maj (sa s) (sb s) (sc s)) in
  State (add32 t1 t2) (sa s) (sb s) (sc s) (add32 (sd s) t1) (se s) (sf s) (sg s).

(** The message schedule, kept as a sliding window of the last sixteen words. *)
Definition next_word (win : list Z) : Z :=
  w32 (small_sigma1 (nth 14 win 0) + nth 9 win 0 + small_sigma0 (nth 1 win 0) + nth 0 win 0).

Fixpoint rounds (ks : list Z) (win : list Z) (s : state) : state :=
  match ks with
  | [] => s
  | k :: ks' => rounds ks' (drop 1 win ++ [next_word win]) (round s k (nth 0 win 0))
  end.

Definition add_state (s t : state) : state :=
  State (add32 (sa s) (sa t)) (add32 (sb s) (sb t)) (add32 (sc s) (sc t)) (add32 (sd s) (sd t))
        (add32 (se s) (se t)) (add32 (sf s) (sf t)) (add32 (sg s) (sg t)) (add32 (sh s) (sh t)).

Definition compress (s : state) (block : list Z) : state := add_state s (rounds k_constants block s).

(** ** Padding and blocks *)

Definition word_of_bytes (bs : list Z) : Z := fold_left (λ acc b, acc * 256 + b) bs 0.

Definition be_bytes (n : nat) (x : Z) : list Z :=
  map (λ i, Z.shiftr x (8 * Z.of_nat (n - 1 - i)) `mod` 256) (seq 0 n).

Definition pad (msg : list Z) : list Z :=
  let len := length msg in
  let zeros := Z.to_nat ((55 - Z.of_nat len) `mod` 64) in
  msg ++ [0x80] ++ replicate zeros 0 ++ be_bytes 8 (8 * Z.of_nat len).

Definition blocks (msg : list Z) : list (list Z) :=
  map (λ b, map word_of_bytes (batched b 4)) (batched (pad msg) 64).

Definition digest (msg : list Z) : state := fold_left compress (blocks msg) initial.

(** ** The hexadecimal digest *)

Definition hex_char (d : Z) : Ascii.ascii :=
  Ascii.ascii_of_N (Z.to_N (if bool_decide (d < 10) then 48 + d else 87 + d)).

(** The eight hexadecimal digits of a word, most significant first. *)
Fixpoint hex_digits (n : nat) (x : Z) (acc : string) : string :=
  match n with
  | O => acc
  | S n' => hex_digits n' (x / 16) (String (hex_char (x `mod` 16)) acc)
  end.

Definition words (s : state) : list Z := [sa s; sb s; sc s; sd s; se s; sf s; sg s; sh s].

Definition hexdigest (s : string) : string :=
  fold_right (λ w acc, hex_digits 8 w acc) "" (words (digest (bytes_of_string s))).

(** ** The digest is sixty-four lowercase hexadecimal characters *)

(** The character class [0-9a-f]. *)
Definition is_hex (c : Ascii.ascii) : bool :=
  let n := Z.of_N (Ascii.N_of_ascii c) in
  bool_decide (48 ≤ n ≤ 57) || bool_decide (97 ≤ n ≤ 102).

Fixpoint all_hex (s : string) : bool :=
  match s with
  | EmptyString => true
  | String c s' => is_hex c && all_hex s'
  end.

Lemma hex_char_is_hex d : 0 ≤ d < 16 → is_hex (hex_char d) = true.
Proof.
  intros Hd. assert (Hall : forallb (λ d, is_hex (hex_char d)) (seqZ 0 16) = true) by by vm_compute.
  rewrite forallb_forall in Hall. apply Hall, list_elem_of_In, elem_of_seqZ. lia.
Qed.

Lemma hex_digits_length n x acc : String.length (hex_digits n x acc) = (n + String.length acc)%nat.
Proof. revert x acc. induction n as [|n IH]; intros x acc; simpl; [done|]. rewrite IH. simpl. lia. Qed.

Lemma hex_digits_hex n x acc : all_hex acc = true → all_hex (hex_digits n x acc) = true.
Proof.
  revert x acc. induction n as [|n IH]; intros x acc Hacc; simpl; [done|].
  apply IH. simpl. rewrite hex_char_is_hex, Hacc; [done|]. apply Z.mod_pos_bound. lia.
Qed.

Lemma hexdigest_length s : String.length (hexdigest s) = 64%nat.
Proof. unfold hexdigest, words. cbn [fold_right]. by rewrite !hex_digits_length. Qed.

Lemma hexdigest_hex s : all_hex (hexdigest s) = true.
Proof. unfold hexdigest, words. cbn [fold_right]. by repeat apply hex_digits_hex. Qed.

(** The standard's test vectors. *)
Example sha256_abc :
  hexdigest "abc" = "ba7816bf8f01cfea414140de5dae2223b00361a396177a9cb410ff61f20015ad".
Proof. vm_compute. reflexivity. Qed.

Example sha256_empty :
  hexdigest "" = "e3b0c44298fc1c149afbf4c8996fb92427ae41e4649b934ca495991b7852b855".
Proof. vm_compute. reflexivity. Qed.

Example sha256_two_blocks :
  hexdigest "abcdbcdecdefdefgefghfghighijhijkijkljklmklmnlmnomnopnopq"
  = "248d6a61d20638b8e5c026930c3e6039a33ce45964ff2167f6ecedd419db06c1".
Proof. vm_compute. reflexivity. Qed.

End Sha256.

(** Proofs never unfold the hash; [vm_compute] still evaluates it. *)
#[global] Opaque Sha256.hexdigest.
