(* ===== verification/Errors.v ===== *)
(** * Failure taxonomy: the error registry (src/vestibule/errors/registry.py)

    [ErrorRegistry] is an insertion-ordered dictionary from error codes to [ErrorCode]
    entries. [register] is the only mutation; [classify] defaults to [TRANSIENT]. Every
    public method holds one lock for its whole duration, so a method is one atomic step
    and a concurrent history is a sequence of them. The logging of [classify] is the
    boolean of [classify_logs]. *)
From S2P Require Import Prelude PyDict.
#[local] Open Scope Z_scope.

Module Errors.

Inductive Severity := PERMANENT | TRANSIENT.

#[export] Instance severity_eq_dec : EqDecision Severity.
Proof. solve_decision. Defined.

Record ErrorCode := mkErrorCode { ec_code : string; ec_severity : Severity; ec_description : string }.

#[export] Instance error_code_eq_dec : EqDecision ErrorCode.
Proof. solve_decision. Defined.

(** [ErrorCodeRegistrationInvalid]: the attempted code, the reason, the prior entry. *)
Record RegistrationInvalid :=
  mkRegistrationInvalid { ri_attempted : pyval; ri_reason : string; ri_existing : option ErrorCode }.

(** [self._codes]. *)
Notation ErrorRegistry := (list (string * ErrorCode)).

Definition empty_registry : ErrorRegistry := [].

(** [self._codes.get(code)]: only string codes are ever stored. *)
Definition lookup_code (code : pyval) (r : ErrorRegistry) : option ErrorCode :=
  match code with PyStr c => dict_get c r | _ => None end.

(** [severity] is [None] when the argument is not a [Severity] member. *)
Definition register (code : pyval) (severity : option Severity) (description : pyval)
    (r : ErrorRegistry) : result RegistrationInvalid (ErrorCode * ErrorRegistry) :=
  match lookup_code code r with
  | Some existing => Exc (mkRegistrationInvalid code "duplicate registration" (Some existing))
  | None =>
    match code with
    | PyStr c =>
      if decide (c = "") then Exc (mkRegistrationInvalid code "invalid code" None) else
      match severity with
      | None => Exc (mkRegistrationInvalid code "invalid severity" None)
      | Some sev =>
        match description with
        | PyStr d =>
          if decide (d = "") then Exc (mkRegistrationInvalid code "invalid description" None) else
          let entry := mkErrorCode c sev d in
          Ok (entry, dict_set c entry r)
        | _ => Exc (mkRegistrationInvalid code "invalid description" None)
        end
      end
    | _ => Exc (mkRegistrationInvalid code "invalid code" None)
    end
  end.

Definition classify (code : string) (r : ErrorRegistry) : Severity :=
  match dict_get code r with
  | None => TRANSIENT
  | Some entry => ec_severity entry
  end.

(** Whether [classify] emits its warning. *)
Definition classify_logs (code : string) (r : ErrorRegistry) : bool :=
  match dict_get code r with None => true | Some _ => false end.

Definition all_codes (r : ErrorRegistry) : list ErrorCode := dict_values r.

(** One call of [register] made by any thread; a failed call leaves the registry as it was. *)
Record registration := mkRegistration { rg_code : pyval; rg_severity : option Severity; rg_description : pyval }.

Definition apply_registration (r : ErrorRegistry) (g : registration) : ErrorRegistry :=
  match register (rg_code g) (rg_severity g) (rg_description g) r with
  | Ok (_, r') => r'
  | Exc _ => r
  end.

(** ** Invariant: one entry per code, stored under its own non-empty code *)

Definition registry_ok (r : ErrorRegistry) : Prop :=
  dict_wf r ∧ Forall (λ '(c, e), ec_code e = c ∧ c ≠ "" ∧ ec_description e ≠ "") r.

Lemma register_ok_inv code sev d r e r' :
  register code sev d r = Ok (e, r') →
  ∃ c s t, code = PyStr c ∧ sev = Some s ∧ d = PyStr t ∧ c ≠ "" ∧ t ≠ "" ∧
           dict_get c r = None ∧ e = mkErrorCode c s t ∧ r' = r ++ [(c, e)].
Proof.
  unfold register, lookup_code. intros. py_cases; try done.
  eexists _, _, _. repeat split; try done. by apply dict_set_new.
Qed.

Lemma register_preserves_ok code sev d r e r' :
  registry_ok r → register code sev d r = Ok (e, r') → registry_ok r'.
Proof.
  intros [Hwf Hall] (c & s & t & -> & -> & -> & Hc & Ht & Hnone & -> & ->)%register_ok_inv.
  split.
  - rewrite <- dict_set_new by done. by apply dict_set_wf.
  - apply Forall_app. split; [done|]. repeat constructor; done.
Qed.

Lemma apply_registration_keeps r g c e :
  dict_get c r = Some e → dict_get c (apply_registration r g) = Some e.
Proof.
  intros Hc. unfold apply_registration. destruct (register _ _ _ r) as [[e' r']|] eqn:E; [|done].
  apply register_ok_inv in E as (c' & s & t & _ & _ & _ & _ & _ & Hn & _ & ->).
  rewrite <- dict_set_new by done. rewrite dict_get_set_ne; [done|]. congruence.
Qed.

Lemma registrations_keep r gs c e :
  dict_get c r = Some e → dict_get c (fold_left apply_registration gs r) = Some e.
Proof. revert r. induction gs as [|g gs IH]; intros r Hr; simpl; [done|]. by apply IH, apply_registration_keeps. Qed.

(** The properties of the registry. *)

(** Registration is immutable. After a successful [register], any further sequence of
    [register] calls by any caller leaves the code's entry, and so its classification,
    exactly as first registered. *)
Theorem registered_forever code sev d r e r' (gs : list registration) :
  register (PyStr code) (Some sev) d r = Ok (e, r') →
  let r'' := fold_left apply_registration gs r' in
  dict_get code r'' = Some e ∧ classify code r'' = sev ∧ classify_logs code r'' = false.
Proof.
  intros (c & s & t & ? & ? & ? & _ & _ & Hn & -> & ->)%register_ok_inv. simplify_eq.
  assert (Hget : dict_get c (fold_left apply_registration gs (r ++ [(c, mkErrorCode c s t)]))
                 = Some (mkErrorCode c s t)).
  { apply registrations_keep. rewrite <- dict_set_new by done. apply dict_get_set_eq. }
  unfold classify, classify_logs. by rewrite Hget.
Qed.


(** The checks run in the mandated order: a duplicate code is reported before the severity
    and the description are looked at, then the code, the severity, the description. *)
Lemma register_check_order code sev d r :
  registry_ok r →
  match register code sev d r with
  | Ok (e, r') => all_codes r' = all_codes r ++ [e]
  | Exc x =>
    ri_attempted x = code ∧
    match lookup_code code r with
    | Some e => ri_reason x = "duplicate registration" ∧ ri_existing x = Some e
    | None => ri_existing x = None
    end
  end.
Proof.
  intros _. destruct (register code sev d r) as [[e r']|x] eqn:E.
  - apply register_ok_inv in E as (c & s & t & _ & _ & _ & _ & _ & _ & _ & ->).
    unfold all_codes, dict_values. by rewrite fmap_app.
  - unfold register in E. py_cases; done.
Qed.

End Errors.
