(* ===== verification/ErrorCodes.v ===== *)
(** * The error codes every module registers at import time

    One list per module of src/vestibule that calls [register_error] when it is imported,
    in the order of its calls, and [import_modules], which runs the registrations of a
    sequence of module imports against the process-wide registry. *)
From S2P Require Import Prelude PyDict Errors.
#[local] Open Scope Z_scope.

Module ErrorCodes.
Import Errors.

Definition code_entry := (string * Severity * string)%type.

Definition errors_registry_codes : list code_entry :=
  [("ERROR_CODE_REGISTRATION_INVALID", PERMANENT,
    "an error code was registered with an invalid code/severity/description, or was already registered (registry is immutable after first registration)")].

Definition identity_derive_codes : list code_entry :=
  [("IDENTITY_INVALID", PERMANENT,
    "malformed identity input to doc_id/chunk_id derivation (REQ-002)")].

Definition envelope_model_codes : list code_entry :=
  [("ENVELOPE_INVALID", PERMANENT,
    "arrival envelope failed schema or doc_id cross-check validation (REQ-001)")].

Definition ledger_store_codes : list code_entry :=
  [("LEDGER_TRANSITION_INVALID", PERMANENT,
    "illegal or malformed ledger state transition, incl. benign concurrent races requiring caller-side is_benign_concurrent_loss() triage (REQ-003)")].

Definition analyzer_model_codes : list code_entry :=
  [("ANALYZER_UNSUPPORTED_TYPE", PERMANENT,
    "detect_type could not classify the document as a supported type: unrecognized magic bytes, an encrypted PDF, or a corrupt file (REQ-005)");
   ("ANALYZER_NO_PARSER", PERMANENT,
    "a supported DetectedType has no ParserAdapter registered against it in the ParserRegistry — a registry misconfiguration (REQ-005)");
   ("ANALYZER_DEPENDENCY_MISSING", PERMANENT,
    "pymupdf (a core dependency) could not be imported when detect_type's PDF sub-typing probe or PyMuPDFParser needed it — a broken/partial install, not a per-document condition (issue #19)");
   ("PARSER_TIMEOUT", TRANSIENT,
    "a ParserAdapter.parse() call did not return within parser_timeout_seconds (REQ-005)");
   ("DOCINT_RATE_LIMITED", TRANSIENT,
    "Azure Document Intelligence returned HTTP 429 (REQ-005)");
   ("DOCINT_UPSTREAM_ERROR", TRANSIENT,
    "Azure Document Intelligence returned an HTTP 5xx error (REQ-005)");
   ("PARSER_INTERNAL", TRANSIENT,
    "a ParserAdapter raised an exception not mapped to any other declared Analyzer error code; the original exception is logged (REQ-005)")].

Definition chunker_model_codes : list code_entry :=
  [("CHUNKER_EMPTY_ELEMENTS", PERMANENT,
    "Chunker.chunk was called with an empty elements list (the Analyzer returned zero elements) — nothing to chunk (REQ-006)");
   ("TOKENIZER_LOAD_FAILED", TRANSIENT,
    "a TokenCounter failed to load its underlying tokenizer resource on first use, e.g. tiktoken.get_encoding raised (REQ-006)");
   ("CHUNKER_INTERNAL", TRANSIENT,
    "an exception from a ChunkStrategy call, the min-chunk merge pass, or chunk_id assignment not mapped to any other declared Chunker error code; the original exception is logged (REQ-006)")].

Definition embedder_model_codes : list code_entry :=
  [("EMBEDDER_EMPTY_CHUNKS", PERMANENT,
    "Embedder.embed was called with an empty chunks list (the Chunker returned zero chunks) — nothing to embed (REQ-007)");
   ("EMBEDDER_MRL_UNSUPPORTED", PERMANENT,
    "EmbedderConfig.target_dimensions was set but the configured EmbedderAdapter reports supports_mrl=False — raised at construction time, fail fast (REQ-007)");
   ("EMBEDDER_INPUT_TOO_LONG", PERMANENT,
    "a Chunk's token_count exceeds the configured EmbedderAdapter's max_input_tokens; indicates a Chunker/Embedder token_counter config mismatch, not a transient condition (REQ-007)");
   ("EMBEDDER_RATE_LIMITED", TRANSIENT,
    "the embedding provider returned HTTP 429 after exhausting in-adapter retries (REQ-007)");
   ("EMBEDDER_UPSTREAM_ERROR", TRANSIENT,
    "the embedding provider returned an HTTP 5xx error after exhausting in-adapter retries (REQ-007)");
   ("EMBEDDER_TIMEOUT", TRANSIENT,
    "an EmbedderAdapter.embed_batch call did not return in time, after exhausting in-adapter retries (REQ-007)");
   ("EMBEDDER_INTERNAL", TRANSIENT,
    "an exception from an EmbedderAdapter not mapped to any other declared Embedder error code; the original exception is logged (REQ-007)");
   ("EMBEDDER_DEPENDENCY_MISSING", PERMANENT,
    "an EmbedderAdapter's required optional dependency (e.g. fastembed) is not installed; never retryable — the caller must install the extra (REQ-007)")].

Definition indexer_model_codes : list code_entry :=
  [("INDEXER_EMPTY_RECORDS", PERMANENT,
    "Indexer.index was called with an empty embedded_chunks list (the Embedder returned zero chunks) — nothing to index (REQ-008)");
   ("INDEXER_DIMENSION_MISMATCH", PERMANENT,
    "a record's embedding_dimensions does not match the schema's configured dimension count; raised before any write (REQ-008)");
   ("INDEXER_MIXED_MODEL_BATCH", PERMANENT,
    "a single Indexer.index call carried records from more than one distinct embedding_model; raised before any write (REQ-008)");
   ("INDEXER_SCHEMA_CONFLICT", PERMANENT,
    "the store's existing index has a schema incompatible with the configured dimensions/metric; requires human intervention, never retried (REQ-008)");
   ("INDEXER_RECORD_TOO_LARGE", PERMANENT,
    "a single record exceeds the store's size limit, typically an oversized table chunk from REQ-006 (REQ-008)");
   ("INDEXER_RATE_LIMITED", TRANSIENT,
    "the vector store returned HTTP 429 after exhausting in-adapter retries (REQ-008)");
   ("INDEXER_UPSTREAM_ERROR", TRANSIENT,
    "the vector store returned an HTTP 5xx error after exhausting in-adapter retries (REQ-008)");
   ("INDEXER_TIMEOUT", TRANSIENT,
    "an IndexerAdapter call did not return in time, after exhausting in-adapter retries (REQ-008)");
   ("INDEXER_PARTIAL_BATCH_FAILURE", TRANSIENT,
    "some records in a batch failed to upsert after one in-orchestrator retry of only the failed chunk_ids (REQ-008)");
   ("INDEXER_INTERNAL", TRANSIENT,
    "an exception from an IndexerAdapter not mapped to any other declared Indexer error code; the original exception is logged (REQ-008)");
   ("INDEXER_DEPENDENCY_MISSING", PERMANENT,
    "an IndexerAdapter's required optional dependency (e.g. azure-search-documents) is not installed; never retryable — the caller must install the extra (REQ-008)")].

Definition scenario_model_codes : list code_entry :=
  [("SCENARIO_NOT_FOUND", PERMANENT,
    "no scenario exists for the requested scenario_id or vertical, and no default_scenario_id resolved either (REQ-010)");
   ("SCENARIO_INVALID", PERMANENT,
    "a scenario failed validation (dimension mismatch, impossible MRL truncation, invalid index_name, or invalid chunker token bounds) — raised at construction, before any document is ever processed (REQ-010)");
   ("SCENARIO_STORE_READ_ONLY", PERMANENT,
    "upsert/delete was attempted against a read-only ScenarioStore backend (REQ-010)");
   ("SCENARIO_CONFLICT", TRANSIENT,
    "an optimistic-concurrency ETag conflict occurred on a TableStorageScenarioStore upsert; the caller should re-read and retry (REQ-010)");
   ("SCENARIO_STORE_UNAVAILABLE", TRANSIENT,
    "Table Storage returned an HTTP 429/5xx error or timed out after exhausting in-adapter retries (REQ-010)");
   ("SCENARIO_STORE_DEPENDENCY_MISSING", PERMANENT,
    "TableStorageScenarioStore's required optional dependency (azure-data-tables) is not installed; never retryable — the caller must install the extra (REQ-010)")].

Definition vertical_model_codes : list code_entry :=
  [("VERTICAL_UNRESOLVED", PERMANENT,
    "no vertical/scenario_id signal on the envelope and no source mapping matched; document parked to needs_review for human review — PERMANENT here means 'stop redelivering this exact message,' not 'the document is dead': see this module's own docstring (REQ-009)");
   ("VERTICAL_MAPPING_INVALID", PERMANENT,
    "a configured source mapping references a vertical with no enabled scenario in the ScenarioStore; raised at VerticalLoader construction, before any document is ever processed (REQ-009)");
   ("VERTICAL_REJECTED", PERMANENT,
    "a human reviewer rejected a needs_review-parked document via ReviewQueue.reject (REQ-009)");
   ("REVIEW_ITEM_NOT_FOUND", PERMANENT,
    "ReviewQueue.assign/reject was called for a doc_id not currently in needs_review (REQ-009)")].

Definition provisioning_model_codes : list code_entry :=
  [("INDEX_TEMPLATE_NOT_FOUND", PERMANENT,
    "no IndexTemplate is loaded for the resolved template_id (REQ-011)");
   ("INDEX_TEMPLATE_INVALID", PERMANENT,
    "a template file failed validation at load time, or its resolved dimensions disagree with scenario.indexer.dimensions at provisioning time (REQ-011)");
   ("INDEX_SCHEMA_DRIFT", PERMANENT,
    "a live index's dimensions/metric/template_version are incompatible with the resolved template; never auto-migrated, requires human intervention (REQ-011)");
   ("INDEX_PROVISION_FAILED", PERMANENT,
    "the registry entry for this index_name is terminally failed; requires human intervention, never retried automatically (REQ-011)");
   ("INDEX_RETIRED", PERMANENT,
    "the registry entry for this index_name has been retired (REQ-011)");
   ("INDEX_AUTO_CREATE_DISABLED", PERMANENT,
    "no index exists for this index_name and config.auto_create is False (REQ-011)");
   ("INDEX_PROVISION_TIMEOUT", TRANSIENT,
    "a waiting worker exceeded wait_for_provisioning_timeout_seconds without observing the claim reach ready (REQ-011)");
   ("INDEX_PROVISION_CONFLICT", TRANSIENT,
    "an IndexRegistry CAS write (reclaim/mark_ready/mark_failed) lost a race against a concurrent writer; the caller should re-read and retry (REQ-011)");
   ("INDEX_REGISTRY_UNAVAILABLE", TRANSIENT,
    "TableStorageIndexRegistry returned an HTTP 429/5xx error or timed out after exhausting in-adapter retries (REQ-011)");
   ("INDEX_PROVISIONER_UNAVAILABLE", TRANSIENT,
    "an IndexProvisionerAdapter call exhausted retries against an HTTP 429/5xx/timeout, or raised an exception not otherwise mapped (Assumption A7) (REQ-011)");
   ("INDEX_PROVISIONER_DEPENDENCY_MISSING", PERMANENT,
    "a required optional dependency (azure-search-documents/azure-data-tables) is not installed; never retryable — the caller must install the extra (REQ-011)")].

Definition reprocessor_model_codes : list code_entry :=
  [("REPROCESS_NOT_FAILED", PERMANENT,
    "Reprocessor.requeue()/archive() was called for a doc_id whose ledger row is not currently failed (REQ-012)");
   ("REPROCESS_DOC_NOT_FOUND", PERMANENT,
    "Reprocessor.requeue()/archive() was called for a doc_id with no ledger row at all (REQ-012)")].

(** The modules that register codes. *)
Inductive pymodule :=
| M_errors_registry
| M_identity_derive
| M_envelope_model
| M_ledger_store
| M_analyzer_model
| M_chunker_model
| M_embedder_model
| M_indexer_model
| M_scenario_model
| M_vertical_model
| M_provisioning_model
| M_reprocessor_model.

#[export] Instance pymodule_eq_dec : EqDecision pymodule.
Proof. solve_decision. Defined.

Definition module_codes (m : pymodule) : list code_entry :=
  match m with
  | M_errors_registry => errors_registry_codes
  | M_identity_derive => identity_derive_codes
  | M_envelope_model => envelope_model_codes
  | M_ledger_store => ledger_store_codes
  | M_analyzer_model => analyzer_model_codes
  | M_chunker_model => chunker_model_codes
  | M_embedder_model => embedder_model_codes
  | M_indexer_model => indexer_model_codes
  | M_scenario_model => scenario_model_codes
  | M_vertical_model => vertical_model_codes
  | M_provisioning_model => provisioning_model_codes
  | M_reprocessor_model => reprocessor_model_codes
  end.

Definition all_modules : list pymodule :=
  [M_errors_registry; M_identity_derive; M_envelope_model; M_ledger_store; M_analyzer_model; M_chunker_model; M_embedder_model; M_indexer_model; M_scenario_model; M_vertical_model; M_provisioning_model; M_reprocessor_model].

(** [register_error(code, severity, description)] for each entry, stopping at the first
    exception (which would abort the import). *)
Fixpoint register_error_all (es : list code_entry) (r : ErrorRegistry) : result RegistrationInvalid ErrorRegistry :=
  match es with
  | [] => Ok r
  | (c, s, d) :: es' =>
    match register (PyStr c) (Some s) (PyStr d) r with
    | Ok (_, r') => register_error_all es' r'
    | Exc x => Exc x
    end
  end.

(** Importing modules in some order; Python imports each module once. *)
Definition import_modules (ms : list pymodule) : result RegistrationInvalid ErrorRegistry :=
  register_error_all (ms ≫= module_codes) empty_registry.

(** The process-wide registry once every module has been imported. *)
Definition default_registry : ErrorRegistry :=
  match import_modules all_modules with Ok r => r | Exc _ => [] end.

Definition entry_name (e : code_entry) : string := e.1.1.

Definition entry_record (e : code_entry) : string * ErrorCode :=
  (e.1.1, mkErrorCode e.1.1 e.1.2 e.2).

(** ** Registering distinct, well-formed codes succeeds *)

Lemma register_error_all_distinct es r :
  NoDup (r.*1 ++ map entry_name es) → Forall (λ e, e.1.1 ≠ "" ∧ e.2 ≠ "") es →
  register_error_all es r = Ok (r ++ map entry_record es).
Proof.
  revert r. induction es as [|[[c s] d] es IH]; intros r Hnd Hall; simpl in *.
  { by rewrite app_nil_r. }
  apply Forall_cons in Hall as [[Hc Hd] Hall].
  assert (Hn : dict_get c r = None).
  { apply dict_get_None. intros Hin. apply NoDup_app in Hnd as (_ & Hdisj & _).
    apply (Hdisj c Hin). apply elem_of_cons. by left. }
  unfold register, lookup_code. rewrite Hn. rewrite !decide_False by done. cbn zeta iota.
  rewrite dict_set_new by done. rewrite IH; [by rewrite <- app_assoc | | done].
  rewrite fmap_app. simpl. by rewrite <- app_assoc.
Qed.

(** The codes of all modules are pairwise distinct. *)
Lemma all_codes_distinct : NoDup (map entry_name (all_modules ≫= module_codes)).
Proof. apply (bool_decide_unpack _). by vm_compute. Qed.

Lemma all_modules_complete m : m ∈ all_modules.
Proof. destruct m; unfold all_modules; set_solver. Qed.

Lemma all_codes_nonempty m : Forall (λ e, e.1.1 ≠ "" ∧ e.2 ≠ "") (module_codes m).
Proof. apply (bool_decide_unpack _). destruct m; by vm_compute. Qed.

(** Distinctness is inherited by any sequence of distinct imports. *)
Lemma import_codes_distinct (ms : list pymodule) :
  NoDup ms → NoDup (map entry_name (ms ≫= module_codes)).
Proof.
  intros Hms. assert (Hsub : ms ⊆+ all_modules).
  { apply NoDup_submseteq; [done|]. intros m _. apply all_modules_complete. }
  destruct (submseteq_Permutation _ _ Hsub) as [rest Hperm].
  pose proof all_codes_distinct as Hnd. rewrite Hperm, bind_app, map_app in Hnd.
  by apply NoDup_app in Hnd as [? _].
Qed.

(** Importing any collection of the framework's modules, in any order, succeeds: no two
    modules register the same code, and afterwards every code of an imported module is
    classified with exactly the severity its module declared. *)
Theorem imports_succeed (ms : list pymodule) :
  NoDup ms →
  ∃ r, import_modules ms = Ok r ∧
       all_codes r = map (λ e, (entry_record e).2) (ms ≫= module_codes) ∧
       ∀ m c s d, m ∈ ms → (c, s, d) ∈ module_codes m → classify c r = s.
Proof.
  intros Hms. exists (map entry_record (ms ≫= module_codes)). split_and!.
  - unfold import_modules. rewrite register_error_all_distinct; [done| |].
    + simpl. by apply import_codes_distinct.
    + apply Forall_bind, Forall_forall. intros m _. apply all_codes_nonempty.
  - unfold all_codes, dict_values. by rewrite <- list_fmap_compose.
  - intros m c s d Hm Hc. unfold classify.
    rewrite (dict_elem_get c (mkErrorCode c s d)); [done| |].
    + unfold dict_wf. rewrite <- list_fmap_compose. by apply import_codes_distinct.
    + apply list_elem_of_fmap. exists (c, s, d). split; [done|]. apply list_elem_of_bind. eauto.
Qed.

Lemma imports_succeed_witness :
  ∃ r, import_modules [M_ledger_store; M_identity_derive; M_reprocessor_model] = Ok r ∧
       classify "REPROCESS_NOT_FAILED" r = PERMANENT.
Proof.
  destruct (imports_succeed [M_ledger_store; M_identity_derive; M_reprocessor_model]) as (r & H & _ & Hc).
  - apply (bool_decide_unpack _). by vm_compute.
  - exists r. split; [exact H|]. eapply (Hc M_reprocessor_model); [set_solver|]. unfold module_codes, reprocessor_model_codes. apply elem_of_cons. left. reflexivity.
Defined.

End ErrorCodes.
