(* ===== verification/Types.v ===== *)
(** * Data shared by the pipeline components

    The enums and records of the [model.py] files that more than one component uses, and
    the exceptions of the framework. A class of exceptions is a constructor of [exn];
    any exception raised by code outside the framework is a [PyExc] with its class name
    and message, except azure-core's [HttpResponseError], which also has a status code and,
    when there is a response with that header, a Retry-After value. *)
From S2P Require Import Prelude PyDict Errors ErrorCodes.
From Stdlib Require Export SpecFloat.
#[local] Open Scope Z_scope.

(** ** The ledger's data (src/vestibule/ledger/store.py) *)

Inductive Status :=
| PENDING | ANALYZING | CHUNKING | EMBEDDING | INDEXING | INDEXED | FAILED | NEEDS_REVIEW | ARCHIVED.

#[export] Instance status_eq_dec : EqDecision Status.
Proof. solve_decision. Defined.

(** [Status.X.value]. *)
Definition status_value (s : Status) : string :=
  match s with
  | PENDING => "pending" | ANALYZING => "analyzing" | CHUNKING => "chunking"
  | EMBEDDING => "embedding" | INDEXING => "indexing" | INDEXED => "indexed"
  | FAILED => "failed" | NEEDS_REVIEW => "needs_review" | ARCHIVED => "archived"
  end.

(** Instants are integers (microseconds since the epoch): the code only compares them. *)
Record LedgerRow := mkRow {
  row_doc_id : string;
  row_status : Status;
  row_stage : Status;
  row_attempts : Z;
  row_last_error_code : option string;
  row_last_error_message : option string;
  row_config_version : string;
  row_ingested_at : Z;
  row_updated_at : Z;
  row_assigned_scenario_id : option string;
}.

#[export] Instance ledger_row_eq_dec : EqDecision LedgerRow.
Proof. solve_decision. Defined.

Record EnvelopeSummary := mkSummary { es_config_version : string }.

(** ** The analyzer's data (src/vestibule/analyzer/model.py) *)

Inductive DetectedType := DIGITAL_PDF | SCANNED_PDF | DOCX | IMAGE | UNSUPPORTED.

#[export] Instance detected_type_eq_dec : EqDecision DetectedType.
Proof. solve_decision. Defined.

Definition detected_type_value (t : DetectedType) : string :=
  match t with
  | DIGITAL_PDF => "digital_pdf" | SCANNED_PDF => "scanned_pdf" | DOCX => "docx"
  | IMAGE => "image" | UNSUPPORTED => "unsupported"
  end.

Inductive ElementType := HEADING | PARAGRAPH | TABLE | LIST | IMAGE_CAPTION | CODE.

#[export] Instance element_type_eq_dec : EqDecision ElementType.
Proof. solve_decision. Defined.

Definition element_type_value (t : ElementType) : string :=
  match t with
  | HEADING => "heading" | PARAGRAPH => "paragraph" | TABLE => "table" | LIST => "list"
  | IMAGE_CAPTION => "image_caption" | CODE => "code"
  end.

(** A Python float is an IEEE 754 binary64 number. *)
Notation pyfloat := spec_float.

#[export] Instance pyfloat_eq_dec : EqDecision pyfloat.
Proof. solve_decision. Defined.

(** A bounding box [(x0, y0, x1, y1)]. *)
Notation bbox := (pyfloat * pyfloat * pyfloat * pyfloat)%type.

(** A table cell's dictionary: [content] is [None] when the key is absent. *)
Record cell := mkCell { row_index : Z; column_index : Z; content : option pyval }.

#[export] Instance cell_eq_dec : EqDecision cell.
Proof. solve_decision. Defined.

(** The values the components put into, or read from, a [metadata] dictionary. *)
Inductive metaval :=
| MNone
| MBool (b : bool)
| MInt (z : Z)
| MInts (zs : list Z)
| MStr (s : string)
| MCells (cs : list cell)
| MBBox (b : bbox)
| MOther (tag : string).

#[export] Instance metaval_eq_dec : EqDecision metaval.
Proof. solve_decision. Defined.

Notation metadata := (list (string * metaval)).

(** [Element]; its [confidence] is written by no parser of the repository and read by no
    component, and is left out. *)
Record Element := mkElement { el_type : ElementType; el_text : string; el_metadata : metadata }.

#[export] Instance element_eq_dec : EqDecision Element.
Proof. solve_decision. Defined.

(** ** The arrival envelope (src/vestibule/envelope/model.py) *)

Inductive TrustTier := PUBLIC | INTERNAL | CONFIDENTIAL | RESTRICTED.

#[export] Instance trust_tier_eq_dec : EqDecision TrustTier.
Proof. solve_decision. Defined.

Definition trust_tier_value (t : TrustTier) : string :=
  match t with
  | PUBLIC => "public" | INTERNAL => "internal" | CONFIDENTIAL => "confidential" | RESTRICTED => "restricted"
  end.

Record ArrivalEnvelope := mkEnvelope {
  env_doc_id : string;
  env_source : string;
  env_blob_path : string;
  env_vertical : option string;
  env_scenario_id : option string;
  env_allowed_groups : list string;
  env_trust_tier : TrustTier;
  env_content_hash : string;
  env_received_at : Z;
}.

#[export] Instance envelope_eq_dec : EqDecision ArrivalEnvelope.
Proof. solve_decision. Defined.

(** ** Chunks, embedded chunks and index records (the [model.py] files of src/vestibule/chunker,
    src/vestibule/embedder and src/vestibule/indexer) *)

Record Chunk := mkChunk {
  ck_chunk_id : string;
  ck_doc_id : string;
  ck_position : Z;
  ck_element_types : list ElementType;
  ck_text : string;
  ck_token_count : Z;
  ck_metadata : metadata;
}.

#[export] Instance chunk_eq_dec : EqDecision Chunk.
Proof. solve_decision. Defined.

(** The arithmetic of [float] (round to nearest, ties to even), and [float(z)], which is exact
    below 2^53. *)
Definition f_add : pyfloat → pyfloat → pyfloat := SFadd 53 1024.
Definition f_mul : pyfloat → pyfloat → pyfloat := SFmul 53 1024.
Definition f_div : pyfloat → pyfloat → pyfloat := SFdiv 53 1024.
Definition f_sqrt : pyfloat → pyfloat := SFsqrt 53 1024.
Definition f_lt : pyfloat → pyfloat → bool := SFltb.
Definition f_le : pyfloat → pyfloat → bool := SFleb.
Definition f_eq : pyfloat → pyfloat → bool := SFeqb.
Definition f_of_Z (z : Z) : pyfloat := binary_normalize 53 1024 z 0 false.

(** Float comparison is asymmetric, also when an argument is NaN. *)
Lemma f_lt_asym x y : f_lt x y = true → f_lt y x = false.
Proof.
  unfold f_lt, SFltb. destruct x as [[]|[]| |[] m e], y as [[]|[]| |[] m' e']; simpl; try done;
    rewrite (Z.compare_antisym e e'); destruct (Z.compare e e'); simpl; try done;
    change (Pos.compare_cont Eq m' m) with (Pos.compare m' m); change (Pos.compare_cont Eq m m') with (Pos.compare m m');
    rewrite (Pos.compare_antisym m m'); by destruct (Pos.compare m m').
Qed.

Definition is_nan (x : pyfloat) : bool := match x with S754_nan => true | _ => false end.

(** Away from NaN the order is total. *)
Lemma f_lt_le x y : is_nan x = false → is_nan y = false → f_lt x y = false ↔ f_le y x = true.
Proof.
  unfold f_lt, f_le, SFltb, SFleb.
  destruct x as [[]|[]| |[] m e], y as [[]|[]| |[] m' e']; simpl; try done; intros _ _;
    change (Pos.compare_cont Eq m' m) with (Pos.compare m' m); change (Pos.compare_cont Eq m m') with (Pos.compare m m');
    rewrite (Z.compare_antisym e e');
    (destruct (Z.compare e e'); simpl; [rewrite (Pos.compare_antisym m m'); destruct (Pos.compare m m'); simpl|..]; done).
Qed.

Lemma f_le_trans x y z : f_le x y = true → f_le y z = true → f_le x z = true.
Proof.
  unfold f_le, SFleb.
  destruct x as [[]|[]| |[] m e], y as [[]|[]| |[] m' e'], z as [[]|[]| |[] m'' e'']; simpl; try done;
  try change (Pos.compare_cont Eq m m') with (Pos.compare m m');
  try change (Pos.compare_cont Eq m' m'') with (Pos.compare m' m'');
  try change (Pos.compare_cont Eq m m'') with (Pos.compare m m'');
  destruct (Z.compare_spec e e') as [He|He|He]; simpl; try done;
  try (destruct (Pos.compare_spec m m'); simpl; try done);
  destruct (Z.compare_spec e' e''); simpl; try done;
  try (destruct (Pos.compare_spec m' m''); simpl; try done); intros _ _;
  destruct (Z.compare_spec e e''); simpl; try done; try lia;
  destruct (Pos.compare_spec m m''); simpl; try done; try lia.
Qed.

(** [sum] of floats: from the integer 0, left to right. *)
Definition f_sum (xs : list pyfloat) : pyfloat := fold_left f_add xs (f_of_Z 0).

Record EmbeddedChunk := mkEmbedded {
  em_chunk : Chunk;
  em_vector : list pyfloat;
  em_embedding_model : string;
  em_embedding_dimensions : Z;
  em_truncated_from : option Z;
}.

#[export] Instance embedded_chunk_eq_dec : EqDecision EmbeddedChunk.
Proof. solve_decision. Defined.

Record IndexRecord := mkRecord {
  ir_chunk_id : string;
  ir_doc_id : string;
  ir_doc_version : string;
  ir_vector : list pyfloat;
  ir_text : string;
  ir_position : Z;
  ir_section_path : option string;
  ir_element_types : list string;
  ir_strategy : string;
  ir_allowed_groups : list string;
  ir_trust_tier : string;
  ir_embedding_model : string;
  ir_embedding_dimensions : Z;
  ir_config_version : string;
  ir_indexed_at : Z;
}.

#[export] Instance index_record_eq_dec : EqDecision IndexRecord.
Proof. solve_decision. Defined.

(** What [IndexerAdapter.upsert] returns. *)
Record UpsertOutcome := mkOutcome { up_succeeded : list string; up_failed : list (string * string) }.

Record IndexResult := mkIndexResult {
  res_doc_id : string;
  res_chunks_upserted : Z;
  res_chunks_deleted : Z;
  res_index_name : string;
  res_embedding_model : string;
  res_embedding_dimensions : Z;
}.

(** ** Scenarios (src/vestibule/scenario/model.py) *)

Record ChunkerSettings := mkChunkerSettings {
  cs_target_chunk_tokens : Z; cs_overlap_tokens : Z; cs_min_chunk_tokens : Z; cs_max_chunk_tokens : Z }.

Record EmbedderSettings := mkEmbedderSettings {
  es_adapter : string; es_model : string; es_target_dimensions : option Z }.

Record IndexerSettings := mkIndexerSettings {
  is_metric : string; is_dimensions : Z; is_hnsw_m : Z; is_hnsw_ef_construction : Z; is_hnsw_ef_search : Z }.

Record Scenario := mkScenario {
  sc_scenario_id : string;
  sc_vertical : string;
  sc_config_version : string;
  sc_index_name : string;
  sc_chunker : ChunkerSettings;
  sc_embedder : EmbedderSettings;
  sc_indexer : IndexerSettings;
  sc_acl_source : string;
  sc_default_trust_tier : string;
  sc_enabled : bool;
  sc_created_at : Z;
  sc_updated_at : Z;
  sc_index_template_id : option string;
}.

#[export] Instance chunker_settings_eq_dec : EqDecision ChunkerSettings.
Proof. solve_decision. Defined.

#[export] Instance embedder_settings_eq_dec : EqDecision EmbedderSettings.
Proof. solve_decision. Defined.

#[export] Instance indexer_settings_eq_dec : EqDecision IndexerSettings.
Proof. solve_decision. Defined.

#[export] Instance scenario_eq_dec : EqDecision Scenario.
Proof. solve_decision. Defined.

(** ** The review registry's metadata (src/vestibule/vertical/review_queue.py) *)

Record _ParkedMetadata := mkParked {
  pm_source : string; pm_blob_path : string; pm_suggested_verticals : list string }.

#[export] Instance parked_eq_dec : EqDecision _ParkedMetadata.
Proof. solve_decision. Defined.

(** ** Exceptions *)

Inductive exn :=
| IdentityInvalid (field_name reason : string)
| EnvelopeValidationError (field_errors : list (string * string))
| LedgerTransitionInvalid (doc_id reason : string) (observed_row : option LedgerRow) (attempted_to_status attempted_stage : Status)
| AnalyzerError (doc_id reason error_code : string) (detected_type : option DetectedType)
| ChunkerError (doc_id reason error_code : string)
| EmbedderError (doc_id reason error_code : string)
| IndexerError (doc_id reason error_code : string)
| ScenarioError (scenario_id reason error_code : string)
| VerticalError (doc_id reason error_code : string)
| ProvisioningError (index_name reason error_code : string)
| ReprocessorError (doc_id reason error_code : string)
| HttpResponseError (status_code : option Z) (retry_after : option string) (message : string)
(** The errors of the [openai] package: class, Retry-After header of the response if any, text. *)
| OpenAIError (cls : string) (retry_after : option string) (message : string)
| PyExc (cls message : string).

#[export] Instance exn_eq_dec : EqDecision exn.
Proof. solve_decision. Defined.

(** [exc.error_code] of a [RaggedError]; [None] for an exception outside the framework. *)
Definition exn_error_code (e : exn) : option string :=
  match e with
  | IdentityInvalid _ _ => Some "IDENTITY_INVALID"
  | EnvelopeValidationError _ => Some "ENVELOPE_INVALID"
  | LedgerTransitionInvalid _ _ _ _ _ => Some "LEDGER_TRANSITION_INVALID"
  | AnalyzerError _ _ c _ | ChunkerError _ _ c | EmbedderError _ _ c | IndexerError _ _ c
  | ScenarioError _ _ c | VerticalError _ _ c | ProvisioningError _ _ c | ReprocessorError _ _ c => Some c
  | HttpResponseError _ _ _ | OpenAIError _ _ _ | PyExc _ _ => None
  end.

(** [str(exc)]. *)
Definition exn_str (e : exn) : string :=
  match e with
  | IdentityInvalid f r => f +:+ ": " +:+ r
  | EnvelopeValidationError fs =>
      "ENVELOPE_INVALID: " +:+
      py_or (Some (py_join "; " (map (λ fr, fr.1 +:+ ": " +:+ fr.2) fs))) "invalid envelope"
  | LedgerTransitionInvalid d r _ _ _ | AnalyzerError d r _ _ | ChunkerError d r _ | EmbedderError d r _
  | IndexerError d r _ | ScenarioError d r _ | VerticalError d r _ | ProvisioningError d r _
  | ReprocessorError d r _ => d +:+ ": " +:+ r
  | HttpResponseError _ _ m | OpenAIError _ _ m | PyExc _ m => m
  end.

(** [RaggedError.severity]: always through the process-wide registry. *)
Definition exn_severity (e : exn) : option Errors.Severity :=
  (λ c, Errors.classify c ErrorCodes.default_registry) <$> exn_error_code e.

(** [zip(xs, ys, strict=True)]. *)
Definition zip_strict {A B} (xs : list A) (ys : list B) : result exn (list (A * B)) :=
  if bool_decide (length xs = length ys) then Ok (zip xs ys)
  else Exc (PyExc "ValueError" (if bool_decide (length ys < length xs)%nat then "zip() argument 2 is shorter than argument 1"
                                else "zip() argument 2 is longer than argument 1")).
