(* ===== verification/Identity.v ===== *)
(** * Deterministic identity (src/vestibule/identity/derive.py)

    [doc_id = sha256(source + blob_path)] and [chunk_id = sha256(doc_id + str(index))],
    with the validators in front of them. Arguments are dynamically typed values, as the
    validators test their types. The pattern [^[0-9a-f]{64}$] is read as Python's [re]
    reads it: [$] also matches before a trailing newline. *)
From S2P Require Import Prelude PyDict Sha256 Types.
#[local] Open Scope Z_scope.

Module Identity.
Import Sha256.

(** [_HEX_RE.match(value)]: sixty-four characters of [0-9a-f], then the end of the string
    or a newline that ends it. *)
Fixpoint hex_re (n : nat) (s : string) : bool :=
  match n, s with
  | S n', String c s' => is_hex c && hex_re n' s'
  | S _, EmptyString => false
  | O, EmptyString => true
  | O, String c EmptyString => bool_decide (c = "010"%char)
  | O, String _ _ => false
  end.

Definition ID_HEX_LENGTH : nat := 64.

Definition validate_id_format (value : pyval) (field_name : string) : result exn string :=
  match value with
  | PyStr s => if hex_re ID_HEX_LENGTH s then Ok s else Exc (IdentityInvalid field_name "not 64 hex chars")
  | _ => Exc (IdentityInvalid field_name "not a string")
  end.

Definition _validate_non_empty_str (value : pyval) (field_name : string) : result exn string :=
  match value with
  | PyStr s => if decide (s = "") then Exc (IdentityInvalid field_name "empty string") else Ok s
  | _ => Exc (IdentityInvalid field_name "not a string")
  end.

Definition _validate_chunk_index (chunk_index : pyval) : result exn Z :=
  match chunk_index with
  | PyInt z => if bool_decide (z < 0) then Exc (IdentityInvalid "chunk_index" "negative int") else Ok z
  | _ => Exc (IdentityInvalid "chunk_index" "not an int")
  end.

Definition derive_doc_id (source blob_path : pyval) : result exn string :=
  rbind (_validate_non_empty_str source "source") (λ src,
  rbind (_validate_non_empty_str blob_path "blob_path") (λ path,
  Ok (hexdigest (src +:+ path)))).

Definition derive_chunk_id (doc_id chunk_index : pyval) : result exn string :=
  rbind (validate_id_format doc_id "doc_id") (λ d,
  rbind (_validate_chunk_index chunk_index) (λ i,
  Ok (hexdigest (d +:+ pretty i)))).

(** The loop of [derive_chunk_ids_batch] over an already evaluated iterable; the result
    dictionary is keyed by the validated index. *)
Fixpoint derive_chunk_ids_loop (doc_id : pyval) (chunk_indices : list pyval) (acc : list (Z * string))
    : result exn (list (Z * string)) :=
  match chunk_indices with
  | [] => Ok acc
  | i :: rest =>
    rbind (derive_chunk_id doc_id i) (λ h,
    match i with
    | PyInt z => derive_chunk_ids_loop doc_id rest (dict_set z h acc)
    | _ => derive_chunk_ids_loop doc_id rest acc
    end)
  end.

Definition derive_chunk_ids_batch (doc_id : pyval) (chunk_indices : list pyval) : result exn (list (Z * string)) :=
  derive_chunk_ids_loop doc_id chunk_indices [].

(** A collision of the hash: two different messages with one digest. *)
Definition sha256_collision (m m' : string) : Prop := m ≠ m' ∧ hexdigest m = hexdigest m'.

(** ** Lemmas on the identifier pattern *)

Lemma hex_re_digest n s : all_hex s = true → String.length s = n → hex_re n s = true.
Proof.
  revert n. induction s as [|c s IH]; intros [|n]; simpl; try done.
  intros [Hc Hs]%andb_prop Hl. rewrite Hc. simpl. apply IH; [done|lia].
Qed.

Lemma hexdigest_valid s f : validate_id_format (PyStr (hexdigest s)) f = Ok (hexdigest s).
Proof.
  unfold validate_id_format, ID_HEX_LENGTH.
  by rewrite (hex_re_digest 64 _ (hexdigest_hex s) (hexdigest_length s)).
Qed.

(** What a valid identifier looks like: its digits and what may follow them. *)
Lemma hex_re_shape n s :
  hex_re n s = true →
  ∃ h t, s = h +:+ t ∧ all_hex h = true ∧ String.length h = n ∧ (t = "" ∨ t = String "010"%char "").
Proof.
  revert s. induction n as [|n IH]; intros [|c s]; simpl; try done.
  - exists "", "". eauto.
  - intros H. exists "". exists (String c s). destruct s; [|done]. apply bool_decide_eq_true in H as ->. repeat split; by right.
  - intros [Hc Hs]%andb_prop. destruct (IH _ Hs) as (h & t & -> & Hh & Hl & Ht).
    exists (String c h), t. simpl. rewrite Hc, Hh, Hl. done.
Qed.

(** The first character of a decimal numeral is not a newline. *)
Lemma pretty_N_char_not_newline x : pretty_N_char x ≠ "010"%char.
Proof. unfold pretty_N_char. by repeat case_match. Qed.

Lemma pretty_N_go_head x s :
  (∀ r, s ≠ String "010"%char r) → ∀ r, pretty_N_go x s ≠ String "010"%char r.
Proof.
  revert s. induction (N.lt_wf_0 x) as [x _ IH]; intros s Hs r.
  destruct (decide (x = 0%N)) as [->|]; [rewrite pretty_N_go_0; apply Hs|].
  rewrite pretty_N_go_step by lia. apply IH; [apply N.div_lt; lia|].
  intros r'. intros [= H]. by eapply pretty_N_char_not_newline.
Qed.

Lemma pretty_Z_not_newline (z : Z) r : 0 ≤ z → (pretty z : string) ≠ String "010"%char r.
Proof.
  intros Hz. destruct z as [|p|p]; [done| |lia]. simpl.
  change (pretty_N_go (N.pos p) "" ≠ String "010"%char r). by apply pretty_N_go_head.
Qed.

(** The message that is hashed determines the document and the index. *)
Lemma chunk_message_inj d d' i i' :
  hex_re 64 d = true → hex_re 64 d' = true → 0 ≤ i → 0 ≤ i' →
  d +:+ pretty i = d' +:+ pretty i' → d = d' ∧ i = i'.
Proof.
  intros Hd Hd' Hi Hi' Heq.
  apply hex_re_shape in Hd as (h & t & -> & _ & Hl & Ht).
  apply hex_re_shape in Hd' as (h' & t' & -> & _ & Hl' & Ht').
  rewrite !string_app_assoc in Heq.
  apply string_app_inv_length in Heq as [-> Heq]; [|congruence].
  destruct Ht as [->| ->], Ht' as [->| ->]; unfold String.app in Heq; simpl in Heq.
  - split; [done|]. by apply (inj pretty).
  - by apply pretty_Z_not_newline in Heq.
  - symmetry in Heq. by apply pretty_Z_not_newline in Heq.
  - simplify_eq. split; [done|]. by apply (inj pretty).
Qed.

Lemma derive_chunk_id_inv d i h :
  derive_chunk_id d i = Ok h →
  ∃ ds z, d = PyStr ds ∧ i = PyInt z ∧ hex_re 64 ds = true ∧ 0 ≤ z ∧ h = hexdigest (ds +:+ pretty z).
Proof.
  unfold derive_chunk_id, validate_id_format, _validate_chunk_index. intros H.
  apply rbind_ok in H as (ds & H1 & H2). apply rbind_ok in H2 as (z & H2 & H3).
  destruct d; try done. destruct (hex_re _ _) eqn:E; [|done]. destruct i; try done.
  case_bool_decide; [done|]. simplify_eq. eexists _, _. repeat split; eauto. lia.
Qed.

Lemma derive_chunk_id_str_inv d i h :
  derive_chunk_id (PyStr d) (PyInt i) = Ok h →
  hex_re 64 d = true ∧ 0 ≤ i ∧ h = hexdigest (d +:+ pretty i).
Proof. intros (d' & i' & Hd & Hi & ? & ? & ?)%derive_chunk_id_inv. injection Hd as ->. by injection Hi as ->. Qed.

Lemma derive_doc_id_inv s p h :
  derive_doc_id s p = Ok h →
  ∃ ss ps, s = PyStr ss ∧ p = PyStr ps ∧ ss ≠ "" ∧ ps ≠ "" ∧ h = hexdigest (ss +:+ ps).
Proof.
  unfold derive_doc_id, _validate_non_empty_str. intros H.
  apply rbind_ok in H as (ss & H1 & H2). apply rbind_ok in H2 as (ps & H2 & H3).
  destruct s; try done. destruct p; try done. repeat case_decide; simplify_eq. eauto 10.
Qed.

Lemma derive_doc_id_ok s p :
  s ≠ "" → p ≠ "" → derive_doc_id (PyStr s) (PyStr p) = Ok (hexdigest (s +:+ p)).
Proof. intros. unfold derive_doc_id, _validate_non_empty_str. by rewrite !decide_False. Qed.

Lemma derive_chunk_id_ok d i :
  hex_re 64 d = true → 0 ≤ i → derive_chunk_id (PyStr d) (PyInt i) = Ok (hexdigest (d +:+ pretty i)).
Proof.
  intros Hd Hi. unfold derive_chunk_id, validate_id_format, _validate_chunk_index, ID_HEX_LENGTH.
  rewrite Hd. simpl. by rewrite bool_decide_eq_false_2 by lia.
Qed.

Lemma derive_chunk_ids_loop_acc doc_id idx acc m :
  derive_chunk_ids_loop doc_id idx acc = Ok m →
  ∀ z h, dict_get z m = Some h →
    (dict_get z acc = Some h) ∨ (PyInt z ∈ idx ∧ derive_chunk_id doc_id (PyInt z) = Ok h).
Proof.
  revert acc. induction idx as [|i idx IH]; intros acc; simpl; [naive_solver|].
  intros (h0 & H0 & Hloop)%rbind_ok z h Hz.
  pose proof (derive_chunk_id_inv _ _ _ H0) as (ds & z0 & -> & -> & _).
  destruct (IH _ Hloop _ _ Hz) as [Hget|[Hin Hd]]; [|set_solver].
  rewrite dict_get_set in Hget. case_decide; simplify_eq; [|by left]. right. set_solver.
Qed.

Lemma derive_chunk_ids_loop_complete doc_id idx acc m :
  derive_chunk_ids_loop doc_id idx acc = Ok m →
  (∀ i, i ∈ idx → ∃ z, i = PyInt z ∧ is_Some (dict_get z m)) ∧
  (∀ z, is_Some (dict_get z acc) → is_Some (dict_get z m)).
Proof.
  revert acc. induction idx as [|i idx IH]; intros acc; simpl; [set_solver|].
  intros (h0 & H0 & Hloop)%rbind_ok.
  pose proof (derive_chunk_id_inv _ _ _ H0) as (ds & z0 & -> & -> & _).
  destruct (IH _ Hloop) as [IH1 IH2]. split.
  - intros i [->|Hi]%elem_of_cons; [|eauto]. exists z0. split; [done|].
    apply IH2. rewrite dict_get_set_eq. eauto.
  - intros z [h Hz]. apply IH2. rewrite dict_get_set. case_decide; eauto.
Qed.

(** ** Properties *)

(** Every identifier the module derives has the identifier format its own validators
    demand: a derived [doc_id] is accepted unchanged by [validate_id_format], and so is a
    valid [doc_id] for [derive_chunk_id]. *)
Theorem derived_ids_validate source blob_path h f i :
  derive_doc_id source blob_path = Ok h → 0 ≤ i →
  validate_id_format (PyStr h) f = Ok h ∧
  ∃ c, derive_chunk_id (PyStr h) (PyInt i) = Ok c ∧ validate_id_format (PyStr c) f = Ok c.
Proof.
  intros (ss & ps & -> & -> & _ & _ & ->)%derive_doc_id_inv Hi.
  split; [apply hexdigest_valid|]. eexists. split; [|apply hexdigest_valid].
  apply derive_chunk_id_ok; [|done].
  apply hex_re_digest; [apply hexdigest_hex|apply hexdigest_length].
Qed.


(** C33: chunk identity is injective up to SHA-256: if two (document, index) pairs receive the
    same [chunk_id], they are the same pair or the run exhibits a SHA-256 collision. The
    concatenation itself never confuses two pairs. *)
Theorem chunk_id_injective doc_id i doc_id' i' h :
  derive_chunk_id (PyStr doc_id) (PyInt i) = Ok h →
  derive_chunk_id (PyStr doc_id') (PyInt i') = Ok h →
  (doc_id = doc_id' ∧ i = i') ∨
  sha256_collision (doc_id +:+ pretty i) (doc_id' +:+ pretty i').
Proof.
  intros (Hd & Hi & ->)%derive_chunk_id_str_inv (Hd' & Hi' & Heq)%derive_chunk_id_str_inv.
  destruct (decide (doc_id +:+ pretty i = doc_id' +:+ pretty i')) as [Hm|Hm].
  - left. by apply chunk_message_inj.
  - right. by split.
Qed.

Lemma chunk_id_injective_witness :
  let d := hexdigest "x" in
  derive_chunk_id (PyStr d) (PyInt 11) = Ok (hexdigest (d +:+ "11")) ∧
  ((d = d ∧ (11 = 11)) ∨ sha256_collision (d +:+ pretty 11) (d +:+ pretty 11)).
Proof.
  split; [by vm_compute|].
  apply (chunk_id_injective (hexdigest "x") 11 (hexdigest "x") 11 (hexdigest (hexdigest "x" +:+ "11"))); by vm_compute.
Defined.

(** A successful batch derivation is all-or-nothing and agrees with the single-index
    function: it has an entry for every requested index, no other entry, and each entry is
    what [derive_chunk_id] returns for that index. *)
Theorem chunk_ids_batch_pointwise doc_id indices m :
  derive_chunk_ids_batch doc_id indices = Ok m →
  ∀ z, match dict_get z m with
       | Some h => PyInt z ∈ indices ∧ derive_chunk_id doc_id (PyInt z) = Ok h
       | None => PyInt z ∉ indices
       end.
Proof.
  intros Hb z. destruct (dict_get z m) as [h|] eqn:Hz.
  - by destruct (derive_chunk_ids_loop_acc _ _ _ _ Hb z h Hz).
  - intros Hin. destruct (derive_chunk_ids_loop_complete _ _ _ _ Hb) as [Hc _].
    destruct (Hc _ Hin) as (z' & [= ->] & [h Hh]). congruence.
Qed.


(** The identifier check accepts one string the documentation excludes: sixty-four
    hexadecimal characters followed by a newline pass [validate_id_format], since [$]
    matches before a final newline; the accepted value then has sixty-five characters. *)
Theorem id_format_accepts_trailing_newline h f :
  all_hex h = true → String.length h = 64%nat →
  validate_id_format (PyStr (h +:+ String "010"%char "")) f = Ok (h +:+ String "010"%char "").
Proof.
  intros Hh Hl. unfold validate_id_format, ID_HEX_LENGTH.
  assert (Hre : ∀ n s, all_hex s = true → String.length s = n → hex_re n (s +:+ String "010"%char "") = true).
  { intros n s. revert n. induction s as [|c s IH]; intros [|n]; simpl; try done.
    intros [Hc Hs]%andb_prop ?. unfold String.app. simpl. rewrite Hc. apply IH; [done|lia]. }
  by rewrite Hre.
Qed.

Lemma id_format_accepts_trailing_newline_witness :
  validate_id_format (PyStr (hexdigest "x" +:+ String "010"%char "")) "doc_id"
  = Ok (hexdigest "x" +:+ String "010"%char "").
Proof. apply id_format_accepts_trailing_newline; [apply hexdigest_hex|apply hexdigest_length]. Defined.

End Identity.
