(* ===== verification/Envelope.v ===== *)
(** * Arrival envelope (src/vestibule/envelope/model.py)

    Construction and validation of the envelope. Field validators run for every field, in the
    order of the fields, and collect their errors; the cross-check of [doc_id] runs on a model
    whose fields are all valid. Reading and writing JSON is in [EnvelopeJson]. *)
From S2P Require Import Prelude PyDict Types Sha256 Identity.
#[local] Open Scope Z_scope.

Module Envelope.
Import Identity.

#[local] Arguments hex_re : simpl never.

Definition _CONTENT_HASH_RE (v : string) : bool := hex_re 64 v.

Definition compute_doc_id (source blob_path : pyval) : result exn string := derive_doc_id source blob_path.

(** The argument is pydantic's [ValidationError.errors()]: locations ("loc") and texts ("msg"). *)
Definition _wrap_validation_error (errors : list (list string * string)) : exn :=
  EnvelopeValidationError (map (λ err, (py_or (Some (py_join "." err.1)) "__root__", err.2)) errors).

(** A field declared [str]: its type, then its validator, which returns a reason on failure. *)
Definition str_field (name : string) (validator : string → option string) (v : pyval) : list (list string * string) :=
  match v with
  | PyStr s => match validator s with Some reason => [([name], "Value error, " +:+ reason)] | None => [] end
  | _ => [([name], "Input should be a valid string")]
  end.

Definition _content_hash_is_sha256_hex (v : string) : option string :=
  if _CONTENT_HASH_RE v then None else Some "content_hash must be 64 lowercase hex characters".

Definition _non_empty (v : string) : option string := if decide (v = "") then Some "must be non-empty" else None.

(** The errors of the [str] fields of [ArrivalEnvelope], in field order. *)
Definition field_errors (doc_id source blob_path content_hash : pyval) : list (list string * string) :=
  str_field "doc_id" (λ _, None) doc_id ++ str_field "source" _non_empty source ++
  str_field "blob_path" _non_empty blob_path ++ str_field "content_hash" _content_hash_is_sha256_hex content_hash.

Definition py_text (v : pyval) : string := match v with PyStr s => s | _ => "" end.

(** [_verify_doc_id]. [compute_doc_id] cannot raise here: both arguments are non-empty. *)
Definition _verify_doc_id (e : ArrivalEnvelope) : result exn ArrivalEnvelope :=
  rbind (compute_doc_id (PyStr (env_source e)) (PyStr (env_blob_path e))) (λ expected,
  if decide (env_doc_id e = expected) then Ok e
  else Exc (_wrap_validation_error
         [([], "Value error, doc_id does not match sha256(source + blob_path); expected " +:+ expected)])).

(** [ArrivalEnvelope(...)] with its [ValidationError] already wrapped. *)
Definition construct (doc_id source blob_path : pyval) (vertical scenario_id : option string) (allowed_groups : list string)
    (trust_tier : TrustTier) (content_hash : pyval) (received_at : Z) : result exn ArrivalEnvelope :=
  match field_errors doc_id source blob_path content_hash with
  | [] => _verify_doc_id (mkEnvelope (py_text doc_id) (py_text source) (py_text blob_path) vertical scenario_id allowed_groups
            trust_tier (py_text content_hash) received_at)
  | errors => Exc (_wrap_validation_error errors)
  end.

Definition _wrap_identity_error (x : exn) : exn :=
  match x with IdentityInvalid f r => EnvelopeValidationError [(f, r)] | _ => x end.

(** [build_envelope]; [now] is the clock's reading, used when no instant is given. *)
Definition build_envelope (now : Z) (source blob_path content_hash : pyval) (trust_tier : TrustTier)
    (allowed_groups : option (list string)) (vertical scenario_id : option string) (received_at : option Z)
    : result exn ArrivalEnvelope :=
  match compute_doc_id source blob_path with
  | Exc x => Exc (_wrap_identity_error x)
  | Ok doc_id =>
    construct (PyStr doc_id) source blob_path vertical scenario_id (default [] allowed_groups) trust_tier content_hash
      (default now received_at)
  end.

(** ** Properties *)

(** What every constructed envelope satisfies. *)
Definition envelope_ok (e : ArrivalEnvelope) : Prop :=
  env_source e ≠ "" ∧ env_blob_path e ≠ "" ∧ hex_re 64 (env_content_hash e) = true ∧ hex_re 64 (env_doc_id e) = true ∧
  derive_doc_id (PyStr (env_source e)) (PyStr (env_blob_path e)) = Ok (env_doc_id e).

Lemma str_field_nil name validator v :
  str_field name validator v = [] ↔ ∃ s, v = PyStr s ∧ validator s = None.
Proof. destruct v; simpl; try naive_solver. destruct (validator s) eqn:E; naive_solver. Qed.

Lemma field_errors_nil d s p h :
  field_errors d s p h = [] ↔
  ∃ d' s' p' h', d = PyStr d' ∧ s = PyStr s' ∧ p = PyStr p' ∧ h = PyStr h' ∧ s' ≠ "" ∧ p' ≠ "" ∧ hex_re 64 h' = true.
Proof.
  unfold field_errors. rewrite !app_nil, !str_field_nil. unfold _non_empty, _content_hash_is_sha256_hex, _CONTENT_HASH_RE.
  split.
  - intros ((d' & -> & _) & (s' & -> & Hs) & (p' & -> & Hp) & (h' & -> & Hh)). exists d', s', p', h'.
    destruct (hex_re 64 h'); [|done]. repeat case_decide; naive_solver.
  - intros (d' & s' & p' & h' & -> & -> & -> & -> & Hs & Hp & Hh). split_and!;
      [by exists d'|exists s'; by rewrite decide_False|exists p'; by rewrite decide_False|exists h'; by rewrite Hh].
Qed.

(** An [ArrivalEnvelope] exists only with a non-empty source and path, a well-formed content
    hash and the document id derived from source and path: the constructor accepts exactly
    those inputs and keeps every field. [build_envelope] accepts exactly the string inputs with
    a non-empty source and path and a well-formed hash, and every rejection of either is an
    [EnvelopeValidationError] with at least one field error. *)
Theorem envelopes_valid now source blob_path content_hash tier groups vertical scenario received :
  (∀ d v s g at_ e, construct d source blob_path v s g tier content_hash at_ = Ok e →
     envelope_ok e ∧ d = PyStr (env_doc_id e) ∧ source = PyStr (env_source e) ∧ blob_path = PyStr (env_blob_path e) ∧
     content_hash = PyStr (env_content_hash e) ∧ env_allowed_groups e = g ∧ env_trust_tier e = tier) ∧
  ((∃ e, build_envelope now source blob_path content_hash tier groups vertical scenario received = Ok e) ↔
   ∃ s p h, source = PyStr s ∧ blob_path = PyStr p ∧ content_hash = PyStr h ∧ s ≠ "" ∧ p ≠ "" ∧ hex_re 64 h = true) ∧
  (∀ x, build_envelope now source blob_path content_hash tier groups vertical scenario received = Exc x →
     ∃ f fs, x = EnvelopeValidationError (f :: fs)).
Proof.
  split_and!.
  - intros d v s g at_ e. unfold construct. destruct (field_errors d source blob_path content_hash) eqn:E; [|done].
    apply field_errors_nil in E as (d' & s' & p' & h' & -> & -> & -> & -> & Hs & Hp & Hh). simpl. unfold _verify_doc_id, compute_doc_id. simpl.
    intros (exp & Hexp & Heq)%rbind_ok. rewrite derive_doc_id_ok in Hexp by done. case_decide as Hd; [|done].
    injection Heq as <-. injection Hexp as Hexp. simpl in *. subst exp. rewrite Hd. split; [|done]. unfold envelope_ok. simpl.
    rewrite derive_doc_id_ok by done. split_and!; try done. apply hex_re_digest; [apply Sha256.hexdigest_hex|apply Sha256.hexdigest_length].
  - unfold build_envelope, compute_doc_id. split.
    + intros [e He]. destruct (derive_doc_id source blob_path) as [d|] eqn:Ed; [|done]. unfold construct in He.
      destruct (field_errors _ _ _ _) eqn:E; [|done]. apply field_errors_nil in E as (? & s & p & h & _ & -> & -> & -> & ?). by exists s, p, h.
    + intros (s & p & h & -> & -> & -> & Hs & Hp & Hh). rewrite derive_doc_id_ok by done. unfold construct.
      rewrite (proj2 (field_errors_nil _ _ _ _)) by naive_solver. unfold _verify_doc_id, compute_doc_id. simpl.
      rewrite derive_doc_id_ok by done. simpl. rewrite decide_True by done. by eexists.
  - intros x. unfold build_envelope, compute_doc_id. destruct (derive_doc_id source blob_path) as [d|y] eqn:Ed.
    + unfold construct. destruct (field_errors _ _ _ _) as [|f fs] eqn:E; [|intros [= <-]; eauto].
      apply field_errors_nil in E as (d' & s & p & h & [= ->] & -> & -> & -> & Hs & Hp & Hh).
      unfold _verify_doc_id, compute_doc_id. simpl. rewrite Ed. simpl. by rewrite decide_True.
    + unfold derive_doc_id, _validate_non_empty_str in Ed. intros [= <-].
      destruct source; [..|destruct blob_path|]; simpl in Ed; repeat case_decide; simplify_eq/=; eauto.
Qed.
End Envelope.
