(* ===== verification/Ledger.v ===== *)
(** * The state ledger (src/vestibule/ledger/store.py)

    The pipeline state machine and [InMemoryLedgerStore]. The store is the ordered
    dictionary [self._rows]; each public method holds the store's lock for its whole
    duration and is one atomic function here. [datetime.now(timezone.utc)] is the argument
    [now]. The constructor argument [default_list_limit] is never read by the class. *)
From S2P Require Import Prelude PyDict Types Identity.
#[local] Open Scope Z_scope.

Module Ledger.
Import Identity.

(** ** The transition tables *)

Definition _TERMINAL_STATUSES : list Status := [INDEXED; FAILED; ARCHIVED].

Definition _LEGAL_TRANSITIONS (s : Status) : list Status :=
  match s with
  | PENDING => [ANALYZING; FAILED; NEEDS_REVIEW]
  | ANALYZING => [CHUNKING; FAILED]
  | CHUNKING => [EMBEDDING; FAILED]
  | EMBEDDING => [INDEXING; FAILED]
  | INDEXING => [INDEXED; FAILED]
  | INDEXED => []
  | FAILED => [PENDING; ARCHIVED]
  | NEEDS_REVIEW => [PENDING; FAILED]
  | ARCHIVED => []
  end.

Definition _FORWARD_ORDER : list Status := [PENDING; ANALYZING; CHUNKING; EMBEDDING; INDEXING; INDEXED].

(** [tuple.index]: raises [ValueError] when the element is absent. *)
Fixpoint index_from (i : Z) (s : Status) (l : list Status) : result exn Z :=
  match l with
  | [] => Exc (PyExc "ValueError" "tuple.index(x): x not in tuple")
  | x :: l' => if decide (x = s) then Ok i else index_from (i + 1) s l'
  end.

Definition forward_index (s : Status) : result exn Z := index_from 0 s _FORWARD_ORDER.

Definition is_benign_concurrent_loss (observed_row : option LedgerRow)
    (attempted_to_status attempted_stage : Status) : result exn bool :=
  if decide (attempted_stage ≠ attempted_to_status) then Ok false else
  match observed_row with
  | None => Ok false
  | Some row =>
    if decide (row_status row ≠ row_stage row) then Ok false else
    if decide (attempted_to_status = FAILED) then Ok (bool_decide (row_status row = INDEXED)) else
    if decide (row_status row = FAILED) then Ok false else
    if decide (attempted_to_status = NEEDS_REVIEW) then Ok (bool_decide (row_status row ≠ PENDING)) else
    if decide (row_status row = NEEDS_REVIEW) then Ok false else
    if decide (attempted_to_status = ARCHIVED) then Ok (bool_decide (row_status row = ARCHIVED)) else
    if decide (row_status row = ARCHIVED) then Ok false else
    rbind (forward_index (row_status row)) (λ i,
    rbind (forward_index attempted_to_status) (λ j,
    Ok (bool_decide (j ≤ i))))
  end.

Definition _reject {A} (doc_id reason : string) (observed_row : option LedgerRow)
    (to_status stage : Status) : result exn A :=
  Exc (LedgerTransitionInvalid doc_id reason observed_row to_status stage).

(** Returns the current row, which the caller goes on to use. *)
Definition validate_transition (doc_id : string) (current : option LedgerRow)
    (to_status stage : Status) (error_code : option string) : result exn LedgerRow :=
  match current with
  | None => _reject doc_id "unknown doc_id" None to_status stage
  | Some row =>
    if decide (stage ≠ to_status) then
      _reject doc_id "stage must equal to_status" current to_status stage else
    if decide (row_status row ∈ _TERMINAL_STATUSES ∧ to_status ∉ _LEGAL_TRANSITIONS (row_status row)) then
      _reject doc_id "no transitions out of terminal status" current to_status stage else
    if decide (¬ (to_status ∈ _LEGAL_TRANSITIONS (row_status row) ∨ to_status = row_status row)) then
      _reject doc_id
        ("illegal transition from " +:+ status_value (row_status row) +:+ " to " +:+ status_value to_status)
        current to_status stage else
    if decide (to_status = FAILED ∧ error_code = None) then
      _reject doc_id "error_code required for failed transition" current to_status stage else
    Ok row
  end.

(** ** The next row's fields *)

Definition _next_attempts (current : LedgerRow) (to_status : Status) : Z :=
  if decide (to_status = FAILED) then row_attempts current else
  if decide (row_status current = FAILED ∧ to_status = PENDING) then 0 else
  if decide (to_status = row_status current) then row_attempts current + 1 else 1.

Definition _next_error_fields (current : LedgerRow) (to_status : Status)
    (error_code error_message : option string) : option string * option string :=
  if decide (to_status = row_status current ∧ error_code = None)
  then (row_last_error_code current, row_last_error_message current)
  else (error_code, error_message).

Definition _next_assigned_scenario_id (current : LedgerRow) (assigned_scenario_id : option string) : option string :=
  match assigned_scenario_id with
  | Some s => Some s
  | None => row_assigned_scenario_id current
  end.

(** The row [transition] writes. *)
Definition next_row (now : Z) (doc_id : string) (to_status stage : Status)
    (error_code error_message assigned_scenario_id : option string) (current : LedgerRow) : LedgerRow :=
  {| row_doc_id := doc_id; row_status := to_status; row_stage := stage;
     row_attempts := _next_attempts current to_status;
     row_last_error_code := (_next_error_fields current to_status error_code error_message).1;
     row_last_error_message := (_next_error_fields current to_status error_code error_message).2;
     row_config_version := row_config_version current;
     row_ingested_at := row_ingested_at current;
     row_updated_at := now;
     row_assigned_scenario_id := _next_assigned_scenario_id current assigned_scenario_id |}.

(** Constructing a [LedgerRow]: the model's only declared constraint is [attempts >= 0]. *)
Definition build_row (row : LedgerRow) : result exn LedgerRow :=
  if bool_decide (row_attempts row < 0)
  then Exc (PyExc "ValidationError" "attempts: Input should be greater than or equal to 0")
  else Ok row.

(** ** [InMemoryLedgerStore] *)

Notation LedgerStore := (list (string * LedgerRow)).

Definition create (now : Z) (doc_id : string) (envelope_summary : EnvelopeSummary) (rows : LedgerStore)
    : result exn (LedgerRow * LedgerStore) :=
  rbind (validate_id_format (PyStr doc_id) "doc_id") (λ _,
  match dict_get doc_id rows with
  | Some existing => Ok (existing, rows)
  | None =>
    rbind (build_row {|
      row_doc_id := doc_id; row_status := PENDING; row_stage := PENDING; row_attempts := 0;
      row_last_error_code := None; row_last_error_message := None;
      row_config_version := es_config_version envelope_summary;
      row_ingested_at := now; row_updated_at := now; row_assigned_scenario_id := None |}) (λ row,
    Ok (row, dict_set doc_id row rows))
  end).

Definition transition (now : Z) (doc_id : string) (to_status stage : Status)
    (error_code error_message assigned_scenario_id : option string) (rows : LedgerStore)
    : result exn (LedgerRow * LedgerStore) :=
  rbind (validate_id_format (PyStr doc_id) "doc_id") (λ _,
  rbind (validate_transition doc_id (dict_get doc_id rows) to_status stage error_code) (λ current,
  rbind (build_row (next_row now doc_id to_status stage error_code error_message assigned_scenario_id current)) (λ row,
  Ok (row, dict_set doc_id row rows)))).

Definition get (doc_id : string) (rows : LedgerStore) : option LedgerRow := dict_get doc_id rows.

(** [updated_at] descending; rows updated at the same instant keep the store's order. *)
Definition newer (a b : LedgerRow) : bool := bool_decide (row_updated_at b < row_updated_at a).

Definition list_by_status (status : Status) (limit : Z) (rows : LedgerStore) : list LedgerRow :=
  if bool_decide (limit ≤ 0) then [] else
  let matches := filter (λ row, row_status row = status) (dict_values rows) in
  py_take limit (py_sort newer matches).

(** ** The specification of the state machine

    The edges of the documented diagram, plus the retry within a stage; independent of the
    tables above. *)
Inductive edge : Status → Status → Prop :=
| edge_analyze : edge PENDING ANALYZING
| edge_chunk : edge ANALYZING CHUNKING
| edge_embed : edge CHUNKING EMBEDDING
| edge_index : edge EMBEDDING INDEXING
| edge_done : edge INDEXING INDEXED
| edge_fail s : s ∈ [PENDING; ANALYZING; CHUNKING; EMBEDDING; INDEXING; NEEDS_REVIEW] → edge s FAILED
| edge_park : edge PENDING NEEDS_REVIEW
| edge_assign : edge NEEDS_REVIEW PENDING
| edge_requeue : edge FAILED PENDING
| edge_archive : edge FAILED ARCHIVED
| edge_retry s : s ∈ [PENDING; ANALYZING; CHUNKING; EMBEDDING; INDEXING; NEEDS_REVIEW] → edge s s.

(** The legality test of the code: the table, then the same-status allowance, both behind
    the terminal check. *)
Definition legal (from to : Status) : Prop :=
  ¬ (from ∈ _TERMINAL_STATUSES ∧ to ∉ _LEGAL_TRANSITIONS from) ∧
  (to ∈ _LEGAL_TRANSITIONS from ∨ to = from).

#[export] Instance legal_dec from to : Decision (legal from to).
Proof. unfold legal. apply _. Defined.

(** ** Invariant of the store *)

Definition row_ok (d : string) (row : LedgerRow) : Prop :=
  row_doc_id row = d ∧ hex_re 64 d = true ∧ row_stage row = row_status row ∧ 0 ≤ row_attempts row ∧
  (row_status row = FAILED → is_Some (row_last_error_code row)).

Definition ledger_ok (rows : LedgerStore) : Prop :=
  dict_wf rows ∧ ∀ d row, dict_get d rows = Some row → row_ok d row.

(** ** Calls on the store, as data *)

Inductive ledger_op :=
| OpCreate (now : Z) (doc_id : string) (s : EnvelopeSummary)
| OpTransition (now : Z) (doc_id : string) (to_status stage : Status) (error_code error_message assigned : option string).

Definition apply_op (rows : LedgerStore) (o : ledger_op) : LedgerStore :=
  match o with
  | OpCreate now d s => match create now d s rows with Ok (_, r) => r | Exc _ => rows end
  | OpTransition now d t g ec em a => match transition now d t g ec em a rows with Ok (_, r) => r | Exc _ => rows end
  end.

Definition op_time (o : ledger_op) : Z :=
  match o with OpCreate now _ _ => now | OpTransition now _ _ _ _ _ _ => now end.

(** ** Lemmas on the state machine *)

Lemma legal_edge from to : legal from to ↔ edge from to.
Proof.
  split.
  - destruct (decide (legal from to)) as [H|]; [|done]. intros _. revert H.
    destruct from, to; intros H; try (by constructor; set_solver); exfalso; revert H;
      apply (bool_decide_unpack _); by vm_compute.
  - destruct 1; try (apply (bool_decide_unpack _); by vm_compute);
      (repeat match goal with H : _ ∈ _ :: _ |- _ => apply elem_of_cons in H as [->|H] end; [..|by apply elem_of_nil in H]);
      apply (bool_decide_unpack _); by vm_compute.
Qed.

(** Edges are decided by evaluation. *)
#[export] Instance edge_dec s t : Decision (edge s t).
Proof. destruct (decide (legal s t)) as [H|H]; [left|right]; by rewrite <- legal_edge. Defined.

(** ** What each operation does *)

Lemma validate_transition_ok d cur to g ec row :
  validate_transition d cur to g ec = Ok row ↔
  cur = Some row ∧ g = to ∧ legal (row_status row) to ∧ ¬ (to = FAILED ∧ ec = None).
Proof.
  unfold validate_transition, _reject, legal. destruct cur as [r|]; [|naive_solver].
  repeat case_decide; split; intros H'; simplify_eq; try naive_solver.
Qed.

Lemma validate_transition_exc d cur to g ec e :
  validate_transition d cur to g ec = Exc e →
  ∃ reason, e = LedgerTransitionInvalid d reason cur to g.
Proof. unfold validate_transition, _reject. intros. py_cases; eauto. Qed.

Lemma transition_ok_iff now d to g ec em a rows r rows' :
  transition now d to g ec em a rows = Ok (r, rows') ↔
  hex_re 64 d = true ∧ ∃ cur, dict_get d rows = Some cur ∧ g = to ∧ legal (row_status cur) to ∧
    ¬ (to = FAILED ∧ ec = None) ∧ 0 ≤ _next_attempts cur to ∧
    r = next_row now d to g ec em a cur ∧ rows' = dict_set d r rows.
Proof.
  unfold transition, validate_id_format, ID_HEX_LENGTH. destruct (hex_re 64 d); simpl; [|naive_solver].
  destruct (validate_transition _ _ _ _ _) as [cur|e] eqn:E; simpl.
  - apply validate_transition_ok in E as (Hg & -> & Hl & Hf). unfold build_row. simpl.
    case_bool_decide; simpl; split; naive_solver lia.
  - split; [done|]. intros (_ & cur & Hc & Hg & Hl & Hf & _).
    assert (validate_transition d (dict_get d rows) to g ec = Ok cur) by (by apply validate_transition_ok).
    congruence.
Qed.

Lemma next_attempts_nonneg cur to : 0 ≤ row_attempts cur → 0 ≤ _next_attempts cur to.
Proof. unfold _next_attempts. repeat case_decide; lia. Qed.

(** What the row of a successful write shows: a forward move, a recorded transient error, a
    terminal failure. *)
Lemma next_row_forward now d t g ec em a cur :
  t ≠ FAILED → t ≠ row_status cur → row_status cur ≠ FAILED →
  let r := next_row now d t g ec em a cur in
  row_status r = t ∧ row_attempts r = 1 ∧ row_last_error_code r = ec.
Proof.
  intros. simpl. unfold _next_attempts, _next_error_fields.
  rewrite (decide_False (P:=t = FAILED)), !decide_False by naive_solver. done.
Qed.

Lemma next_row_retry now d g c em a cur t :
  row_status cur = t → t ≠ FAILED →
  let r := next_row now d t g (Some c) em a cur in
  row_status r = t ∧ row_last_error_code r = Some c ∧ row_attempts r = row_attempts cur + 1.
Proof.
  intros <- ?. simpl. unfold _next_attempts, _next_error_fields.
  rewrite (decide_False (P:=row_status cur = FAILED)) by done.
  rewrite (decide_False (P:=row_status cur = FAILED ∧ _)) by naive_solver.
  rewrite (decide_False (P:=_ ∧ Some c = None)) by naive_solver. rewrite decide_True by done. done.
Qed.

Lemma next_row_failed now d g c em a cur :
  let r := next_row now d FAILED g (Some c) em a cur in
  row_status r = FAILED ∧ row_last_error_code r = Some c ∧ row_attempts r = row_attempts cur.
Proof. simpl. unfold _next_attempts, _next_error_fields. by rewrite decide_False by naive_solver. Qed.

Lemma create_ok_iff now d s rows r rows' :
  create now d s rows = Ok (r, rows') ↔
  hex_re 64 d = true ∧
  match dict_get d rows with
  | Some existing => r = existing ∧ rows' = rows
  | None => r = mkRow d PENDING PENDING 0 None None (es_config_version s) now now None ∧ rows' = dict_set d r rows
  end.
Proof.
  unfold create, validate_id_format, ID_HEX_LENGTH, build_row. destruct (hex_re 64 d); simpl; [|naive_solver].
  destruct (dict_get d rows); naive_solver.
Qed.

(** One call changes at most the row of its own document, and that row moves along an edge. *)
Lemma apply_op_step rows o d :
  dict_get d (apply_op rows o) = dict_get d rows ∨
  (dict_get d rows = None ∧ ∃ now c,
     dict_get d (apply_op rows o) = Some (mkRow d PENDING PENDING 0 None None c now now None)) ∨
  (∃ cur now to ec em a, dict_get d rows = Some cur ∧ edge (row_status cur) to ∧
     ¬ (to = FAILED ∧ ec = None) ∧
     dict_get d (apply_op rows o) = Some (next_row now d to to ec em a cur)).
Proof.
  destruct o as [now d' s|now d' to g ec em a]; simpl.
  - destruct (create now d' s rows) as [[r rows']|] eqn:E; [|by left].
    apply create_ok_iff in E as [_ E]. destruct (dict_get d' rows) eqn:E'; destruct E as [-> ->]; [by left|].
    rewrite dict_get_set. case_decide; subst; [|by left]. right; left. eauto.
  - destruct (transition now d' to g ec em a rows) as [[r rows']|] eqn:E; [|by left].
    apply transition_ok_iff in E as (_ & cur & Hc & -> & Hl & Hf & _ & -> & ->).
    rewrite dict_get_set. case_decide; subst; [|by left]. right; right.
    apply legal_edge in Hl. eauto 15.
Qed.

(** ** The invariant is preserved *)

Lemma ledger_ok_empty : ledger_ok [].
Proof. split; [apply dict_wf_nil|done]. Qed.

Lemma ledger_ok_set d row rows : row_ok d row → ledger_ok rows → ledger_ok (dict_set d row rows).
Proof.
  intros Hr [Hwf Hall]. split; [by apply dict_set_wf|]. intros d' row'. rewrite dict_get_set.
  case_decide; naive_solver.
Qed.

Lemma next_row_ok now d to ec em a cur :
  hex_re 64 d = true → row_ok d cur → edge (row_status cur) to → ¬ (to = FAILED ∧ ec = None) →
  row_ok d (next_row now d to to ec em a cur).
Proof.
  intros Hd (_ & _ & _ & Hatt & _) He Hf. unfold row_ok. simpl. split_and!; try done.
  - by apply next_attempts_nonneg.
  - intros ->. unfold _next_error_fields. rewrite decide_False by naive_solver.
    destruct ec; naive_solver.
Qed.

Lemma transition_ok now d to g ec em a rows r rows' :
  ledger_ok rows → transition now d to g ec em a rows = Ok (r, rows') → ledger_ok rows' ∧ row_ok d r.
Proof.
  intros Hok (Hd & cur & Hc & -> & Hl & Hf & _ & -> & ->)%transition_ok_iff.
  assert (row_ok d (next_row now d to to ec em a cur)).
  { apply next_row_ok; [done|by apply Hok|by apply legal_edge|done]. }
  split; [by apply ledger_ok_set|done].
Qed.

Lemma create_ok now d s rows r rows' :
  ledger_ok rows → create now d s rows = Ok (r, rows') → ledger_ok rows' ∧ row_ok d r.
Proof.
  intros Hok [Hd H]%create_ok_iff. destruct (dict_get d rows) eqn:E; destruct H as [-> ->].
  - split; [done|]. by apply Hok.
  - assert (row_ok d (mkRow d PENDING PENDING 0 None None (es_config_version s) now now None)) by done.
    split; [by apply ledger_ok_set|done].
Qed.

Lemma apply_op_ok rows o : ledger_ok rows → ledger_ok (apply_op rows o).
Proof.
  intros Hok. destruct o; simpl.
  - destruct (create _ _ _ _) as [[r rows']|] eqn:E; [|done]. by eapply create_ok.
  - destruct (transition _ _ _ _ _ _ _ _) as [[r rows']|] eqn:E; [|done]. by eapply transition_ok.
Qed.

Lemma ops_ok ops rows : ledger_ok rows → ledger_ok (fold_left apply_op ops rows).
Proof. revert rows. induction ops as [|o ops IH]; intros rows H; simpl; [done|]. by apply IH, apply_op_ok. Qed.

(** A well-formed store never rejects a call for a reason other than the caller's request:
    the only exceptions are [IdentityInvalid] and [LedgerTransitionInvalid]. *)
Lemma transition_exc now d to g ec em a rows e :
  ledger_ok rows → transition now d to g ec em a rows = Exc e →
  (hex_re 64 d = false ∧ e = IdentityInvalid "doc_id" "not 64 hex chars") ∨
  (hex_re 64 d = true ∧ (∃ reason, e = LedgerTransitionInvalid d reason (dict_get d rows) to g) ∧
   (g = to → ¬ (to = FAILED ∧ ec = None) →
    match dict_get d rows with None => True | Some cur => ¬ edge (row_status cur) to end)).
Proof.
  intros Hok H. unfold transition, validate_id_format, ID_HEX_LENGTH in H.
  destruct (hex_re 64 d) eqn:Hd; simpl in H; [|left; naive_solver]. right.
  destruct (validate_transition _ _ _ _ _) as [cur|x] eqn:E; simpl in H.
  - exfalso. apply validate_transition_ok in E as (Hc & -> & _). apply Hok in Hc as (_ & _ & _ & Hatt & _).
    pose proof (next_attempts_nonneg cur to Hatt). unfold build_row in H. simpl in H.
    case_bool_decide; [lia|done].
  - simplify_eq. split; [done|]. split; [by eapply validate_transition_exc|]. intros -> Hf.
    destruct (dict_get d rows) as [cur|] eqn:Hc; [|done]. intros He%legal_edge.
    assert (validate_transition d (Some cur) to to ec = Ok cur) by (by apply validate_transition_ok). congruence.
Qed.

(** ** Histories *)

(** The statuses document [d] goes through while the calls [ops] are applied: one entry per
    call that wrote its row. *)
Fixpoint history (d : string) (rows : LedgerStore) (ops : list ledger_op) : list Status :=
  match ops with
  | [] => []
  | o :: ops' =>
    let rows' := apply_op rows o in
    if decide (dict_get d rows' = dict_get d rows) then history d rows' ops'
    else match dict_get d rows' with
         | Some r => row_status r :: history d rows' ops'
         | None => history d rows' ops'
         end
  end.

Definition status_of (d : string) (rows : LedgerStore) : option Status := row_status <$> dict_get d rows.

Lemma history_from d rows ops r :
  dict_get d rows = Some r →
  Sorted edge (row_status r :: history d rows ops) ∧
  status_of d (fold_left apply_op ops rows) = last (row_status r :: history d rows ops).
Proof.
  unfold status_of. revert rows r. induction ops as [|o ops IH]; intros rows r Hr; simpl.
  { rewrite Hr. split; [repeat constructor|done]. }
  destruct (apply_op_step rows o d) as [Hsame|[[Hn _]|(cur & now & to & ec & em & a & Hc & He & _ & Hnew)]].
  - rewrite decide_True by done. apply IH. congruence.
  - congruence.
  - assert (cur = r) as -> by congruence. destruct (decide _) as [Heq|_].
    + apply IH. congruence.
    + rewrite Hnew. destruct (IH _ _ Hnew) as [Hs Hl]. simpl in *. split; [|done].
      constructor; [done|]. by constructor.
Qed.

Lemma history_new d rows ops :
  dict_get d rows = None →
  (history d rows ops = [] ∧ dict_get d (fold_left apply_op ops rows) = None) ∨
  (∃ h, history d rows ops = PENDING :: h ∧ Sorted edge (PENDING :: h) ∧
        status_of d (fold_left apply_op ops rows) = last (PENDING :: h)).
Proof.
  revert rows. induction ops as [|o ops IH]; intros rows Hn; simpl; [by left|].
  destruct (apply_op_step rows o d) as [Hsame|[[_ (now & c & Hnew)]|(cur & now & to & ec & em & a & Hc & _)]].
  - rewrite decide_True by done. apply IH. congruence.
  - rewrite decide_False by congruence. rewrite Hnew. right.
    destruct (history_from d _ ops _ Hnew) as [Hs Hl]. simpl in *. eauto.
  - congruence.
Qed.

(** The stretch of the forward order up to a status. *)
Definition forward_prefix (s : Status) : list Status :=
  match s with
  | PENDING => [PENDING]
  | ANALYZING => [PENDING; ANALYZING]
  | CHUNKING => [PENDING; ANALYZING; CHUNKING]
  | EMBEDDING => [PENDING; ANALYZING; CHUNKING; EMBEDDING]
  | INDEXING => [PENDING; ANALYZING; CHUNKING; EMBEDDING; INDEXING]
  | INDEXED => _FORWARD_ORDER
  | _ => []
  end.

(** Entering a status along an edge: the prefix of the new status is the prefix of the old
    one, possibly extended by the new status. *)
Lemma edge_prefix s s' :
  edge s s' → forward_prefix s' `sublist_of` forward_prefix s ∨
              forward_prefix s' = [PENDING] ∨
              forward_prefix s' = forward_prefix s ++ [s'].
Proof. destruct 1; simpl; auto; try (left; apply sublist_nil_l); by left. Qed.

Lemma path_prefix_gen pre s0 h s :
  Sorted edge (s0 :: h) → [PENDING] `sublist_of` pre → forward_prefix s0 `sublist_of` pre →
  last (s0 :: h) = Some s → forward_prefix s `sublist_of` pre ++ h.
Proof.
  revert pre s0. induction h as [|s1 h IH]; intros pre s0 Hs Hp Hpre Hl.
  { simpl in Hl. simplify_eq. by rewrite app_nil_r. }
  inversion Hs as [|? ? Hs' Hhd]; inversion Hhd; subst.
  replace (pre ++ s1 :: h) with ((pre ++ [s1]) ++ h) by (by rewrite <- app_assoc).
  apply (IH _ s1); [done| |  |done].
  - by apply sublist_inserts_r.
  - destruct (edge_prefix s0 s1) as [Hsub|[->| ->]]; [done| | |].
    + apply sublist_inserts_r. by etrans.
    + by apply sublist_inserts_r.
    + by apply sublist_app.
Qed.

(** A document reaches a stage of the forward path only through all the stages before it. *)
Lemma path_prefix h s :
  Sorted edge (PENDING :: h) → last (PENDING :: h) = Some s → forward_prefix s `sublist_of` PENDING :: h.
Proof. intros. by apply (path_prefix_gen [PENDING] PENDING). Qed.

(** ** Triage of a lost race *)

Lemma forward_index_total s : s ∉ [FAILED; NEEDS_REVIEW; ARCHIVED] → ∃ i, forward_index s = Ok i.
Proof. destruct s; intros H; try (by eexists); set_solver. Qed.

(** The helper never raises, for any input. *)
Lemma is_benign_total o t g : ∃ b, is_benign_concurrent_loss o t g = Ok b.
Proof.
  unfold is_benign_concurrent_loss. destruct o as [row|]; repeat case_decide; eauto.
  destruct (forward_index_total (row_status row)) as [i ->]; [set_solver|].
  destruct (forward_index_total t) as [j ->]; [set_solver|]. simpl. eauto.
Qed.

Definition benign (o : option LedgerRow) (t g : Status) : bool :=
  match is_benign_concurrent_loss o t g with Ok b => b | Exc _ => false end.

Lemma is_benign_eq o t g : is_benign_concurrent_loss o t g = Ok (benign o t g).
Proof. unfold benign. by destruct (is_benign_total o t g) as [b ->]. Qed.

Lemma benign_refused o t g : o = None ∨ t ≠ g → is_benign_concurrent_loss o t g = Ok false.
Proof. intros H. unfold is_benign_concurrent_loss. case_decide; [done|]. by destruct o; [naive_solver|]. Qed.

(** A benign verdict for a status outside the forward order. *)
Lemma benign_off_path row t : is_benign_concurrent_loss (Some row) t t = Ok true →
  (t = FAILED → row_status row = INDEXED) ∧ (t = ARCHIVED → row_status row = ARCHIVED) ∧ (t = NEEDS_REVIEW → row_status row ≠ PENDING).
Proof.
  unfold is_benign_concurrent_loss. rewrite decide_False by naive_solver. case_decide; [done|].
  intros Hb. split_and!; intros ->; revert Hb; simpl; repeat case_decide; try done; intros [= Hb]; by apply bool_decide_eq_true in Hb.
Qed.

Lemma benign_forward row t :
  t ∈ _FORWARD_ORDER → benign (Some row) t t = true →
  row_status row = row_stage row ∧ t ∈ forward_prefix (row_status row).
Proof.
  intros Ht. unfold benign, is_benign_concurrent_loss. rewrite decide_False by naive_solver.
  case_decide; [done|]. intros Hb. split; [by destruct (decide (row_status row = row_stage row))|].
  clear -Ht Hb. destruct (row_status row); unfold _FORWARD_ORDER in Ht;
    repeat (apply elem_of_cons in Ht as [->|Ht]); try (by apply elem_of_nil in Ht);
    vm_compute in Hb; try done; set_solver.
Qed.

(** ** Fields that are written once *)

Lemma apply_op_set_once rows o d row :
  dict_get d rows = Some row →
  ∃ row', dict_get d (apply_op rows o) = Some row' ∧
    row_ingested_at row' = row_ingested_at row ∧ row_config_version row' = row_config_version row ∧
    (is_Some (row_assigned_scenario_id row) → is_Some (row_assigned_scenario_id row')).
Proof.
  intros Hr. destruct (apply_op_step rows o d) as [Hs|[[Hn _]|(cur & now & to & ec & em & a & Hc & _ & _ & Hnew)]].
  - exists row. rewrite Hs. auto.
  - congruence.
  - assert (cur = row) as -> by congruence. eexists. split; [exact Hnew|]. simpl.
    split_and!; [done..|]. destruct a; simpl; eauto.
Qed.

Lemma terminal_no_edge s s' : s ∈ [INDEXED; ARCHIVED] → ¬ edge s s'.
Proof. intros Hs He. destruct He; set_solver. Qed.

Lemma apply_op_terminal rows o d row :
  row_status row ∈ [INDEXED; ARCHIVED] → dict_get d rows = Some row → dict_get d (apply_op rows o) = Some row.
Proof.
  intros Ht Hr. destruct (apply_op_step rows o d) as [Hs|[[Hn _]|(cur & now & to & ec & em & a & Hc & He & _)]];
    [congruence..|]. assert (cur = row) as -> by congruence. by apply terminal_no_edge in He.
Qed.

(** A concrete document and a store that holds it, for the witnesses. *)
Definition example_doc : string := Sha256.Sha256.hexdigest "x".

Definition example_rows : LedgerStore :=
  [(example_doc, mkRow example_doc PENDING PENDING 0 None None "1" 1 1 None)].

Lemma example_doc_ok : hex_re 64 example_doc = true.
Proof. by vm_compute. Qed.

#[global] Opaque example_doc.

Lemma example_rows_ok : ledger_ok example_rows.
Proof. apply (ledger_ok_set example_doc _ []); [|apply ledger_ok_empty]. split_and!; [done|apply example_doc_ok|done..]. Qed.

(** ** Properties *)

(** C1: [InMemoryLedgerStore.transition] implements the documented state machine. On a
    well-formed store it either performs exactly one edge of the diagram (or a retry within
    a stage) on the abstract map of rows, writing the specified next row and touching no
    other document, or raises [IdentityInvalid] for a malformed identifier, or raises
    [LedgerTransitionInvalid] carrying the row it saw, and then the request was indeed
    illegal. The store stays well-formed. *)
Theorem transition_refines_fsm now d to g ec em a rows :
  ledger_ok rows →
  match transition now d to g ec em a rows with
  | Ok (r, rows') =>
    ∃ cur, dict_map rows !! d = Some cur ∧ g = to ∧ edge (row_status cur) to ∧
      (to = FAILED → is_Some ec) ∧ r = next_row now d to to ec em a cur ∧
      dict_map rows' = <[d := r]> (dict_map rows) ∧ ledger_ok rows'
  | Exc (IdentityInvalid f _) => f = "doc_id" ∧ hex_re 64 d = false
  | Exc e =>
    (∃ reason, e = LedgerTransitionInvalid d reason (dict_map rows !! d) to g) ∧
    (dict_map rows !! d = None ∨ g ≠ to ∨ (to = FAILED ∧ ec = None) ∨
     ∃ cur, dict_map rows !! d = Some cur ∧ ¬ edge (row_status cur) to)
  end.
Proof.
  intros Hok. destruct (transition now d to g ec em a rows) as [[r rows']|e] eqn:E.
  - pose proof (transition_ok _ _ _ _ _ _ _ _ _ _ Hok E) as [Hok' _].
    apply transition_ok_iff in E as (_ & cur & Hc & -> & Hl%legal_edge & Hf & _ & -> & ->).
    exists cur. rewrite dict_map_lookup, dict_map_set. split_and!; try done.
    intros ->. destruct ec; naive_solver.
  - apply (transition_exc _ _ _ _ _ _ _ _ _ Hok) in E as [[? ->]|(Hd & [reason ->] & Hill)]; [done|].
    rewrite dict_map_lookup. split; [by eexists|].
    destruct (dict_get d rows) as [cur|]; [|by left]. right.
    destruct (decide (g = to)) as [->|]; [|by left]. right.
    destruct (decide (to = FAILED ∧ ec = None)); [by left|]. right. eauto.
Qed.

Lemma transition_refines_fsm_witness :
  ∃ r rows', transition 5 example_doc ANALYZING ANALYZING None None None example_rows = Ok (r, rows') ∧
             edge PENDING ANALYZING ∧ dict_map rows' = <[example_doc := r]> (dict_map example_rows) ∧ ledger_ok rows'.
Proof.
  pose proof (transition_refines_fsm 5 example_doc ANALYZING ANALYZING None None None example_rows example_rows_ok) as H.
  destruct (transition 5 example_doc ANALYZING ANALYZING None None None example_rows) as [[r rows']|e] eqn:E.
  - destruct H as (cur & Hc & _ & He & _ & _ & Hm & Hok). exists r, rows'. split_and!; [done|constructor|done|done].
  - vm_compute in E. discriminate E.
Defined.

(** C8: a document that is [INDEXED] went through every stage of the pipeline, in order.
    Whatever calls any number of callers make on an initially empty store, the statuses
    written for the document form a path of the diagram that starts at [PENDING], and if
    the document is now [INDEXED] the six forward stages occur in that path in order. *)
Theorem indexed_passed_every_stage d ops :
  let h := history d [] ops in
  (h = [] ∨ ∃ h', h = PENDING :: h' ∧ Sorted edge (PENDING :: h')) ∧
  (status_of d (fold_left apply_op ops []) = Some INDEXED →
   [PENDING; ANALYZING; CHUNKING; EMBEDDING; INDEXING; INDEXED] `sublist_of` h).
Proof.
  destruct (history_new d [] ops eq_refl) as [[Hh Hn]|(h' & Hh & Hs & Hl)]; simpl; rewrite Hh.
  - split; [by left|]. unfold status_of. by rewrite Hn.
  - split; [right; eauto|]. rewrite Hl. intros Hlast. by apply (path_prefix h' INDEXED).
Qed.

(** Terminal rows are frozen: once a document's row is [INDEXED] or [ARCHIVED], no call by
    any caller ever changes any field of it. *)
Theorem terminal_rows_frozen d row rows ops :
  dict_get d rows = Some row → row_status row ∈ [INDEXED; ARCHIVED] →
  dict_get d (fold_left apply_op ops rows) = Some row.
Proof. intros Hr Ht. revert rows Hr. induction ops; intros rows Hr; simpl; [done|]. by apply IHops, apply_op_terminal. Qed.

Lemma terminal_rows_frozen_witness :
  let d := Sha256.Sha256.hexdigest "x" in
  let row := mkRow d INDEXED INDEXED 1 None None "1" 0 9 None in
  dict_get d (fold_left apply_op
    [OpTransition 10 d FAILED FAILED (Some "E") None None; OpCreate 11 d (mkSummary "2")] [(d, row)]) = Some row.
Proof. apply terminal_rows_frozen; [by vm_compute|]. apply elem_of_cons. left. reflexivity. Defined.

(** C23: the race triage is total and sound. [is_benign_concurrent_loss] never raises, for any
    observed row or none and any requested status and stage; without a row, and for a request
    whose stage is not its status, the loss is not benign. When it declares a lost request
    benign, against the row of a store reached by any sequence of calls, then for a forward
    status the document had already been in it; for [FAILED] it is [INDEXED]; for [ARCHIVED]
    it is archived; and for [NEEDS_REVIEW] it has left [PENDING]. *)
Theorem benign_loss_sound d ops observed t g :
  (∃ b, is_benign_concurrent_loss observed t g = Ok b) ∧
  (observed = None ∨ t ≠ g → is_benign_concurrent_loss observed t g = Ok false) ∧
  ∀ row, dict_get d (fold_left apply_op ops []) = Some row → is_benign_concurrent_loss (Some row) t g = Ok true →
    (t ∈ _FORWARD_ORDER → t ∈ history d [] ops) ∧
    (t = FAILED → row_status row = INDEXED) ∧
    (t = ARCHIVED → row_status row = ARCHIVED) ∧
    (t = NEEDS_REVIEW → row_status row ≠ PENDING).
Proof.
  split; [apply is_benign_total|]. split; [apply benign_refused|]. intros row Hr Hb.
  assert (g = t) as ->. { unfold is_benign_concurrent_loss in Hb. case_decide; [done|]. by destruct (decide (g = t)). }
  split; [|by apply benign_off_path]. intros Ht.
  rewrite is_benign_eq in Hb. injection Hb as Hb. apply benign_forward in Hb as [_ Hin]; [|done].
  destruct (history_new d [] ops eq_refl) as [[_ Hn]|(h' & -> & Hs & Hl)]; [congruence|].
  unfold status_of in Hl. rewrite Hr in Hl. symmetry in Hl.
  apply path_prefix in Hl; [|done]. eapply elem_of_submseteq; [exact Hin|]. by apply sublist_submseteq.
Qed.

(** [list_by_status] returns the rows of the requested status and nothing else, most
    recently updated first, rows of one instant in store order, at most [limit] of them; if
    the limit allows it, all of them. A non-positive limit yields the empty list. *)
Theorem list_by_status_correct status limit rows :
  let matches := filter (λ row, row_status row = status) (dict_values rows) in
  let l := list_by_status status limit rows in
  Forall (λ row, row_status row = status ∧ row ∈ dict_values rows) l ∧
  Sorted (λ a b, row_updated_at b ≤ row_updated_at a) l ∧
  length l = Nat.min (Z.to_nat limit) (length matches) ∧
  ((Z.of_nat (length matches) ≤ limit) →
   l ≡ₚ matches ∧ ∀ t, filter (λ r, row_updated_at r = t) l = filter (λ r, row_updated_at r = t) matches).
Proof.
  unfold list_by_status. case_bool_decide as Hlim.
  { simpl. rewrite Z2Nat.nonpos by lia. split_and!; [constructor|constructor|done|].
    intros Hle. destruct (filter _ _); [done|]. simpl in Hle. lia. }
  set (m := filter _ _). cbn zeta. split_and!.
  - apply Forall_forall. intros row Hin. eapply (elem_of_submseteq _ (py_sort newer m)) in Hin;
      [|apply sublist_submseteq, py_take_sublist].
    rewrite py_sort_perm in Hin. unfold m in Hin. by apply list_elem_of_filter in Hin.
  - assert (Hs : Sorted (λ a b, row_updated_at b ≤ row_updated_at a) (py_sort newer m)).
    { apply py_sort_sorted; unfold newer; intros x y; case_bool_decide; try done; lia. }
    unfold py_take. rewrite bool_decide_eq_false_2 by lia.
    apply Sorted_StronglySorted in Hs; [|intros x y z; lia]. apply StronglySorted_Sorted.
    rewrite <- (take_drop (Z.to_nat limit) (py_sort newer m)) in Hs. by apply StronglySorted_app_1_l in Hs.
  - rewrite py_take_length by lia. by rewrite (Permutation_length (py_sort_perm newer m)).
  - intros Hle. unfold py_take. rewrite bool_decide_eq_false_2 by lia.
    rewrite take_ge by (rewrite (Permutation_length (py_sort_perm newer m)); lia).
    split; [apply py_sort_perm|]. intros t. apply py_sort_stable.
    intros x y Hx Hy. unfold newer. apply bool_decide_eq_false_2. lia.
Qed.

(** A row's ingestion time and configuration version never change after [create], and an
    assigned scenario is never cleared, whatever calls follow. *)
Theorem set_once_fields d row rows ops :
  dict_get d rows = Some row →
  ∃ row', dict_get d (fold_left apply_op ops rows) = Some row' ∧
    row_ingested_at row' = row_ingested_at row ∧ row_config_version row' = row_config_version row ∧
    (is_Some (row_assigned_scenario_id row) → is_Some (row_assigned_scenario_id row')).
Proof.
  revert rows row. induction ops as [|o ops IH]; intros rows row Hr; simpl; [eauto|].
  destruct (apply_op_set_once rows o d row Hr) as (r1 & Hr1 & ? & ? & ?).
  destruct (IH _ _ Hr1) as (r2 & Hr2 & ? & ? & ?). exists r2. split_and!; try done; [congruence..|auto].
Qed.


End Ledger.
