(* ===== verification/Prog.v ===== *)
(** * Programs with effects, run alone or interleaved

    A component's method is a [prog]: it returns, raises, or performs one atomic call on a
    shared object (a method that holds that object's lock) and goes on with the answer.
    [run] executes a program alone. [sched_step] executes one call of one program of a pool,
    so [rtc sched_step] ranges over every interleaving of concurrent workers. [all_ops]
    describes the calls a program may make, whatever answers it gets; it is what turns a
    property of single calls into a property of every interleaving. *)
From S2P Require Import Prelude Types.
#[local] Open Scope Z_scope.

Section prog.
Context {E : Type → Type}.

Inductive prog (A : Type) : Type :=
| Ret (a : A)
| Raise (x : exn)
| Vis {X : Type} (e : E X) (k : X → prog A).

End prog.
Arguments prog E A : clear implicits.
Arguments Ret {E A} a.
Arguments Raise {E A} x.
Arguments Vis {E A X} e k.

Section combinators.
Context {E : Type → Type}.

Fixpoint pbind {A B} (p : prog E A) (f : A → prog E B) : prog E B :=
  match p with
  | Ret a => f a
  | Raise x => Raise x
  | Vis e k => Vis e (λ r, pbind (k r) f)
  end.

(** [try: ... except]: the outcome of [p] as a value. *)
Fixpoint attempt {A} (p : prog E A) : prog E (result exn A) :=
  match p with
  | Ret a => Ret (Ok a)
  | Raise x => Ret (Exc x)
  | Vis e k => Vis e (λ r, attempt (k r))
  end.

(** A pure computation that may raise. *)
Definition lift {A} (r : result exn A) : prog E A :=
  match r with Ok a => Ret a | Exc x => Raise x end.

(** A call whose answer is a value, and one that may raise. *)
Definition perform {A} (e : E A) : prog E A := Vis e Ret.
Definition call {A} (e : E (result exn A)) : prog E A := Vis e lift.

Definition forget {A} (p : prog E A) : prog E unit := pbind p (λ _, Ret tt).

(** A left-to-right loop over a list with an accumulator. *)
Fixpoint pfold {A B} (f : B → A → prog E B) (b : B) (l : list A) : prog E B :=
  match l with
  | [] => Ret b
  | a :: l' => pbind (f b a) (λ b', pfold f b' l')
  end.
End combinators.

(** The program over the calls [E'] that performs [σ e] wherever [p] calls [e]. *)
Fixpoint translate {E E' : Type → Type} (σ : ∀ X, E X → prog E' X) {A} (p : prog E A) : prog E' A :=
  match p with
  | Ret a => Ret a
  | Raise x => Raise x
  | Vis e k => pbind (σ _ e) (λ r, translate σ (k r))
  end.

Notation "x ← p ; q" := (pbind p (fun x => q))
  (at level 20, p at level 100, q at level 200, only parsing) : py_scope.
Notation "' pat ← p ; q" := (pbind p (fun x => match x with pat => q end))
  (at level 20, pat pattern, p at level 100, q at level 200, only parsing) : py_scope.
Notation "p ;; q" := (pbind p (fun _ => q))
  (at level 100, q at level 200, right associativity, only parsing) : py_scope.

(** ** Execution *)
Section execution.
Context {E : Type → Type} {S : Type} (h : ∀ X, E X → S → X * S) {T : Type}.

(** One program alone: total, since a [prog] is a finite tree. *)
Fixpoint run {A} (p : prog E A) (s : S) : result exn A * S :=
  match p with
  | Ret a => (Ok a, s)
  | Raise x => (Exc x, s)
  | Vis e k => let '(r, s') := h _ e s in run (k r) s'
  end.

(** One call of the [i]-th program of a pool. *)
Inductive sched_step : list (prog E T) * S → list (prog E T) * S → Prop :=
| sched_call (pool : list (prog E T)) s i X (e : E X) (k : X → prog E T) :
    pool !! i = Some (Vis e k) →
    sched_step (pool, s) (<[i := k (h X e s).1]> pool, (h X e s).2).

(** An explicit schedule: each entry lets that program make its next call. *)
Definition sched_pick (c : list (prog E T) * S) (i : nat) : list (prog E T) * S :=
  match c.1 !! i with
  | Some (Vis e k) => (<[i := k (h _ e c.2).1]> c.1, (h _ e c.2).2)
  | _ => c
  end.

Definition sched_exec (schedule : list nat) (c : list (prog E T) * S) : list (prog E T) * S :=
  fold_left sched_pick schedule c.

Lemma sched_pick_rtc i c : rtc sched_step c (sched_pick c i).
Proof.
  destruct c as [pool s]. unfold sched_pick. simpl. destruct (pool !! i) as [[a|x|X e k]|] eqn:Hi; try done.
  by apply rtc_once, sched_call.
Qed.

Lemma sched_exec_rtc schedule c : rtc sched_step c (sched_exec schedule c).
Proof.
  revert c. unfold sched_exec. induction schedule as [|i schedule IH]; intros c; simpl; [done|].
  etrans; [apply (sched_pick_rtc i)|apply IH].
Qed.

Lemma run_bind {A B} (p : prog E A) (f : A → prog E B) s :
  run (pbind p f) s = match run p s with (Ok a, s') => run (f a) s' | (Exc x, s') => (Exc x, s') end.
Proof. revert s. induction p as [a|x|X e k IH]; intros s; simpl; [done..|]. destruct (h X e s) as [r s']. apply IH. Qed.

Lemma run_attempt {A} (p : prog E A) s : run (attempt p) s = (Ok (run p s).1, (run p s).2).
Proof. revert s. induction p as [a|x|X e k IH]; intros s; simpl; [done..|]. destruct (h X e s) as [r s']. apply IH. Qed.

Lemma run_lift {A} (r : result exn A) s : run (lift r) s = (r, s).
Proof. by destruct r. Qed.

Lemma run_call {A} (e : E (result exn A)) s : run (call e) s = h _ e s.
Proof. unfold call. simpl. destruct (h _ e s) as [r s']. apply run_lift. Qed.

Lemma run_perform {A} (e : E A) s : run (perform e) s = (Ok (h _ e s).1, (h _ e s).2).
Proof. unfold perform. simpl. by destruct (h _ e s). Qed.
End execution.

(** ** The calls a program may make *)
Section all_ops.
Context {E : Type → Type} (P : ∀ X, E X → Prop).

Fixpoint all_ops {A} (p : prog E A) : Prop :=
  match p with
  | Ret _ | Raise _ => True
  | Vis e k => P _ e ∧ ∀ r, all_ops (k r)
  end.

Lemma all_ops_bind {A B} (p : prog E A) (f : A → prog E B) :
  all_ops p → (∀ a, all_ops (f a)) → all_ops (pbind p f).
Proof. intros Hp Hf. induction p as [a|x|X e k IH]; simpl in *; naive_solver. Qed.

Lemma all_ops_attempt {A} (p : prog E A) : all_ops p → all_ops (attempt p).
Proof. intros Hp. induction p as [a|x|X e k IH]; simpl in *; naive_solver. Qed.

Lemma all_ops_lift {A} (r : result exn A) : all_ops (lift r).
Proof. by destruct r. Qed.

Lemma all_ops_call {A} (e : E (result exn A)) : P _ e → all_ops (call e).
Proof. intros. split; [done|]. intros. apply all_ops_lift. Qed.

Lemma all_ops_perform {A} (e : E A) : P _ e → all_ops (perform e).
Proof. by split. Qed.

Lemma all_ops_forget {A} (p : prog E A) : all_ops p → all_ops (forget p).
Proof. intros. by apply all_ops_bind. Qed.

Lemma all_ops_pfold {A B} (f : B → A → prog E B) b l :
  (∀ b a, all_ops (f b a)) → all_ops (pfold f b l).
Proof. intros Hf. revert b. induction l; intros b; simpl; [done|]. by apply all_ops_bind. Qed.

Lemma all_ops_pfold_in {A B} (f : B → A → prog E B) b l :
  (∀ b a, a ∈ l → all_ops (f b a)) → all_ops (pfold f b l).
Proof.
  revert b. induction l as [|a l IH]; intros b Hf; simpl; [done|]. apply all_ops_bind; [apply Hf; set_solver|].
  intros b'. apply IH. set_solver.
Qed.
End all_ops.

Lemma all_ops_mono {E : Type → Type} {A} (P Q : ∀ X, E X → Prop) (p : prog E A) :
  (∀ X e, P X e → Q X e) → all_ops P p → all_ops Q p.
Proof. intros HPQ. induction p as [a|x|X e k IH]; simpl; [done..|]. intros [He Hk]. split; auto. Qed.

Lemma all_ops_and {E : Type → Type} {A} (P Q : ∀ X, E X → Prop) (p : prog E A) :
  all_ops P p → all_ops Q p → all_ops (λ X e, P X e ∧ Q X e) p.
Proof. induction p as [a|x|X e k IH]; simpl; [done..|]. intros [HP HPk] [HQ HQk]. auto. Qed.

(** ** From single calls to every interleaving *)
Section interleaving.
Context {E : Type → Type} {S : Type} (h : ∀ X, E X → S → X * S) (P : ∀ X, E X → Prop) {T : Type}.
Implicit Types pool : list (prog E T).

Lemma sched_step_pool pool s pool' s' :
  sched_step h (pool, s) (pool', s') → Forall (all_ops P) pool →
  Forall (all_ops P) pool' ∧ ∃ X (e : E X), P X e ∧ s' = (h X e s).2.
Proof.
  intros Hstep Hall. inversion Hstep as [pool0 s0 i X e k Hi]; subst.
  destruct (Forall_lookup_1 _ _ _ _ Hall Hi) as [He Hk]. split; [apply Forall_insert; [done|apply Hk]|eauto].
Qed.

(** A reflexive and transitive relation that every permitted call respects relates the
    first and the last state of any interleaving. *)
Lemma interleaving_preserves (R : S → S → Prop) pool s pool' s' :
  (∀ s, R s s) → (∀ s1 s2 s3, R s1 s2 → R s2 s3 → R s1 s3) →
  (∀ X (e : E X) s, P X e → R s (h X e s).2) →
  Forall (all_ops P) pool → rtc (sched_step h) (pool, s) (pool', s') → R s s'.
Proof.
  intros Hrefl Htrans Hcall Hall Hsteps.
  remember (pool, s) as c eqn:Hc. remember (pool', s') as c' eqn:Hc'. revert pool s Hc Hall.
  induction Hsteps as [c|c [pool1 s1] c' Hstep Hsteps IH]; intros pool s -> Hall; simplify_eq; [apply Hrefl|].
  apply sched_step_pool in Hstep as [Hall1 (X & e & He & ->)]; [|done]. eapply Htrans; [by apply Hcall|]. by eapply IH.
Qed.

(** The same for one program run alone. *)
Lemma run_preserves {A} (R : S → S → Prop) (p : prog E A) s :
  (∀ s, R s s) → (∀ s1 s2 s3, R s1 s2 → R s2 s3 → R s1 s3) →
  (∀ X (e : E X) s, P X e → R s (h X e s).2) →
  all_ops P p → R s (run h p s).2.
Proof.
  intros Hrefl Htrans Hcall. revert s. induction p as [a|x|X e k IH]; intros s; simpl; [done..|].
  intros [He Hk]. pose proof (Hcall X e s He) as H. destruct (h X e s) as [r s']. simpl in H. eapply Htrans; [exact H|]. by apply IH.
Qed.
End interleaving.

Create HintDb prog.
#[export] Hint Rewrite @run_bind @run_attempt @run_lift @run_call @run_perform : prog.
#[export] Hint Resolve all_ops_bind all_ops_attempt all_ops_lift all_ops_call all_ops_perform all_ops_forget all_ops_pfold : prog.

(** Walks through the text of a program, leaving one goal per call it makes. *)
Ltac all_ops_tac :=
  repeat lazymatch goal with
  | |- all_ops _ (lift _) => apply all_ops_lift
  | |- all_ops _ (pbind _ _) => apply all_ops_bind; [|intros ?]
  | |- all_ops _ (attempt _) => apply all_ops_attempt
  | |- all_ops _ (forget _) => apply all_ops_forget
  | |- all_ops _ (call _) => apply all_ops_call
  | |- all_ops _ (perform _) => apply all_ops_perform
  | |- all_ops _ (pfold _ _ _) => apply all_ops_pfold; intros ? ?
  | |- all_ops _ (Ret _) => exact I
  | |- all_ops _ (Raise _) => exact I
  | |- all_ops _ ?p => match p with context [match ?x with _ => _ end] => destruct x end
  end.
