(* ===== verification/System.v ===== *)
(** * The running system: shared objects and the calls on them

    [sysE] lists every call a pipeline component makes on an object it shares with other
    workers: the ledger, the review registry, the scenario store, the vector index and the
    embedding provider. [world] is the state of those objects and [handle] executes one call
    atomically. The ledger and the review registry are the repository's own in-memory
    classes; the index, the embedding provider and the scenario store are interfaces
    ([IndexerAdapter], [EmbedderAdapter], [ScenarioStore]) and, like the clock, arguments of
    the model, gathered in [Env]. *)
From S2P Require Import Prelude PyDict Types Identity Ledger Prog.
#[local] Open Scope Z_scope.
Import Identity Ledger.

(** ** The collaborators behind interfaces

    An adapter's method may raise and may change the adapter's own state. *)
Class Env := {
  (** The [n]-th reading of [datetime.now(timezone.utc)]. *)
  clock : nat → Z;
  (** [repr] of a string, which the source only puts into messages. *)
  str_repr : string → string;
  (** [str] of a metadata value that is neither a string, a number nor [None]. *)
  meta_repr : metaval → string;
  (** [IndexerAdapter] (src/vestibule/indexer/adapters/base.py). *)
  index_state : Type;
  ix_upsert : list IndexRecord → index_state → result exn UpsertOutcome * index_state;
  ix_delete_by_doc_id : string → index_state → result exn Z * index_state;
  ix_get_doc_version : string → index_state → result exn (option string) * index_state;
  ix_index_name : string;
  ix_max_batch_size : Z;
  (** [EmbedderAdapter] (src/vestibule/embedder/adapters/base.py). *)
  embed_state : Type;
  ea_embed_batch : list string → embed_state → result exn (list (list pyfloat)) * embed_state;
  ea_model_name : string;
  ea_max_batch_size : Z;
  ea_max_input_tokens : Z;
  ea_supports_mrl : bool;
  ea_document_prefix : option string;
  (** [ScenarioStore] (src/vestibule/scenario/stores/base.py). *)
  scenario_state : Type;
  ss_get : string → scenario_state → result exn (option Scenario) * scenario_state;
  ss_get_by_vertical : string → scenario_state → result exn (option Scenario) * scenario_state;
}.

Inductive sysE : Type → Type :=
| LCreate (doc_id : string) (s : EnvelopeSummary) : sysE (result exn LedgerRow)
| LTransition (doc_id : string) (to_status stage : Status) (error_code error_message assigned : option string)
    : sysE (result exn LedgerRow)
| LGet (doc_id : string) : sysE (option LedgerRow)
| LList (status : Status) (limit : Z) : sysE (list LedgerRow)
| RRecord (doc_id : string) (m : _ParkedMetadata) : sysE unit
| RGet (doc_id : string) : sysE (option _ParkedMetadata)
| RDiscard (doc_id : string) : sysE unit
| SGet (scenario_id : string) : sysE (result exn (option Scenario))
| SByVertical (vertical : string) : sysE (result exn (option Scenario))
| IUpsert (records : list IndexRecord) : sysE (result exn UpsertOutcome)
| IDelete (doc_id : string) : sysE (result exn Z)
| IVersion (doc_id : string) : sysE (result exn (option string))
| EBatch (texts : list string) : sysE (result exn (list (list pyfloat)))
| Now : sysE Z.

Notation component A := (prog sysE A).

(** ** The ledger-write idiom every component uses

    [except LedgerTransitionInvalid as exc: if not is_benign_concurrent_loss(...): raise]:
    a benign loss yields the row that was seen, anything else propagates. *)
Definition triage (x : exn) (t : Status) : component (option LedgerRow) :=
  match x with
  | LedgerTransitionInvalid _ _ observed _ _ =>
    pbind (lift (is_benign_concurrent_loss observed t t)) (λ b,
    if b : bool then Ret observed else Raise x)
  | _ => Raise x
  end.

(** A transition whose benign loss is ignored. *)
Definition transition_or_benign (d : string) (t : Status) (ec em a : option string) : component unit :=
  pbind (attempt (call (LTransition d t t ec em a))) (λ r,
  match r with
  | Ok _ => Ret tt
  | Exc x => pbind (triage x t) (λ _, Ret tt)
  end).

(** [ReviewRegistry] (src/vestibule/vertical/review_queue.py): each method runs under its lock. *)
Definition review_record (doc_id : string) (m : _ParkedMetadata) (r : list (string * _ParkedMetadata)) := dict_set doc_id m r.
Definition review_get (doc_id : string) (r : list (string * _ParkedMetadata)) := dict_get doc_id r.
Definition review_discard (doc_id : string) (r : list (string * _ParkedMetadata)) := dict_pop doc_id r.

Section world.
Context {env : Env}.

Record world := mkWorld {
  w_ledger : LedgerStore;
  w_review : list (string * _ParkedMetadata);
  w_index : index_state;
  w_embed : embed_state;
  w_scenarios : scenario_state;
  w_ticks : nat;
}.

Definition set_ledger (rows : LedgerStore) (w : world) : world :=
  mkWorld rows (w_review w) (w_index w) (w_embed w) (w_scenarios w) (S (w_ticks w)).
Definition set_review (m : list (string * _ParkedMetadata)) (w : world) : world :=
  mkWorld (w_ledger w) m (w_index w) (w_embed w) (w_scenarios w) (w_ticks w).
Definition set_index (i : index_state) (w : world) : world :=
  mkWorld (w_ledger w) (w_review w) i (w_embed w) (w_scenarios w) (w_ticks w).
Definition set_embed (e : embed_state) (w : world) : world :=
  mkWorld (w_ledger w) (w_review w) (w_index w) e (w_scenarios w) (w_ticks w).
Definition set_scenarios (s : scenario_state) (w : world) : world :=
  mkWorld (w_ledger w) (w_review w) (w_index w) (w_embed w) s (w_ticks w).

(** The instant the next ledger write would record. *)
Definition w_now (w : world) : Z := clock (w_ticks w).

Definition ledger_call (r : result exn (LedgerRow * LedgerStore)) (w : world) : result exn LedgerRow * world :=
  match r with
  | Ok (row, rows) => (Ok row, set_ledger rows w)
  | Exc x => (Exc x, set_ledger (w_ledger w) w)
  end.

Definition handle (X : Type) (e : sysE X) (w : world) : X * world :=
  match e with
  | LCreate d s => ledger_call (create (w_now w) d s (w_ledger w)) w
  | LTransition d t g ec em a => ledger_call (transition (w_now w) d t g ec em a (w_ledger w)) w
  | LGet d => (get d (w_ledger w), w)
  | LList s limit => (list_by_status s limit (w_ledger w), w)
  | RRecord d m => (tt, set_review (review_record d m (w_review w)) w)
  | RGet d => (review_get d (w_review w), w)
  | RDiscard d => (tt, set_review (review_discard d (w_review w)) w)
  | SGet s => let '(r, st) := ss_get s (w_scenarios w) in (r, set_scenarios st w)
  | SByVertical v => let '(r, st) := ss_get_by_vertical v (w_scenarios w) in (r, set_scenarios st w)
  | IUpsert rs => let '(r, st) := ix_upsert rs (w_index w) in (r, set_index st w)
  | IDelete d => let '(r, st) := ix_delete_by_doc_id d (w_index w) in (r, set_index st w)
  | IVersion d => let '(r, st) := ix_get_doc_version d (w_index w) in (r, set_index st w)
  | EBatch ts => let '(r, st) := ea_embed_batch ts (w_embed w) in (r, set_embed st w)
  | Now => (w_now w, set_ledger (w_ledger w) w)
  end.

(** The ledger write a call amounts to, if it is one. *)
Definition call_op (now : Z) {X} (e : sysE X) : option ledger_op :=
  match e with
  | LCreate d s => Some (OpCreate now d s)
  | LTransition d t g ec em a => Some (OpTransition now d t g ec em a)
  | _ => None
  end.

Lemma handle_ledger X (e : sysE X) w :
  w_ledger (handle X e w).2 =
  match call_op (w_now w) e with Some o => apply_op (w_ledger w) o | None => w_ledger w end.
Proof.
  destruct e; simpl; try done;
    try (by destruct (create _ _ _ _) as [[]|]); try (by destruct (transition _ _ _ _ _ _ _ _) as [[]|]);
    by case_match.
Qed.

(** Two-state property of the ledger that every call of the system satisfies. *)
Definition ledger_evolves (w w' : world) : Prop :=
  ∃ ops, w_ledger w' = fold_left apply_op ops (w_ledger w).

Lemma ledger_evolves_refl w : ledger_evolves w w.
Proof. by exists []. Qed.

Lemma ledger_evolves_trans w1 w2 w3 : ledger_evolves w1 w2 → ledger_evolves w2 w3 → ledger_evolves w1 w3.
Proof. intros [o1 H1] [o2 H2]. exists (o1 ++ o2). by rewrite fold_left_app, <- H1. Qed.

Lemma handle_evolves X (e : sysE X) w : ledger_evolves w (handle X e w).2.
Proof.
  unfold ledger_evolves. rewrite handle_ledger. destruct (call_op (w_now w) e) as [o|]; [by exists [o]|by exists []].
Qed.

Lemma run_evolves {A} (p : component A) w : ledger_evolves w (run handle p w).2.
Proof.
  apply (run_preserves handle (λ _ _, True)); eauto using ledger_evolves_refl, ledger_evolves_trans, handle_evolves.
  induction p; simpl; auto.
Qed.

Lemma run_ledger_ok {A} (p : component A) w :
  ledger_ok (w_ledger w) → ledger_ok (w_ledger (run handle p w).2).
Proof. intros Hok. destruct (run_evolves p w) as [ops ->]. by apply ops_ok. Qed.

(** ** How the pieces of a handler run *)

Lemma run_transition d t g ec em a w :
  run handle (call (LTransition d t g ec em a)) w =
  ledger_call (transition (w_now w) d t g ec em a (w_ledger w)) w.
Proof. by rewrite run_call. Qed.

Lemma run_get d w : run handle (perform (LGet d)) w = (Ok (get d (w_ledger w)), w).
Proof. done. Qed.

(** A legal transition, run in a world: the row is replaced and the tick advances. *)
Lemma run_transition_ok d t ec em a w cur :
  hex_re 64 d = true → dict_get d (w_ledger w) = Some cur → row_ok d cur → edge (row_status cur) t →
  ¬ (t = FAILED ∧ ec = None) →
  run handle (call (LTransition d t t ec em a)) w =
  (Ok (next_row (w_now w) d t t ec em a cur),
   set_ledger (dict_set d (next_row (w_now w) d t t ec em a cur) (w_ledger w)) w).
Proof.
  intros Hd Hc Hok He Hf. rewrite run_transition.
  assert (transition (w_now w) d t t ec em a (w_ledger w) =
          Ok (next_row (w_now w) d t t ec em a cur, dict_set d (next_row (w_now w) d t t ec em a cur) (w_ledger w))) as ->; [|done].
  apply transition_ok_iff. split; [done|]. exists cur. split_and!; try done; [by apply legal_edge|].
  apply next_attempts_nonneg, Hok.
Qed.

(** An illegal transition raises with the row that was seen. *)
Lemma run_transition_illegal d t ec em a w cur :
  hex_re 64 d = true → dict_get d (w_ledger w) = Some cur → ¬ edge (row_status cur) t →
  ∃ reason, run handle (call (LTransition d t t ec em a)) w =
    (Exc (LedgerTransitionInvalid d reason (Some cur) t t), set_ledger (w_ledger w) w).
Proof.
  intros Hd Hc He. rewrite run_transition. unfold transition, Identity.validate_id_format.
  unfold Identity.ID_HEX_LENGTH. rewrite Hd. simpl.
  destruct (validate_transition _ _ _ _ _) as [r|x] eqn:E; simpl.
  - apply validate_transition_ok in E as (Hr & _ & Hl%legal_edge & _). exfalso. apply He. congruence.
  - pose proof (validate_transition_exc _ _ _ _ _ _ E) as [reason ->]. rewrite Hc. eauto.
Qed.
Lemma run_transition_unknown d t ec em a w :
  hex_re 64 d = true → dict_get d (w_ledger w) = None →
  run handle (call (LTransition d t t ec em a)) w =
    (Exc (LedgerTransitionInvalid d "unknown doc_id" None t t), set_ledger (w_ledger w) w).
Proof.
  intros Hd Hc. rewrite run_transition. unfold transition, Identity.validate_id_format, Identity.ID_HEX_LENGTH.
  rewrite Hd. simpl. by rewrite Hc.
Qed.

Lemma run_triage d reason o t' g t w :
  run handle (triage (LedgerTransitionInvalid d reason o t' g) t) w =
  ((if benign o t t then Ok o else Exc (LedgerTransitionInvalid d reason o t' g)), w).
Proof. simpl. rewrite is_benign_eq. simpl. by destruct (benign o t t). Qed.

Lemma run_transition_or_benign_ok d t ec em a w cur :
  hex_re 64 d = true → dict_get d (w_ledger w) = Some cur → row_ok d cur → edge (row_status cur) t →
  ¬ (t = FAILED ∧ ec = None) →
  run handle (transition_or_benign d t ec em a) w =
  (Ok tt, set_ledger (dict_set d (next_row (w_now w) d t t ec em a cur) (w_ledger w)) w).
Proof.
  intros. unfold transition_or_benign. rewrite run_bind, run_attempt.
  by rewrite (run_transition_ok d t ec em a w cur).
Qed.

Lemma run_transition_or_benign_illegal d t ec em a w cur :
  hex_re 64 d = true → dict_get d (w_ledger w) = Some cur → ¬ edge (row_status cur) t →
  ∃ reason, run handle (transition_or_benign d t ec em a) w =
  ((if benign (Some cur) t t then Ok tt else Exc (LedgerTransitionInvalid d reason (Some cur) t t)),
   set_ledger (w_ledger w) w).
Proof.
  intros Hd Hc He. destruct (run_transition_illegal d t ec em a w cur Hd Hc He) as [reason Hr].
  exists reason. unfold transition_or_benign. rewrite run_bind, run_attempt, Hr. cbn [fst snd].
  rewrite run_bind, run_triage. by destruct (benign _ _ _).
Qed.
End world.

(** ** Which ledger writes a program may request *)

(** Every transition requested by the call has its target in [ts]. *)
Definition targets_in (ts : list Status) (X : Type) (e : sysE X) : Prop :=
  match e with
  | LTransition _ t _ _ _ _ => t ∈ ts
  | _ => True
  end.

(** Calls that only reach the embedding provider or the index. *)
Definition provider_only (X : Type) (e : sysE X) : Prop :=
  match e with IUpsert _ | IDelete _ | IVersion _ | EBatch _ => True | _ => False end.

Lemma run_provider_only {env : Env} {A} (p : component A) w :
  all_ops provider_only p → w_ledger (run handle p w).2 = w_ledger w ∧ w_review (run handle p w).2 = w_review w ∧ w_now (run handle p w).2 = w_now w.
Proof.
  apply (run_preserves handle provider_only (λ w w', w_ledger w' = w_ledger w ∧ w_review w' = w_review w ∧ w_now w' = w_now w)); [done|intuition congruence|].
  intros X e s He. destruct e; try done; simpl; by case_match.
Qed.

Lemma triage_targets ts x t : all_ops (targets_in ts) (triage x t).
Proof. unfold triage. all_ops_tac. Qed.

Lemma transition_or_benign_targets ts d t ec em a :
  t ∈ ts → all_ops (targets_in ts) (transition_or_benign d t ec em a).
Proof. intros Ht. unfold transition_or_benign. all_ops_tac; [done|apply triage_targets]. Qed.

#[export] Hint Resolve triage_targets transition_or_benign_targets : prog.

(** ** A concrete environment for the witnesses

    The clock counts its readings; the adapters are stateless: the index accepts every
    record, the provider embeds every text as one unit vector, the store has no scenario. *)
Definition unit_env : Env := {|
  clock n := Z.of_nat n;
  str_repr s := "'" +:+ s +:+ "'";
  meta_repr _ := "<object>";
  index_state := unit;
  ix_upsert rs st := (Ok (mkOutcome (map ir_chunk_id rs) []), st);
  ix_delete_by_doc_id _ st := (Ok 0, st);
  ix_get_doc_version _ st := (Ok None, st);
  ix_index_name := "unit";
  ix_max_batch_size := 10;
  embed_state := unit;
  ea_embed_batch ts st := (Ok (map (λ _, [S754_finite false 4503599627370496 (-52)]) ts), st);
  ea_model_name := "unit-model";
  ea_max_batch_size := 10;
  ea_max_input_tokens := 100;
  ea_supports_mrl := true;
  ea_document_prefix := None;
  scenario_state := unit;
  ss_get _ st := (Ok None, st);
  ss_get_by_vertical _ st := (Ok None, st);
|}.

Definition unit_world (rows : LedgerStore) : @world unit_env := @mkWorld unit_env rows [] tt tt tt 100.
