(* ===== verification/Reprocessor.v ===== *)
(** * Poison-queue operator tooling (src/vestibule/reprocessor)

    [list_failed] and [summarize] read the failed rows; [requeue], [requeue_by_error_code] and
    [archive] are the two exits from [FAILED]. The methods read the ledger and write it in
    separate calls, so other workers can act in between; logging is left out. *)
From S2P Require Import Prelude PyDict Errors ErrorCodes Types Identity Ledger Prog System.
#[local] Open Scope Z_scope.
#[local] Open Scope py_scope.

Module Reprocessor.
Import Identity Ledger.

Definition REPROCESS_NOT_FAILED : string := "REPROCESS_NOT_FAILED".
Definition REPROCESS_DOC_NOT_FOUND : string := "REPROCESS_DOC_NOT_FOUND".
Definition _DEFAULT_LIST_LIMIT : Z := 100.
Definition _DEFAULT_MAX_BATCH_REQUEUE : Z := 500.
Definition _UNKNOWN_ERROR_CODE : string := "UNKNOWN".
Definition _UNKNOWN_STAGE : string := "unknown".
Definition _SCAN_LIMIT : Z := 10000.

Record FailedItem := mkFailedItem {
  fi_doc_id : string;
  fi_source : option string;
  fi_blob_path : option string;
  fi_stage : string;
  fi_error_code : string;
  fi_error_message : option string;
  fi_severity : Errors.Severity;
  fi_attempts : Z;
  fi_failed_at : Z;
  fi_first_ingested_at : Z;
  fi_assigned_scenario_id : option string;
}.

Record FailureSummary := mkFailureSummary {
  fs_total : Z;
  fs_by_error_code : list (string * Z);
  fs_by_stage : list (string * Z);
  fs_oldest_failure_at : option Z;
  fs_newest_failure_at : option Z;
}.

Record RequeueResult := mkRequeueResult {
  rq_doc_id : string; rq_previous_error_code : string; rq_requeued_at : Z }.

Record BatchRequeueResult := mkBatchRequeueResult {
  br_error_code : string; br_requeued : list string; br_skipped : list string }.

Record ReprocessorConfig := mkReprocessorConfig { max_batch_requeue : Z }.

Definition default_config : ReprocessorConfig := mkReprocessorConfig _DEFAULT_MAX_BATCH_REQUEUE.

Definition _STAGE_PREFIXES : list (string * string) :=
  [("ANALYZER_", status_value ANALYZING);
   ("PARSER_", status_value ANALYZING);
   ("DOCINT_", status_value ANALYZING);
   ("CHUNKER_", status_value CHUNKING);
   ("TOKENIZER_", status_value CHUNKING);
   ("EMBEDDER_", status_value EMBEDDING);
   ("INDEXER_", status_value INDEXING)].

(** [error_code.startswith(prefix)] is [String.prefix]. *)
Fixpoint infer_from (prefixes : list (string * string)) (error_code : string) : string :=
  match prefixes with
  | [] => _UNKNOWN_STAGE
  | (prefix, stage) :: rest => if String.prefix prefix error_code then stage else infer_from rest error_code
  end.

Definition _infer_stage (error_code : string) : string := infer_from _STAGE_PREFIXES error_code.

Definition _to_failed_item (row : LedgerRow) : FailedItem :=
  let error_code := py_or (row_last_error_code row) _UNKNOWN_ERROR_CODE in
  {| fi_doc_id := row_doc_id row;
     fi_source := None;
     fi_blob_path := None;
     fi_stage := _infer_stage error_code;
     fi_error_code := error_code;
     fi_error_message := row_last_error_message row;
     fi_severity := Errors.classify error_code ErrorCodes.default_registry;
     fi_attempts := row_attempts row;
     fi_failed_at := row_updated_at row;
     fi_first_ingested_at := row_ingested_at row;
     fi_assigned_scenario_id := row_assigned_scenario_id row |}.

(** [if f is not None: items = [item for item in items if ...]]. *)
Definition filter_opt {A} (f : option A) (keep : A → FailedItem → bool) (items : list FailedItem) : list FailedItem :=
  match f with
  | None => items
  | Some a => List.filter (keep a) items
  end.

Definition list_failed (limit : Z) (error_code stage : option string) (since : option Z) : component (list FailedItem) :=
  if bool_decide (limit ≤ 0) then Ret [] else
  pbind (perform (LList FAILED _SCAN_LIMIT)) (λ rows,
  let items := map _to_failed_item rows in
  let items := filter_opt error_code (λ c item, bool_decide (fi_error_code item = c)) items in
  let items := filter_opt stage (λ s item, bool_decide (fi_stage item = s)) items in
  let items := filter_opt since (λ t item, bool_decide (t ≤ fi_failed_at item)) items in
  Ret (py_take limit items)).

(** [d[k] = d.get(k, 0) + 1]. *)
Definition bump (k : string) (d : list (string * Z)) : list (string * Z) :=
  dict_set k (default 0 (dict_get k d) + 1) d.

Definition pick (better : Z → Z → bool) (o : option Z) (x : Z) : option Z :=
  match o with
  | None => Some x
  | Some y => if better x y then Some x else Some y
  end.

(** One iteration of the loop of [summarize]: the two counters and the two extremes. *)
Definition summarize_row (acc : list (string * Z) * list (string * Z) * option Z * option Z) (row : LedgerRow)
    : list (string * Z) * list (string * Z) * option Z * option Z :=
  let '(by_error_code, by_stage, oldest, newest) := acc in
  let error_code := py_or (row_last_error_code row) _UNKNOWN_ERROR_CODE in
  (bump error_code by_error_code, bump (_infer_stage error_code) by_stage,
   pick Z.ltb oldest (row_updated_at row), pick Z.gtb newest (row_updated_at row)).

Definition summarize_rows (rows : list LedgerRow) : FailureSummary :=
  let '(by_error_code, by_stage, oldest, newest) := fold_left summarize_row rows ([], [], None, None) in
  mkFailureSummary (Z.of_nat (length rows)) by_error_code by_stage oldest newest.

Definition summarize : component FailureSummary :=
  pbind (perform (LList FAILED _SCAN_LIMIT)) (λ rows, Ret (summarize_rows rows)).

Definition _require_failed (doc_id caller : string) : component LedgerRow :=
  pbind (perform (LGet doc_id)) (λ current,
  match current with
  | None =>
    Raise (ReprocessorError doc_id (caller +:+ "() called for an unknown doc_id") REPROCESS_DOC_NOT_FOUND)
  | Some row =>
    if decide (row_status row = FAILED) then Ret row else
    Raise (ReprocessorError doc_id
      (caller +:+ "() called for a doc_id not currently failed (status=" +:+ status_value (row_status row) +:+ ")")
      REPROCESS_NOT_FAILED)
  end).

Definition requeue (doc_id : string) : component RequeueResult :=
  pbind (_require_failed doc_id "requeue") (λ current,
  let previous_error_code := py_or (row_last_error_code current) _UNKNOWN_ERROR_CODE in
  pbind (attempt (call (LTransition doc_id PENDING PENDING None None None))) (λ r,
  pbind (match r with
         | Ok row => Ret row
         | Exc x =>
           pbind (triage x PENDING) (λ observed,
           match observed with
           | Some row => Ret row
           | None => Raise (PyExc "AssertionError" "")
           end)
         end) (λ row,
  Ret (mkRequeueResult doc_id previous_error_code (row_updated_at row))))).

(** The loop body of [requeue_by_error_code]. *)
Definition requeue_one (acc : list string * list string) (item : FailedItem) : component (list string * list string) :=
  pbind (attempt (requeue (fi_doc_id item))) (λ r,
  match r with
  | Ok _ => Ret (acc.1 ++ [fi_doc_id item], acc.2)
  | Exc (ReprocessorError d reason code as x) =>
    if decide (code ≠ REPROCESS_NOT_FAILED) then Raise x else Ret (acc.1, acc.2 ++ [fi_doc_id item])
  | Exc x => Raise x
  end).

Definition requeue_by_error_code (config : ReprocessorConfig) (error_code : string) (limit : Z) : component BatchRequeueResult :=
  let effective_limit := Z.min limit (max_batch_requeue config) in
  pbind (list_failed effective_limit (Some error_code) None None) (λ candidates,
  pbind (pfold requeue_one ([], []) candidates) (λ acc,
  Ret (mkBatchRequeueResult error_code acc.1 acc.2))).

Definition archive (doc_id reason : string) : component unit :=
  pbind (_require_failed doc_id "archive") (λ current,
  transition_or_benign doc_id ARCHIVED (row_last_error_code current) (Some reason) None).

(** ** Lemmas *)
Section lemmas.
Context {env : Env}.

Lemma run_require_failed d caller w :
  run handle (_require_failed d caller) w =
  (match dict_get d (w_ledger w) with
   | None => Exc (ReprocessorError d (caller +:+ "() called for an unknown doc_id") REPROCESS_DOC_NOT_FOUND)
   | Some row => if decide (row_status row = FAILED) then Ok row else
       Exc (ReprocessorError d (caller +:+ "() called for a doc_id not currently failed (status="
              +:+ status_value (row_status row) +:+ ")") REPROCESS_NOT_FAILED)
   end, w).
Proof. unfold _require_failed. simpl. unfold get. destruct (dict_get _ _); [|done]. by case_decide. Qed.

(** The row [requeue] leaves behind. *)
Definition requeued_row (now : Z) (cur : LedgerRow) : LedgerRow :=
  mkRow (row_doc_id cur) PENDING PENDING 0 None None (row_config_version cur) (row_ingested_at cur) now
        (row_assigned_scenario_id cur).

Lemma next_row_requeue now d cur :
  row_doc_id cur = d → row_status cur = FAILED →
  next_row now d PENDING PENDING None None None cur = requeued_row now cur.
Proof.
  intros <- Hs. unfold next_row, requeued_row, _next_attempts, _next_error_fields. rewrite Hs. done.
Qed.

Lemma run_requeue_failed d w cur :
  ledger_ok (w_ledger w) → dict_get d (w_ledger w) = Some cur → row_status cur = FAILED →
  run handle (requeue d) w =
  (Ok (mkRequeueResult d (py_or (row_last_error_code cur) _UNKNOWN_ERROR_CODE) (w_now w)),
   set_ledger (dict_set d (requeued_row (w_now w) cur) (w_ledger w)) w).
Proof.
  intros Hok Hc Hs. pose proof (proj2 Hok _ _ Hc) as Hrow.
  unfold requeue. rewrite run_bind, run_require_failed, Hc, decide_True by done.
  rewrite run_bind, run_attempt. pose proof Hrow as (Hd & Hhex & _).
  rewrite (run_transition_ok d PENDING None None None w cur Hhex Hc Hrow);
    [|rewrite Hs; constructor|naive_solver].
  by rewrite (next_row_requeue (w_now w) d cur).
Qed.

Lemma run_requeue_one_failed acc item w cur :
  ledger_ok (w_ledger w) → dict_get (fi_doc_id item) (w_ledger w) = Some cur → row_status cur = FAILED →
  run handle (requeue_one acc item) w =
  (Ok (acc.1 ++ [fi_doc_id item], acc.2),
   set_ledger (dict_set (fi_doc_id item) (requeued_row (w_now w) cur) (w_ledger w)) w).
Proof.
  intros Hok Hc Hs. unfold requeue_one. by rewrite run_bind, run_attempt, (run_requeue_failed _ _ cur).
Qed.

(** ** The batch loop, run without interference *)

Definition requeue_ids (ids : list string) (rows rows' : LedgerStore) : Prop :=
  ∀ d, (d ∉ ids → dict_get d rows' = dict_get d rows) ∧
       (d ∈ ids → ∃ cur now, dict_get d rows = Some cur ∧ dict_get d rows' = Some (requeued_row now cur)).

Lemma run_requeue_loop items acc w :
  ledger_ok (w_ledger w) → NoDup (map fi_doc_id items) →
  (∀ item, item ∈ items → status_of (fi_doc_id item) (w_ledger w) = Some FAILED) →
  ∃ w', run handle (pfold requeue_one acc items) w = (Ok (acc.1 ++ map fi_doc_id items, acc.2), w') ∧
        requeue_ids (map fi_doc_id items) (w_ledger w) (w_ledger w').
Proof.
  revert acc w. induction items as [|item items IH]; intros acc w Hok Hnd Hall; cbn [pfold map] in *.
  { exists w. simpl. rewrite app_nil_r. destruct acc. split; [done|]. intros d. split; [done|]. by intros ?%elem_of_nil. }
  apply NoDup_cons in Hnd as [Hnin Hnd].
  destruct (dict_get (fi_doc_id item) (w_ledger w)) as [cur|] eqn:Hc.
  2:{ specialize (Hall item). unfold status_of in Hall. rewrite Hc in Hall. set_solver. }
  assert (Hs : row_status cur = FAILED).
  { specialize (Hall item). unfold status_of in Hall. rewrite Hc in Hall. simpl in Hall. set_solver. }
  rewrite run_bind, (run_requeue_one_failed _ _ _ cur) by done. cbn beta iota. set (w1 := set_ledger _ w).
  destruct (IH (acc.1 ++ [fi_doc_id item], acc.2) w1) as (w' & Hrun & Hids).
  - pose proof (run_ledger_ok (requeue (fi_doc_id item)) w Hok) as H.
    rewrite (run_requeue_failed _ _ cur) in H by done. exact H.
  - done.
  - intros item' Hin. unfold status_of. unfold w1. simpl. rewrite dict_get_set_ne.
    + apply Hall. set_solver.
    + intros Heq. apply Hnin. rewrite <- Heq. apply list_elem_of_fmap. eauto.
  - exists w'. split.
    + rewrite Hrun. simpl. by rewrite <- app_assoc.
    + intros d. destruct (Hids d) as [Hout Hin]. split.
      * intros Hd. rewrite Hout by set_solver. unfold w1. simpl. rewrite dict_get_set_ne; set_solver.
      * intros [->|Hd]%elem_of_cons.
        -- destruct (Hids (fi_doc_id item)) as [Hout' _]. rewrite Hout' by done. unfold w1. simpl.
           rewrite dict_get_set_eq. eauto.
        -- destruct (Hin Hd) as (cur' & now & Hcur' & Hnew). unfold w1 in Hcur'. simpl in Hcur'.
           rewrite dict_get_set_ne in Hcur' by set_solver. eauto.
Qed.

(** ** The candidates of a batch *)

Lemma values_doc_ids rows : ledger_ok rows → NoDup (map row_doc_id (dict_values rows)).
Proof.
  intros [Hwf Hall]. assert (map row_doc_id (dict_values rows) = rows.*1) as ->; [|done].
  unfold dict_values. change (map row_doc_id rows.*2) with (row_doc_id <$> rows.*2).
  rewrite <- list_fmap_compose. apply list_fmap_ext. intros i [k v] Hi. simpl.
  apply list_elem_of_lookup_2 in Hi. apply dict_elem_get in Hi; [|done]. by apply Hall in Hi as [? _].
Qed.

Lemma list_by_status_sub status limit rows :
  list_by_status status limit rows ⊆+ dict_values rows.
Proof.
  unfold list_by_status. case_bool_decide; [apply submseteq_nil_l|].
  etrans; [apply sublist_submseteq, py_take_sublist|]. rewrite py_sort_perm. apply sublist_submseteq, sublist_filter.
Qed.

Lemma filter_opt_sub {A} (f : option A) keep items : filter_opt f keep items `sublist_of` items.
Proof.
  destruct f; simpl; [|done]. induction items as [|x items IH]; simpl; [done|]. destruct (keep a x); by constructor.
Qed.

Lemma run_list_failed limit ec st since w :
  ∃ items, run handle (list_failed limit ec st since) w = (Ok items, w) ∧
    items `sublist_of` map _to_failed_item (list_by_status FAILED _SCAN_LIMIT (w_ledger w)) ∧
    (Z.of_nat (length items) ≤ Z.max 0 limit).
Proof.
  unfold list_failed. case_bool_decide.
  { exists []. split_and!; [done|apply sublist_nil_l|simpl; lia]. }
  eexists. split; [reflexivity|]. simpl. split.
  - etrans; [apply py_take_sublist|]. do 3 (etrans; [apply filter_opt_sub|]). done.
  - rewrite py_take_length by lia. lia.
Qed.

Lemma failed_items_ok w items :
  ledger_ok (w_ledger w) →
  items `sublist_of` map _to_failed_item (list_by_status FAILED _SCAN_LIMIT (w_ledger w)) →
  NoDup (map fi_doc_id items) ∧
  ∀ item, item ∈ items → status_of (fi_doc_id item) (w_ledger w) = Some FAILED.
Proof.
  intros Hok Hsub. split.
  - assert (Hs : map fi_doc_id items ⊆+ map row_doc_id (dict_values (w_ledger w))).
    { etrans; [apply sublist_submseteq, fmap_sublist, Hsub|].
      change (map _to_failed_item ?l) with (_to_failed_item <$> l). rewrite <- list_fmap_compose.
      apply (fmap_submseteq row_doc_id), list_by_status_sub. }
    eapply NoDup_submseteq_of; [exact Hs|by apply values_doc_ids].
  - intros item Hin. eapply elem_of_submseteq in Hin; [|by apply sublist_submseteq].
    apply list_elem_of_fmap in Hin as (row & -> & Hrow).
    destruct (list_by_status_correct FAILED _SCAN_LIMIT (w_ledger w)) as [Hall _].
    rewrite Forall_forall in Hall. destruct (Hall _ Hrow) as [Hst Hval].
    apply list_elem_of_fmap in Hval as ([k row'] & -> & Hel). simpl in *.
    apply dict_elem_get in Hel; [|apply Hok]. pose proof (proj2 Hok _ _ Hel) as (-> & _).
    unfold status_of. rewrite Hel. simpl. by rewrite Hst.
Qed.
End lemmas.

(** ** The summary's counters *)

Definition row_code (row : LedgerRow) : string := py_or (row_last_error_code row) _UNKNOWN_ERROR_CODE.

Definition count_rows (f : LedgerRow → string) (k : string) (rows : list LedgerRow) : Z :=
  Z.of_nat (length (filter (λ row, f row = k) rows)).

Lemma count_rows_snoc f k rows row :
  count_rows f k (rows ++ [row]) = count_rows f k rows + (if decide (f row = k) then 1 else 0).
Proof. unfold count_rows. rewrite filter_app, filter_cons, filter_nil. case_decide; rewrite length_app; simpl; lia. Qed.

Lemma bump_get k k' d :
  default 0 (dict_get k (bump k' d)) = default 0 (dict_get k d) + (if decide (k' = k) then 1 else 0).
Proof.
  unfold bump. rewrite dict_get_set. destruct (decide (k = k')) as [->|].
  - rewrite decide_True by done. done.
  - rewrite decide_False by done. lia.
Qed.

(** [pick] keeps an extreme of the values it has seen. *)
Definition extreme (le : Z → Z → Prop) (o : option Z) (ts : list Z) : Prop :=
  match o with None => ts = [] | Some t => t ∈ ts ∧ ∀ t', t' ∈ ts → le t t' end.

Lemma pick_extreme (better : Z → Z → bool) (le : Z → Z → Prop) o ts t :
  (∀ x, le x x) → (∀ x y z, le x y → le y z → le x z) →
  (∀ x y, better x y = true → le x y) → (∀ x y, better x y = false → le y x) →
  extreme le o ts → extreme le (pick better o t) (ts ++ [t]).
Proof.
  intros Hr Ht Hb Hn. destruct o as [y|]; simpl.
  - intros [Hy Hall]. destruct (better t y) eqn:E; simpl; (split; [set_solver|]);
      intros t' [Hin| ->%list_elem_of_singleton]%elem_of_app; eauto.
  - intros ->. split; [set_solver|]. intros t' ->%list_elem_of_singleton. done.
Qed.

Lemma summarize_fold rows :
  let '(bc, bs, oldest, newest) := fold_left summarize_row rows ([], [], None, None) in
  (∀ k, default 0 (dict_get k bc) = count_rows row_code k rows) ∧
  (∀ k, default 0 (dict_get k bs) = count_rows (λ r, _infer_stage (row_code r)) k rows) ∧
  extreme Z.le oldest (map row_updated_at rows) ∧ extreme Z.ge newest (map row_updated_at rows).
Proof.
  induction rows as [|row rows IH] using rev_ind; [by split_and!|].
  rewrite fold_left_app. simpl. destruct (fold_left _ rows _) as [[[bc bs] o] n].
  destruct IH as (Hc & Hs & Ho & Hn). unfold summarize_row. split_and!.
  - intros k. rewrite bump_get, Hc, count_rows_snoc. done.
  - intros k. rewrite bump_get, Hs, count_rows_snoc. done.
  - rewrite map_app. apply pick_extreme; try done; intros; try lia.
  - rewrite map_app. apply pick_extreme; try done; intros; try lia.
Qed.

(** ** Properties *)

(** C39: [requeue] and [archive], run without interference on a well-formed ledger, on every
    branch. An unknown document raises [REPROCESS_DOC_NOT_FOUND] and a document that is not
    failed raises [REPROCESS_NOT_FAILED], both without a ledger write. A failed document is
    requeued to a fresh [PENDING] row (no attempts, no error, ingestion time and assigned
    scenario kept) or archived with its error code and the operator's reason. *)
Theorem requeue_archive_outcomes {env : Env} d reason w :
  ledger_ok (w_ledger w) →
  match dict_get d (w_ledger w) with
  | None =>
    (∃ m, run handle (requeue d) w = (Exc (ReprocessorError d m REPROCESS_DOC_NOT_FOUND), w)) ∧
    (∃ m, run handle (archive d reason) w = (Exc (ReprocessorError d m REPROCESS_DOC_NOT_FOUND), w))
  | Some cur =>
    if decide (row_status cur = FAILED) then
      run handle (requeue d) w =
        (Ok (mkRequeueResult d (py_or (row_last_error_code cur) _UNKNOWN_ERROR_CODE) (w_now w)),
         set_ledger (dict_set d (requeued_row (w_now w) cur) (w_ledger w)) w) ∧
      ∃ row', run handle (archive d reason) w = (Ok tt, set_ledger (dict_set d row' (w_ledger w)) w) ∧
        row_status row' = ARCHIVED ∧ row_last_error_code row' = row_last_error_code cur ∧
        row_last_error_message row' = Some reason ∧ row_ingested_at row' = row_ingested_at cur
    else
      (∃ m, run handle (requeue d) w = (Exc (ReprocessorError d m REPROCESS_NOT_FAILED), w)) ∧
      (∃ m, run handle (archive d reason) w = (Exc (ReprocessorError d m REPROCESS_NOT_FAILED), w))
  end.
Proof.
  intros Hok. destruct (dict_get d (w_ledger w)) as [cur|] eqn:Hc.
  - case_decide as Hs.
    + split; [by apply run_requeue_failed|].
      pose proof (proj2 Hok _ _ Hc) as Hrow. pose proof Hrow as (_ & Hhex & _).
      unfold archive. rewrite run_bind, run_require_failed, Hc, decide_True by done.
      rewrite (run_transition_or_benign_ok d ARCHIVED _ _ _ w cur Hhex Hc Hrow);
        [|rewrite Hs; constructor|naive_solver].
      eexists. split; [done|]. unfold next_row, _next_error_fields. rewrite Hs. done.
    + split; eexists; (unfold requeue || unfold archive); by rewrite run_bind, run_require_failed, Hc, decide_False.
  - split; eexists; (unfold requeue || unfold archive); by rewrite run_bind, run_require_failed, Hc.
Qed.

(** A failed document, for the witnesses. *)
Definition failed_rows : LedgerStore :=
  [(example_doc, mkRow example_doc FAILED FAILED 3 (Some "PARSER_TIMEOUT") (Some "slow") "1" 1 7 None)].

Lemma failed_rows_ok : ledger_ok failed_rows.
Proof. apply (ledger_ok_set example_doc _ []); [|apply ledger_ok_empty]. split_and!; [done|apply example_doc_ok|done..|by eexists]. Qed.

Lemma failed_rows_get : dict_get example_doc failed_rows = Some
  (mkRow example_doc FAILED FAILED 3 (Some "PARSER_TIMEOUT") (Some "slow") "1" 1 7 None).
Proof. unfold failed_rows. simpl. by rewrite decide_True. Qed.

Lemma requeue_archive_outcomes_witness :
  run (@handle unit_env) (requeue example_doc) (unit_world failed_rows) =
    (Ok (mkRequeueResult example_doc "PARSER_TIMEOUT" 100),
     set_ledger (dict_set example_doc
       (mkRow example_doc PENDING PENDING 0 None None "1" 1 100 None) failed_rows) (unit_world failed_rows)).
Proof.
  pose proof (@requeue_archive_outcomes unit_env example_doc "gone" (unit_world failed_rows) failed_rows_ok) as H.
  cbn [w_ledger unit_world] in H. rewrite failed_rows_get in H. destruct H as [H _]. exact H.
Defined.

(** A batch requeue, run without interference, requeues exactly the documents
    [list_failed] shows for that error code, in that order and at most
    [min(limit, max_batch_requeue)] of them, skips none, and leaves every other row alone. *)
Theorem batch_requeue_exact {env : Env} config code limit w :
  ledger_ok (w_ledger w) →
  ∃ items w', run handle (list_failed (Z.min limit (max_batch_requeue config)) (Some code) None None) w = (Ok items, w) ∧
    run handle (requeue_by_error_code config code limit) w =
      (Ok (mkBatchRequeueResult code (map fi_doc_id items) []), w') ∧
    requeue_ids (map fi_doc_id items) (w_ledger w) (w_ledger w') ∧
    Z.of_nat (length items) ≤ Z.max 0 (Z.min limit (max_batch_requeue config)).
Proof.
  intros Hok.
  destruct (run_list_failed (Z.min limit (max_batch_requeue config)) (Some code) None None w) as (items & Hrun & Hsub & Hlen).
  destruct (failed_items_ok w items Hok Hsub) as [Hnd Hall].
  destruct (run_requeue_loop items ([], []) w Hok Hnd Hall) as (w' & Hloop & Hids).
  exists items, w'. split_and!; try done. unfold requeue_by_error_code. rewrite run_bind, Hrun. cbn beta iota.
  by rewrite run_bind, Hloop.
Qed.

Lemma batch_requeue_exact_witness :
  ∃ items w', run (@handle unit_env) (list_failed 100 (Some "PARSER_TIMEOUT") None None) (unit_world failed_rows) = (Ok items, unit_world failed_rows) ∧
    run handle (requeue_by_error_code default_config "PARSER_TIMEOUT" 100) (unit_world failed_rows) =
      (Ok (mkBatchRequeueResult "PARSER_TIMEOUT" (map fi_doc_id items) []), w').
Proof.
  destruct (@batch_requeue_exact unit_env default_config "PARSER_TIMEOUT" 100 (unit_world failed_rows) failed_rows_ok)
    as (items & w' & H1 & H2 & _). exists items, w'. split; [exact H1|exact H2].
Defined.

(** [summarize] is consistent with the rows it reads: the total is their number, each
    counter of either grouping is the number of rows in its group, and the oldest and newest
    instants are the extremes (absent only when nothing has failed). It writes nothing. *)
Theorem summarize_counts {env : Env} w :
  let rows := list_by_status FAILED _SCAN_LIMIT (w_ledger w) in
  ∃ s, run handle summarize w = (Ok s, w) ∧ fs_total s = Z.of_nat (length rows) ∧
    (∀ k, default 0 (dict_get k (fs_by_error_code s)) = count_rows row_code k rows) ∧
    (∀ k, default 0 (dict_get k (fs_by_stage s)) = count_rows (λ r, _infer_stage (row_code r)) k rows) ∧
    extreme Z.le (fs_oldest_failure_at s) (map row_updated_at rows) ∧
    extreme Z.ge (fs_newest_failure_at s) (map row_updated_at rows).
Proof.
  intros rows. exists (summarize_rows rows). split; [done|]. pose proof (summarize_fold rows) as H.
  unfold summarize_rows. destruct (fold_left _ _ _) as [[[bc bs] o] n]. done.
Qed.

(** The batch requeue does not survive every concurrent archive. There is an interleaving
    of [requeue_by_error_code] with another operator's [archive] of the same document in which
    the batch call raises [LedgerTransitionInvalid] instead of skipping the document: the
    archive lands between the batch's status check and its write. *)
Theorem batch_requeue_archive_race :
  ∃ pool' w' x,
    rtc (sched_step (@handle unit_env))
      ([forget (requeue_by_error_code default_config "PARSER_TIMEOUT" 100); forget (archive example_doc "never")],
       unit_world failed_rows) (pool', w') ∧
    pool' !! 0%nat = Some (Raise x) ∧ exn_error_code x = Some "LEDGER_TRANSITION_INVALID" ∧
    pool' !! 1%nat = Some (Ret tt) ∧ status_of example_doc (w_ledger w') = Some ARCHIVED.
Proof.
  set (c := ([forget (requeue_by_error_code default_config "PARSER_TIMEOUT" 100); forget (archive example_doc "never")],
             unit_world failed_rows)).
  exists (sched_exec (@handle unit_env) [0; 0; 1; 1; 0]%nat c).1, (sched_exec (@handle unit_env) [0; 0; 1; 1; 0]%nat c).2.
  exists (LedgerTransitionInvalid example_doc "no transitions out of terminal status"
    (Some (mkRow example_doc ARCHIVED ARCHIVED 1 (Some "PARSER_TIMEOUT") (Some "never") "1" 1 100 None)) PENDING PENDING).
  split_and!; [|by vm_compute..]. rewrite <- surjective_pairing. apply sched_exec_rtc.
Qed.

End Reprocessor.
