(* ===== verification/Analyzer.v ===== *)
(** * Document analyzer (src/vestibule/analyzer)

    Type detection, parser dispatch and the [analyzing] stage of the ledger. PyMuPDF and the
    parsers are arguments of the model. A parser call runs in its own thread under a timeout:
    its outcome is either that the timeout elapsed or what the call returned or raised. *)
From S2P Require Import Prelude PyDict Errors ErrorCodes Types Identity Ledger Prog System.
#[local] Open Scope Z_scope.

Module Analyzer.
Import Identity Ledger.

Definition ANALYZER_UNSUPPORTED_TYPE : string := "ANALYZER_UNSUPPORTED_TYPE".
Definition ANALYZER_NO_PARSER : string := "ANALYZER_NO_PARSER".
Definition ANALYZER_DEPENDENCY_MISSING : string := "ANALYZER_DEPENDENCY_MISSING".
Definition PARSER_TIMEOUT : string := "PARSER_TIMEOUT".
Definition PARSER_INTERNAL : string := "PARSER_INTERNAL".

(** ** Code outside the repository *)

(** What [pymupdf.open] gives: it raises, or a document with its password flag, its page count
    and, per page, the number of characters of [get_text()]. An exception is a [PyExc] with
    the built-in class it derives from. *)
Inductive pdf_document :=
| OpenRaises (x : exn)
| Opened (needs_pass : bool) (page_count : Z) (page_chars : nat → result exn Z).

Class AnalyzerEnv := {
  (** [None] when [import pymupdf] raises [ImportError]. *)
  pymupdf_open : option (string → pdf_document);
  (** [str] of a float, for the timeout message. *)
  float_repr : pyfloat → string;
}.

(** The document's bytes, or the exception the reader raises. *)
Definition BytesReader := result exn string.

(** The outcome of [future.result(timeout=...)]. *)
Inductive parse_outcome :=
| TimedOut
| Finished (r : result exn (list Element)).

Definition ParserAdapter := ArrivalEnvelope → BytesReader → parse_outcome.

(** ** Type detection (detect.py) *)

Definition _MAGIC_HEADER_BYTES : nat := 16.
Definition _PDF_MAGIC : string := "%PDF-".
Definition byte (n : nat) : ascii := ascii_of_nat n.
Definition _DOCX_MAGIC : string := "PK" +:+ String (byte 3) (String (byte 4) "").
Definition _IMAGE_MAGICS : list string :=
  [ String (byte 137) ("PNG" +:+ String (byte 13) (String (byte 10) (String (byte 26) (String (byte 10) ""))));
    String (byte 255) (String (byte 216) (String (byte 255) ""));
    "GIF87a"; "GIF89a" ].

(** [sum(len(doc[i].get_text()) for i in range(n))]. *)
Fixpoint sum_chars (page_chars : nat → result exn Z) (pages : list nat) (acc : Z) : result exn Z :=
  match pages with
  | [] => Ok acc
  | i :: rest => rbind (page_chars i) (λ c, sum_chars page_chars rest (acc + c))
  end.

(** [RuntimeError] and [ValueError] are the classes the probe converts to [UNSUPPORTED]. *)
Definition probe_catches (x : exn) : bool :=
  match x with
  | PyExc cls _ => bool_decide (cls = "RuntimeError") || bool_decide (cls = "ValueError")
  | _ => false
  end.

(** [total / pages < min], a float quotient compared with an integer. *)
Definition average_below (total pages min_chars : Z) : bool :=
  f_lt (f_div (f_of_Z total) (f_of_Z pages)) (f_of_Z min_chars).

Section detect.
Context {aenv : AnalyzerEnv}.

Definition _detect_pdf_subtype (doc_id data : string) (probe_pages min_chars_per_page : Z) : result exn DetectedType :=
  match pymupdf_open with
  | None =>
    Exc (AnalyzerError doc_id
      "pymupdf could not be imported to sub-type this PDF; it is a core dependency of vestibule — reinstall with `pip install -e .` (or `pip install vestibule`) to restore it"
      ANALYZER_DEPENDENCY_MISSING None)
  | Some open =>
    let probed :=
      match open data with
      | OpenRaises x => Exc x
      | Opened needs_pass page_count page_chars =>
        if needs_pass || bool_decide (page_count = 0) then Ok None else
        let pages_to_probe := Z.min probe_pages page_count in
        rbind (sum_chars page_chars (seq 0 (Z.to_nat pages_to_probe)) 0) (λ total,
        if bool_decide (pages_to_probe = 0) then Exc (PyExc "ZeroDivisionError" "division by zero")
        else Ok (Some (average_below total pages_to_probe min_chars_per_page)))
      end in
    match probed with
    | Ok None => Ok UNSUPPORTED
    | Ok (Some true) => Ok SCANNED_PDF
    | Ok (Some false) => Ok DIGITAL_PDF
    | Exc x => if probe_catches x then Ok UNSUPPORTED else Exc x
    end
  end.

Definition detect_type (envelope : ArrivalEnvelope) (bytes_reader : BytesReader)
    (scanned_pdf_probe_pages scanned_pdf_min_chars_per_page : Z) : result exn DetectedType :=
  rbind bytes_reader (λ data,
  let header := String.substring 0 _MAGIC_HEADER_BYTES data in
  if String.prefix _PDF_MAGIC header then
    _detect_pdf_subtype (env_doc_id envelope) data scanned_pdf_probe_pages scanned_pdf_min_chars_per_page
  else if String.prefix _DOCX_MAGIC header then Ok DOCX
  else if existsb (λ magic, String.prefix magic header) _IMAGE_MAGICS then Ok IMAGE
  else Ok UNSUPPORTED).

(** ** The orchestrator (analyzer.py) *)

Record AnalyzerConfig := mkAnalyzerConfig {
  scanned_pdf_probe_pages : Z; scanned_pdf_min_chars_per_page : Z; parser_timeout_seconds : pyfloat }.

(** [ParserRegistry] (registry.py): one parser per detected type, the last registration wins. *)
Notation ParserRegistry := (list (DetectedType * ParserAdapter)).

Definition registry_register (t : DetectedType) (p : ParserAdapter) (r : ParserRegistry) : ParserRegistry := dict_set t p r.
Definition registry_get (t : DetectedType) (r : ParserRegistry) : option ParserAdapter := dict_get t r.

Definition _terminalize {A} (doc_id error_code reason : string) (detected_type : option DetectedType) : component A :=
  pbind (call (LTransition doc_id FAILED FAILED (Some error_code) (Some reason) None)) (λ _,
  Raise (AnalyzerError doc_id reason error_code detected_type)).

Definition _self_transition_and_raise {A} (doc_id error_code reason : string) (detected_type : DetectedType) : component A :=
  pbind (call (LTransition doc_id ANALYZING ANALYZING (Some error_code) (Some reason) None)) (λ _,
  Raise (AnalyzerError doc_id reason error_code (Some detected_type))).

(** [concurrent.futures.TimeoutError] is the built-in [TimeoutError], so a parser that raises
    it is indistinguishable from one that did not return in time. *)
Definition is_timeout (x : exn) : bool :=
  match x with PyExc cls _ => bool_decide (cls = "TimeoutError") | _ => false end.

Definition timeout_reason (config : AnalyzerConfig) : string :=
  "parser did not return within " +:+ float_repr (parser_timeout_seconds config) +:+ "s".

Definition _parse_with_recovery (config : AnalyzerConfig) (doc_id : string) (parser : ParserAdapter)
    (envelope : ArrivalEnvelope) (bytes_reader : BytesReader) (detected_type : DetectedType) : component (list Element) :=
  match parser envelope bytes_reader with
  | TimedOut => _self_transition_and_raise doc_id PARSER_TIMEOUT (timeout_reason config) detected_type
  | Finished (Ok elements) => Ret elements
  | Finished (Exc x) =>
    if is_timeout x then _self_transition_and_raise doc_id PARSER_TIMEOUT (timeout_reason config) detected_type else
    match x with
    | AnalyzerError _ reason code _ => _self_transition_and_raise doc_id code reason detected_type
    | _ => _self_transition_and_raise doc_id PARSER_INTERNAL (exn_str x) detected_type
    end
  end.

Definition _detect_and_parse (config : AnalyzerConfig) (registry : ParserRegistry) (doc_id : string)
    (envelope : ArrivalEnvelope) (bytes_reader : BytesReader) : component (list Element) :=
  pbind (match detect_type envelope bytes_reader (scanned_pdf_probe_pages config) (scanned_pdf_min_chars_per_page config) with
         | Ok t => Ret t
         | Exc (AnalyzerError _ reason code _) => _terminalize doc_id code reason None
         | Exc x => Raise x
         end) (λ detected_type,
  if decide (detected_type = UNSUPPORTED) then
    _terminalize doc_id ANALYZER_UNSUPPORTED_TYPE "document could not be classified as a supported type" (Some detected_type)
  else
    match registry_get detected_type registry with
    | None =>
      _terminalize doc_id ANALYZER_NO_PARSER
        ("no parser registered for detected type " +:+ detected_type_value detected_type) (Some detected_type)
    | Some parser => _parse_with_recovery config doc_id parser envelope bytes_reader detected_type
    end).

Definition analyze (config : AnalyzerConfig) (registry : ParserRegistry)
    (envelope : ArrivalEnvelope) (bytes_reader : BytesReader) : component (list Element) :=
  let doc_id := env_doc_id envelope in
  pbind (attempt (call (LTransition doc_id ANALYZING ANALYZING None None None))) (λ r,
  match r with
  | Exc x =>
    pbind (triage x ANALYZING) (λ _, _detect_and_parse config registry doc_id envelope bytes_reader)
  | Ok _ =>
    pbind (_detect_and_parse config registry doc_id envelope bytes_reader) (λ elements,
    pbind (transition_or_benign doc_id CHUNKING None None None) (λ _, Ret elements))
  end).

(** ** The outcome of the stage, without the ledger *)

(** A document is parsed, fails for good, fails for now, or the call dies with an exception
    the component does not handle. *)
Inductive analysis :=
| Parsed (elements : list Element)
| Permanent (error_code reason : string) (t : option DetectedType)
| Transient (error_code reason : string) (t : DetectedType)
| Crashed (x : exn).

Definition analysis_of (config : AnalyzerConfig) (registry : ParserRegistry)
    (envelope : ArrivalEnvelope) (bytes_reader : BytesReader) : analysis :=
  match detect_type envelope bytes_reader (scanned_pdf_probe_pages config) (scanned_pdf_min_chars_per_page config) with
  | Exc (AnalyzerError _ reason code _) => Permanent code reason None
  | Exc x => Crashed x
  | Ok t =>
    if decide (t = UNSUPPORTED) then
      Permanent ANALYZER_UNSUPPORTED_TYPE "document could not be classified as a supported type" (Some t)
    else match registry_get t registry with
    | None => Permanent ANALYZER_NO_PARSER ("no parser registered for detected type " +:+ detected_type_value t) (Some t)
    | Some parser =>
      match parser envelope bytes_reader with
      | TimedOut => Transient PARSER_TIMEOUT (timeout_reason config) t
      | Finished (Ok elements) => Parsed elements
      | Finished (Exc x) =>
        if is_timeout x then Transient PARSER_TIMEOUT (timeout_reason config) t else
        match x with
        | AnalyzerError _ reason code _ => Transient code reason t
        | _ => Transient PARSER_INTERNAL (exn_str x) t
        end
      end
    end
  end.

(** The program of the middle part follows the outcome. *)
Definition finish (doc_id : string) (a : analysis) : component (list Element) :=
  match a with
  | Parsed elements => Ret elements
  | Permanent code reason t => _terminalize doc_id code reason t
  | Transient code reason t => _self_transition_and_raise doc_id code reason t
  | Crashed x => Raise x
  end.

Lemma detect_and_parse_finish {env : Env} config registry d envelope reader w :
  run handle (_detect_and_parse config registry d envelope reader) w =
  run handle (finish d (analysis_of config registry envelope reader)) w.
Proof.
  unfold _detect_and_parse, analysis_of, _parse_with_recovery. rewrite run_bind.
  destruct (detect_type _ _ _ _) as [t|x].
  - cbn [run]. case_decide; [done|]. destruct (registry_get t registry) as [p|]; [|done].
    destruct (p envelope reader) as [|[els|x]]; [done..|]. destruct (is_timeout x); [done|]. by destruct x.
  - destruct x; try done. simpl finish. unfold _terminalize. rewrite run_bind.
    rewrite (run_bind handle (call _) (λ _, Raise _)).
    by destruct (run handle (call _) w) as [[?|?] ?].
Qed.

Lemma terminalize_run {env : Env} {A} d code reason t w cur :
  ledger_ok (w_ledger w) → dict_get d (w_ledger w) = Some cur → edge (row_status cur) FAILED →
  run handle (_terminalize (A:=A) d code reason t) w =
  (Exc (AnalyzerError d reason code t),
   set_ledger (dict_set d (next_row (w_now w) d FAILED FAILED (Some code) (Some reason) None cur) (w_ledger w)) w).
Proof.
  intros Hok Hc He. pose proof (proj2 Hok _ _ Hc) as Hrow. pose proof Hrow as (_ & Hhex & _).
  unfold _terminalize. rewrite run_bind.
  by rewrite (run_transition_ok d FAILED (Some code) (Some reason) None w cur Hhex Hc Hrow He ltac:(naive_solver)).
Qed.

Lemma self_transition_run {env : Env} {A} d code reason t w cur :
  ledger_ok (w_ledger w) → dict_get d (w_ledger w) = Some cur → row_status cur = ANALYZING →
  run handle (_self_transition_and_raise (A:=A) d code reason t) w =
  (Exc (AnalyzerError d reason code (Some t)),
   set_ledger (dict_set d (next_row (w_now w) d ANALYZING ANALYZING (Some code) (Some reason) None cur) (w_ledger w)) w).
Proof.
  intros Hok Hc Hs. pose proof (proj2 Hok _ _ Hc) as Hrow. pose proof Hrow as (_ & Hhex & _).
  unfold _self_transition_and_raise. rewrite run_bind.
  rewrite (run_transition_ok d ANALYZING (Some code) (Some reason) None w cur Hhex Hc Hrow); [done| |naive_solver].
  rewrite Hs. constructor. set_solver.
Qed.

Lemma self_transition_illegal {env : Env} {A} d code reason t w cur :
  hex_re 64 d = true → dict_get d (w_ledger w) = Some cur → ¬ edge (row_status cur) ANALYZING →
  ∃ m, run handle (_self_transition_and_raise (A:=A) d code reason t) w =
    (Exc (LedgerTransitionInvalid d m (Some cur) ANALYZING ANALYZING), set_ledger (w_ledger w) w).
Proof.
  intros Hhex Hc He. destruct (run_transition_illegal d ANALYZING (Some code) (Some reason) None w cur Hhex Hc He) as [m Hm].
  exists m. unfold _self_transition_and_raise. by rewrite run_bind, Hm.
Qed.

(** The first step of [analyze] on a row that is waiting for, or already in, the stage. *)
Lemma analyze_enter {env : Env} config registry envelope reader w cur :
  let d := env_doc_id envelope in
  ledger_ok (w_ledger w) → dict_get d (w_ledger w) = Some cur → row_status cur ∈ [PENDING; ANALYZING] →
  ∃ entered w1, w1 = set_ledger (dict_set d entered (w_ledger w)) w ∧ ledger_ok (w_ledger w1) ∧
    entered = next_row (w_now w) d ANALYZING ANALYZING None None None cur ∧
    run handle (analyze config registry envelope reader) w =
    run handle (pbind (finish d (analysis_of config registry envelope reader)) (λ elements,
                pbind (transition_or_benign d CHUNKING None None None) (λ _, Ret elements))) w1.
Proof.
  intros d Hok Hc Hs. pose proof (proj2 Hok _ _ Hc) as Hrow. pose proof Hrow as (_ & Hhex & _).
  assert (He : edge (row_status cur) ANALYZING) by (repeat (apply elem_of_cons in Hs as [->|Hs]; [constructor; set_solver|]); by apply elem_of_nil in Hs).
  pose proof (run_transition_ok d ANALYZING None None None w cur Hhex Hc Hrow He ltac:(naive_solver)) as Hrun.
  eexists _, _. split; [reflexivity|]. split_and!; [|reflexivity|].
  - pose proof (run_ledger_ok (call (LTransition d ANALYZING ANALYZING None None None)) w Hok) as H. by rewrite Hrun in H.
  - unfold analyze. rewrite run_bind, run_attempt. fold d. rewrite Hrun. cbn [fst snd].
    rewrite !run_bind. by rewrite detect_and_parse_finish.
Qed.

(** A parsed document, from a waiting row to the next stage. *)
Lemma analyze_parsed {env : Env} config registry envelope reader w cur elements :
  let d := env_doc_id envelope in
  let entered := next_row (w_now w) d ANALYZING ANALYZING None None None cur in
  let w1 := set_ledger (dict_set d entered (w_ledger w)) w in
  ledger_ok (w_ledger w) → dict_get d (w_ledger w) = Some cur → row_status cur ∈ [PENDING; ANALYZING] →
  analysis_of config registry envelope reader = Parsed elements →
  run handle (analyze config registry envelope reader) w =
  (Ok elements, set_ledger (dict_set d (next_row (w_now w1) d CHUNKING CHUNKING None None None entered) (w_ledger w1)) w1).
Proof.
  intros d entered w1 Hok Hc Hs Ha.
  destruct (analyze_enter config registry envelope reader w cur Hok Hc Hs) as (ent & w1' & Hw1 & Hok1 & -> & ->). fold d entered in Hw1 |- *.
  fold w1 in Hw1. subst w1'. rewrite Ha. cbn [finish pbind].
  assert (Hc1 : dict_get d (w_ledger w1) = Some entered) by apply dict_get_set_eq.
  pose proof (proj2 Hok1 _ _ Hc1) as Hrow1. pose proof Hrow1 as (_ & Hhex & _).
  by rewrite run_bind, (run_transition_or_benign_ok d CHUNKING None None None w1 entered Hhex Hc1 Hrow1); [|constructor|naive_solver].
Qed.
End detect.

(** The transitions the analyzer ever requests. *)
Lemma analyze_targets {aenv : AnalyzerEnv} config registry envelope reader :
  all_ops (targets_in [ANALYZING; CHUNKING; FAILED]) (analyze config registry envelope reader).
Proof.
  unfold analyze, _detect_and_parse, _parse_with_recovery, _terminalize, _self_transition_and_raise.
  repeat (all_ops_tac; try (apply triage_targets || (apply transition_or_benign_targets; set_solver) || (simpl; set_solver))).
Qed.

(** ** Properties *)

(** C24: [Analyzer.analyze] run on a document in [PENDING] or [ANALYZING], on every outcome. A
    parsed document returns its elements and is left in [CHUNKING] on its first attempt with
    no error; a permanent failure raises [AnalyzerError] and leaves the row [FAILED] with that
    error; a transient failure raises and leaves the row [ANALYZING], never failed, with the
    error recorded and one more attempt counted; an unhandled exception propagates with the
    row in [ANALYZING]. No other document is touched. *)
Theorem analyze_outcomes {env : Env} {aenv : AnalyzerEnv} config registry envelope reader w cur :
  let d := env_doc_id envelope in
  let entered := next_row (w_now w) d ANALYZING ANALYZING None None None cur in
  ledger_ok (w_ledger w) → dict_get d (w_ledger w) = Some cur → row_status cur ∈ [PENDING; ANALYZING] →
  ∃ row w', dict_get d (w_ledger w') = Some row ∧
    (∀ d', d' ≠ d → dict_get d' (w_ledger w') = dict_get d' (w_ledger w)) ∧
    match analysis_of config registry envelope reader with
    | Parsed elements =>
      run handle (analyze config registry envelope reader) w = (Ok elements, w') ∧
      row_status row = CHUNKING ∧ row_attempts row = 1 ∧ row_last_error_code row = None
    | Permanent code reason t =>
      run handle (analyze config registry envelope reader) w = (Exc (AnalyzerError d reason code t), w') ∧
      row_status row = FAILED ∧ row_last_error_code row = Some code ∧ row_attempts row = row_attempts entered
    | Transient code reason t =>
      run handle (analyze config registry envelope reader) w = (Exc (AnalyzerError d reason code (Some t)), w') ∧
      row_status row = ANALYZING ∧ row_last_error_code row = Some code ∧ row_attempts row = row_attempts entered + 1
    | Crashed x =>
      run handle (analyze config registry envelope reader) w = (Exc x, w') ∧ row = entered
    end.
Proof.
  intros d entered Hok Hc Hs.
  destruct (analyze_enter config registry envelope reader w cur Hok Hc Hs) as (ent & w1 & Hw1 & Hok1 & -> & ->). fold d in Hw1 |- *.
  fold entered in Hw1 |- *. assert (Hc1 : dict_get d (w_ledger w1) = Some entered) by (subst w1; apply dict_get_set_eq).
  assert (Hother : ∀ row d', d' ≠ d → dict_get d' (dict_set d row (w_ledger w1)) = dict_get d' (w_ledger w)).
  { intros row d' Hd'. rewrite dict_get_set_ne by done. subst w1. by apply dict_get_set_ne. }
  pose proof (proj2 Hok1 _ _ Hc1) as Hrow1. pose proof Hrow1 as (_ & Hhex & _). rewrite run_bind.
  destruct (analysis_of config registry envelope reader) as [els|code reason t|code reason t|x]; cbn [finish].
  - cbn [run]. rewrite run_bind, (run_transition_or_benign_ok d CHUNKING None None None w1 entered Hhex Hc1 Hrow1);
      [|constructor|naive_solver].
    eexists _, _. split; [|split; [|split; [reflexivity|]]]; [apply dict_get_set_eq|apply Hother|done].
  - rewrite (terminalize_run d code reason t w1 entered Hok1 Hc1) by (constructor; set_solver).
    eexists _, _. split; [|split; [|split; [reflexivity|]]]; [apply dict_get_set_eq|apply Hother|done].
  - rewrite (self_transition_run d code reason t w1 entered Hok1 Hc1 eq_refl).
    eexists _, _. split; [|split; [|split; [reflexivity|]]]; [apply dict_get_set_eq|apply Hother|done].
  - exists entered, w1. split_and!; try done. intros d' Hd'. subst w1. by apply dict_get_set_ne.
Qed.

(** A document without a recognised header, and an environment without PyMuPDF. *)
Definition example_aenv : AnalyzerEnv := {| pymupdf_open := None; float_repr _ := "240.0" |}.

Definition example_envelope : ArrivalEnvelope :=
  mkEnvelope example_doc "blob:hr" "a.pdf" None None [] INTERNAL "" 0.

Definition example_config : AnalyzerConfig := mkAnalyzerConfig 3 50 (f_of_Z 240).

Lemma analyze_outcomes_witness :
  ∃ w', run (@handle unit_env) (@analyze example_aenv example_config [] example_envelope (Ok "plain text")) (unit_world example_rows)
    = (Exc (AnalyzerError example_doc "document could not be classified as a supported type" ANALYZER_UNSUPPORTED_TYPE (Some UNSUPPORTED)), w') ∧
    status_of example_doc (w_ledger w') = Some FAILED.
Proof.
  destruct (@analyze_outcomes unit_env example_aenv example_config [] example_envelope (Ok "plain text")
    (unit_world example_rows) (mkRow example_doc PENDING PENDING 0 None None "1" 1 1 None) example_rows_ok)
    as (row & w' & Hrow & _ & H).
  - by vm_compute.
  - apply elem_of_cons. left. reflexivity.
  - destruct H as (Hrun & Hs & _). exists w'. split; [exact Hrun|]. unfold status_of. cbn [env_doc_id example_envelope] in Hrow.
    rewrite Hrow. simpl. by rewrite Hs.
Defined.

(** A redelivered [analyze] of a document that has already moved past the stage is not
    free of ledger writes when its own detection fails. If the row is [CHUNKING], [EMBEDDING]
    or [INDEXING] (a concurrent duplicate advanced it), a permanent failure of the duplicate
    moves that row to [FAILED], and a transient failure raises [LedgerTransitionInvalid]
    instead of the [AnalyzerError] the caller expects. *)
Theorem analyze_redelivery_writes {env : Env} {aenv : AnalyzerEnv} config registry envelope reader w cur :
  let d := env_doc_id envelope in
  ledger_ok (w_ledger w) → dict_get d (w_ledger w) = Some cur → row_status cur ∈ [CHUNKING; EMBEDDING; INDEXING] →
  match analysis_of config registry envelope reader with
  | Parsed elements => ∃ w', run handle (analyze config registry envelope reader) w = (Ok elements, w') ∧ w_ledger w' = w_ledger w
  | Permanent code reason t =>
    ∃ w', run handle (analyze config registry envelope reader) w = (Exc (AnalyzerError d reason code t), w') ∧
          status_of d (w_ledger w') = Some FAILED
  | Transient _ _ _ =>
    ∃ m w', run handle (analyze config registry envelope reader) w =
            (Exc (LedgerTransitionInvalid d m (Some cur) ANALYZING ANALYZING), w') ∧ w_ledger w' = w_ledger w
  | Crashed x => ∃ w', run handle (analyze config registry envelope reader) w = (Exc x, w')
  end.
Proof.
  intros d Hok Hc Hs. pose proof (proj2 Hok _ _ Hc) as Hrow. pose proof Hrow as (_ & Hhex & Hst & _).
  assert (Hne : ¬ edge (row_status cur) ANALYZING).
  { intros He%legal_edge. revert He. apply (bool_decide_unpack _).
    repeat (apply elem_of_cons in Hs as [->|Hs]; [done|]). by apply elem_of_nil in Hs. }
  assert (Hf : edge (row_status cur) FAILED) by (constructor; set_solver).
  assert (Hb : benign (Some cur) ANALYZING ANALYZING = true).
  { unfold benign, is_benign_concurrent_loss. rewrite Hst.
    repeat (apply elem_of_cons in Hs as [->|Hs]; [done|]). by apply elem_of_nil in Hs. }
  destruct (run_transition_illegal d ANALYZING None None None w cur Hhex Hc Hne) as [m Hm].
  unfold analyze. rewrite run_bind, run_attempt. fold d. rewrite Hm. cbn [fst snd].
  rewrite run_bind, run_triage, Hb, detect_and_parse_finish. set (w1 := set_ledger _ w).
  destruct (analysis_of config registry envelope reader) as [els|code reason t|code reason t|x]; cbn [finish].
  - by exists w1.
  - rewrite (terminalize_run d code reason t w1 cur Hok Hc Hf). eexists. split; [done|].
    unfold status_of. simpl. by rewrite dict_get_set_eq.
  - destruct (self_transition_illegal (A:=list Element) d code reason t w1 cur Hhex Hc Hne) as [m' Hm'].
    exists m'. eexists. by rewrite Hm'.
  - by eexists.
Qed.

Definition chunking_rows : LedgerStore :=
  [(example_doc, mkRow example_doc CHUNKING CHUNKING 1 None None "1" 1 5 None)].

Lemma chunking_rows_ok : ledger_ok chunking_rows.
Proof. apply (ledger_ok_set example_doc _ []); [|apply ledger_ok_empty]. split_and!; [done|apply example_doc_ok|done..]. Qed.

Lemma analyze_redelivery_writes_witness :
  ∃ w', run (@handle unit_env) (@analyze example_aenv example_config [] example_envelope (Ok "plain text")) (unit_world chunking_rows)
    = (Exc (AnalyzerError example_doc "document could not be classified as a supported type" ANALYZER_UNSUPPORTED_TYPE (Some UNSUPPORTED)), w') ∧
    status_of example_doc (w_ledger w') = Some FAILED.
Proof.
  apply (@analyze_redelivery_writes unit_env example_aenv example_config [] example_envelope (Ok "plain text")
    (unit_world chunking_rows) (mkRow example_doc CHUNKING CHUNKING 1 None None "1" 1 5 None) chunking_rows_ok).
  - by vm_compute.
  - apply elem_of_cons. left. reflexivity.
Defined.

End Analyzer.
