(* ===== verification/Chunker.v ===== *)
(** * Chunker (src/vestibule/chunker)

    The three strategies, the partition of a document into regions, the merge of undersized
    tails, the assignment of positions and ids, and the [chunking] stage of the ledger. The
    tokenizer ([tiktoken]) and the text splitter ([RecursiveCharacterTextSplitter]) are
    arguments of the model. *)
From S2P Require Import Prelude PyDict Types Identity Ledger Prog System.
#[local] Open Scope Z_scope.

Module Chunker.
Import Identity Ledger.

Definition CHUNKER_EMPTY_ELEMENTS : string := "CHUNKER_EMPTY_ELEMENTS".
Definition TOKENIZER_LOAD_FAILED : string := "TOKENIZER_LOAD_FAILED".
Definition CHUNKER_INTERNAL : string := "CHUNKER_INTERNAL".
Definition STRATEGY_RECURSIVE : string := "recursive".
Definition STRATEGY_STRUCTURE_AWARE : string := "structure_aware".
Definition STRATEGY_TABLE_ATOMIC : string := "table_atomic".

Definition newline : string := String (ascii_of_nat 10) "".
Definition blank_line : string := newline +:+ newline.

Record ChunkDraft := mkDraft {
  dr_element_types : list ElementType; dr_text : string; dr_token_count : Z; dr_metadata : metadata }.

Record ChunkerConfig := mkChunkerConfig {
  target_chunk_tokens : Z; overlap_tokens : Z; min_chunk_tokens : Z; max_chunk_tokens : Z; token_counter_name : string }.

(** ** Token counters (token_counter.py) *)

(** [TokenCounter.count]. *)
Definition TokenCounter := string → result exn Z.

(** [TiktokenCounter]: the encoding is loaded on first use and kept; [get_encoding] is the
    outcome [tiktoken.get_encoding] would have at the time of the call. *)
Record TiktokenCounter := mkTiktoken {
  tk_encoding_name : string; tk_encoding : option (string → result exn (list Z)) }.

Section tiktoken.
Context {env : Env}.

Definition _load_encoding (name : string) (get_encoding : result exn (string → result exn (list Z)))
    : result exn (string → result exn (list Z)) :=
  match get_encoding with
  | Ok enc => Ok enc
  | Exc x => Exc (ChunkerError "" ("failed to load tiktoken encoding " +:+ str_repr name +:+ ": " +:+ exn_str x) TOKENIZER_LOAD_FAILED)
  end.

Definition tiktoken_count (get_encoding : result exn (string → result exn (list Z))) (text : string) (c : TiktokenCounter)
    : result exn Z * TiktokenCounter :=
  match tk_encoding c with
  | Some enc => (rbind (enc text) (λ ts, Ok (Z.of_nat (length ts))), c)
  | None =>
    match _load_encoding (tk_encoding_name c) get_encoding with
    | Ok enc => (rbind (enc text) (λ ts, Ok (Z.of_nat (length ts))), mkTiktoken (tk_encoding_name c) (Some enc))
    | Exc x => (Exc x, c)
    end
  end.

Definition build_token_counter (name : string) : result exn TiktokenCounter :=
  if decide (name = "tiktoken_cl100k") then Ok (mkTiktoken "cl100k_base" None)
  else Exc (ChunkerError "" ("unrecognized token_counter name: " +:+ str_repr name) CHUNKER_INTERNAL).
End tiktoken.

(** ** What the strategies share (strategies/base.py) *)

Definition join_element_text (elements : list Element) : string := py_join blank_line (map el_text elements).

Definition unique_element_types (elements : list Element) : list ElementType := dedup_first [] (map el_type elements).

(** [element.metadata.get("page")] when it is an [int]; a [bool] is one, equal to 0 or 1. *)
Definition element_page (e : Element) : option Z :=
  match dict_get "page" (el_metadata e) with
  | Some (MInt z) => Some z
  | Some (MBool b) => Some (Z.b2z b)
  | _ => None
  end.

Definition page_metadata (elements : list Element) : metadata :=
  match py_sort (λ y x, bool_decide (y < x)) (dedup_first [] (omap element_page elements)) with
  | [] => []
  | [p] => [("page", MInt p)]
  | sorted_pages => [("pages", MInts sorted_pages)]
  end.

(** ** The table strategy (strategies/table_atomic.py) *)

(** [str(cell.get("content", ""))]. *)
Definition cell_text (c : cell) : string := match content c with Some v => py_str v | None => "" end.

Definition index_error : exn := PyExc "IndexError" "list index out of range".
Definition assign_error : exn := PyExc "IndexError" "list assignment index out of range".

(** [grid[r][c] = s]. *)
Definition grid_set (r c : Z) (s : string) (grid : list (list string)) : result exn (list (list string)) :=
  match py_index (length grid) r with
  | None => Exc index_error
  | Some i =>
    let row := default [] (grid !! i) in
    match py_index (length row) c with
    | None => Exc assign_error
    | Some j => Ok (<[i := <[j := s]> row]> grid)
    end
  end.

Fixpoint fill_grid (cells : list cell) (grid : list (list string)) : result exn (list (list string)) :=
  match cells with
  | [] => Ok grid
  | c :: rest => rbind (grid_set (row_index c) (column_index c) (cell_text c) grid) (fill_grid rest)
  end.

Definition empty_grid (row_count column_count : Z) : list (list string) :=
  replicate (Z.to_nat row_count) (replicate (Z.to_nat column_count) "").

Definition row_line (row : list string) : string := "| " +:+ py_join " | " row +:+ " |".

(** [max] of a non-empty sequence. *)
Definition py_max (z : Z) (zs : list Z) : Z := fold_left Z.max zs z.

Definition _markdown_table (cells : list cell) : result exn string :=
  match cells with
  | [] => Exc (PyExc "ValueError" "max() arg is an empty sequence")
  | c :: rest =>
    let row_count := py_max (row_index c) (map row_index rest) + 1 in
    let column_count := py_max (column_index c) (map column_index rest) + 1 in
    rbind (fill_grid cells (empty_grid row_count column_count)) (λ grid,
    match grid with
    | [] => Exc index_error
    | header_row :: body_rows =>
      let header := row_line header_row in
      let separator := row_line (replicate (Z.to_nat column_count) "---") in
      Ok (py_join newline (header :: separator :: map row_line body_rows))
    end)
  end.

(** [table.metadata.get("cells")]: falsy values fall back to the element's text, a non-empty
    list of cells is rendered, and anything else is a type error where the code iterates over
    it or indexes its items. *)
Definition table_body (table : Element) : result exn string :=
  match dict_get "cells" (el_metadata table) with
  | None | Some MNone | Some (MBool false) | Some (MInt 0) | Some (MInts []) | Some (MStr "") | Some (MCells []) =>
    Ok (el_text table)
  | Some (MCells cells) => _markdown_table cells
  | Some (MBool true) => Exc (PyExc "TypeError" "'bool' object is not iterable")
  | Some (MInt _) => Exc (PyExc "TypeError" "'int' object is not iterable")
  | Some (MInts _) => Exc (PyExc "TypeError" "'int' object is not subscriptable")
  | Some (MBBox _) => Exc (PyExc "TypeError" "'float' object is not subscriptable")
  | Some (MStr _) => Exc (PyExc "TypeError" "string indices must be integers, not 'str'")
  | Some (MOther tag) => Exc (PyExc "TypeError" ("'" +:+ tag +:+ "' object is not iterable"))
  end.

Definition _serialize_table (table : Element) (caption_text : option string) : result exn string :=
  rbind (table_body table) (λ body,
  Ok (match caption_text with
      | Some caption => if decide (caption = "") then body else caption +:+ blank_line +:+ body
      | None => body
      end)).

(** [TableAtomicChunkStrategy.chunk_region]; the oversized-table warning is a log line. *)
Definition table_atomic_chunk_region (config : ChunkerConfig) (token_counter : TokenCounter)
    (caption_text : option string) (elements : list Element) : result exn (list ChunkDraft) :=
  match elements with
  | [] => Exc index_error
  | table :: _ =>
    rbind (_serialize_table table caption_text) (λ text,
    rbind (token_counter text) (λ token_count,
    let oversized := bool_decide (max_chunk_tokens config < token_count) in
    Ok [mkDraft [el_type table] text token_count
          ([("strategy", MStr STRATEGY_TABLE_ATOMIC); ("section_path", MNone); ("oversized", MBool oversized)]
           ++ page_metadata [table])]))
  end.

(** ** The prose strategies (strategies/recursive.py, strategies/structure_aware.py) *)

(** [RecursiveCharacterTextSplitter(chunk_size, chunk_overlap, length_function).split_text]. *)
Class ChunkerEnv := {
  split_text : Z → Z → TokenCounter → string → result exn (list string);
}.

Section strategies.
Context {cenv : ChunkerEnv}.

Definition recursive_chunk_region (config : ChunkerConfig) (token_counter : TokenCounter) (elements : list Element)
    : result exn (list ChunkDraft) :=
  match elements with
  | [] => Ok []
  | _ =>
    let text := join_element_text elements in
    let element_types := unique_element_types elements in
    let base_metadata := [("strategy", MStr STRATEGY_RECURSIVE); ("section_path", MNone)] ++ page_metadata elements in
    rbind (split_text (target_chunk_tokens config) (overlap_tokens config) token_counter text) (λ pieces,
    rmap (λ piece, rbind (token_counter piece) (λ n, Ok (mkDraft element_types piece n base_metadata))) pieces)
  end.

Fixpoint split_sections (current_path : option string) (current_content : list Element) (elements : list Element)
    : list (option string * list Element) :=
  let closed := match current_content with [] => [] | _ => [(current_path, current_content)] end in
  match elements with
  | [] => closed
  | e :: rest =>
    if decide (el_type e = HEADING) then closed ++ split_sections (Some (el_text e)) [] rest
    else split_sections current_path (current_content ++ [e]) rest
  end.

Definition _split_into_sections (elements : list Element) : list (option string * list Element) :=
  split_sections None [] elements.

Definition opt_str (o : option string) : metaval := match o with Some s => MStr s | None => MNone end.

Definition _retag (draft : ChunkDraft) (section_path : option string) : ChunkDraft :=
  mkDraft (dr_element_types draft) (dr_text draft) (dr_token_count draft)
    (dict_set "section_path" (opt_str section_path) (dict_set "strategy" (MStr STRATEGY_STRUCTURE_AWARE) (dr_metadata draft))).

Definition structure_aware_chunk_region (config : ChunkerConfig) (token_counter : TokenCounter) (elements : list Element)
    : result exn (list ChunkDraft) :=
  rbind (rmap (λ s, rbind (recursive_chunk_region config token_counter s.2) (λ ds, Ok (map (λ d, _retag d s.1) ds)))
              (_split_into_sections elements))
        (λ parts, Ok (mjoin parts)).

(** ** Regions (chunker.py) *)

Inductive _RegionKind := TABLE_REGION | NON_TABLE.

Record _Region := mkRegion { rg_kind : _RegionKind; rg_elements : list Element; rg_caption_text : option string }.

Definition _caption_for_table (elements : list Element) (table_index : nat) : option string :=
  match table_index with
  | O => None
  | S i =>
    match elements !! i with
    | Some preceding =>
      if decide (el_type preceding = PARAGRAPH ∨ el_type preceding = IMAGE_CAPTION) then Some (el_text preceding) else None
    | None => None
    end
  end.

Fixpoint partition_loop (elements : list Element) (index : nat) (buffer rest : list Element) : list _Region :=
  let flushed := match buffer with [] => [] | _ => [mkRegion NON_TABLE buffer None] end in
  match rest with
  | [] => flushed
  | e :: rest' =>
    if decide (el_type e = TABLE) then
      flushed ++ mkRegion TABLE_REGION [e] (_caption_for_table elements index) :: partition_loop elements (S index) [] rest'
    else partition_loop elements (S index) (buffer ++ [e]) rest'
  end.

Definition _partition_regions (elements : list Element) : list _Region := partition_loop elements 0 [] elements.

(** ** The merge of undersized tails *)

Definition _merge_two_drafts (token_counter : TokenCounter) (predecessor last : ChunkDraft) : result exn ChunkDraft :=
  let merged_text := dr_text predecessor +:+ blank_line +:+ dr_text last in
  rbind (token_counter merged_text) (λ n,
  Ok (mkDraft (dedup_first (dr_element_types predecessor) (dr_element_types last)) merged_text n (dr_metadata predecessor))).

Definition is_table_meta (m : metadata) : bool := bool_decide (dict_get "strategy" m = Some (MStr STRATEGY_TABLE_ATOMIC)).

(** The loop on the drafts in reverse: [last] is [merged[-1]] and the head of [before] is
    [merged[-2]]. *)
Fixpoint merge_tail (config : ChunkerConfig) (token_counter : TokenCounter) (last : ChunkDraft) (before : list ChunkDraft)
    : result exn (list ChunkDraft) :=
  match before with
  | [] => Ok [last]
  | predecessor :: before' =>
    if bool_decide (dr_token_count last < min_chunk_tokens config)
       && negb (is_table_meta (dr_metadata last)) && negb (is_table_meta (dr_metadata predecessor))
    then rbind (_merge_two_drafts token_counter predecessor last) (λ m, merge_tail config token_counter m before')
    else Ok (last :: before)
  end.

Definition _merge_undersized_tail (config : ChunkerConfig) (token_counter : TokenCounter) (drafts : list ChunkDraft)
    : result exn (list ChunkDraft) :=
  match reverse drafts with
  | [] => Ok []
  | last :: before => rbind (merge_tail config token_counter last before) (λ merged, Ok (reverse merged))
  end.

(** ** The orchestrator *)

Record Chunker := mkChunker {
  ch_config : ChunkerConfig;
  ch_token_counter : TokenCounter;
  ch_recursive : ChunkerConfig → TokenCounter → list Element → result exn (list ChunkDraft);
  ch_structure_aware : ChunkerConfig → TokenCounter → list Element → result exn (list ChunkDraft);
  ch_table_atomic : ChunkerConfig → TokenCounter → option string → list Element → result exn (list ChunkDraft);
}.

(** [Chunker.__init__] with no strategy injected. *)
Definition new_chunker (config : ChunkerConfig) (token_counter : TokenCounter) : Chunker :=
  mkChunker config token_counter recursive_chunk_region structure_aware_chunk_region table_atomic_chunk_region.

Definition _dispatch_region (ch : Chunker) (has_headings : bool) (region : _Region) : result exn (list ChunkDraft) :=
  match rg_kind region with
  | TABLE_REGION => ch_table_atomic ch (ch_config ch) (ch_token_counter ch) (rg_caption_text region) (rg_elements region)
  | NON_TABLE =>
    (if has_headings then ch_structure_aware ch else ch_recursive ch) (ch_config ch) (ch_token_counter ch) (rg_elements region)
  end.

Fixpoint assign_from (doc_id : string) (position : Z) (drafts : list ChunkDraft) : result exn (list Chunk) :=
  match drafts with
  | [] => Ok []
  | d :: rest =>
    rbind (derive_chunk_id (PyStr doc_id) (PyInt position)) (λ cid,
    rbind (assign_from doc_id (position + 1) rest) (λ cs,
    Ok (mkChunk cid doc_id position (dr_element_types d) (dr_text d) (dr_token_count d) (dr_metadata d) :: cs)))
  end.

Definition _assign_positions (doc_id : string) (drafts : list ChunkDraft) : result exn (list Chunk) := assign_from doc_id 0 drafts.

(** The loop of [_assemble_chunks] over the regions. *)
Definition all_drafts (ch : Chunker) (elements : list Element) : result exn (list ChunkDraft) :=
  let has_headings := existsb (λ e, bool_decide (el_type e = HEADING)) elements in
  rbind (rmap (λ region,
           rbind (_dispatch_region ch has_headings region) (_merge_undersized_tail (ch_config ch) (ch_token_counter ch)))
         (_partition_regions elements)) (λ parts,
  Ok (mjoin parts)).

Definition _assemble_chunks (ch : Chunker) (doc_id : string) (elements : list Element) : result exn (list Chunk) :=
  rbind (all_drafts ch elements) (_assign_positions doc_id).

Definition _self_transition_and_raise {A} (doc_id error_code reason : string) : component A :=
  pbind (call (LTransition doc_id CHUNKING CHUNKING (Some error_code) (Some reason) None)) (λ _,
  Raise (ChunkerError doc_id reason error_code)).

Definition _build_chunks (ch : Chunker) (doc_id : string) (elements : list Element) : component (list Chunk) :=
  match _assemble_chunks ch doc_id elements with
  | Ok chunks => Ret chunks
  | Exc x =>
    match x with
    | ChunkerError _ reason code =>
      if decide (code = TOKENIZER_LOAD_FAILED) then _self_transition_and_raise doc_id TOKENIZER_LOAD_FAILED reason
      else _self_transition_and_raise doc_id CHUNKER_INTERNAL (exn_str x)
    | _ => _self_transition_and_raise doc_id CHUNKER_INTERNAL (exn_str x)
    end
  end.

Definition empty_reason : string := "Analyzer returned zero elements; nothing to chunk".

Definition _terminalize_empty_elements {A} (doc_id : string) : component A :=
  pbind (transition_or_benign doc_id FAILED (Some CHUNKER_EMPTY_ELEMENTS) (Some empty_reason) None) (λ _,
  Raise (ChunkerError doc_id empty_reason CHUNKER_EMPTY_ELEMENTS)).

Definition _transition_to_embedding (doc_id : string) (chunks : list Chunk) : component (list Chunk) :=
  pbind (transition_or_benign doc_id EMBEDDING None None None) (λ _, Ret chunks).

Definition chunk (ch : Chunker) (envelope : ArrivalEnvelope) (elements : list Element) : component (list Chunk) :=
  let doc_id := env_doc_id envelope in
  pbind (match elements with [] => _terminalize_empty_elements doc_id | _ => Ret tt end) (λ _,
  pbind (_build_chunks ch doc_id elements) (λ chunks,
  _transition_to_embedding doc_id chunks)).
End strategies.

(** ** Specifications *)

(** [rs] partitions [elements] from position [n] on: a table region is the table at its
    position with that position's caption; a prose region is non-empty, has no table and is
    not followed by another prose region. *)
Fixpoint regions_ok (elements : list Element) (n : nat) (rs : list _Region) : Prop :=
  match rs with
  | [] => True
  | r :: rs' =>
    match rg_kind r with
    | TABLE_REGION =>
      ∃ t, elements !! n = Some t ∧ el_type t = TABLE ∧ rg_elements r = [t] ∧
           rg_caption_text r = _caption_for_table elements n
    | NON_TABLE =>
      rg_elements r ≠ [] ∧ Forall (λ e, el_type e ≠ TABLE) (rg_elements r) ∧ rg_caption_text r = None ∧
      (∀ r', head rs' = Some r' → rg_kind r' = TABLE_REGION)
    end ∧ regions_ok elements (n + length (rg_elements r)) rs'
  end.

(** Every content element with the heading in force where it stands. *)
Fixpoint under_headings (path : option string) (elements : list Element) : list (option string * Element) :=
  match elements with
  | [] => []
  | e :: rest =>
    if decide (el_type e = HEADING) then under_headings (Some (el_text e)) rest
    else (path, e) :: under_headings path rest
  end.

(** The tables of a document with their captions, in document order. *)
Fixpoint tables_from (elements : list Element) (n : nat) (rest : list Element) : list (Element * option string) :=
  match rest with
  | [] => []
  | e :: rest' =>
    if decide (el_type e = TABLE) then (e, _caption_for_table elements n) :: tables_from elements (S n) rest'
    else tables_from elements (S n) rest'
  end.

Definition tables_of (elements : list Element) : list (Element * option string) := tables_from elements 0 elements.

(** The text of the last cell given for a position, or nothing. *)
Definition cell_at (cells : list cell) (r c : nat) : string :=
  match list.last (filter (λ x, row_index x = Z.of_nat r ∧ column_index x = Z.of_nat c) cells) with
  | Some x => cell_text x
  | None => ""
  end.

(** ** Lemmas *)

Lemma partition_loop_ok elements index buffer rest :
  (∃ pre, elements = pre ++ buffer ++ rest ∧ index = (length pre + length buffer)%nat) →
  Forall (λ e, el_type e ≠ TABLE) buffer →
  mjoin (map rg_elements (partition_loop elements index buffer rest)) = buffer ++ rest ∧
  regions_ok elements (index - length buffer) (partition_loop elements index buffer rest).
Proof.
  revert index buffer. induction rest as [|e rest IH]; intros index buffer (pre & Hel & Hi) Hb; simpl.
  - destruct buffer as [|b buffer]; simpl; [done|]. by rewrite !app_nil_r.
  - case_decide as He.
    + destruct (IH (S index) []) as [IH1 IH2].
      { exists (pre ++ buffer ++ [e]). rewrite !length_app. simpl. split; [|lia]. by rewrite Hel, <- !app_assoc. }
      { done. }
      simpl in IH1, IH2. assert (Hlook : elements !! index = Some e).
      { rewrite Hel, app_assoc. apply list_lookup_middle. rewrite length_app. lia. }
      destruct buffer as [|b buffer]; simpl in *.
      * rewrite IH1. split; [done|]. rewrite Nat.sub_0_r. split; [by exists e|]. by rewrite Nat.add_1_r.
      * rewrite IH1. split; [done|]. split; [split_and!; try done; by intros r' [= <-]|].
        replace (index - S (length buffer) + S (length buffer))%nat with index by lia.
        split; [by exists e|]. by rewrite Nat.add_1_r.
    + destruct (IH (S index) (buffer ++ [e])) as [IH1 IH2].
      { exists pre. rewrite length_app. simpl. split; [|lia]. by rewrite Hel, <- !app_assoc. }
      { apply Forall_app. split; [done|]. by apply Forall_singleton. }
      rewrite <- app_assoc in IH1. split; [done|]. rewrite length_app in IH2. simpl in IH2.
      by replace (index - length buffer)%nat with (S index - (length buffer + 1))%nat by lia.
Qed.

Lemma split_sections_ok path content elements :
  mjoin (map (λ s, map (pair s.1) s.2) (split_sections path content elements)) =
    map (pair path) content ++ under_headings path elements ∧
  Forall (λ s, s.2 ≠ []) (split_sections path content elements).
Proof.
  revert path content. induction elements as [|e elements IH]; intros path content; simpl.
  - destruct content as [|x content]; simpl; [done|]. rewrite !app_nil_r. split; [done|]. by repeat constructor.
  - case_decide.
    + destruct (IH (Some (el_text e)) []) as [IH1 IH2]. rewrite map_app, join_app, IH1. simpl.
      destruct content as [|x content]; simpl; [done|]. rewrite app_nil_r. split; [done|]. by constructor.
    + destruct (IH path (content ++ [e])) as [IH1 IH2]. rewrite IH1. rewrite map_app, <- app_assoc. done.
Qed.
(** [d] is what merging the consecutive drafts [ds] (in document order) leads to. *)
Definition merged_from (token_counter : TokenCounter) (ds : list ChunkDraft) (d : ChunkDraft) : Prop :=
  dr_text d = py_join blank_line (map dr_text ds) ∧
  (dr_metadata <$> head ds) = Some (dr_metadata d) ∧
  (∀ t, t ∈ dr_element_types d ↔ ∃ x, x ∈ ds ∧ t ∈ dr_element_types x) ∧
  (ds = [d] ∨ token_counter (dr_text d) = Ok (dr_token_count d) ∧ Forall (λ x, is_table_meta (dr_metadata x) = false) ds).

(** No draft is left that the loop could still merge. *)
Definition tail_settled (config : ChunkerConfig) (merged : list ChunkDraft) : Prop :=
  ∀ kept p l, merged = kept ++ [p; l] →
    min_chunk_tokens config ≤ dr_token_count l ∨ is_table_meta (dr_metadata l) = true ∨ is_table_meta (dr_metadata p) = true.

Lemma merged_from_step tc pred last m ds d :
  _merge_two_drafts tc pred last = Ok m →
  is_table_meta (dr_metadata pred) = false → is_table_meta (dr_metadata last) = false →
  merged_from tc (ds ++ [m]) d → merged_from tc (ds ++ [pred; last]) d.
Proof.
  intros (n & Hn & [= <-])%rbind_ok Hp Hl (Ht & Hm & Hty & Hc). unfold merged_from in *. split_and!.
  - rewrite Ht, !map_app. simpl. rewrite <- py_join_pair. by rewrite py_join_app.
  - rewrite <- Hm. by destruct ds.
  - intros t. rewrite Hty. split.
    + intros (x & [Hx|Hx%list_elem_of_singleton]%elem_of_app & Htx); [set_solver|]. subst x. simpl in Htx.
      apply elem_of_dedup_first in Htx. set_solver.
    + intros (x & [Hx|Hx]%elem_of_app & Htx); [set_solver|]. eexists. split; [apply elem_of_app; right; by apply list_elem_of_singleton|].
      simpl. apply elem_of_dedup_first. set_solver.
  - right. destruct Hc as [Heq|[Hc Hf]].
    + destruct ds as [|? [|]]; simplify_eq/=. simpl. split; [done|]. by repeat constructor.
    + split; [done|]. rewrite !Forall_app in *. split; [tauto|]. by repeat constructor.
Qed.

Lemma merge_tail_ok config tc last before merged :
  merge_tail config tc last before = Ok merged →
  ∃ tail kept d, before = tail ++ kept ∧ merged = d :: kept ∧ merged_from tc (reverse (last :: tail)) d ∧
    match kept with
    | [] => True
    | p :: _ => min_chunk_tokens config ≤ dr_token_count d ∨ is_table_meta (dr_metadata d) = true ∨ is_table_meta (dr_metadata p) = true
    end.
Proof.
  assert (Hself : ∀ d, merged_from tc (reverse [d]) d).
  { intros d. split_and!; [done..| |by left]. intros t. set_solver. }
  revert last. induction before as [|pred before IH]; intros last; simpl.
  - intros [= <-]. by exists [], [], last.
  - destruct (bool_decide _ && _ && _) eqn:E.
    + intros (m & Hm & Hrest)%rbind_ok. apply IH in Hrest as (tail & kept & d & -> & -> & Hd & Hs).
      exists (pred :: tail), kept, d. split_and!; [done..| |done].
      apply andb_prop in E as [[_ El]%andb_prop Ep]. apply negb_true_iff in El, Ep.
      rewrite !reverse_cons in *. rewrite <- app_assoc. by eapply merged_from_step.
    + intros [= <-]. exists [], (pred :: before), last. split_and!; [done..|].
      destruct (is_table_meta (dr_metadata last)); [by auto|]. destruct (is_table_meta (dr_metadata pred)); [by auto|].
      rewrite !andb_true_r in E. apply bool_decide_eq_false in E. left. lia.
Qed.

(** The merge pass in document order: what is kept, and what the last draft is made of. *)
Lemma merge_undersized_tail_inv config tc drafts merged :
  _merge_undersized_tail config tc drafts = Ok merged →
  (drafts = [] ∧ merged = []) ∨
  ∃ kept tail d, drafts = kept ++ tail ∧ tail ≠ [] ∧ merged = kept ++ [d] ∧ merged_from tc tail d ∧ tail_settled config merged.
Proof.
  unfold _merge_undersized_tail. destruct (reverse drafts) as [|last before] eqn:Er.
  { intros [= <-]. left. split; [|done]. rewrite <- (reverse_involutive drafts), Er. done. }
  intros (m & Hm & [= <-])%rbind_ok. right. apply merge_tail_ok in Hm as (tail & kept & d & -> & -> & Hd & Hs).
  exists (reverse kept), (reverse (last :: tail)), d. split_and!.
  - rewrite <- (reverse_involutive drafts), Er. by rewrite !reverse_cons, reverse_app, app_assoc.
  - rewrite reverse_cons. by destruct (reverse tail).
  - by rewrite reverse_cons.
  - done.
  - intros k p l Heq. rewrite reverse_cons in Heq.
    replace (k ++ [p; l]) with ((k ++ [p]) ++ [l]) in Heq by (by rewrite <- app_assoc).
    apply app_inj_tail in Heq as [Hk ->]. apply (f_equal reverse) in Hk. rewrite reverse_involutive, reverse_app in Hk.
    by rewrite Hk in Hs.
Qed.

Lemma merge_tail_total config tc last before :
  (∀ s, is_Some (match tc s with Ok n => Some n | Exc _ => None end)) → ∃ merged, merge_tail config tc last before = Ok merged.
Proof.
  intros Htc. revert last. induction before as [|p before IH]; intros last; simpl; [by eexists|].
  destruct (_ && _); [|by eexists]. unfold _merge_two_drafts.
  destruct (Htc (dr_text p +:+ blank_line +:+ dr_text last)) as [n Hn]. destruct (tc _); [|done]. simpl. apply IH.
Qed.
Section assembly.
Context {cenv : ChunkerEnv}.

(** A prose draft: counted by the token counter, not tagged as a table. *)
Definition prose_draft (tc : TokenCounter) (d : ChunkDraft) : Prop :=
  tc (dr_text d) = Ok (dr_token_count d) ∧ is_table_meta (dr_metadata d) = false.

Definition table_draft (tc : TokenCounter) (te : Element * option string) (d : ChunkDraft) : Prop :=
  tc (dr_text d) = Ok (dr_token_count d) ∧ is_table_meta (dr_metadata d) = true ∧
  _serialize_table te.1 te.2 = Ok (dr_text d) ∧ dr_element_types d = [el_type te.1].

Lemma recursive_prose config tc els ds : recursive_chunk_region config tc els = Ok ds → Forall (prose_draft tc) ds.
Proof.
  destruct els as [|e els]; simpl; [by intros [= <-]|]. intros (pieces & _ & H)%rbind_ok.
  apply rmap_ok in H. induction H as [|piece d pieces ds (n & Hn & [= <-])%rbind_ok]; [done|]. by constructor.
Qed.

Lemma retag_prose tc d p : prose_draft tc d → prose_draft tc (_retag d p).
Proof.
  intros [Hc _]. split; [done|]. unfold is_table_meta, _retag. simpl.
  rewrite dict_get_set_ne, dict_get_set_eq by done. done.
Qed.

Lemma structure_aware_prose config tc els ds : structure_aware_chunk_region config tc els = Ok ds → Forall (prose_draft tc) ds.
Proof.
  intros (parts & H%rmap_ok & [= <-])%rbind_ok. induction H as [|sec part secs parts Hp _ IH]; simpl; [done|].
  apply rbind_ok in Hp as (ds & Hr & [= <-]). apply Forall_app. split; [|done].
  apply Forall_map. eapply Forall_impl; [by eapply recursive_prose|]. intros d. apply retag_prose.
Qed.

Lemma merge_prose config tc ds merged :
  Forall (prose_draft tc) ds → _merge_undersized_tail config tc ds = Ok merged → Forall (prose_draft tc) merged.
Proof.
  intros Hds [[-> ->]|(kept & tail & d & -> & Hne & -> & Hd & _)]%merge_undersized_tail_inv; [done|].
  apply Forall_app in Hds as [Hk Ht]. apply Forall_app. split; [done|]. apply Forall_singleton.
  destruct Hd as (_ & Hm & _ & [->|[Hc Hf]]); [by inversion Ht|]. split; [done|].
  destruct tail as [|x tail]; [done|]. simpl in Hm. injection Hm as Hm. rewrite <- Hm. by inversion Hf.
Qed.

Lemma merge_single config tc d : _merge_undersized_tail config tc [d] = Ok [d].
Proof. done. Qed.

(** Every draft's section is a string or [None]. *)
Definition sectioned (m : metadata) : Prop := ∃ o, dict_get "section_path" m = Some (opt_str o).

Lemma recursive_sectioned config tc els ds :
  recursive_chunk_region config tc els = Ok ds → Forall (λ d, sectioned (dr_metadata d)) ds.
Proof.
  destruct els as [|e els]; simpl; [by intros [= <-]|]. intros (pieces & _ & H)%rbind_ok.
  apply rmap_ok in H. induction H as [|piece d pieces ds (n & Hn & [= <-])%rbind_ok]; [done|]. constructor; [by exists None|done].
Qed.

Lemma structure_aware_sectioned config tc els ds :
  structure_aware_chunk_region config tc els = Ok ds → Forall (λ d, sectioned (dr_metadata d)) ds.
Proof.
  intros (parts & H%rmap_ok & [= <-])%rbind_ok. induction H as [|sec part secs parts Hp _ IH]; simpl; [done|].
  apply rbind_ok in Hp as (ds & Hr & [= <-]). apply Forall_app. split; [|done].
  apply Forall_map, Forall_true. intros d. exists sec.1. apply dict_get_set_eq.
Qed.

Lemma merge_metadata config tc ds merged (P : metadata → Prop) :
  Forall (λ d, P (dr_metadata d)) ds → _merge_undersized_tail config tc ds = Ok merged → Forall (λ d, P (dr_metadata d)) merged.
Proof.
  intros Hds [[-> ->]|(kept & tail & d & -> & Hne & -> & Hd & _)]%merge_undersized_tail_inv; [done|].
  apply Forall_app in Hds as [Hk Ht]. apply Forall_app. split; [done|]. apply Forall_singleton.
  destruct Hd as (_ & Hm & _). destruct tail as [|x tail]; [done|]. simpl in Hm. injection Hm as <-. by inversion Ht.
Qed.

Lemma all_drafts_sectioned config tc els ds :
  all_drafts (new_chunker config tc) els = Ok ds → Forall (λ d, sectioned (dr_metadata d)) ds.
Proof.
  intros (parts & H%rmap_ok & [= <-])%rbind_ok. induction H as [|r part rs parts Hp _ IH]; simpl; [done|].
  apply Forall_app. split; [|done]. apply rbind_ok in Hp as (ds & Hd & Hm). eapply (merge_metadata _ _ _ _ sectioned); [|exact Hm].
  unfold _dispatch_region in Hd. destruct (rg_kind r); simpl in Hd.
  - destruct (rg_elements r) as [|t ts]; [done|]. apply rbind_ok in Hd as (text & _ & (n & _ & [= <-])%rbind_ok).
    repeat constructor. by exists None.
  - destruct (existsb _ els); [by eapply structure_aware_sectioned|by eapply recursive_sectioned].
Qed.

(** The tables a region holds. *)
Definition region_tables (r : _Region) : list (Element * option string) :=
  match rg_kind r, rg_elements r with
  | TABLE_REGION, t :: _ => [(t, rg_caption_text r)]
  | _, _ => []
  end.

Lemma partition_tables elements i buffer rest :
  mjoin (map region_tables (partition_loop elements i buffer rest)) = tables_from elements i rest.
Proof.
  revert i buffer. induction rest as [|e rest IH]; intros i buffer; simpl; [by destruct buffer|].
  case_decide; [|by apply IH]. rewrite map_app, join_app. simpl. rewrite IH. by destruct buffer.
Qed.

(** One region through its strategy and the merge pass. *)
Lemma region_part config tc h r part :
  rbind (_dispatch_region (new_chunker config tc) h r) (_merge_undersized_tail config tc) = Ok part →
  Forall (λ d, tc (dr_text d) = Ok (dr_token_count d)) part ∧
  Forall2 (table_draft tc) (region_tables r) (filter (λ d, is_table_meta (dr_metadata d) = true) part).
Proof.
  intros (ds & Hd & Hm)%rbind_ok. unfold _dispatch_region, region_tables in *. destruct (rg_kind r); simpl in *.
  - destruct (rg_elements r) as [|t els]; simpl in Hd; [done|].
    apply rbind_ok in Hd as (text & Ht & (n & Hn & [= <-])%rbind_ok). rewrite merge_single in Hm. injection Hm as <-.
    split; [by repeat constructor|]. repeat constructor; done.
  - assert (Hp : Forall (prose_draft tc) part).
    { eapply merge_prose; [|exact Hm]. destruct h; [by eapply structure_aware_prose|by eapply recursive_prose]. }
    split; [eapply Forall_impl; [exact Hp|by intros ? []]|].
    assert (filter (λ d, is_table_meta (dr_metadata d) = true) part = []) as ->; [|constructor]. clear Hm.
    induction Hp as [|d part [_ Hnt] _ IH]; [done|]. rewrite filter_cons, decide_False; [done|by rewrite Hnt].
Qed.

Lemma regions_parts config tc h rs parts :
  Forall2 (λ r part, rbind (_dispatch_region (new_chunker config tc) h r) (_merge_undersized_tail config tc) = Ok part) rs parts →
  Forall (λ d, tc (dr_text d) = Ok (dr_token_count d)) (mjoin parts) ∧
  Forall2 (table_draft tc) (mjoin (map region_tables rs)) (filter (λ d, is_table_meta (dr_metadata d) = true) (mjoin parts)).
Proof.
  induction 1 as [|r part rs parts [H1 H2]%region_part _ [IH1 IH2]]; simpl; [done|].
  split; [by apply Forall_app|]. rewrite filter_app. by apply Forall2_app.
Qed.

(** The chunk a draft becomes at a position. *)
Definition chunk_of (doc_id : string) (i : Z) (d : ChunkDraft) (c : Chunk) : Prop :=
  derive_chunk_id (PyStr doc_id) (PyInt i) = Ok (ck_chunk_id c) ∧ ck_doc_id c = doc_id ∧ ck_position c = i ∧
  ck_element_types c = dr_element_types d ∧ ck_text c = dr_text d ∧ ck_token_count c = dr_token_count d ∧ ck_metadata c = dr_metadata d.

Lemma assign_from_inv doc_id i drafts chunks :
  assign_from doc_id i drafts = Ok chunks →
  length chunks = length drafts ∧
  ∀ k c, chunks !! k = Some c → ∃ d, drafts !! k = Some d ∧ chunk_of doc_id (i + Z.of_nat k) d c.
Proof.
  revert i chunks. induction drafts as [|d drafts IH]; intros i chunks; simpl; [by intros [= <-]|].
  intros (cid & Hcid & (cs & Hcs & [= <-])%rbind_ok)%rbind_ok. apply IH in Hcs as [Hl Hk].
  split; [by simpl; f_equal|]. intros [|k] c Hc; simpl in Hc.
  - injection Hc as <-. exists d. rewrite Z.add_0_r. done.
  - apply Hk in Hc as (d' & Hd' & Hc'). exists d'. split; [done|]. by replace (i + Z.of_nat (S k)) with (i + 1 + Z.of_nat k) by lia.
Qed.

Lemma assign_total doc_id i drafts :
  hex_re 64 doc_id = true → 0 ≤ i → ∃ chunks, assign_from doc_id i drafts = Ok chunks.
Proof.
  intros Hd. revert i. induction drafts as [|d drafts IH]; intros i Hi; simpl; [by eexists|].
  rewrite derive_chunk_id_ok by done. simpl. destruct (IH (i + 1)) as [cs ->]; [lia|]. by eexists.
Qed.

(** [filter] commutes with the assignment: table chunks come from table drafts, in order. *)
Lemma assign_filter doc_id i drafts chunks :
  assign_from doc_id i drafts = Ok chunks →
  Forall2 (λ d c, ck_text c = dr_text d ∧ ck_element_types c = dr_element_types d)
    (filter (λ d, is_table_meta (dr_metadata d) = true) drafts) (filter (λ c, is_table_meta (ck_metadata c) = true) chunks).
Proof.
  revert i chunks. induction drafts as [|d drafts IH]; intros i chunks; simpl; [by intros [= <-]|].
  intros (cid & Hcid & (cs & Hcs & [= <-])%rbind_ok)%rbind_ok. apply IH in Hcs.
  rewrite !filter_cons. simpl. case_decide; [by constructor|done].
Qed.

Lemma assemble_sectioned config tc doc_id els chunks :
  _assemble_chunks (new_chunker config tc) doc_id els = Ok chunks →
  Forall (λ c, sectioned (ck_metadata c) ∧ ck_doc_id c = doc_id) chunks.
Proof.
  intros (ds & Hds%all_drafts_sectioned & Ha)%rbind_ok. apply assign_from_inv in Ha as [_ Ha].
  apply Forall_lookup. intros i c Hc. destruct (Ha _ _ Hc) as (d & Hd & _ & Hdoc & _ & _ & _ & _ & Hm).
  rewrite Hm. split; [by apply (Forall_lookup_1 _ _ _ _ Hds Hd)|done].
Qed.

(** Two chunks with one id are at one position, or the two messages that were hashed for
    them collide. *)
Lemma assign_ids_distinct doc_id drafts chunks j k c c' :
  assign_from doc_id 0 drafts = Ok chunks →
  chunks !! j = Some c → chunks !! k = Some c' → ck_chunk_id c = ck_chunk_id c' →
  j = k ∨ sha256_collision (doc_id +:+ pretty (Z.of_nat j)) (doc_id +:+ pretty (Z.of_nat k)).
Proof.
  intros [_ H]%assign_from_inv Hj Hk Heq. destruct (decide (j = k)) as [|Hne]; [by left|right].
  destruct (H _ _ Hj) as (_ & _ & Hcj & _), (H _ _ Hk) as (_ & _ & Hck & _). rewrite Z.add_0_l in *.
  apply derive_chunk_id_str_inv in Hcj as (Hhex & Hzj & Ej), Hck as (_ & Hzk & Ek). split; [|congruence].
  intros Hm. apply chunk_message_inj in Hm as [_ Hm]; try done. lia.
Qed.
End assembly.
(** ** Grids *)

Definition lookup2 (grid : list (list string)) (r c : nat) : option string := grid !! r ≫= λ row, row !! c.

Definition shape (grid : list (list string)) (rows columns : nat) : Prop :=
  length grid = rows ∧ Forall (λ row, length row = columns) grid.

Definition in_grid (rows columns : nat) (x : cell) : Prop :=
  0 ≤ row_index x < Z.of_nat rows ∧ 0 ≤ column_index x < Z.of_nat columns.

Lemma py_index_in n i : 0 ≤ i < Z.of_nat n → py_index n i = Some (Z.to_nat i).
Proof. intros. unfold py_index. by rewrite !bool_decide_eq_true_2 by lia. Qed.

Lemma grid_set_ok rows columns grid x s :
  shape grid rows columns → in_grid rows columns x →
  ∃ grid', grid_set (row_index x) (column_index x) s grid = Ok grid' ∧ shape grid' rows columns ∧
    ∀ r c, lookup2 grid' r c =
      if decide (row_index x = Z.of_nat r ∧ column_index x = Z.of_nat c) then Some s else lookup2 grid r c.
Proof.
  intros [Hl Hf] [Hr Hc]. unfold grid_set. rewrite py_index_in by lia.
  destruct (lookup_lt_is_Some_2 grid (Z.to_nat (row_index x))) as [row Hrow]; [lia|].
  rewrite Hrow. simpl. pose proof (Forall_lookup_1 _ _ _ _ Hf Hrow) as Hlen. simpl in Hlen.
  rewrite py_index_in by lia. eexists. split; [done|]. split; [split|].
  - by rewrite length_insert.
  - apply Forall_insert; [done|]. by rewrite length_insert.
  - intros r c. unfold lookup2. destruct (decide (r = Z.to_nat (row_index x))) as [->|Hne].
    + rewrite list_lookup_insert_eq by lia. simpl. rewrite Hrow. simpl.
      destruct (decide (c = Z.to_nat (column_index x))) as [->|Hne].
      * rewrite list_lookup_insert_eq by lia. rewrite decide_True by lia. done.
      * rewrite list_lookup_insert_ne by done. rewrite decide_False by lia. done.
    + rewrite list_lookup_insert_ne by done. rewrite decide_False by lia. done.
Qed.

Lemma last_filter_cons {A} (P : A → Prop) `{!∀ x, Decision (P x)} x l :
  list.last (filter P (x :: l)) = match list.last (filter P l) with Some y => Some y | None => if decide (P x) then Some x else None end.
Proof. rewrite filter_cons. case_decide; [|by destruct (list.last _)]. rewrite last_cons. by destruct (list.last _). Qed.

Lemma fill_grid_ok rows columns cells grid :
  shape grid rows columns → Forall (in_grid rows columns) cells →
  ∃ grid', fill_grid cells grid = Ok grid' ∧ shape grid' rows columns ∧
    ∀ r c, lookup2 grid' r c =
      match list.last (filter (λ x, row_index x = Z.of_nat r ∧ column_index x = Z.of_nat c) cells) with
      | Some x => Some (cell_text x)
      | None => lookup2 grid r c
      end.
Proof.
  intros Hs Hall. revert grid Hs. induction Hall as [|x cells Hx _ IH]; intros grid Hs; simpl; [by exists grid|].
  destruct (grid_set_ok rows columns grid x (cell_text x) Hs Hx) as (g1 & -> & Hs1 & Hl1). simpl.
  destruct (IH g1 Hs1) as (g2 & -> & Hs2 & Hl2). exists g2. split_and!; [done..|]. intros r c.
  rewrite Hl2, last_filter_cons, Hl1. destruct (list.last _); [done|]. by case_decide.
Qed.

Lemma py_max_ge z zs : z ≤ py_max z zs ∧ ∀ y, y ∈ zs → y ≤ py_max z zs.
Proof.
  unfold py_max. revert z. induction zs as [|x zs IH]; intros z; simpl; [split; [lia|set_solver]|].
  destruct (IH (Z.max z x)) as [H1 H2]. split; [lia|]. intros y [->|Hy]%elem_of_cons; [lia|auto].
Qed.

Lemma py_max_in z zs : py_max z zs ∈ z :: zs.
Proof.
  unfold py_max. revert z. induction zs as [|x zs IH]; intros z; simpl; [set_solver|].
  specialize (IH (Z.max z x)). apply elem_of_cons in IH as [->|H]; [|set_solver].
  destruct (Z.max_spec z x) as [[_ ->]|[_ ->]]; set_solver.
Qed.

Lemma empty_grid_shape rows columns : shape (empty_grid rows columns) (Z.to_nat rows) (Z.to_nat columns).
Proof. split; [apply length_replicate|]. apply Forall_replicate. apply length_replicate. Qed.

Lemma empty_grid_lookup rows columns r c :
  (r < Z.to_nat rows)%nat → (c < Z.to_nat columns)%nat → lookup2 (empty_grid rows columns) r c = Some "".
Proof. intros. unfold lookup2, empty_grid. rewrite lookup_replicate_2 by done. simpl. by rewrite lookup_replicate_2. Qed.

(** ** Properties *)

(** [_partition_regions] loses, duplicates and reorders nothing: the regions' elements,
    one after the other, are the document's; every table is a region of its own that carries
    the caption of its position, and the prose between two tables is one region. *)
Theorem partition_regions_correct elements :
  mjoin (map rg_elements (_partition_regions elements)) = elements ∧
  regions_ok elements 0 (_partition_regions elements).
Proof. apply (partition_loop_ok elements 0 [] elements); [|done]. by exists []. Qed.

(** Within a region [_split_into_sections] keeps every element that is not a heading, in
    order, in exactly one section whose path is the last heading before it, and it produces
    no empty section. *)
Theorem sections_correct elements :
  mjoin (map (λ s, map (pair s.1) s.2) (_split_into_sections elements)) = under_headings None elements ∧
  Forall (λ s, s.2 ≠ []) (_split_into_sections elements).
Proof. apply (split_sections_ok None [] elements). Qed.

(** The merge of undersized tails. The loop always ends with a result when the token
    counter answers. A result is the input with some final run of drafts merged into one:
    the text of the region is unchanged, the merged draft has the metadata of the first of
    them and the element types of all of them, no table is merged with anything, and a last
    draft that is still undersized has no predecessor or is next to a table. *)
Theorem merge_tail_correct config tc drafts :
  ((∀ s, is_Some (match tc s with Ok n => Some n | Exc _ => None end)) → ∃ merged, _merge_undersized_tail config tc drafts = Ok merged) ∧
  ∀ merged, _merge_undersized_tail config tc drafts = Ok merged →
    py_join blank_line (map dr_text merged) = py_join blank_line (map dr_text drafts) ∧
    ((drafts = [] ∧ merged = []) ∨
     ∃ kept tail d, drafts = kept ++ tail ∧ tail ≠ [] ∧ merged = kept ++ [d] ∧ merged_from tc tail d) ∧
    tail_settled config merged.
Proof.
  split.
  - intros Htc. unfold _merge_undersized_tail. destruct (reverse drafts) as [|last before]; [by eexists|].
    destruct (merge_tail_total config tc last before Htc) as [m ->]. by eexists.
  - intros merged Hm. apply merge_undersized_tail_inv in Hm as [[-> ->]|(kept & tail & d & -> & Hne & -> & Hd & Hs)].
    + split_and!; [done|by left|]. intros [|? kept] p l [=].
    + split_and!; [|right; naive_solver|done]. destruct Hd as [Ht _]. rewrite !map_app. simpl. rewrite Ht.
      apply py_join_app. by destruct tail.
Qed.

(** C10: what [_assemble_chunks] returns: the chunks are numbered from 0 without gaps, each
    id is the one derived from the document and the position, two chunks have the same id only
    when the very messages hashed for their two positions are a SHA-256 collision, each token count is the counter's answer for that chunk's text, and the table
    chunks are exactly the document's tables in order, one whole serialized table each: no
    table is ever split, merged or dropped. *)
Theorem assemble_chunks_correct {cenv : ChunkerEnv} config tc doc_id elements chunks :
  _assemble_chunks (new_chunker config tc) doc_id elements = Ok chunks →
  (∀ k c, chunks !! k = Some c →
     ck_doc_id c = doc_id ∧ ck_position c = Z.of_nat k ∧
     derive_chunk_id (PyStr doc_id) (PyInt (Z.of_nat k)) = Ok (ck_chunk_id c) ∧
     tc (ck_text c) = Ok (ck_token_count c)) ∧
  (∀ j k c c', chunks !! j = Some c → chunks !! k = Some c' → ck_chunk_id c = ck_chunk_id c' →
     j = k ∨ sha256_collision (doc_id +:+ pretty (Z.of_nat j)) (doc_id +:+ pretty (Z.of_nat k))) ∧
  Forall2 (λ te c, _serialize_table te.1 te.2 = Ok (ck_text c) ∧ ck_element_types c = [el_type te.1])
    (tables_of elements) (filter (λ c, is_table_meta (ck_metadata c) = true) chunks).
Proof.
  intros (ds & (parts & Hparts%rmap_ok & [= <-])%rbind_ok & Hassign)%rbind_ok. apply regions_parts in Hparts as [Hcount Htab].
  unfold _partition_regions in Htab. rewrite partition_tables in Htab. split_and!.
  - intros k c Hc. destruct (assign_from_inv _ _ _ _ Hassign) as [_ Hk].
    destruct (Hk _ _ Hc) as (d & Hd & Hid & Hdoc & Hpos & _ & Htext & Htok & _). rewrite Z.add_0_l in *.
    split_and!; try done. rewrite Htext, Htok. by apply (Forall_lookup_1 _ _ _ _ Hcount Hd).
  - intros j k c c'. by eapply assign_ids_distinct.
  - apply assign_filter in Hassign. revert Htab Hassign. unfold tables_of.
    generalize (filter (λ d, is_table_meta (dr_metadata d) = true) (mjoin parts)). intros ds H1.
    generalize (filter (λ c, is_table_meta (ck_metadata c) = true) chunks). revert ds H1.
    generalize (tables_from elements 0 elements).
    induction 1 as [|te d tes ds (_ & _ & Hs & Hty) _ IH]; intros cs Hcs; inversion Hcs as [|? c ? cs' [Ht Hy]]; subst; constructor; [|eauto].
    by rewrite Ht, Hy.
Qed.

(** A tokenizer and a splitter for the examples: one token per byte, and no splitting. *)
Definition byte_counter : TokenCounter := λ s, Ok (Z.of_nat (String.length s)).

Definition example_cenv : ChunkerEnv := {| split_text _ _ _ text := Ok [text] |}.

Definition para (text : string) : Element := mkElement PARAGRAPH text [].
Definition head_of (text : string) : Element := mkElement HEADING text [].
Definition table_of (text : string) : Element := mkElement TABLE text [].

Definition example_chunker_config : ChunkerConfig := mkChunkerConfig 512 64 4 800 "tiktoken_cl100k".

Lemma merge_tail_correct_witness :
  ∃ merged, _merge_undersized_tail example_chunker_config byte_counter
              [mkDraft [PARAGRAPH] "long enough" 11 []; mkDraft [LIST] "abc" 3 []] = Ok merged ∧
    map dr_text merged = ["long enough" +:+ blank_line +:+ "abc"].
Proof.
  destruct (merge_tail_correct example_chunker_config byte_counter
              [mkDraft [PARAGRAPH] "long enough" 11 []; mkDraft [LIST] "abc" 3 []]) as [H _].
  destruct H as [merged Hm]; [intros s; by eexists|]. exists merged. split; [exact Hm|].
  vm_compute in Hm. injection Hm as <-. reflexivity.
Defined.

Definition example_elements : list Element := [para "intro"; table_of "grid"; para "outro"].

Lemma assemble_chunks_correct_witness :
  ∃ chunks, @_assemble_chunks (@new_chunker example_cenv example_chunker_config byte_counter) example_doc example_elements = Ok chunks ∧
    Forall2 (λ te c, _serialize_table te.1 te.2 = Ok (ck_text c) ∧ ck_element_types c = [el_type te.1])
      (tables_of example_elements) (filter (λ c, is_table_meta (ck_metadata c) = true) chunks).
Proof.
  destruct (@_assemble_chunks (@new_chunker example_cenv example_chunker_config byte_counter) example_doc example_elements) as [chunks|x] eqn:E.
  - exists chunks. split; [reflexivity|].
    apply (@assemble_chunks_correct example_cenv example_chunker_config byte_counter example_doc example_elements chunks E).
  - exfalso. unfold _assemble_chunks in E. destruct (all_drafts _ _) as [ds|y] eqn:Ep; [|vm_compute in Ep; discriminate].
    destruct (assign_total example_doc 0 ds example_doc_ok ltac:(lia)) as [cs Hcs]. unfold rbind, _assign_positions in E.
    rewrite Hcs in E. discriminate.
Defined.

(** A table whose cells have non-negative coordinates is rendered without error as a
    Markdown table of the smallest grid that holds them: the position [(r, c)] shows the text
    of the last cell given for it, or nothing, the first row is the header and the others
    follow the separator in order. *)
Lemma markdown_table_correct cells :
  cells ≠ [] → Forall (λ x, 0 ≤ row_index x ∧ 0 ≤ column_index x) cells →
  ∃ header body columns,
    _markdown_table cells =
      Ok (py_join newline (row_line header :: row_line (replicate columns "---") :: map row_line body)) ∧
    shape (header :: body) (length (header :: body)) columns ∧
    Forall (in_grid (length (header :: body)) columns) cells ∧
    (∃ x, x ∈ cells ∧ row_index x + 1 = Z.of_nat (length (header :: body))) ∧
    (∃ x, x ∈ cells ∧ column_index x + 1 = Z.of_nat columns) ∧
    ∀ r c, (r < length (header :: body))%nat → (c < columns)%nat →
      lookup2 (header :: body) r c = Some (cell_at cells r c).
Proof.
  intros Hne Hall. destruct cells as [|x cells]; [done|].
  unfold _markdown_table. set (rc := py_max (row_index x) (map row_index cells) + 1). set (cc := py_max (column_index x) (map column_index cells) + 1).
  assert (Hin : Forall (in_grid (Z.to_nat rc) (Z.to_nat cc)) (x :: cells)).
  { apply Forall_forall. intros y Hy. rewrite Forall_forall in Hall. pose proof (Hall y Hy).
    destruct (py_max_ge (row_index x) (map row_index cells)) as [Hr1 Hr2].
    destruct (py_max_ge (column_index x) (map column_index cells)) as [Hc1 Hc2].
    assert (row_index y < rc ∧ column_index y < cc).
    { unfold rc, cc. apply elem_of_cons in Hy as [->|Hy]; [lia|].
      specialize (Hr2 _ (list_elem_of_fmap_2 row_index _ _ Hy)). specialize (Hc2 _ (list_elem_of_fmap_2 column_index _ _ Hy)). lia. }
    unfold in_grid. lia. }
  destruct (fill_grid_ok _ _ (x :: cells) _ (empty_grid_shape rc cc) Hin) as (grid & -> & [Hlen Hf] & Hl). cbn [rbind].
  pose proof (Forall_inv Hin) as [Hx _].
  destruct grid as [|header body]; [simpl in Hlen; lia|].
  exists header, body, (Z.to_nat cc). split; [done|]. rewrite Hlen. split; [by split|]. split; [done|].
  assert (Hmax : ∀ f : cell → Z, ∃ y, y ∈ x :: cells ∧ f y = py_max (f x) (map f cells)).
  { intros f. pose proof (py_max_in (f x) (map f cells)) as Hm. change (f x :: map f cells) with (map f (x :: cells)) in Hm.
    apply list_elem_of_fmap in Hm as (y & -> & Hy). by exists y. }
  split; [|split].
  { destruct (Hmax row_index) as (y & Hy & Hmy). exists y. split; [done|]. lia. }
  { destruct (Hmax column_index) as (y & Hy & Hmy). exists y. split; [done|]. pose proof (proj2 (Forall_inv Hin)). lia. }
  intros r c Hr Hc. rewrite Hl, empty_grid_lookup by done. unfold cell_at. by destruct (list.last _).
Qed.

Definition example_cells : list cell :=
  [mkCell 0 0 (Some (PyStr "Name")); mkCell 0 1 (Some (PyStr "Age")); mkCell 1 1 (Some (PyInt 30))].

Example markdown_table_example :
  _markdown_table example_cells =
    Ok ("| Name | Age |" +:+ newline +:+ "| --- | --- |" +:+ newline +:+ "|  | 30 |").
Proof. vm_compute. reflexivity. Qed.

(** ** The stage *)

(** The error a failed assembly is reported with. *)
Definition chunk_failure (x : exn) : string * string :=
  match x with
  | ChunkerError _ reason code =>
    if decide (code = TOKENIZER_LOAD_FAILED) then (TOKENIZER_LOAD_FAILED, reason) else (CHUNKER_INTERNAL, exn_str x)
  | _ => (CHUNKER_INTERNAL, exn_str x)
  end.

Lemma build_chunks_eq {A} ch doc_id elements (k : list Chunk → component A) :
  pbind (_build_chunks ch doc_id elements) k =
  match _assemble_chunks ch doc_id elements with
  | Ok chunks => k chunks
  | Exc x => pbind (_self_transition_and_raise doc_id (chunk_failure x).1 (chunk_failure x).2) k
  end.
Proof. unfold _build_chunks, chunk_failure. destruct (_assemble_chunks ch doc_id elements) as [cs|[]]; try done. by case_decide. Qed.

Lemma chunk_success {env : Env} ch envelope elements chunks w cur :
  let d := env_doc_id envelope in
  ledger_ok (w_ledger w) → dict_get d (w_ledger w) = Some cur → row_status cur = CHUNKING →
  elements ≠ [] → _assemble_chunks ch d elements = Ok chunks →
  run handle (chunk ch envelope elements) w =
  (Ok chunks, set_ledger (dict_set d (next_row (w_now w) d EMBEDDING EMBEDDING None None None cur) (w_ledger w)) w).
Proof.
  intros d Hok Hc Hs Hne Ha. pose proof (proj2 Hok _ _ Hc) as Hrow. pose proof Hrow as (_ & Hhex & _).
  unfold chunk. fold d. destruct elements as [|e els]; [done|]. cbn [pbind]. rewrite build_chunks_eq, Ha.
  unfold _transition_to_embedding. rewrite run_bind.
  by rewrite (run_transition_or_benign_ok d EMBEDDING None None None w cur Hhex Hc Hrow); [|rewrite Hs; constructor|naive_solver].
Qed.

(** The transitions the chunker ever requests. *)
Lemma chunk_targets ch envelope elements :
  all_ops (targets_in [CHUNKING; EMBEDDING; FAILED]) (chunk ch envelope elements).
Proof.
  unfold chunk, _terminalize_empty_elements, _build_chunks, _self_transition_and_raise, _transition_to_embedding.
  repeat (all_ops_tac; try ((apply transition_or_benign_targets; set_solver) || (simpl; set_solver))).
Qed.

(** C26: [Chunker.chunk] run on a document in [CHUNKING], on every outcome. No elements: the
    row becomes [FAILED] with [CHUNKER_EMPTY_ELEMENTS] and that error is raised. An assembled
    document returns its chunks and the row becomes [EMBEDDING] with a first attempt and no
    error. A failing tokenizer or any other exception raises [ChunkerError] and leaves the row
    [CHUNKING], with the error recorded and one more attempt, so that it can be redelivered.
    No other document is touched. *)
Theorem chunk_outcomes {env : Env} ch envelope elements w cur :
  let d := env_doc_id envelope in
  ledger_ok (w_ledger w) → dict_get d (w_ledger w) = Some cur → row_status cur = CHUNKING →
  ∃ row w', dict_get d (w_ledger w') = Some row ∧
    (∀ d', d' ≠ d → dict_get d' (w_ledger w') = dict_get d' (w_ledger w)) ∧
    match elements with
    | [] =>
      run handle (chunk ch envelope elements) w = (Exc (ChunkerError d empty_reason CHUNKER_EMPTY_ELEMENTS), w') ∧
      row_status row = FAILED ∧ row_last_error_code row = Some CHUNKER_EMPTY_ELEMENTS
    | _ =>
      match _assemble_chunks ch d elements with
      | Ok chunks =>
        run handle (chunk ch envelope elements) w = (Ok chunks, w') ∧
        row_status row = EMBEDDING ∧ row_attempts row = 1 ∧ row_last_error_code row = None
      | Exc x =>
        run handle (chunk ch envelope elements) w = (Exc (ChunkerError d (chunk_failure x).2 (chunk_failure x).1), w') ∧
        row_status row = CHUNKING ∧ row_last_error_code row = Some (chunk_failure x).1 ∧ row_attempts row = row_attempts cur + 1
      end
    end.
Proof.
  intros d Hok Hc Hs. pose proof (proj2 Hok _ _ Hc) as Hrow. pose proof Hrow as (_ & Hhex & _).
  assert (Hother : ∀ row d', d' ≠ d → dict_get d' (dict_set d row (w_ledger w)) = dict_get d' (w_ledger w)).
  { intros. by apply dict_get_set_ne. }
  unfold chunk. fold d. destruct elements as [|e els].
  - unfold _terminalize_empty_elements. rewrite run_bind, run_bind.
    rewrite (run_transition_or_benign_ok d FAILED _ _ None w cur Hhex Hc Hrow); [|rewrite Hs; constructor; set_solver|naive_solver].
    eexists _, _. split; [|split; [|split; [reflexivity|]]]; [apply dict_get_set_eq|apply Hother|]. destruct (next_row_failed (w_now w) d FAILED CHUNKER_EMPTY_ELEMENTS (Some empty_reason) None cur) as (? & ? & _). done.
  - destruct (_assemble_chunks ch d (e :: els)) as [chunks|x] eqn:Ea.
    + pose proof (chunk_success ch envelope (e :: els) chunks w cur Hok Hc Hs ltac:(done) Ea) as Hrun. unfold chunk in Hrun. fold d in Hrun. rewrite Hrun.
      eexists _, _. split; [|split; [|split; [reflexivity|]]]; [apply dict_get_set_eq|apply Hother|].
      by apply next_row_forward; rewrite ?Hs.
    + cbn [pbind]. rewrite build_chunks_eq, Ea. unfold _self_transition_and_raise. rewrite run_bind, run_bind.
      rewrite (run_transition_ok d CHUNKING _ _ None w cur Hhex Hc Hrow); [|rewrite Hs; constructor; set_solver|naive_solver].
      eexists _, _. split; [|split; [|split; [reflexivity|]]]; [apply dict_get_set_eq|apply Hother|].
      by apply next_row_retry.
Qed.

Definition chunking_row : LedgerRow := mkRow example_doc CHUNKING CHUNKING 1 None None "1" 1 5 None.
Definition chunker_rows : LedgerStore := [(example_doc, chunking_row)].

Lemma chunker_rows_ok : ledger_ok chunker_rows.
Proof. apply (ledger_ok_set example_doc _ []); [|apply ledger_ok_empty]. split_and!; [done|apply example_doc_ok|done..]. Qed.

Definition chunk_envelope : ArrivalEnvelope := mkEnvelope example_doc "blob:hr" "a.pdf" None None [] INTERNAL "" 0.

Lemma chunk_outcomes_witness :
  ∃ w', run (@handle unit_env) (chunk (@new_chunker example_cenv example_chunker_config byte_counter) chunk_envelope []) (unit_world chunker_rows)
    = (Exc (ChunkerError example_doc empty_reason CHUNKER_EMPTY_ELEMENTS), w') ∧ status_of example_doc (w_ledger w') = Some FAILED.
Proof.
  destruct (@chunk_outcomes unit_env (@new_chunker example_cenv example_chunker_config byte_counter) chunk_envelope []
    (unit_world chunker_rows) chunking_row chunker_rows_ok) as (row & w' & Hrow & _ & H).
  - by vm_compute.
  - reflexivity.
  - destruct H as (Hrun & Hs & _). exists w'. split; [exact Hrun|]. unfold status_of. cbn [env_doc_id chunk_envelope] in Hrow.
    rewrite Hrow. simpl. by rewrite Hs.
Defined.

(** The section a chunk is tagged with is not always the section its text stands in.
    After a table the active heading is forgotten, so prose that follows a table inside a
    section is tagged with no section; and an undersized last section is merged into a chunk
    of the section before it, whose text then spans both. *)
Theorem section_path_not_exact :
  (∃ ds, @all_drafts (@new_chunker example_cenv example_chunker_config byte_counter)
           [head_of "Scope"; para "before"; table_of "grid"; para "after"] = Ok ds ∧
     map (λ d, (dr_text d, dict_get "section_path" (dr_metadata d))) ds =
       [("before", Some (MStr "Scope")); ("before" +:+ blank_line +:+ "grid", Some MNone); ("after", Some MNone)]) ∧
  (Some "Scope", para "after") ∈ under_headings None [head_of "Scope"; para "before"; table_of "grid"; para "after"] ∧
  (∃ ds, @all_drafts (@new_chunker example_cenv example_chunker_config byte_counter)
           [head_of "One"; para "long enough"; head_of "Two"; para "abc"] = Ok ds ∧
     map (λ d, (dr_text d, dict_get "section_path" (dr_metadata d))) ds =
       [("long enough" +:+ blank_line +:+ "abc", Some (MStr "One"))]).
Proof.
  split_and!.
  - eexists. split; [vm_compute; reflexivity|]. reflexivity.
  - set_solver.
  - eexists. split; [vm_compute; reflexivity|]. reflexivity.
Qed.
End Chunker.
