(* ===== verification/Parsers.v ===== *)
(** * Parsers (src/vestibule/analyzer/parsers)

    The two parsers the analyzer dispatches to: [PyMuPDFParser] turns the text blocks and the
    detected tables of a digital PDF into elements in reading order, and
    [DocumentIntelligenceParser] maps the result, or the failure, of Azure Document
    Intelligence. PyMuPDF and the Azure client are arguments; what they return is a typed
    record of exactly the attributes the code reads, and each of their calls may raise. *)
From S2P Require Import Prelude PyDict Errors ErrorCodes Types Ledger Prog System Analyzer Chunker.
#[local] Open Scope Z_scope.

Module Parsers.
Import Analyzer.

(** ** [not text.strip()]: every character is Unicode white space (in UTF-8) *)

Fixpoint blank (l : list nat) : bool :=
  match l with
  | [] => true
  | a :: l1 =>
    if ((9 <=? a) && (a <=? 13) || (28 <=? a) && (a <=? 32))%nat then blank l1 else
    match l1 with
    | b :: l2 =>
      if ((a =? 194) && ((b =? 133) || (b =? 160)))%nat then blank l2 else
      match l2 with
      | c :: l3 =>
        if ((a =? 225) && (b =? 154) && (c =? 128)
            || (a =? 226) && (b =? 128) && ((128 <=? c) && (c <=? 138) || (c =? 168) || (c =? 169) || (c =? 175))
            || (a =? 226) && (b =? 129) && (c =? 159)
            || (a =? 227) && (b =? 128) && (c =? 128))%nat then blank l3 else false
      | [] => false
      end
    | [] => false
    end
  end.

Definition is_blank (s : string) : bool := blank (map nat_of_ascii (String.list_ascii_of_string s)).

(** ** What PyMuPDF returns (pymupdf_parser.py) *)

(** [None] stands for an absent key. *)
Record span := mkSpan { sp_text : option string; sp_size : option pyfloat }.
Record line := mkLine { ln_spans : option (list span) }.
Record block := mkBlock { bl_lines : option (list line); bl_bbox : option bbox }.

(** A cell of [extract()] is a string, or [None] where the grid has no cell of its own. *)
Record table := mkTable {
  tb_extract : result exn (list (list (option string))); tb_bbox : bbox; tb_row_count : Z; tb_col_count : Z }.

Record page := mkPage { find_tables : result exn (list table); get_text_blocks : result exn (option (list block)) }.

(** [pymupdf.open(stream=data, filetype="pdf")]: the pages of the document. *)
Notation pymupdf := (string → result exn (list page)).

(** The threshold [14.0]. *)
Definition _HEADING_FONT_SIZE_THRESHOLD : pyfloat := f_of_Z 14.

Definition block_spans (b : block) : list (list span) := map (λ l, default [] (ln_spans l)) (default [] (bl_lines b)).

Definition span_text (s : span) : string := default "" (sp_text s).
Definition span_size (s : span) : pyfloat := default (f_of_Z 0) (sp_size s).

Definition _block_text (b : block) : string :=
  py_join Chunker.newline (map (λ spans, py_join "" (map span_text spans)) (block_spans b)).

(** [max(...)]: the first of the largest. *)
Definition f_max (x : pyfloat) (xs : list pyfloat) : pyfloat := fold_left (λ m y, if f_lt m y then y else m) xs x.

Definition _block_max_font_size (b : block) : pyfloat :=
  match map span_size (mjoin (block_spans b)) with
  | [] => f_of_Z 0
  | x :: xs => f_max x xs
  end.

Definition opt_bbox (o : option bbox) : metaval := match o with Some b => MBBox b | None => MNone end.

Definition _block_element (b : block) (page_index : Z) : option Element :=
  let text := _block_text b in
  if is_blank text then None else
  let element_type := if f_le _HEADING_FONT_SIZE_THRESHOLD (_block_max_font_size b) then HEADING else PARAGRAPH in
  Some (mkElement element_type text [("page", MInt page_index); ("bbox", opt_bbox (bl_bbox b))]).

Definition extracted_value (content : option string) : pyval := match content with Some s => PyStr s | None => PyNone end.

(** [enumerate] over the rows and over the cells of a row. *)
Definition table_cells (rows : list (list (option string))) : list cell :=
  mjoin (imap (λ r row, imap (λ c content, mkCell (Z.of_nat r) (Z.of_nat c) (Some (extracted_value content))) row) rows).

(** [str(cell["content"])]. *)
Definition content_str (c : cell) : string := match content c with Some v => py_str v | None => "" end.

Definition _table_element (t : table) (page_index : Z) : result exn Element :=
  rbind (tb_extract t) (λ rows,
  let cells := table_cells rows in
  Ok (mkElement TABLE (py_join Chunker.newline (map content_str cells))
        [("page", MInt page_index); ("bbox", MBBox (tb_bbox t)); ("row_count", MInt (tb_row_count t));
         ("column_count", MInt (tb_col_count t)); ("cells", MCells cells)])).

Definition _table_elements (p : page) (page_index : Z) : result exn (list Element) :=
  rbind (find_tables p) (rmap (λ t, _table_element t page_index)).

Definition _center_in_any_bbox (b : option bbox) (table_bboxes : list bbox) : bool :=
  match b with
  | None => false
  | Some (x0, y0, x1, y1) =>
    let center_x := f_div (f_add x0 x1) (f_of_Z 2) in
    let center_y := f_div (f_add y0 y1) (f_of_Z 2) in
    existsb (λ '(a0, b0, a1, b1), f_le a0 center_x && f_le center_x a1 && (f_le b0 center_y && f_le center_y b1)) table_bboxes
  end.

Definition _bbox_top (b : option bbox) : pyfloat := match b with Some (_, y0, _, _) => y0 | None => f_of_Z 0 end.

(** [element.metadata.get("bbox")]. *)
Definition element_bbox (e : Element) : option bbox :=
  match dict_get "bbox" (el_metadata e) with Some (MBBox b) => Some b | _ => None end.

Definition _page_elements (p : page) (page_index : Z) : result exn (list Element) :=
  rbind (_table_elements p page_index) (λ table_elements,
  let table_bboxes := omap element_bbox table_elements in
  rbind (get_text_blocks p) (λ blocks,
  let text_elements :=
    List.filter (λ e, negb (_center_in_any_bbox (element_bbox e) table_bboxes))
      (omap (λ b, _block_element b page_index) (default [] blocks)) in
  Ok (py_sort (λ y x, f_lt (_bbox_top (element_bbox y)) (_bbox_top (element_bbox x))) (table_elements ++ text_elements)))).

Fixpoint document_elements (page_index : Z) (pages : list page) : result exn (list Element) :=
  match pages with
  | [] => Ok []
  | p :: rest =>
    rbind (_page_elements p page_index) (λ es, rbind (document_elements (page_index + 1) rest) (λ es', Ok (es ++ es')))
  end.

(** [PyMuPDFParser()]: the module when it can be imported. *)
Definition _import_pymupdf (installed : option pymupdf) : result exn pymupdf :=
  match installed with
  | Some m => Ok m
  | None =>
    Exc (AnalyzerError ""
      "pymupdf could not be imported to construct PyMuPDFParser; it is a core dependency of vestibule — reinstall with `pip install -e .` (or `pip install vestibule`) to restore it"
      ANALYZER_DEPENDENCY_MISSING None)
  end.

Definition pymupdf_parse (open : pymupdf) (envelope : ArrivalEnvelope) (bytes_reader : BytesReader) : result exn (list Element) :=
  rbind bytes_reader (λ data, rbind (open data) (document_elements 0)).

(** ** What Azure Document Intelligence returns (docint_parser.py) *)

Record DocumentParagraph := mkParagraph { pa_role : option string; pa_content : string }.
Record DocumentTableCell := mkTableCell { tc_row_index : Z; tc_column_index : Z; tc_content : string }.
Record DocumentTable := mkDocTable { dt_row_count : Z; dt_column_count : Z; dt_cells : list DocumentTableCell }.
Record AnalyzeResult := mkAnalyzeResult { ar_paragraphs : option (list DocumentParagraph); ar_tables : option (list DocumentTable) }.

(** The outcome of [begin_analyze_document(...)] and [poller.result()]. *)
Inductive docint_outcome :=
| Analyzed (r : AnalyzeResult)
| HttpFailed (status_code : option Z) (retry_after : option string) (message : string)
| DocintRaises (cls message : string).

Definition DOCINT_RATE_LIMITED : string := "DOCINT_RATE_LIMITED".
Definition DOCINT_UPSTREAM_ERROR : string := "DOCINT_UPSTREAM_ERROR".

Definition _HTTP_TOO_MANY_REQUESTS : Z := 429.
Definition _HTTP_SERVER_ERROR_FLOOR : Z := 500.
Definition _HEADING_ROLES : list string := ["title"; "sectionHeading"].

Definition _map_status_to_error_code (status_code : option Z) : option string :=
  match status_code with
  | None => None
  | Some s =>
    if bool_decide (s = _HTTP_TOO_MANY_REQUESTS) then Some DOCINT_RATE_LIMITED
    else if bool_decide (_HTTP_SERVER_ERROR_FLOOR ≤ s) then Some DOCINT_UPSTREAM_ERROR
    else None
  end.

Definition _paragraph_element (p : DocumentParagraph) : Element :=
  let element_type :=
    match pa_role p with
    | Some r => if bool_decide (r ∈ _HEADING_ROLES) then HEADING else PARAGRAPH
    | None => PARAGRAPH
    end in
  mkElement element_type (pa_content p) [("role", Chunker.opt_str (pa_role p))].

Definition docint_table_element (t : DocumentTable) : Element :=
  let cells := map (λ c, mkCell (tc_row_index c) (tc_column_index c) (Some (PyStr (tc_content c)))) (dt_cells t) in
  mkElement TABLE (py_join Chunker.newline (map tc_content (dt_cells t)))
    [("row_count", MInt (dt_row_count t)); ("column_count", MInt (dt_column_count t)); ("cells", MCells cells)].

Definition _elements_from_result (r : AnalyzeResult) : list Element :=
  map _paragraph_element (default [] (ar_paragraphs r)) ++ map docint_table_element (default [] (ar_tables r)).

(** [DocumentIntelligenceParser.parse]; the analysis of the bytes is the Azure client's. *)
Definition docint_parse (analyze_document : string → docint_outcome) (envelope : ArrivalEnvelope) (bytes_reader : BytesReader)
    : result exn (list Element) :=
  rbind bytes_reader (λ data,
  match analyze_document data with
  | Analyzed r => Ok (_elements_from_result r)
  | DocintRaises cls message => Exc (PyExc cls message)
  | HttpFailed status retry_after message =>
    match _map_status_to_error_code status with
    | None => Exc (HttpResponseError status retry_after message)
    | Some code => Exc (AnalyzerError (env_doc_id envelope) message code None)
    end
  end).

(** ** Lemmas *)

(** The largest size reaches a bound exactly when some size does. *)
Lemma f_max_le b x xs :
  Forall (λ y, is_nan y = false) (x :: xs) → f_le b (f_max x xs) = existsb (f_le b) (x :: xs).
Proof.
  unfold f_max. revert x. induction xs as [|y xs IH]; intros x Hn; [simpl; by rewrite orb_false_r|].
  inversion Hn as [|? ? Hx Hn']; subst. inversion Hn' as [|? ? Hy Hn'']; subst. cbn [fold_left].
  rewrite IH by (destruct (f_lt x y); by constructor). cbn [existsb]. rewrite orb_assoc. f_equal.
  destruct (f_lt x y) eqn:Hlt.
  - destruct (f_le b y) eqn:Hby; [by rewrite orb_true_r|]. rewrite orb_false_r. destruct (f_le b x) eqn:Hbx; [|done].
    rewrite <- Hby. eapply f_le_trans; [done|]. apply f_lt_le; [done..|]. by apply f_lt_asym.
  - destruct (f_le b x) eqn:Hbx; [done|]. destruct (f_le b y) eqn:Hby; [|done].
    simpl. rewrite <- Hbx. eapply f_le_trans; [done|]. by apply f_lt_le.
Qed.

Definition top (e : Element) : pyfloat := _bbox_top (element_bbox e).

(** Sorting by the top coordinate leaves no pair out of order. *)
Lemma sort_by_top (l : list Element) :
  Forall (λ e, is_nan (top e) = false) l →
  StronglySorted (λ a b, f_le (top a) (top b) = true) (py_sort (λ y x, f_lt (top y) (top x)) l).
Proof.
  intros Hn. set (R := λ y x, f_lt (top y) (top x)).
  pose proof (py_sort_sorted R (λ a b, f_lt (top b) (top a) = false) l (λ x y, f_lt_asym _ _) (λ x y H, H)) as Hs.
  rewrite <- (py_sort_perm R l) in Hn. apply Sorted_StronglySorted; [intros a b c; apply f_le_trans|].
  induction Hs as [|a l' Hs IH Hd]; [constructor|]. inversion Hn as [|? ? Ha Hl]; subst. constructor; [by apply IH|].
  destruct Hd as [|b l'' Hd]; constructor. inversion Hl; subst. by apply f_lt_le.
Qed.

(** ** What a page's elements must be *)

Definition spans_of (b : block) : list span := mjoin (block_spans b).

Definition block_numeric (b : block) : Prop :=
  is_nan (_bbox_top (bl_bbox b)) = false ∧ Forall (λ s, is_nan (span_size s) = false) (spans_of b).

(** The element of a text block: a heading when some span is at least 14 points high. *)
Definition text_el (i : Z) (b : block) : Element :=
  mkElement (if existsb (λ s, f_le _HEADING_FONT_SIZE_THRESHOLD (span_size s)) (spans_of b) then HEADING else PARAGRAPH)
    (_block_text b) [("page", MInt i); ("bbox", opt_bbox (bl_bbox b))].

Definition table_el (i : Z) (t : table) (rows : list (list (option string))) : Element :=
  mkElement TABLE (py_join Chunker.newline (map content_str (table_cells rows)))
    [("page", MInt i); ("bbox", MBBox (tb_bbox t)); ("row_count", MInt (tb_row_count t));
     ("column_count", MInt (tb_col_count t)); ("cells", MCells (table_cells rows))].

(** A block is inside a detected table when the centre of its box lies in the table's box, the
    borders included; a block without a box is inside none. *)
Definition in_box (x y : pyfloat) (b : bbox) : Prop :=
  let '(x_min, y_min, x_max, y_max) := b in
  f_le x_min x = true ∧ f_le x x_max = true ∧ f_le y_min y = true ∧ f_le y y_max = true.

Definition midpoint (x y : pyfloat) : pyfloat := f_div (f_add x y) (f_of_Z 2).

Definition inside_table (tables : list table) (b : block) : Prop :=
  ∃ t x0 y0 x1 y1, t ∈ tables ∧ bl_bbox b = Some (x0, y0, x1, y1) ∧ in_box (midpoint x0 x1) (midpoint y0 y1) (tb_bbox t).

Lemma center_in_any_iff tables b : _center_in_any_bbox (bl_bbox b) (map tb_bbox tables) = true ↔ inside_table tables b.
Proof.
  unfold inside_table, _center_in_any_bbox. destruct (bl_bbox b) as [[[[x0 y0] x1] y1]|]; [|naive_solver].
  rewrite existsb_exists. split.
  - intros (box & Hin & Hbox). apply in_map_iff in Hin as (t & <- & Hin). exists t, x0, y0, x1, y1. split; [by apply list_elem_of_In|].
    split; [done|]. unfold in_box. destruct (tb_bbox t) as [[[? ?] ?] ?]. rewrite !andb_true_iff in Hbox. naive_solver.
  - intros (t & ? & ? & ? & ? & Hin & [= <- <- <- <-] & Hbox). exists (tb_bbox t). split; [by apply in_map, list_elem_of_In|].
    unfold in_box in Hbox. destruct (tb_bbox t) as [[[? ?] ?] ?]. rewrite !andb_true_iff. naive_solver.
Qed.

(** Not blank, and not inside a detected table. *)
Definition block_kept (tables : list table) (b : block) : Prop := is_blank (_block_text b) = false ∧ ¬ inside_table tables b.

#[export] Instance block_kept_dec tables b : Decision (block_kept tables b).
Proof.
  refine (cast_if (decide (is_blank (_block_text b) = false ∧ _center_in_any_bbox (bl_bbox b) (map tb_bbox tables) = false)));
    unfold block_kept; by rewrite <- center_in_any_iff, not_true_iff_false.
Defined.

(** What PyMuPDF finds on a page, when none of its calls raises. *)
Definition page_holds (p : page) (tables : list table) (rows : list (list (list (option string)))) (blocks : list block) : Prop :=
  find_tables p = Ok tables ∧ Forall2 (λ t r, tb_extract t = Ok r) tables rows ∧
  ∃ ob, get_text_blocks p = Ok ob ∧ blocks = default [] ob.

Definition page_numeric (tables : list table) (blocks : list block) : Prop :=
  Forall (λ t, is_nan (_bbox_top (Some (tb_bbox t))) = false) tables ∧ Forall block_numeric blocks.

(** In reading order: the tables and the kept blocks, each once, from top to bottom, those at
    the same height in the order PyMuPDF gives them. *)
Definition page_correct (i : Z) (tables : list table) (rows : list (list (list (option string)))) (blocks : list block)
    (els : list Element) : Prop :=
  let found := zip_with (table_el i) tables rows ++ map (text_el i) (filter (block_kept tables) blocks) in
  els ≡ₚ found ∧ StronglySorted (λ a b, f_le (top a) (top b) = true) els ∧
  ∀ y, filter (λ e, top e = y) els = filter (λ e, top e = y) found.

Lemma table_elements_ok i tables rows :
  Forall2 (λ t r, tb_extract t = Ok r) tables rows → rmap (λ t, _table_element t i) tables = Ok (zip_with (table_el i) tables rows).
Proof.
  intros Hr. apply rmap_ok. induction Hr as [|t r ts rs Ht _ IH]; [constructor|]. constructor; [|done].
  unfold _table_element. by rewrite Ht.
Qed.

Lemma table_bboxes_eq i tables (rows : list (list (list (option string)))) :
  length tables = length rows → omap element_bbox (zip_with (table_el i) tables rows) = map tb_bbox tables.
Proof. revert rows. induction tables as [|t ts IH]; intros [|r rs]; try done. intros [= Hl]. simpl. f_equal. by apply IH. Qed.

Lemma block_element_numeric i b :
  block_numeric b → _block_element b i = if is_blank (_block_text b) then None else Some (text_el i b).
Proof.
  intros [_ Hn]. unfold _block_element, text_el. destruct (is_blank _); [done|]. f_equal. f_equal.
  unfold _block_max_font_size. fold (spans_of b). revert Hn. generalize (spans_of b). intros [|s ss] Hn; [by vm_compute|].
  cbn [map]. rewrite f_max_le; [|by apply (Forall_map span_size (λ y, is_nan y = false) (s :: ss))].
  change (span_size s :: map span_size ss) with (map span_size (s :: ss)).
  assert (Hm : ∀ l, existsb (f_le _HEADING_FONT_SIZE_THRESHOLD) (map span_size l)
                  = existsb (λ s, f_le _HEADING_FONT_SIZE_THRESHOLD (span_size s)) l) by (intros l; induction l; simpl; congruence).
  by rewrite Hm.
Qed.

Lemma text_el_bbox i b : element_bbox (text_el i b) = bl_bbox b.
Proof. unfold element_bbox, text_el. simpl. by destruct (bl_bbox b). Qed.

Lemma text_elements_eq i tables blocks :
  Forall block_numeric blocks →
  List.filter (λ e, negb (_center_in_any_bbox (element_bbox e) (map tb_bbox tables))) (omap (λ b, _block_element b i) blocks)
  = map (text_el i) (filter (block_kept tables) blocks).
Proof.
  intros Hn. induction Hn as [|b bs Hb _ IH]; [done|]. simpl. rewrite block_element_numeric by done.
  rewrite filter_cons. destruct (is_blank (_block_text b)) eqn:Hbl; simpl.
  - rewrite decide_False by (intros [??]; congruence). exact IH.
  - rewrite text_el_bbox. destruct (_center_in_any_bbox _ _) eqn:Hc; simpl.
    + rewrite decide_False by (intros [? Hn']; by apply Hn', center_in_any_iff). exact IH.
    + rewrite decide_True by (split; [done|]; rewrite <- center_in_any_iff; congruence). simpl. by f_equal.
Qed.

Lemma found_numeric i tables (rows : list (list (list (option string)))) blocks :
  page_numeric tables blocks →
  Forall (λ e, is_nan (top e) = false) (zip_with (table_el i) tables rows ++ map (text_el i) (filter (block_kept tables) blocks)).
Proof.
  intros [Ht Hb]. apply Forall_app. split.
  - revert rows. induction Ht as [|t ts Ht _ IH]; intros [|r rs]; constructor; [done|apply IH].
  - apply Forall_map, Forall_forall. intros b [_ Hin]%list_elem_of_filter.
    rewrite Forall_forall in Hb. unfold compose, top. rewrite text_el_bbox. by apply Hb.
Qed.

Lemma page_elements_ok p i tables rows blocks :
  page_holds p tables rows blocks → page_numeric tables blocks →
  ∃ els, _page_elements p i = Ok els ∧ page_correct i tables rows blocks els.
Proof.
  intros (Ht & Hr & ob & Hb & ->) Hn. unfold _page_elements, _table_elements. rewrite Ht, Hb. cbn [rbind].
  rewrite (table_elements_ok i tables rows) by done. cbn [rbind].
  rewrite table_bboxes_eq by (by eapply Forall2_length). rewrite text_elements_eq by apply Hn.
  eexists. split; [done|]. split; [|split].
  - apply py_sort_perm.
  - apply sort_by_top. by apply found_numeric.
  - intros y. apply py_sort_stable. intros a b Ha Hb'. unfold top in Ha, Hb'. rewrite Ha, Hb'.
    destruct (f_lt y y) eqn:E; [|done]. by rewrite (f_lt_asym y y E) in E.
Qed.

Lemma page_elements_readable p i els : _page_elements p i = Ok els → ∃ tables rows blocks, page_holds p tables rows blocks.
Proof.
  unfold _page_elements, _table_elements.
  intros (tes & (tables & Ht & Htes)%rbind_ok & (ob & Hb & _)%rbind_ok)%rbind_ok. exists tables.
  assert (∃ rows, Forall2 (λ t r, tb_extract t = Ok r) tables rows) as [rows Hr].
  { clear Ht. revert tes Htes. induction tables as [|t ts IH]; intros tes; [intros _; exists []; constructor|].
    cbn [rmap]. intros (e & (r & Hr & _)%rbind_ok & (es & Hes & _)%rbind_ok)%rbind_ok. destruct (IH _ Hes) as [rs Hrs].
    exists (r :: rs). by constructor. }
  exists rows, (default [] ob). split_and!; eauto.
Qed.

(** ** Tables, as the chunker renders them *)

(** What a rendered cell shows. *)
Definition shown (content : option string) : string := py_str (extracted_value content).

Lemma elem_of_table_cells rows x :
  x ∈ table_cells rows ↔
  ∃ r c row content, rows !! r = Some row ∧ row !! c = Some content ∧ x = mkCell (Z.of_nat r) (Z.of_nat c) (Some (extracted_value content)).
Proof.
  unfold table_cells. rewrite list_elem_of_join. split.
  - intros (l & Hx & Hl). apply list_elem_of_lookup in Hl as [r Hr]. rewrite list_lookup_imap in Hr.
    destruct (rows !! r) as [row|] eqn:Hrow; simplify_eq/=. apply list_elem_of_lookup in Hx as [c Hc]. rewrite list_lookup_imap in Hc.
    destruct (row !! c) as [o|] eqn:Ho; simplify_eq/=. eauto 8.
  - intros (r & c & row & o & Hrow & Ho & ->).
    exists (imap (λ c content, mkCell (Z.of_nat r) (Z.of_nat c) (Some (extracted_value content))) row). split.
    + apply list_elem_of_lookup. exists c. by rewrite list_lookup_imap, Ho.
    + apply list_elem_of_lookup. exists r. by rewrite list_lookup_imap, Hrow.
Qed.

(** Positions are given once, so the text shown at one is the extracted one. *)
Lemma cell_at_table_cells rows r c row o :
  rows !! r = Some row → row !! c = Some o → Chunker.cell_at (table_cells rows) r c = shown o.
Proof.
  intros Hrow Ho. unfold Chunker.cell_at. set (P := λ x : cell, row_index x = Z.of_nat r ∧ column_index x = Z.of_nat c).
  assert (Hin : mkCell (Z.of_nat r) (Z.of_nat c) (Some (extracted_value o)) ∈ filter P (table_cells rows)).
  { apply list_elem_of_filter. split; [done|]. apply elem_of_table_cells. eauto 8. }
  destruct (list.last (filter P (table_cells rows))) as [y|] eqn:Hl.
  - assert (Hy : y ∈ filter P (table_cells rows)) by (apply last_Some in Hl as [l' ->]; set_solver).
    apply list_elem_of_filter in Hy as [[Hyr Hyc] (r' & c' & row' & o' & Hrow' & Ho' & ->)%elem_of_table_cells].
    simpl in Hyr, Hyc. simplify_eq. done.
  - apply last_None in Hl. rewrite Hl in Hin. set_solver.
Qed.

Lemma table_body_cells e cells :
  dict_get "cells" (el_metadata e) = Some (MCells cells) → cells ≠ [] → Chunker.table_body e = Chunker._markdown_table cells.
Proof. intros He Hne. unfold Chunker.table_body. rewrite He. by destruct cells. Qed.

Definition rectangular (columns : nat) (rows : list (list (option string))) : Prop := Forall (λ row, length row = columns) rows.

(** The grid the chunker builds is the extracted one. *)
Lemma rendered_grid columns rows grid n :
  rectangular columns rows → rows ≠ [] → (0 < columns)%nat →
  Chunker.shape grid (length grid) n → Forall (Chunker.in_grid (length grid) n) (table_cells rows) →
  (∃ x, x ∈ table_cells rows ∧ row_index x + 1 = Z.of_nat (length grid)) →
  (∃ x, x ∈ table_cells rows ∧ column_index x + 1 = Z.of_nat n) →
  (∀ r c, (r < length grid)%nat → (c < n)%nat → Chunker.lookup2 grid r c = Some (Chunker.cell_at (table_cells rows) r c)) →
  n = columns ∧ grid = map (map shown) rows.
Proof.
  intros Hrect Hne Hc [_ Hshape] Hin (x & Hx & Hxr) (y & Hy & Hyc) Hl.
  assert (Hcell : ∀ r c, (r < length rows)%nat → (c < columns)%nat → ∃ row o, rows !! r = Some row ∧ row !! c = Some o).
  { intros r c Hr Hc'. destruct (lookup_lt_is_Some_2 rows r Hr) as [row Hrow].
    pose proof (Forall_lookup_1 _ _ _ _ Hrect Hrow) as Hlen. simpl in Hlen.
    destruct (lookup_lt_is_Some_2 row c) as [o Ho]; [lia|]. eauto. }
  assert (Hrl : (0 < length rows)%nat) by (destruct rows; [done|simpl; lia]).
  assert (Hlast : Chunker.in_grid (length grid) n (mkCell (Z.of_nat (length rows - 1)) (Z.of_nat (columns - 1))
             (Some (extracted_value (default None (rows !! (length rows - 1)%nat ≫= λ row, row !! (columns - 1)%nat)))))).
  { rewrite Forall_forall in Hin. apply Hin, elem_of_table_cells.
    destruct (Hcell (length rows - 1)%nat (columns - 1)%nat) as (row & o & Hrow & Ho); [lia..|].
    rewrite Hrow. simpl. rewrite Ho. eauto 8. }
  destruct Hlast as [Hlr Hlc]. simpl in Hlr, Hlc.
  apply elem_of_table_cells in Hx as (rx & cx & rowx & ox & Hrx & _ & ->), Hy as (ry & cy & rowy & oy & Hry & Hoy & ->). simpl in Hxr, Hyc.
  apply lookup_lt_Some in Hrx. pose proof (Forall_lookup_1 _ _ _ _ Hrect Hry) as Hly. simpl in Hly. apply lookup_lt_Some in Hoy.
  assert (n = columns) as -> by lia. split; [done|]. assert (Hlg : length grid = length rows) by lia.
  apply list_eq. intros r. rewrite list_lookup_fmap. destruct (rows !! r) as [row|] eqn:Hrow; simpl.
  - pose proof (lookup_lt_Some _ _ _ Hrow). destruct (lookup_lt_is_Some_2 grid r) as [g Hg]; [lia|]. rewrite Hg. f_equal.
    pose proof (Forall_lookup_1 _ _ _ _ Hshape Hg) as Hgl. pose proof (Forall_lookup_1 _ _ _ _ Hrect Hrow) as Hrl'. simpl in Hgl, Hrl'.
    apply list_eq. intros c. rewrite list_lookup_fmap. destruct (row !! c) as [o|] eqn:Ho; simpl.
    + pose proof (lookup_lt_Some _ _ _ Ho). specialize (Hl r c ltac:(lia) ltac:(lia)). unfold Chunker.lookup2 in Hl. rewrite Hg in Hl. simpl in Hl.
      rewrite Hl. f_equal. by eapply cell_at_table_cells.
    + apply lookup_ge_None in Ho. apply lookup_ge_None. lia.
  - apply lookup_ge_None in Hrow. apply lookup_ge_None. lia.
Qed.

(** ** Properties *)

Lemma document_elements_ok i pages found :
  Forall2 (λ p f, page_holds p f.1.1 f.1.2 f.2 ∧ page_numeric f.1.1 f.2) pages found →
  ∃ elss, document_elements i pages = Ok (mjoin elss) ∧
    Forall3 (λ (k : nat) f els, page_correct (i + Z.of_nat k) f.1.1 f.1.2 f.2 els) (seq 0 (length pages)) found elss.
Proof.
  intros H. revert i. induction H as [|p [[tables rows] blocks] pages found [Hp Hn] _ IH]; intros i; [by exists []; split; [|constructor]|].
  destruct (page_elements_ok p i tables rows blocks Hp Hn) as (els & Hels & Hc). destruct (IH (i + 1)) as (elss & He & Hcs).
  exists (els :: elss). simpl. rewrite Hels. simpl. rewrite He. split; [done|]. constructor; [by rewrite Z.add_0_r|].
  rewrite <- fmap_S_seq. clear -Hcs. revert Hcs. generalize (seq 0 (length pages)). intros ks Hcs.
  induction Hcs as [|k f e ks fs es Hk _ IH]; [constructor|]. constructor; [|done].
  by replace (i + Z.of_nat (S k)) with (i + 1 + Z.of_nat k) by lia.
Qed.

Lemma document_elements_readable i pages els :
  document_elements i pages = Ok els → Forall (λ p, ∃ tables rows blocks, page_holds p tables rows blocks) pages.
Proof.
  revert i els. induction pages as [|p pages IH]; intros i els; [constructor|]. cbn [document_elements].
  intros (es & Hp & (es' & Hes & _)%rbind_ok)%rbind_ok. constructor; [by eapply page_elements_readable|by eapply IH].
Qed.

(** C25: [PyMuPDFParser.parse] of a document PyMuPDF can read returns, page after page, one
    element for every detected table and for every non-blank text block whose centre lies in no
    table's box (so no text of a table is emitted twice), each exactly once, with its page number; a block is a
    heading exactly when one of its spans reaches 14 points; on a page the elements run from
    top to bottom, and those at the same height keep PyMuPDF's order. A page that PyMuPDF
    cannot read makes the call raise: there is no partial result. *)
Theorem pymupdf_parse_correct (open : pymupdf) envelope data pages :
  open data = Ok pages →
  (∀ found, Forall2 (λ p f, page_holds p f.1.1 f.1.2 f.2 ∧ page_numeric f.1.1 f.2) pages found →
     ∃ elss, pymupdf_parse open envelope (Ok data) = Ok (mjoin elss) ∧
       Forall3 (λ k f els, page_correct (Z.of_nat k) f.1.1 f.1.2 f.2 els) (seq 0 (length pages)) found elss) ∧
  (∀ els, pymupdf_parse open envelope (Ok data) = Ok els →
     Forall (λ p, ∃ tables rows blocks, page_holds p tables rows blocks) pages).
Proof.
  intros Ho. unfold pymupdf_parse. cbn [rbind]. rewrite Ho. cbn [rbind]. split.
  - intros found Hf. by apply document_elements_ok.
  - intros els. apply document_elements_readable.
Qed.

Definition box (x0 y0 x1 y1 : Z) : bbox := (f_of_Z x0, f_of_Z y0, f_of_Z x1, f_of_Z y1).
Definition text_block (text : string) (size : Z) (b : bbox) : block :=
  mkBlock (Some [mkLine (Some [mkSpan (Some text) (Some (f_of_Z size))])]) (Some b).

(** A page with a table between a heading and a footer; the table's own text is a block too. *)
Definition example_grid : list (list (option string)) := [[Some "Name"; Some "Age"]; [Some "Ann"; None]].
Definition example_table : table := mkTable (Ok example_grid) (box 0 100 50 150) 2 2.
Definition example_blocks : list block :=
  [text_block "Footer" 10 (box 0 200 50 210); text_block "Name Age" 10 (box 0 110 50 120);
   text_block "Report" 18 (box 0 10 50 30); text_block " " 10 (box 0 0 0 0)].
Definition example_page : page := mkPage (Ok [example_table]) (Ok (Some example_blocks)).

Lemma pymupdf_parse_correct_witness :
  (∃ els, pymupdf_parse (λ _, Ok [example_page]) example_envelope (Ok "%PDF-") = Ok els ∧
     map (λ e, (el_type e, el_text e)) els =
       [(HEADING, "Report"); (TABLE, py_join Chunker.newline ["Name"; "Age"; "Ann"; "None"]); (PARAGRAPH, "Footer")]) ∧
  ∃ elss, pymupdf_parse (λ _, Ok [example_page]) example_envelope (Ok "%PDF-") = Ok (mjoin elss) ∧
    Forall3 (λ k f els, page_correct (Z.of_nat k) f.1.1 f.1.2 f.2 els) [0%nat] [([example_table], [example_grid], example_blocks)] elss.
Proof.
  split; [eexists; split; [vm_compute; reflexivity|reflexivity]|].
  destruct (pymupdf_parse_correct (λ _, Ok [example_page]) example_envelope "%PDF-" [example_page] eq_refl) as [H _].
  apply H. repeat constructor. exists (Some example_blocks). split; reflexivity.
Defined.

(** A table PyMuPDF extracts as a full grid is rendered by the chunker as a Markdown table
    with exactly the extracted rows: the first is the header, the others follow the separator
    in order. A position without a cell of its own, which PyMuPDF reports as [None], shows the
    word "None". *)
Theorem pdf_table_rendered page_index t header body columns :
  rectangular columns (header :: body) → (0 < columns)%nat →
  tb_extract t = Ok (header :: body) →
  ∃ e, _table_element t page_index = Ok e ∧ el_type e = TABLE ∧
    Chunker._serialize_table e None =
      Ok (py_join Chunker.newline
            (Chunker.row_line (map shown header) :: Chunker.row_line (replicate columns "---") ::
             map (λ row, Chunker.row_line (map shown row)) body)).
Proof.
  intros Hrect Hc Ht. unfold _table_element. rewrite Ht. cbn [rbind]. eexists. split_and!; [done..|].
  unfold Chunker._serialize_table. set (cells := table_cells (header :: body)).
  assert (Hne : cells ≠ []).
  { destruct header as [|o os]; [inversion Hrect; simpl in *; lia|]. done. }
  rewrite (table_body_cells _ cells) by done.
  destruct (Chunker.markdown_table_correct cells Hne) as (h & b & n & Hm & Hs & Hin & Hr & Hcol & Hl).
  { apply Forall_forall. intros x (r & c & row & o & _ & _ & ->)%elem_of_table_cells. simpl. lia. }
  destruct (rendered_grid columns (header :: body) (h :: b) n Hrect ltac:(done) Hc Hs Hin Hr Hcol Hl) as [-> Hg].
  simpl in Hg. injection Hg as -> ->. rewrite Hm. cbn [rbind]. by rewrite map_map.
Qed.

Lemma pdf_table_rendered_witness :
  ∃ e, _table_element example_table 0 = Ok e ∧
    Chunker._serialize_table e None =
      Ok (py_join Chunker.newline ["| Name | Age |"; "| --- | --- |"; "| Ann | None |"]).
Proof.
  destruct (pdf_table_rendered 0 example_table [Some "Name"; Some "Age"] [[Some "Ann"; None]] 2) as (e & He & _ & Hs);
    [repeat constructor|lia|reflexivity|].
  exists e. split; [exact He|exact Hs].
Defined.

(** What the analyzer makes of an answer of Document Intelligence. *)
Definition docint_failure (o : docint_outcome) (config : AnalyzerConfig) {aenv : AnalyzerEnv} : option (string * string) :=
  match o with
  | Analyzed _ => None
  | HttpFailed (Some s) _ m =>
    Some (if bool_decide (s = 429) then DOCINT_RATE_LIMITED else if bool_decide (500 ≤ s) then DOCINT_UPSTREAM_ERROR else PARSER_INTERNAL, m)
  | HttpFailed None _ m => Some (PARSER_INTERNAL, m)
  | DocintRaises cls m => Some (if decide (cls = "TimeoutError") then (PARSER_TIMEOUT, timeout_reason config) else (PARSER_INTERNAL, m))
  end.

(** What the elements of a result must be. A paragraph keeps its text and its role, and is a
    heading exactly when the role is a title or a section heading. *)
Definition paragraph_shown (p : DocumentParagraph) (e : Element) : Prop :=
  el_type e = (if decide (pa_role p = Some "title" ∨ pa_role p = Some "sectionHeading") then HEADING else PARAGRAPH) ∧
  el_text e = pa_content p ∧
  dict_get "role" (el_metadata e) = Some (match pa_role p with Some r => MStr r | None => MNone end).

(** A table keeps its size and every cell at its place, in order; its text is that of the cells,
    one per line. *)
Definition table_shown (t : DocumentTable) (e : Element) : Prop :=
  el_type e = TABLE ∧ el_text e = py_join Chunker.newline (map tc_content (dt_cells t)) ∧
  dict_get "row_count" (el_metadata e) = Some (MInt (dt_row_count t)) ∧
  dict_get "column_count" (el_metadata e) = Some (MInt (dt_column_count t)) ∧
  ∃ cells, dict_get "cells" (el_metadata e) = Some (MCells cells) ∧
    Forall2 (λ c x, row_index x = tc_row_index c ∧ column_index x = tc_column_index c ∧ content x = Some (PyStr (tc_content c))) (dt_cells t) cells.

(** One element per paragraph, in order, and then one per table, in order. *)
Definition result_shown (r : AnalyzeResult) (els : list Element) : Prop :=
  ∃ ps ts, els = ps ++ ts ∧ Forall2 paragraph_shown (default [] (ar_paragraphs r)) ps ∧ Forall2 table_shown (default [] (ar_tables r)) ts.

Lemma Forall2_map_r {A B} (P : A → B → Prop) (f : A → B) l : (∀ x, P x (f x)) → Forall2 P l (map f l).
Proof. intros H. induction l; simpl; constructor; auto. Qed.

Lemma elements_from_result_shown r : result_shown r (_elements_from_result r).
Proof.
  eexists _, _. split; [reflexivity|]. split; apply Forall2_map_r.
  - intros p. split_and!; [|done|by simpl; destruct (pa_role p)]. simpl. destruct (pa_role p) as [role|]; [|done].
    unfold _HEADING_ROLES. case_bool_decide as Hin; case_decide as Hr; try done; exfalso; set_solver.
  - intros t. split_and!; [done..|]. eexists. split; [reflexivity|]. by apply Forall2_map_r.
Qed.

(** C40: analysing a scanned PDF through Document Intelligence, from a document that waits for
    analysis. A result gives one element per paragraph, with its text and a heading exactly for
    the title and section-heading roles, then one per table, with its size and every cell at its
    place, all in the service's order, and the document moves on; HTTP 429 is reported as rate limiting, 5xx as an upstream error, and
    anything else as an internal parser error or a timeout. Every one of these codes is
    transient, and the document stays in [ANALYZING] with the code recorded and one more
    attempt counted: a failure of the service never fails the document. *)
Theorem scanned_pdf_outcomes {env : Env} {aenv : AnalyzerEnv} config registry analyze_document envelope data w cur :
  let d := env_doc_id envelope in
  let reader : BytesReader := Ok data in
  detect_type envelope reader (scanned_pdf_probe_pages config) (scanned_pdf_min_chars_per_page config) = Ok SCANNED_PDF →
  registry_get SCANNED_PDF registry = Some (λ e r, Finished (docint_parse analyze_document e r)) →
  Ledger.ledger_ok (w_ledger w) → dict_get d (w_ledger w) = Some cur → row_status cur ∈ [PENDING; ANALYZING] →
  match docint_failure (analyze_document data) config with
  | None => ∃ r els w', analyze_document data = Analyzed r ∧
      run handle (analyze config registry envelope reader) w = (Ok els, w') ∧ result_shown r els ∧
      Ledger.status_of d (w_ledger w') = Some CHUNKING
  | Some (code, reason) => ∃ row w',
      run handle (analyze config registry envelope reader) w = (Exc (AnalyzerError d reason code (Some SCANNED_PDF)), w') ∧
      dict_get d (w_ledger w') = Some row ∧ row_status row = ANALYZING ∧ row_last_error_code row = Some code ∧
      row_attempts row = row_attempts (Ledger.next_row (w_now w) d ANALYZING ANALYZING None None None cur) + 1 ∧
      Errors.classify code ErrorCodes.default_registry = Errors.TRANSIENT
  end.
Proof.
  intros d reader Hd Hr Hok Hc Hs.
  assert (Ha : analysis_of config registry envelope reader =
    match docint_failure (analyze_document data) config with
    | None => match analyze_document data with Analyzed r => Parsed (_elements_from_result r) | _ => Parsed [] end
    | Some (code, reason) => Transient code reason SCANNED_PDF
    end).
  { unfold analysis_of. rewrite Hd, Hr, decide_False by done. unfold docint_parse. cbn [rbind reader].
    unfold docint_failure, _map_status_to_error_code, _HTTP_TOO_MANY_REQUESTS, _HTTP_SERVER_ERROR_FLOOR.
    destruct (analyze_document data) as [r|[s|] ra m|cls m]; [done| |done|].
    - by repeat case_bool_decide.
    - unfold is_timeout. by case_bool_decide; case_decide. }
  destruct (docint_failure (analyze_document data) config) as [[code reason]|] eqn:Hf.
  - destruct (analyze_enter config registry envelope reader w cur Hok Hc Hs) as (ent & w1 & Hw1 & Hok1 & -> & Hrun).
    fold d in Hw1, Hrun. rewrite Hrun, Ha. cbn [finish]. rewrite run_bind.
    set (entered := Ledger.next_row (w_now w) d ANALYZING ANALYZING None None None cur) in *.
    assert (Hc1 : dict_get d (w_ledger w1) = Some entered) by (subst w1; apply dict_get_set_eq).
    rewrite (self_transition_run d code reason SCANNED_PDF w1 entered Hok1 Hc1 eq_refl).
    eexists _, _. split; [reflexivity|]. split; [apply dict_get_set_eq|]. split_and!; [done..|].
    unfold docint_failure in Hf. destruct (analyze_document data) as [r|[s|] ra m|cls m]; [done| | |]; simplify_eq.
    + by repeat case_bool_decide.
    + by vm_compute.
    + case_decide; simplify_eq; by vm_compute.
  - destruct (analyze_document data) as [r|[s|] ra m|cls m] eqn:Hres; try done.
    rewrite (analyze_parsed config registry envelope reader w cur _ Hok Hc Hs Ha).
    eexists _, _, _. split_and!; [reflexivity..|apply elements_from_result_shown|].
    unfold Ledger.status_of. cbn [w_ledger set_ledger]. by rewrite dict_get_set_eq.
Qed.

Definition scanned_aenv : AnalyzerEnv :=
  {| pymupdf_open := Some (λ _, Opened false 1 (λ _, Ok 0)); float_repr _ := "240.0" |}.

Definition scanned_registry (o : docint_outcome) : list (DetectedType * ParserAdapter) :=
  [(SCANNED_PDF, λ e r, Finished (docint_parse (λ _, o) e r))].

Definition scanned_result : AnalyzeResult :=
  mkAnalyzeResult (Some [mkParagraph (Some "title") "Report"; mkParagraph None "Body"]) (Some [mkDocTable 1 1 [mkTableCell 0 0 "x"]]).

Lemma scanned_pdf_outcomes_witness :
  (∃ row w', run (@handle unit_env)
      (@analyze scanned_aenv example_config (scanned_registry (HttpFailed (Some 429) None "slow down")) example_envelope (Ok "%PDF-1.7"))
      (unit_world Ledger.example_rows)
    = (Exc (AnalyzerError Ledger.example_doc "slow down" DOCINT_RATE_LIMITED (Some SCANNED_PDF)), w') ∧
    dict_get Ledger.example_doc (w_ledger w') = Some row ∧ row_status row = ANALYZING) ∧
  ∃ els w', run (@handle unit_env)
      (@analyze scanned_aenv example_config (scanned_registry (Analyzed scanned_result)) example_envelope (Ok "%PDF-1.7")) (unit_world Ledger.example_rows)
    = (Ok els, w') ∧ result_shown scanned_result els.
Proof.
  set (cur := mkRow Ledger.example_doc PENDING PENDING 0 None None "1" 1 1 None). split.
  - destruct (@scanned_pdf_outcomes unit_env scanned_aenv example_config (scanned_registry (HttpFailed (Some 429) None "slow down"))
      (λ _, HttpFailed (Some 429) None "slow down") example_envelope "%PDF-1.7" (unit_world Ledger.example_rows) cur)
      as (row & w' & Hrun & Hrow & Hst & _); [by vm_compute|reflexivity|exact Ledger.example_rows_ok|by vm_compute|apply elem_of_cons; by left|].
    exists row, w'. split; [exact Hrun|]. split; [exact Hrow|exact Hst].
  - destruct (@scanned_pdf_outcomes unit_env scanned_aenv example_config (scanned_registry (Analyzed scanned_result))
      (λ _, Analyzed scanned_result) example_envelope "%PDF-1.7" (unit_world Ledger.example_rows) cur)
      as (r & els & w' & Hr & Hrun & Hshown & _); [by vm_compute|reflexivity|exact Ledger.example_rows_ok|by vm_compute|apply elem_of_cons; by left|].
    exists els, w'. split; [exact Hrun|]. assert (r = scanned_result) as <- by congruence. exact Hshown.
Defined.

End Parsers.
