(* ===== verification/Embedder.v ===== *)
(** * Embedder (src/vestibule/embedder)

    The [embedding] stage: input validation, batching over the provider, Matryoshka truncation
    with renormalisation in binary64 arithmetic, and the stage's ledger writes. The provider
    is the [EmbedderAdapter] of the environment. *)
From S2P Require Import Prelude PyDict Types Identity Ledger Prog System.
#[local] Open Scope Z_scope.

Module Embedder.
Import Identity Ledger.

Definition EMBEDDER_EMPTY_CHUNKS : string := "EMBEDDER_EMPTY_CHUNKS".
Definition EMBEDDER_MRL_UNSUPPORTED : string := "EMBEDDER_MRL_UNSUPPORTED".
Definition EMBEDDER_INPUT_TOO_LONG : string := "EMBEDDER_INPUT_TOO_LONG".
Definition EMBEDDER_RATE_LIMITED : string := "EMBEDDER_RATE_LIMITED".
Definition EMBEDDER_UPSTREAM_ERROR : string := "EMBEDDER_UPSTREAM_ERROR".
Definition EMBEDDER_TIMEOUT : string := "EMBEDDER_TIMEOUT".
Definition EMBEDDER_INTERNAL : string := "EMBEDDER_INTERNAL".

Definition _KNOWN_ADAPTER_ERROR_CODES : list string := [EMBEDDER_RATE_LIMITED; EMBEDDER_UPSTREAM_ERROR; EMBEDDER_TIMEOUT].

(** [EmbedderConfig]; its [retry] block is read by the adapters only. *)
Record EmbedderConfig := mkEmbedderConfig { target_dimensions : option Z; batch_size : option Z }.

Definition _apply_prefix (text : string) (prefix : option string) : string :=
  match prefix with None => text | Some p => p +:+ text end.

Definition _batched {A} (items : list A) (size : Z) : result exn (list (list A)) :=
  py_batched (PyExc "ValueError" "range() arg 3 must not be zero") items size.

Definition _truncate_and_renormalize (vector : list pyfloat) (target_dimensions : Z) : list pyfloat :=
  let truncated := py_take target_dimensions vector in
  let norm := f_sqrt (f_sum (map (λ v, f_mul v v) truncated)) in
  if f_eq norm (f_of_Z 0) then truncated else map (λ v, f_div v norm) truncated.

Section embedder.
Context {env : Env}.

(** [Embedder.__init__]. *)
Definition new_embedder (config : EmbedderConfig) : result exn EmbedderConfig :=
  match target_dimensions config with
  | Some t =>
    if ea_supports_mrl then Ok config
    else Exc (EmbedderError "" ("target_dimensions=" +:+ pretty t +:+ " was configured but adapter " +:+ str_repr ea_model_name
                                +:+ " does not support MRL truncation") EMBEDDER_MRL_UNSUPPORTED)
  | None => Ok config
  end.

Definition _terminalize {A} (doc_id error_code reason : string) : component A :=
  pbind (transition_or_benign doc_id FAILED (Some error_code) (Some reason) None) (λ _,
  Raise (EmbedderError doc_id reason error_code)).

Definition too_long_reason (c : Chunk) : string :=
  "chunk position=" +:+ pretty (ck_position c) +:+ " token_count=" +:+ pretty (ck_token_count c) +:+ " exceeds adapter "
  +:+ str_repr ea_model_name +:+ "'s max_input_tokens=" +:+ pretty ea_max_input_tokens.

Fixpoint _validate_input_lengths (doc_id : string) (chunks : list Chunk) : component unit :=
  match chunks with
  | [] => Ret tt
  | c :: rest =>
    if bool_decide (ea_max_input_tokens < ck_token_count c) then _terminalize doc_id EMBEDDER_INPUT_TOO_LONG (too_long_reason c)
    else _validate_input_lengths doc_id rest
  end.

Definition _effective_batch_size (config : EmbedderConfig) : Z :=
  match batch_size config with None => ea_max_batch_size | Some b => Z.min b ea_max_batch_size end.

Definition _build_embedded_chunk (config : EmbedderConfig) (c : Chunk) (vector : list pyfloat) : EmbeddedChunk :=
  match target_dimensions config with
  | None => mkEmbedded c vector ea_model_name (Z.of_nat (length vector)) None
  | Some target =>
    let truncated := _truncate_and_renormalize vector target in
    mkEmbedded c truncated ea_model_name (Z.of_nat (length truncated)) (Some (Z.of_nat (length vector)))
  end.

Definition _embed_all (config : EmbedderConfig) (chunks : list Chunk) : component (list EmbeddedChunk) :=
  let texts := map (λ c, _apply_prefix (ck_text c) ea_document_prefix) chunks in
  pbind (lift (_batched texts (_effective_batch_size config))) (λ batches,
  pbind (pfold (λ vectors batch, pbind (call (EBatch batch)) (λ vs, Ret (vectors ++ vs))) [] batches) (λ vectors,
  lift (rbind (zip_strict chunks vectors) (λ pairs, Ok (map (λ cv, _build_embedded_chunk config cv.1 cv.2) pairs))))).

Definition _self_transition_and_raise {A} (doc_id error_code reason : string) : component A :=
  pbind (call (LTransition doc_id EMBEDDING EMBEDDING (Some error_code) (Some reason) None)) (λ _,
  Raise (EmbedderError doc_id reason error_code)).

Definition _run_with_recovery (config : EmbedderConfig) (doc_id : string) (chunks : list Chunk) : component (list EmbeddedChunk) :=
  pbind (attempt (_embed_all config chunks)) (λ r,
  match r with
  | Ok embedded => Ret embedded
  | Exc x =>
    match x with
    | EmbedderError _ reason code =>
      if decide (code ∈ _KNOWN_ADAPTER_ERROR_CODES) then _self_transition_and_raise doc_id code reason
      else _self_transition_and_raise doc_id EMBEDDER_INTERNAL (exn_str x)
    | _ => _self_transition_and_raise doc_id EMBEDDER_INTERNAL (exn_str x)
    end
  end).

Definition _transition_to_indexing (doc_id : string) (embedded : list EmbeddedChunk) : component (list EmbeddedChunk) :=
  pbind (transition_or_benign doc_id INDEXING None None None) (λ _, Ret embedded).

Definition embed (config : EmbedderConfig) (envelope : ArrivalEnvelope) (chunks : list Chunk) : component (list EmbeddedChunk) :=
  let doc_id := env_doc_id envelope in
  pbind (match chunks with
         | [] => _terminalize doc_id EMBEDDER_EMPTY_CHUNKS "Chunker returned zero chunks; nothing to embed"
         | _ => Ret tt
         end) (λ _,
  pbind (_validate_input_lengths doc_id chunks) (λ _,
  pbind (_run_with_recovery config doc_id chunks) (λ embedded,
  _transition_to_indexing doc_id embedded))).

(** ** Lemmas *)

(** The error a failed provider call is reported with. *)
Definition embed_failure (x : exn) : string * string :=
  match x with
  | EmbedderError _ reason code =>
    if decide (code ∈ _KNOWN_ADAPTER_ERROR_CODES) then (code, reason) else (EMBEDDER_INTERNAL, exn_str x)
  | _ => (EMBEDDER_INTERNAL, exn_str x)
  end.

(** The error the input is refused with before the provider is called. *)
Definition embed_refusal (chunks : list Chunk) : option (string * string) :=
  match chunks with
  | [] => Some (EMBEDDER_EMPTY_CHUNKS, "Chunker returned zero chunks; nothing to embed")
  | _ =>
    match list_find (λ c, ea_max_input_tokens < ck_token_count c) chunks with
    | Some (_, c) => Some (EMBEDDER_INPUT_TOO_LONG, too_long_reason c)
    | None => None
    end
  end.

Lemma validate_lengths_eq {A} d chunks (k : unit → component A) :
  pbind (_validate_input_lengths d chunks) k =
  match list_find (λ c, ea_max_input_tokens < ck_token_count c) chunks with
  | Some (_, c) => pbind (_terminalize d EMBEDDER_INPUT_TOO_LONG (too_long_reason c)) k
  | None => k tt
  end.
Proof.
  induction chunks as [|c chunks IH]; simpl; [done|]. case_bool_decide.
  - by rewrite decide_True.
  - rewrite decide_False by done. rewrite IH. by destruct (list_find _ chunks) as [[]|].
Qed.

Lemma embed_all_calls config chunks :
  all_ops (λ X (e : sysE X), match e with
    | EBatch b => (0 < length b)%nat ∧ Z.of_nat (length b) ≤ _effective_batch_size config
    | _ => False end) (_embed_all config chunks).
Proof.
  unfold _embed_all, _batched, py_batched. set (size := _effective_batch_size config).
  case_bool_decide; [done|]. case_bool_decide; cbn [lift pbind]; (apply all_ops_bind; [|intros; apply all_ops_lift]).
  - done.
  - apply all_ops_pfold_in. intros vs b Hb. apply all_ops_bind; [|done]. apply all_ops_call.
    apply batched_sizes in Hb; lia.
Qed.

Lemma embed_all_provider config chunks : all_ops provider_only (_embed_all config chunks).
Proof. eapply all_ops_mono; [|apply (embed_all_calls config)]. by intros X []. Qed.

Lemma embed_recovery_eq {A} config d chunks w (k : list EmbeddedChunk → component A) :
  run handle (pbind (_run_with_recovery config d chunks) k) w =
  match run handle (_embed_all config chunks) w with
  | (Ok es, w1) => run handle (k es) w1
  | (Exc x, w1) => run handle (pbind (_self_transition_and_raise d (embed_failure x).1 (embed_failure x).2) k) w1
  end.
Proof.
  unfold _run_with_recovery, embed_failure. rewrite run_bind, run_bind, run_attempt.
  destruct (run handle (_embed_all config chunks) w) as [[es|x] w1]; cbn [fst snd]; [done|].
  rewrite run_bind. destruct x; try done. by case_decide.
Qed.

Lemma embed_success config envelope chunks w cur es w1 :
  let d := env_doc_id envelope in
  ledger_ok (w_ledger w) → dict_get d (w_ledger w) = Some cur → row_status cur = EMBEDDING →
  embed_refusal chunks = None → run handle (_embed_all config chunks) w = (Ok es, w1) →
  w_ledger w1 = w_ledger w ∧
  run handle (embed config envelope chunks) w =
  (Ok es, set_ledger (dict_set d (next_row (w_now w1) d INDEXING INDEXING None None None cur) (w_ledger w1)) w1).
Proof.
  intros d Hok Hc Hs Href Hrun. pose proof (proj2 Hok _ _ Hc) as Hrow. pose proof Hrow as (_ & Hhex & _).
  pose proof (run_provider_only (_embed_all config chunks) w (embed_all_provider _ _)) as (Hl & _ & _). rewrite Hrun in Hl. simpl in Hl.
  split; [done|]. unfold embed. fold d. unfold embed_refusal in Href. destruct chunks as [|c cs]; [done|]. cbn [pbind].
  rewrite validate_lengths_eq. destruct (list_find _ (c :: cs)) as [[]|]; [done|]. rewrite embed_recovery_eq, Hrun.
  unfold _transition_to_indexing. rewrite run_bind.
  by rewrite (run_transition_or_benign_ok d INDEXING None None None w1 cur Hhex); [|by rewrite Hl|done|rewrite Hs; constructor|naive_solver].
Qed.

(** The answer of a provider that embeds each text on its own. *)
Lemma embed_all_pointwise config chunks w (f : string → list pyfloat) :
  (∀ ts st, ∃ st', ea_embed_batch ts st = (Ok (map f ts), st')) → 0 < _effective_batch_size config →
  ∃ st, run handle (_embed_all config chunks) w =
    (Ok (map (λ c, _build_embedded_chunk config c (f (_apply_prefix (ck_text c) ea_document_prefix))) chunks), set_embed st w).
Proof.
  intros Hf Hs. unfold _embed_all. set (texts := map _ chunks). rewrite run_bind, run_lift. unfold _batched.
  rewrite py_batched_pos by lia. rewrite run_bind.
  assert (Hloop : ∀ bs acc w0, ∃ st, run handle (pfold (λ vectors batch, pbind (call (EBatch batch)) (λ vs, Ret (vectors ++ vs))) acc bs) w0
    = (Ok (acc ++ map f (mjoin bs)), set_embed st w0)).
  { induction bs as [|b bs IH]; intros acc w0; cbn [pfold].
    - exists (w_embed w0). simpl. rewrite app_nil_r. by destruct w0.
    - rewrite run_bind, run_bind, run_call. simpl handle. destruct (Hf b (w_embed w0)) as [st' ->]. cbn [run].
      destruct (IH (acc ++ map f b) (set_embed st' w0)) as [st ->]. exists st. simpl. by rewrite map_app, app_assoc. }
  destruct (Hloop (batched texts (Z.to_nat (_effective_batch_size config))) [] w) as [st ->].
  rewrite run_lift, batched_concat by lia. exists st. unfold zip_strict, texts. simpl.
  rewrite bool_decide_eq_true_2 by (by rewrite !length_map). simpl. do 2 f_equal.
  rewrite map_map. clear. induction chunks as [|c cs IH]; simpl; [done|]. by rewrite IH.
Qed.

Lemma build_dimensions config c v :
  let e := _build_embedded_chunk config c v in
  em_chunk e = c ∧ em_embedding_model e = ea_model_name ∧ em_embedding_dimensions e = Z.of_nat (length (em_vector e)) ∧
  match target_dimensions config with
  | None => em_vector e = v ∧ em_truncated_from e = None
  | Some t => em_truncated_from e = Some (Z.of_nat (length v)) ∧
              (0 ≤ t → em_embedding_dimensions e = Z.min t (Z.of_nat (length v)))
  end.
Proof.
  unfold _build_embedded_chunk. destruct (target_dimensions config) as [t|]; simpl; [|done].
  split_and!; try done. intros Ht. unfold _truncate_and_renormalize.
  destruct (f_eq _ _); rewrite ?length_map, py_take_length by done; lia.
Qed.
End embedder.

(** The transitions the embedder ever requests. *)
Lemma embed_targets {env : Env} config envelope chunks :
  all_ops (targets_in [EMBEDDING; INDEXING; FAILED]) (embed config envelope chunks).
Proof.
  assert (Hv : ∀ d cs, all_ops (targets_in [EMBEDDING; INDEXING; FAILED]) (_validate_input_lengths d cs)).
  { intros d. induction cs as [|c cs IH]; simpl; [done|]. unfold _terminalize.
    case_bool_decide; [|done]. all_ops_tac. apply transition_or_benign_targets. set_solver. }
  unfold embed, _terminalize, _run_with_recovery, _self_transition_and_raise, _transition_to_indexing.
  repeat (all_ops_tac; try (apply Hv || (apply transition_or_benign_targets; set_solver) || (simpl; set_solver)
    || (eapply all_ops_mono; [|apply embed_all_provider]; by intros X []))).
Qed.

(** ** Properties *)

(** C27: [Embedder.embed] run on a document in [EMBEDDING], on every outcome. Input that is
    refused (no chunks, or a chunk over the provider's token limit) never reaches the provider:
    the row becomes [FAILED] with the refusal and the call raises it. Otherwise the outcome is
    that of [_embed_all]: its vectors are returned and the row becomes [INDEXING] with a first
    attempt and no error, or its error is raised as an [EmbedderError] and the row stays
    [EMBEDDING], with the error recorded and one more attempt. No other document is touched. *)
Theorem embed_outcomes {env : Env} config envelope chunks w cur :
  let d := env_doc_id envelope in
  ledger_ok (w_ledger w) → dict_get d (w_ledger w) = Some cur → row_status cur = EMBEDDING →
  ∃ row w', dict_get d (w_ledger w') = Some row ∧
    (∀ d', d' ≠ d → dict_get d' (w_ledger w') = dict_get d' (w_ledger w)) ∧
    match embed_refusal chunks with
    | Some (code, reason) =>
      run handle (embed config envelope chunks) w = (Exc (EmbedderError d reason code), w') ∧
      row_status row = FAILED ∧ row_last_error_code row = Some code ∧ w_embed w' = w_embed w
    | None =>
      match (run handle (_embed_all config chunks) w).1 with
      | Ok es =>
        run handle (embed config envelope chunks) w = (Ok es, w') ∧
        row_status row = INDEXING ∧ row_attempts row = 1 ∧ row_last_error_code row = None
      | Exc x =>
        run handle (embed config envelope chunks) w = (Exc (EmbedderError d (embed_failure x).2 (embed_failure x).1), w') ∧
        row_status row = EMBEDDING ∧ row_last_error_code row = Some (embed_failure x).1 ∧ row_attempts row = row_attempts cur + 1
      end
    end.
Proof.
  intros d Hok Hc Hs. pose proof (proj2 Hok _ _ Hc) as Hrow. pose proof Hrow as (_ & Hhex & _).
  assert (Hother : ∀ row d', d' ≠ d → dict_get d' (dict_set d row (w_ledger w)) = dict_get d' (w_ledger w)).
  { intros. by apply dict_get_set_ne. }
  assert (Hterm : ∀ code reason B (k : unit → component B), ∃ row w', dict_get d (w_ledger w') = Some row ∧
    (∀ d', d' ≠ d → dict_get d' (w_ledger w') = dict_get d' (w_ledger w)) ∧
    run handle (pbind (_terminalize d code reason) k) w = (Exc (EmbedderError d reason code), w') ∧
    row_status row = FAILED ∧ row_last_error_code row = Some code ∧ w_embed w' = w_embed w).
  { intros. unfold _terminalize. rewrite run_bind, run_bind.
    rewrite (run_transition_or_benign_ok d FAILED _ _ None w cur Hhex Hc Hrow); [|rewrite Hs; constructor; set_solver|naive_solver].
    eexists _, _. split; [|split; [|split; [reflexivity|]]]; [apply dict_get_set_eq|apply Hother|].
    destruct (next_row_failed (w_now w) d FAILED code (Some reason) None cur) as (? & ? & _). done. }
  unfold embed. fold d. unfold embed_refusal. destruct chunks as [|c cs]; [apply Hterm|]. cbn [pbind].
  rewrite validate_lengths_eq. destruct (list_find _ (c :: cs)) as [[? bad]|]; [apply Hterm|].
  rewrite embed_recovery_eq. pose proof (run_provider_only (_embed_all config (c :: cs)) w (embed_all_provider _ _)) as (Hl & _ & Hn).
  destruct (run handle (_embed_all config (c :: cs)) w) as [[es|x] w1]; cbn [fst snd] in *.
  - unfold _transition_to_indexing. rewrite run_bind.
    rewrite (run_transition_or_benign_ok d INDEXING None None None w1 cur Hhex); [|by rewrite Hl|done|rewrite Hs; constructor|naive_solver].
    eexists _, _. split; [|split; [|split; [reflexivity|]]]; simpl; rewrite ?Hl; [apply dict_get_set_eq|apply Hother|].
    by apply next_row_forward; rewrite ?Hs.
  - unfold _self_transition_and_raise. rewrite run_bind, run_bind.
    rewrite (run_transition_ok d EMBEDDING _ _ None w1 cur Hhex); [|by rewrite Hl|done|rewrite Hs; constructor; set_solver|naive_solver].
    eexists _, _. split; [|split; [|split; [reflexivity|]]]; simpl; rewrite ?Hl; [apply dict_get_set_eq|apply Hother|].
    by apply next_row_retry.
Qed.

Definition embedding_row : LedgerRow := mkRow example_doc EMBEDDING EMBEDDING 1 None None "1" 1 5 None.

Lemma embedding_rows_ok : ledger_ok [(example_doc, embedding_row)].
Proof. apply (ledger_ok_set example_doc _ []); [|apply ledger_ok_empty]. split_and!; [done|apply example_doc_ok|done..]. Qed.

Definition embed_envelope : ArrivalEnvelope := mkEnvelope example_doc "blob:hr" "a.pdf" None None [] INTERNAL "" 0.
Definition example_chunk (i : Z) (text : string) : Chunk := mkChunk "id" example_doc i [PARAGRAPH] text 1 [].

Lemma embed_outcomes_witness :
  ∃ es w', run (@handle unit_env) (@embed unit_env (mkEmbedderConfig None None) embed_envelope [example_chunk 0 "a"; example_chunk 1 "b"])
      (unit_world [(example_doc, embedding_row)]) = (Ok es, w') ∧ length es = 2%nat.
Proof.
  destruct (@embed_outcomes unit_env (mkEmbedderConfig None None) embed_envelope [example_chunk 0 "a"; example_chunk 1 "b"]
    (unit_world [(example_doc, embedding_row)]) embedding_row embedding_rows_ok) as (row & w' & _ & _ & H).
  - by vm_compute.
  - reflexivity.
  - simpl in H. destruct H as [H _]. eexists _, w'. split; [exact H|reflexivity].
Defined.

(** The contract of [_embed_all] towards the provider and its caller, whatever the
    provider answers. It only ever sends non-empty batches no larger than the effective batch
    size. If it returns, there is exactly one embedded chunk per chunk, in order; each states
    its model and the true length of its vector, and a truncated vector has the smaller of
    the target and the native size, with the native size recorded. *)
Theorem embed_all_contract {env : Env} config chunks :
  all_ops (λ X (e : sysE X), match e with
    | EBatch b => (0 < length b)%nat ∧ Z.of_nat (length b) ≤ _effective_batch_size config
    | _ => False end) (_embed_all config chunks) ∧
  ∀ w es w', run handle (_embed_all config chunks) w = (Ok es, w') →
    map em_chunk es = chunks ∧
    ∀ e, e ∈ es → em_embedding_model e = ea_model_name ∧ em_embedding_dimensions e = Z.of_nat (length (em_vector e)) ∧
      match target_dimensions config with
      | None => em_truncated_from e = None
      | Some t => ∃ native, em_truncated_from e = Some native ∧ (0 ≤ t → em_embedding_dimensions e = Z.min t native)
      end.
Proof.
  split; [apply embed_all_calls|]. intros w es w'. unfold _embed_all. rewrite run_bind, run_lift.
  destruct (_batched _ _) as [bs|]; [|done]. rewrite run_bind.
  destruct (run handle (pfold _ [] bs) w) as [[vs|] w1]; [|done]. rewrite run_lift. intros H.
  unfold zip_strict in H. case_bool_decide as Hl; simpl in H; [|done]. injection H as <- <-.
  split.
  - rewrite map_map. rewrite (map_ext _ (fst : Chunk * list pyfloat → Chunk)) by (intros cv; apply build_dimensions).
    rewrite <- (fst_zip chunks vs) at 2 by lia. done.
  - intros e (cv & -> & _)%list_elem_of_fmap. destruct (build_dimensions config cv.1 cv.2) as (_ & Hm & Hd & Ht).
    split_and!; [done..|]. destruct (target_dimensions config) as [t|]; naive_solver.
Qed.

(** Batching is invisible: with a provider that embeds each text on its own (its answer to
    a batch is the list of its answers to the texts), [_embed_all] with any positive batch size
    always returns, and returns exactly what embedding chunk by chunk gives, in order. *)
Theorem embed_all_batch_invariant {env : Env} config chunks w (f : string → list pyfloat) :
  (∀ ts st, ∃ st', ea_embed_batch ts st = (Ok (map f ts), st')) → 0 < _effective_batch_size config →
  ∃ w', run handle (_embed_all config chunks) w =
    (Ok (map (λ c, _build_embedded_chunk config c (f (_apply_prefix (ck_text c) ea_document_prefix))) chunks), w').
Proof.
  intros Hf Hs. destruct (embed_all_pointwise config chunks w f Hf Hs) as [st ->]. by eexists.
Qed.

Lemma embed_all_batch_invariant_witness :
  ∃ w', run (@handle unit_env) (@_embed_all unit_env (mkEmbedderConfig None (Some 1)) [example_chunk 0 "a"; example_chunk 1 "b"]) (unit_world []) =
    (Ok (map (λ c, @_build_embedded_chunk unit_env (mkEmbedderConfig None (Some 1)) c [S754_finite false 4503599627370496 (-52)])
          [example_chunk 0 "a"; example_chunk 1 "b"]), w').
Proof.
  apply (@embed_all_batch_invariant unit_env (mkEmbedderConfig None (Some 1)) [example_chunk 0 "a"; example_chunk 1 "b"] (unit_world [])
    (λ _, [S754_finite false 4503599627370496 (-52)])).
  - intros ts st. exists st. reflexivity.
  - vm_compute. reflexivity.
Defined.
End Embedder.
