(* ===== verification/Indexer.v ===== *)
(** * Indexer (src/vestibule/indexer)

    The [indexing] stage: batch validation, record construction, replacement of a stale
    version, upserts with one retry of the failed records, and the stage's ledger writes; and
    the in-memory adapter. What the stage relies on is stated as [IndexLaws]: the orchestrator
    is proved against it and the in-memory adapter implements it. *)
From S2P Require Import Prelude PyDict Types Identity Ledger Prog System.
#[local] Open Scope Z_scope.

Module Indexer.
Import Identity Ledger.

Definition INDEXER_EMPTY_RECORDS : string := "INDEXER_EMPTY_RECORDS".
Definition INDEXER_DIMENSION_MISMATCH : string := "INDEXER_DIMENSION_MISMATCH".
Definition INDEXER_MIXED_MODEL_BATCH : string := "INDEXER_MIXED_MODEL_BATCH".
Definition INDEXER_SCHEMA_CONFLICT : string := "INDEXER_SCHEMA_CONFLICT".
Definition INDEXER_RECORD_TOO_LARGE : string := "INDEXER_RECORD_TOO_LARGE".
Definition INDEXER_RATE_LIMITED : string := "INDEXER_RATE_LIMITED".
Definition INDEXER_UPSTREAM_ERROR : string := "INDEXER_UPSTREAM_ERROR".
Definition INDEXER_TIMEOUT : string := "INDEXER_TIMEOUT".
Definition INDEXER_PARTIAL_BATCH_FAILURE : string := "INDEXER_PARTIAL_BATCH_FAILURE".
Definition INDEXER_INTERNAL : string := "INDEXER_INTERNAL".
Definition _UNKNOWN_CONFIG_VERSION : string := "unknown".

Definition _PERMANENT_UPSERT_CODES : list string := [INDEXER_SCHEMA_CONFLICT; INDEXER_RECORD_TOO_LARGE].
Definition _TRANSIENT_UPSERT_CODES : list string :=
  [INDEXER_RATE_LIMITED; INDEXER_UPSTREAM_ERROR; INDEXER_TIMEOUT; INDEXER_PARTIAL_BATCH_FAILURE].

(** [IndexerConfig]; its [retry] block is read by the adapters only. *)
Record IndexerConfig := mkIndexerConfig {
  dimensions : Z; metric : string; batch_size : option Z; delete_before_upsert_on_version_change : bool }.

Definition _batched {A} (items : list A) (size : Z) : result exn (list (list A)) :=
  py_batched (PyExc "ValueError" "range() arg 3 must not be zero") items size.

Section indexer.
Context {env : Env}.

(** ** Validation *)

Definition _terminalize {A} (doc_id error_code reason : string) : component A :=
  pbind (transition_or_benign doc_id FAILED (Some error_code) (Some reason) None) (λ _,
  Raise (IndexerError doc_id reason error_code)).

(** [f"{sorted(models)}"]. *)
Definition models_repr (models : list string) : string :=
  "[" +:+ py_join ", " (map str_repr (py_sort (λ y x, String.ltb y x) models)) +:+ "]".

Definition mixed_reason (models : list string) : string :=
  "batch contains " +:+ pretty (Z.of_nat (length models)) +:+ " distinct embedding_model values: " +:+ models_repr models.

Definition mismatch_reason (config : IndexerConfig) (e : EmbeddedChunk) : string :=
  "chunk_id=" +:+ ck_chunk_id (em_chunk e) +:+ " embedding_dimensions=" +:+ pretty (em_embedding_dimensions e)
  +:+ " does not match configured dimensions=" +:+ pretty (dimensions config).

Fixpoint validate_dimensions (config : IndexerConfig) (doc_id : string) (embedded_chunks : list EmbeddedChunk) : component unit :=
  match embedded_chunks with
  | [] => Ret tt
  | e :: rest =>
    if bool_decide (em_embedding_dimensions e ≠ dimensions config)
    then _terminalize doc_id INDEXER_DIMENSION_MISMATCH (mismatch_reason config e)
    else validate_dimensions config doc_id rest
  end.

Definition _validate_batch (config : IndexerConfig) (doc_id : string) (embedded_chunks : list EmbeddedChunk) : component unit :=
  let models := dedup_first [] (map em_embedding_model embedded_chunks) in
  pbind (if bool_decide (1 < length models)%nat then _terminalize doc_id INDEXER_MIXED_MODEL_BATCH (mixed_reason models) else Ret tt) (λ _,
  validate_dimensions config doc_id embedded_chunks).

(** ** Records *)

Definition _config_version_for (doc_id : string) : component string :=
  pbind (perform (LGet doc_id)) (λ row,
  Ret (match row with Some r => row_config_version r | None => _UNKNOWN_CONFIG_VERSION end)).

(** [metadata.get("section_path")] in a field declared [str | None]. *)
Definition section_path_of (m : metadata) : result exn (option string) :=
  match dict_get "section_path" m with
  | None | Some MNone => Ok None
  | Some (MStr s) => Ok (Some s)
  | Some _ => Exc (PyExc "ValidationError" "section_path")
  end.

(** [str(metadata.get("strategy", ""))]. *)
Definition strategy_of (m : metadata) : string :=
  match dict_get "strategy" m with
  | None => ""
  | Some (MStr s) => s
  | Some MNone => "None"
  | Some (MBool b) => if b then "True" else "False"
  | Some (MInt z) => pretty z
  | Some v => meta_repr v
  end.

Definition build_record (doc_id : string) (envelope : ArrivalEnvelope) (config_version : string) (indexed_at : Z) (ec : EmbeddedChunk)
    : result exn IndexRecord :=
  let c := em_chunk ec in
  rbind (section_path_of (ck_metadata c)) (λ section_path,
  Ok {| ir_chunk_id := ck_chunk_id c; ir_doc_id := doc_id; ir_doc_version := env_content_hash envelope;
        ir_vector := em_vector ec; ir_text := ck_text c; ir_position := ck_position c; ir_section_path := section_path;
        ir_element_types := map element_type_value (ck_element_types c); ir_strategy := strategy_of (ck_metadata c);
        ir_allowed_groups := env_allowed_groups envelope; ir_trust_tier := trust_tier_value (env_trust_tier envelope);
        ir_embedding_model := em_embedding_model ec; ir_embedding_dimensions := em_embedding_dimensions ec;
        ir_config_version := config_version; ir_indexed_at := indexed_at |}).

Definition _build_records (doc_id : string) (envelope : ArrivalEnvelope) (embedded_chunks : list EmbeddedChunk)
    : component (list IndexRecord) :=
  pbind (_config_version_for doc_id) (λ config_version,
  pbind (perform Now) (λ indexed_at,
  lift (rmap (build_record doc_id envelope config_version indexed_at) embedded_chunks))).

(** ** Writing to the index *)

Definition _maybe_delete_stale_version (config : IndexerConfig) (doc_id new_version : string) : component Z :=
  if delete_before_upsert_on_version_change config then
    pbind (call (IVersion doc_id)) (λ existing_version,
    match existing_version with
    | Some v => if decide (v = new_version) then Ret 0 else call (IDelete doc_id)
    | None => Ret 0
    end)
  else Ret 0.

Definition _upsert_batch_with_retry (batch : list IndexRecord) : component Z :=
  pbind (call (IUpsert batch)) (λ outcome,
  match up_failed outcome with
  | [] => Ret (Z.of_nat (length (up_succeeded outcome)))
  | failed =>
    let retry_batch := filter (λ r, ir_chunk_id r ∈ map fst failed) batch in
    pbind (call (IUpsert retry_batch)) (λ retry_outcome,
    match up_failed retry_outcome with
    | [] => Ret (Z.of_nat (length (up_succeeded outcome)) + Z.of_nat (length (up_succeeded retry_outcome)))
    | still_failed =>
      Raise (IndexerError "" ("partial batch failure persisted after retry: "
        +:+ py_join "; " (map (λ f, f.1 +:+ ": " +:+ f.2) still_failed)) INDEXER_PARTIAL_BATCH_FAILURE)
    end)
  end).

Definition _effective_batch_size (config : IndexerConfig) : Z :=
  match batch_size config with None => ix_max_batch_size | Some b => Z.min b ix_max_batch_size end.

(** [records[0]] raises on an empty list, which [index] has ruled out. *)
Definition _upsert_all (config : IndexerConfig) (doc_id : string) (records : list IndexRecord) : component IndexResult :=
  match records with
  | [] => Raise (PyExc "IndexError" "list index out of range")
  | first :: _ =>
    pbind (_maybe_delete_stale_version config doc_id (ir_doc_version first)) (λ chunks_deleted,
    pbind (lift (_batched records (_effective_batch_size config))) (λ batches,
    pbind (pfold (λ chunks_upserted batch, pbind (_upsert_batch_with_retry batch) (λ n, Ret (chunks_upserted + n))) 0 batches) (λ chunks_upserted,
    Ret (mkIndexResult doc_id chunks_upserted chunks_deleted ix_index_name (ir_embedding_model first) (ir_embedding_dimensions first)))))
  end.

(** ** The stage *)

Definition _self_transition_and_raise {A} (doc_id error_code reason : string) : component A :=
  pbind (transition_or_benign doc_id INDEXING (Some error_code) (Some reason) None) (λ _,
  Raise (IndexerError doc_id reason error_code)).

Definition _run_with_recovery (config : IndexerConfig) (doc_id : string) (records : list IndexRecord) : component IndexResult :=
  pbind (attempt (_upsert_all config doc_id records)) (λ r,
  match r with
  | Ok res => Ret res
  | Exc x =>
    match x with
    | IndexerError _ reason code =>
      if decide (code ∈ _PERMANENT_UPSERT_CODES) then _terminalize doc_id code reason
      else if decide (code ∈ _TRANSIENT_UPSERT_CODES) then _self_transition_and_raise doc_id code reason
      else _self_transition_and_raise doc_id INDEXER_INTERNAL (exn_str x)
    | _ => _self_transition_and_raise doc_id INDEXER_INTERNAL (exn_str x)
    end
  end).

Definition _transition_to_indexed (doc_id : string) (res : IndexResult) : component IndexResult :=
  pbind (transition_or_benign doc_id INDEXED None None None) (λ _, Ret res).

Definition index (config : IndexerConfig) (envelope : ArrivalEnvelope) (embedded_chunks : list EmbeddedChunk) : component IndexResult :=
  let doc_id := env_doc_id envelope in
  pbind (match embedded_chunks with
         | [] => _terminalize doc_id INDEXER_EMPTY_RECORDS "Embedder returned zero chunks; nothing to index"
         | _ => Ret tt
         end) (λ _,
  pbind (_validate_batch config doc_id embedded_chunks) (λ _,
  pbind (_build_records doc_id envelope embedded_chunks) (λ records,
  pbind (_run_with_recovery config doc_id records) (λ res,
  _transition_to_indexed doc_id res)))).

(** ** Lemmas on the stage *)

(** The error the input is refused with before anything is written. *)
Definition index_refusal (config : IndexerConfig) (chunks : list EmbeddedChunk) : option (string * string) :=
  let models := dedup_first [] (map em_embedding_model chunks) in
  match chunks with
  | [] => Some (INDEXER_EMPTY_RECORDS, "Embedder returned zero chunks; nothing to index")
  | _ =>
    if bool_decide (1 < length models)%nat then Some (INDEXER_MIXED_MODEL_BATCH, mixed_reason models) else
    match list_find (λ e, em_embedding_dimensions e ≠ dimensions config) chunks with
    | Some (_, e) => Some (INDEXER_DIMENSION_MISMATCH, mismatch_reason config e)
    | None => None
    end
  end.

(** How a failed write is reported: the status the row takes, the code and the reason. *)
Definition index_failure (x : exn) : Status * string * string :=
  match x with
  | IndexerError _ reason code =>
    if decide (code ∈ _PERMANENT_UPSERT_CODES) then (FAILED, code, reason)
    else if decide (code ∈ _TRANSIENT_UPSERT_CODES) then (INDEXING, code, reason)
    else (INDEXING, INDEXER_INTERNAL, exn_str x)
  | _ => (INDEXING, INDEXER_INTERNAL, exn_str x)
  end.

(** [_terminalize] never returns: what follows it is dead code. *)
Lemma terminalize_stops {A B C} d code reason (k : A → component C) (k' : B → component C) w :
  run handle (pbind (_terminalize d code reason) k) w = run handle (pbind (_terminalize d code reason) k') w.
Proof. unfold _terminalize. rewrite !run_bind. by destruct (run handle (transition_or_benign _ _ _ _ _) w) as [[]]. Qed.

Lemma validate_batch_eq {A} config d c cs (k : unit → component A) w :
  run handle (pbind (_validate_batch config d (c :: cs)) k) w =
  match index_refusal config (c :: cs) with
  | Some (code, reason) => run handle (pbind (_terminalize (A:=unit) d code reason) k) w
  | None => run handle (k tt) w
  end.
Proof.
  unfold _validate_batch, index_refusal. case_bool_decide.
  - rewrite run_bind, (terminalize_stops _ _ _ _ Ret). rewrite run_bind, run_bind.
    by destruct (run handle (_terminalize _ _ _) w) as [[]].
  - cbn [pbind]. generalize (c :: cs). intros l. induction l as [|e l IH]; simpl; [done|]. case_bool_decide.
    + by rewrite decide_True.
    + rewrite decide_False by tauto. rewrite IH. by destruct (list_find _ l) as [[]|].
Qed.

Lemma upsert_all_provider config d records : all_ops provider_only (_upsert_all config d records).
Proof.
  unfold _upsert_all, _maybe_delete_stale_version, _upsert_batch_with_retry. destruct records as [|r rs]; [done|].
  repeat (all_ops_tac; try done).
Qed.

Lemma index_recovery_eq {A} config d records w (k : IndexResult → component A) :
  run handle (pbind (_run_with_recovery config d records) k) w =
  match run handle (_upsert_all config d records) w with
  | (Ok res, w1) => run handle (k res) w1
  | (Exc x, w1) =>
    run handle (pbind (pbind (transition_or_benign d (index_failure x).1.1 (Some (index_failure x).1.2) (Some (index_failure x).2) None)
                 (λ _, Raise (IndexerError d (index_failure x).2 (index_failure x).1.2))) k) w1
  end.
Proof.
  unfold _run_with_recovery, index_failure. rewrite run_bind, run_bind, run_attempt.
  destruct (run handle (_upsert_all config d records) w) as [[res|x] w1]; cbn [fst snd]; [done|].
  rewrite run_bind. destruct x; try done. repeat case_decide; done.
Qed.

Lemma build_records_run d envelope chunks w :
  run handle (_build_records d envelope chunks) w =
  (rmap (build_record d envelope (match get d (w_ledger w) with Some r => row_config_version r | None => _UNKNOWN_CONFIG_VERSION end) (w_now w)) chunks,
   set_ledger (w_ledger w) w).
Proof. unfold _build_records, _config_version_for. rewrite !run_bind, run_get. cbn [run]. rewrite run_bind. simpl. apply run_lift. Qed.

(** The transitions the indexer ever requests. *)
Lemma terminalize_targets {A} d code reason :
  all_ops (targets_in [INDEXING; INDEXED; FAILED]) (_terminalize (A:=A) d code reason).
Proof. unfold _terminalize. all_ops_tac. apply transition_or_benign_targets. set_solver. Qed.

Lemma validate_batch_targets config d chunks :
  all_ops (targets_in [INDEXING; INDEXED; FAILED]) (_validate_batch config d chunks).
Proof.
  unfold _validate_batch. apply all_ops_bind.
  - destruct (bool_decide _); [apply terminalize_targets|done].
  - intros _. induction chunks as [|c cs IH]; simpl; [done|]. case_bool_decide; [apply terminalize_targets|done].
Qed.

Lemma recovery_targets config d records :
  all_ops (targets_in [INDEXING; INDEXED; FAILED]) (_run_with_recovery config d records).
Proof.
  unfold _run_with_recovery. apply all_ops_bind.
  - apply all_ops_attempt. eapply all_ops_mono; [|apply upsert_all_provider]. by intros X [].
  - assert (Hself : ∀ code reason, all_ops (targets_in [INDEXING; INDEXED; FAILED]) (_self_transition_and_raise (A:=IndexResult) d code reason)).
    { intros. unfold _self_transition_and_raise. all_ops_tac. apply transition_or_benign_targets. set_solver. }
    intros [res|x]; [done|]. destruct x; try apply Hself. repeat case_decide; (apply Hself || apply terminalize_targets).
Qed.

Lemma index_targets config envelope chunks :
  all_ops (targets_in [INDEXING; INDEXED; FAILED]) (index config envelope chunks).
Proof.
  unfold index. apply all_ops_bind; [destruct chunks; [apply terminalize_targets|done]|intros _].
  apply all_ops_bind; [apply validate_batch_targets|intros _].
  apply all_ops_bind; [unfold _build_records, _config_version_for; by all_ops_tac|intros records].
  apply all_ops_bind; [apply recovery_targets|intros res].
  unfold _transition_to_indexed. all_ops_tac. apply transition_or_benign_targets. set_solver.
Qed.

Lemma index_success config envelope chunks w cur records res w1 :
  let d := env_doc_id envelope in
  ledger_ok (w_ledger w) → dict_get d (w_ledger w) = Some cur → row_status cur = INDEXING →
  index_refusal config chunks = None →
  rmap (build_record d envelope (row_config_version cur) (w_now w)) chunks = Ok records →
  run handle (_upsert_all config d records) (set_ledger (w_ledger w) w) = (Ok res, w1) →
  w_ledger w1 = w_ledger w ∧
  run handle (index config envelope chunks) w =
  (Ok res, set_ledger (dict_set d (next_row (w_now w1) d INDEXED INDEXED None None None cur) (w_ledger w1)) w1).
Proof.
  intros d Hok Hc Hs Href Hrec Hrun. pose proof (proj2 Hok _ _ Hc) as Hrow. pose proof Hrow as (_ & Hhex & _).
  pose proof (run_provider_only (_upsert_all config d records) (set_ledger (w_ledger w) w) (upsert_all_provider _ _ _)) as (Hl & _ & _).
  rewrite Hrun in Hl. simpl in Hl. split; [done|]. unfold index. fold d. destruct chunks as [|c cs]; [done|]. cbn [pbind].
  rewrite validate_batch_eq, Href, run_bind, build_records_run. unfold get. rewrite Hc, Hrec, index_recovery_eq, Hrun.
  unfold _transition_to_indexed. rewrite run_bind.
  by rewrite (run_transition_or_benign_ok d INDEXED None None None w1 cur Hhex); [|by rewrite Hl|done|rewrite Hs; constructor|naive_solver].
Qed.

Lemma index_failure_status x : (index_failure x).1.1 = FAILED ∨ (index_failure x).1.1 = INDEXING.
Proof. unfold index_failure. destruct x; auto. repeat case_decide; auto. Qed.
End indexer.

(** ** Properties of the stage *)

(** C28: [Indexer.index] run on a document in [INDEXING], on every outcome. A batch that is
    refused (no records, two embedding models, a wrong dimension) is refused before anything
    is written: the index is untouched, the row becomes [FAILED] with that error. Otherwise the
    outcome is that of [_upsert_all] on the records built with the row's config version: a
    result is returned and the row becomes [INDEXED]; a permanent store error raises and the
    row becomes [FAILED]; any other error raises and leaves the row [INDEXING] with the error
    recorded and one more attempt. No other document is touched. *)
Theorem index_outcomes {env : Env} config envelope chunks w cur :
  let d := env_doc_id envelope in
  let w0 := set_ledger (w_ledger w) w in
  ledger_ok (w_ledger w) → dict_get d (w_ledger w) = Some cur → row_status cur = INDEXING →
  ∃ row w', dict_get d (w_ledger w') = Some row ∧
    (∀ d', d' ≠ d → dict_get d' (w_ledger w') = dict_get d' (w_ledger w)) ∧
    match index_refusal config chunks with
    | Some (code, reason) =>
      run handle (index config envelope chunks) w = (Exc (IndexerError d reason code), w') ∧
      row_status row = FAILED ∧ row_last_error_code row = Some code ∧ w_index w' = w_index w
    | None =>
      match rmap (build_record d envelope (row_config_version cur) (w_now w)) chunks with
      | Exc x => run handle (index config envelope chunks) w = (Exc x, w') ∧ row = cur ∧ w_index w' = w_index w
      | Ok records =>
        match (run handle (_upsert_all config d records) w0).1 with
        | Ok res =>
          run handle (index config envelope chunks) w = (Ok res, w') ∧
          row_status row = INDEXED ∧ row_attempts row = 1 ∧ row_last_error_code row = None
        | Exc x =>
          let '(status, code, reason) := index_failure x in
          run handle (index config envelope chunks) w = (Exc (IndexerError d reason code), w') ∧
          row_status row = status ∧ row_last_error_code row = Some code ∧
          row_attempts row = (if decide (status = FAILED) then row_attempts cur else row_attempts cur + 1)
        end
      end
    end.
Proof.
  intros d w0 Hok Hc Hs. pose proof (proj2 Hok _ _ Hc) as Hrow. pose proof Hrow as (_ & Hhex & _).
  assert (Hother : ∀ row d', d' ≠ d → dict_get d' (dict_set d row (w_ledger w)) = dict_get d' (w_ledger w)).
  { intros. by apply dict_get_set_ne. }
  assert (Hterm : ∀ code reason B (k : unit → component B), ∃ row w', dict_get d (w_ledger w') = Some row ∧
    (∀ d', d' ≠ d → dict_get d' (w_ledger w') = dict_get d' (w_ledger w)) ∧
    run handle (pbind (_terminalize d code reason) k) w = (Exc (IndexerError d reason code), w') ∧
    row_status row = FAILED ∧ row_last_error_code row = Some code ∧ w_index w' = w_index w).
  { intros. unfold _terminalize. rewrite run_bind, run_bind.
    rewrite (run_transition_or_benign_ok d FAILED _ _ None w cur Hhex Hc Hrow); [|rewrite Hs; constructor; set_solver|naive_solver].
    eexists _, _. split; [|split; [|split; [reflexivity|]]]; [apply dict_get_set_eq|apply Hother|].
    destruct (next_row_failed (w_now w) d FAILED code (Some reason) None cur) as (? & ? & _). done. }
  unfold index. fold d. destruct chunks as [|c cs]; [apply Hterm|]. cbn [pbind]. rewrite validate_batch_eq.
  destruct (index_refusal config (c :: cs)) as [[code reason]|]; [apply Hterm|].
  rewrite run_bind, build_records_run. unfold get. rewrite Hc. fold w0.
  destruct (rmap _ (c :: cs)) as [records|x]; [|by exists cur, w0].
  rewrite index_recovery_eq.
  pose proof (run_provider_only (_upsert_all config d records) w0 (upsert_all_provider _ _ _)) as (Hl & _ & _).
  destruct (run handle (_upsert_all config d records) w0) as [[res|x] w1]; cbn [fst snd] in *; simpl in Hl.
  - unfold _transition_to_indexed. rewrite run_bind.
    rewrite (run_transition_or_benign_ok d INDEXED None None None w1 cur Hhex); [|by rewrite Hl|done|rewrite Hs; constructor|naive_solver].
    eexists _, _. split; [|split; [|split; [reflexivity|]]]; simpl; rewrite ?Hl; [apply dict_get_set_eq|apply Hother|].
    by apply next_row_forward; rewrite ?Hs.
  - pose proof (index_failure_status x) as Hst. destruct (index_failure x) as [[st code] reason]. cbn [fst snd] in *.
    rewrite run_bind, run_bind.
    rewrite (run_transition_or_benign_ok d st _ _ None w1 cur Hhex);
      [|by rewrite Hl|done|rewrite Hs; destruct Hst as [-> | ->]; constructor; set_solver|naive_solver].
    eexists _, _. split; [|split; [|split; [reflexivity|]]]; simpl; rewrite ?Hl; [apply dict_get_set_eq|apply Hother|].
    destruct Hst as [-> | ->]; [|by apply next_row_retry].
    apply (next_row_failed (w_now w1) d FAILED code (Some reason) None cur).
Qed.

Definition indexing_row : LedgerRow := mkRow example_doc INDEXING INDEXING 1 None None "1" 1 5 None.

Lemma indexing_rows_ok : ledger_ok [(example_doc, indexing_row)].
Proof. apply (ledger_ok_set example_doc _ []); [|apply ledger_ok_empty]. split_and!; [done|apply example_doc_ok|done..]. Qed.

Definition index_envelope : ArrivalEnvelope := mkEnvelope example_doc "blob:hr" "a.pdf" None None ["hr"] INTERNAL "v1" 0.

Definition embedded (i : Z) (dims : Z) : EmbeddedChunk :=
  mkEmbedded (mkChunk (pretty i) example_doc i [PARAGRAPH] "text" 1 []) [] "m" dims None.

Lemma index_outcomes_witness :
  ∃ w', run (@handle unit_env) (@index unit_env (mkIndexerConfig 4 "cosine" None true) index_envelope [embedded 0 4; embedded 1 4])
      (unit_world [(example_doc, indexing_row)]) = (Ok (mkIndexResult example_doc 2 0 "unit" "m" 4), w') ∧
    status_of example_doc (w_ledger w') = Some INDEXED.
Proof.
  destruct (@index_outcomes unit_env (mkIndexerConfig 4 "cosine" None true) index_envelope [embedded 0 4; embedded 1 4]
    (unit_world [(example_doc, indexing_row)]) indexing_row indexing_rows_ok) as (row & w' & Hrow & _ & H).
  - by vm_compute.
  - reflexivity.
  - simpl in H. destruct H as (Hrun & Hs & _). exists w'. split; [exact Hrun|]. unfold status_of. cbn [env_doc_id index_envelope] in Hrow.
    rewrite Hrow. simpl. by rewrite Hs.
Defined.

(** ** What the stage relies on *)

(** The laws of an [IndexerAdapter] (adapters/base.py), for an invariant of its state and a
    view of it as a map from chunk ids to records. An upsert stores every record it does not
    report as failed and no other chunk id changes; a delete removes exactly the document's
    records; the version reported is that of one of the document's records, if it has any. An
    upsert of a chunk id that another document owns is outside the contract: ids are derived
    from the document's. *)
Class IndexLaws {env : Env} (inv : index_state → Prop) (stored : index_state → string → option IndexRecord) : Prop := {
  upsert_law st rs o st' :
    inv st → NoDup (map ir_chunk_id rs) →
    (∀ r r0, r ∈ rs → stored st (ir_chunk_id r) = Some r0 → ir_doc_id r0 = ir_doc_id r) →
    ix_upsert rs st = (Ok o, st') →
    inv st' ∧
    (∀ r, r ∈ rs → ir_chunk_id r ∉ map fst (up_failed o) → stored st' (ir_chunk_id r) = Some r) ∧
    (∀ r, r ∈ rs → stored st' (ir_chunk_id r) = Some r ∨ stored st' (ir_chunk_id r) = stored st (ir_chunk_id r)) ∧
    (∀ c, c ∉ map ir_chunk_id rs → stored st' c = stored st c);
  delete_law st d n st' :
    inv st → ix_delete_by_doc_id d st = (Ok n, st') →
    inv st' ∧ ∀ c, stored st' c = (match stored st c with Some r => if decide (ir_doc_id r = d) then None else Some r | None => None end);
  version_law st d v st' :
    inv st → ix_get_doc_version d st = (Ok v, st') →
    inv st' ∧ (∀ c, stored st' c = stored st c) ∧
    match v with
    | None => ∀ c r, stored st c = Some r → ir_doc_id r ≠ d
    | Some x => ∃ c r, stored st c = Some r ∧ ir_doc_id r = d ∧ ir_doc_version r = x
    end;
}.

Section client.
Context {env : Env} (inv : index_state → Prop) (stored : index_state → string → option IndexRecord) `{!IndexLaws inv stored}.

(** The document [d] owns the chunk ids of [rs] in the state [st]. *)
Definition owned (d : string) (rs : list IndexRecord) (st : index_state) : Prop :=
  ∀ r, r ∈ rs → ir_doc_id r = d ∧ ∀ r0, stored st (ir_chunk_id r) = Some r0 → ir_doc_id r0 = d.

Lemma owned_after d rs rs' st st' :
  owned d rs st → rs' ⊆ rs →
  (∀ r, r ∈ rs → stored st' (ir_chunk_id r) = Some r ∨ stored st' (ir_chunk_id r) = stored st (ir_chunk_id r)) →
  owned d rs' st'.
Proof.
  intros Ho Hsub Hst r Hr%Hsub. destruct (Ho _ Hr) as [Hd H0]. split; [done|]. intros r0 Hr0.
  destruct (Hst _ Hr) as [H|H]; rewrite H in Hr0; [by simplify_eq|auto].
Qed.

Lemma run_upsert rs w : run handle (call (IUpsert rs)) w = let '(r, st) := ix_upsert rs (w_index w) in (r, set_index st w).
Proof. by rewrite run_call. Qed.

Lemma upsert_once d rs w o w' :
  inv (w_index w) → NoDup (map ir_chunk_id rs) → owned d rs (w_index w) →
  run handle (call (IUpsert rs)) w = (Ok o, w') →
  inv (w_index w') ∧
  (∀ r, r ∈ rs → ir_chunk_id r ∉ map fst (up_failed o) → stored (w_index w') (ir_chunk_id r) = Some r) ∧
  (∀ r, r ∈ rs → stored (w_index w') (ir_chunk_id r) = Some r ∨ stored (w_index w') (ir_chunk_id r) = stored (w_index w) (ir_chunk_id r)) ∧
  (∀ c, c ∉ map ir_chunk_id rs → stored (w_index w') c = stored (w_index w) c).
Proof.
  intros Hi Hnd Ho. rewrite run_upsert. destruct (ix_upsert rs (w_index w)) as [r st] eqn:E. intros [= -> <-]. simpl.
  apply (upsert_law (w_index w) rs o st); try done. intros r r0 Hr Hr0. destruct (Ho _ Hr) as [-> H]. by apply H.
Qed.

(** One batch with its retry: a batch that is reported as written is written. *)
Lemma upsert_batch_stores d batch w n w' :
  inv (w_index w) → NoDup (map ir_chunk_id batch) → owned d batch (w_index w) →
  run handle (_upsert_batch_with_retry batch) w = (Ok n, w') →
  inv (w_index w') ∧ (∀ r, r ∈ batch → stored (w_index w') (ir_chunk_id r) = Some r) ∧
  (∀ c, c ∉ map ir_chunk_id batch → stored (w_index w') c = stored (w_index w) c).
Proof.
  intros Hi Hnd Ho. unfold _upsert_batch_with_retry. rewrite run_bind.
  destruct (run handle (call (IUpsert batch)) w) as [[o|] w1] eqn:E1; [|done].
  destruct (upsert_once d batch w o w1 Hi Hnd Ho E1) as (Hi1 & Hs1 & Hor1 & Hu1).
  destruct (up_failed o) as [|f fs] eqn:Ef.
  - intros [= <- <-]. split_and!; [done| |done]. intros r Hr. apply Hs1; [done|simpl; set_solver].
  - rewrite <- Ef in *. set (retry := filter _ batch). rewrite run_bind.
    assert (Hsub : retry ⊆ batch) by (intros r Hr; by apply list_elem_of_filter in Hr as [_ ?]).
    assert (Hnd' : NoDup (map ir_chunk_id retry)).
    { eapply NoDup_submseteq_of; [|exact Hnd]. apply fmap_submseteq, sublist_submseteq, sublist_filter. }
    destruct (run handle (call (IUpsert retry)) w1) as [[o2|] w2] eqn:E2; [|done].
    destruct (upsert_once d retry w1 o2 w2 Hi1 Hnd' (owned_after _ _ _ _ _ Ho Hsub Hor1) E2) as (Hi2 & Hs2 & _ & Hu2).
    destruct (up_failed o2) as [|]; [|done]. intros [= <- <-]. split_and!; [done| |].
    + intros r Hr. destruct (decide (ir_chunk_id r ∈ map fst (up_failed o))) as [Hin|Hnin].
      * apply Hs2; [by apply list_elem_of_filter|simpl; set_solver].
      * rewrite Hu2; [by apply Hs1|]. intros (r' & Hid & [Hf Hr']%list_elem_of_filter)%list_elem_of_fmap. rewrite Hid in Hnin. done.
    + intros c Hc. rewrite Hu2, Hu1; [done..|]. intros (r' & -> & Hr'%Hsub)%list_elem_of_fmap. apply Hc.
      by apply (list_elem_of_fmap_2 ir_chunk_id).
Qed.

(** The loop over the batches. *)
Lemma upsert_loop_stores d bs acc w n w' :
  inv (w_index w) → NoDup (map ir_chunk_id (mjoin bs)) → owned d (mjoin bs) (w_index w) →
  run handle (pfold (λ chunks_upserted batch, pbind (_upsert_batch_with_retry batch) (λ n, Ret (chunks_upserted + n))) acc bs) w = (Ok n, w') →
  inv (w_index w') ∧ (∀ r, r ∈ mjoin bs → stored (w_index w') (ir_chunk_id r) = Some r) ∧
  (∀ c, c ∉ map ir_chunk_id (mjoin bs) → stored (w_index w') c = stored (w_index w) c).
Proof.
  revert acc w. induction bs as [|b bs IH]; intros acc w Hi Hnd Ho; cbn [pfold].
  - intros [= <- <-]. split_and!; [done|set_solver|done].
  - rewrite run_bind, run_bind. destruct (run handle (_upsert_batch_with_retry b) w) as [[m|] w1] eqn:E1; [|done]. cbn [run]. intros E2.
    simpl in Hnd, Ho. rewrite map_app in Hnd. apply NoDup_app in Hnd as (Hnd1 & Hdis & Hnd2).
    assert (Ho1 : owned d b (w_index w)) by (intros r Hr; apply Ho; set_solver).
    destruct (upsert_batch_stores d b w m w1 Hi Hnd1 Ho1 E1) as (Hi1 & Hs1 & Hu1).
    assert (Hnin : ∀ r, r ∈ mjoin bs → ir_chunk_id r ∉ map ir_chunk_id b).
    { intros r Hr Hin. apply (Hdis _ Hin). by apply (list_elem_of_fmap_2 ir_chunk_id). }
    destruct (IH (acc + m) w1) as (Hi2 & Hs2 & Hu2); try done.
    { intros r Hr. rewrite Hu1 by auto. apply Ho. set_solver. }
    split_and!; [done| |].
    + intros r [Hr|Hr]%elem_of_app; [|auto]. rewrite Hu2; [by apply Hs1|]. apply Hdis. by apply (list_elem_of_fmap_2 ir_chunk_id).
    + intros c Hc. simpl in Hc. rewrite map_app, not_elem_of_app in Hc. rewrite Hu2, Hu1; tauto.
Qed.

(** The deletion of a stale version. *)
Lemma delete_stale_effect config d v w n w' :
  inv (w_index w) → run handle (_maybe_delete_stale_version config d v) w = (Ok n, w') →
  inv (w_index w') ∧
  ((∀ c, stored (w_index w') c = stored (w_index w) c) ∧
     (delete_before_upsert_on_version_change config = true →
      (∀ c r, stored (w_index w) c = Some r → ir_doc_id r ≠ d) ∨
      ∃ c r, stored (w_index w) c = Some r ∧ ir_doc_id r = d ∧ ir_doc_version r = v) ∨
   ∀ c, stored (w_index w') c = match stored (w_index w) c with Some r => if decide (ir_doc_id r = d) then None else Some r | None => None end).
Proof.
  intros Hi. unfold _maybe_delete_stale_version. destruct (delete_before_upsert_on_version_change config).
  2:{ intros [= <- <-]. split; [done|]. by left. }
  rewrite run_bind, run_call. simpl handle. destruct (ix_get_doc_version d (w_index w)) as [[ov|] st] eqn:Ev; [|done].
  destruct (version_law _ _ _ _ Hi Ev) as (Hi1 & Hs1 & Hv). destruct ov as [x|].
  - case_decide as Hx.
    + intros [= <- <-]. subst x. split; [done|]. left. simpl. auto.
    + rewrite run_call. simpl handle. destruct (ix_delete_by_doc_id d st) as [r st2] eqn:Ed. intros [= -> <-]. simpl in *.
      destruct (delete_law _ _ _ _ Hi1 Ed) as [Hi2 Hs2]. split; [done|]. right. intros c. rewrite Hs2, Hs1. done.
  - intros [= <- <-]. split; [done|]. left. simpl. auto.
Qed.
(** A returned [_upsert_all]: a deletion, after which every record is stored and no other
    chunk id changes. *)
Lemma upsert_all_effect config d records w res w' :
  inv (w_index w) → NoDup (map ir_chunk_id records) → owned d records (w_index w) → 0 < _effective_batch_size config →
  run handle (_upsert_all config d records) w = (Ok res, w') →
  ∃ v n w1, (ir_doc_version <$> head records) = Some v ∧
    run handle (_maybe_delete_stale_version config d v) w = (Ok n, w1) ∧
    (∀ c r, stored (w_index w1) c = Some r → stored (w_index w) c = Some r) ∧
    inv (w_index w') ∧ (∀ r, r ∈ records → stored (w_index w') (ir_chunk_id r) = Some r) ∧
    (∀ c, c ∉ map ir_chunk_id records → stored (w_index w') c = stored (w_index w1) c).
Proof.
  intros Hi Hnd Ho Hsize Hrun. destruct records as [|r0 rs]; [done|]. set (records := r0 :: rs) in *.
  change (_upsert_all config d records) with
    (pbind (_maybe_delete_stale_version config d (ir_doc_version r0)) (λ chunks_deleted,
     pbind (lift (_batched records (_effective_batch_size config))) (λ batches,
     pbind (pfold (λ chunks_upserted batch, pbind (_upsert_batch_with_retry batch) (λ n, Ret (chunks_upserted + n))) 0 batches) (λ chunks_upserted,
     Ret (mkIndexResult d chunks_upserted chunks_deleted ix_index_name (ir_embedding_model r0) (ir_embedding_dimensions r0)))))) in Hrun.
  rewrite run_bind in Hrun. destruct (run handle (_maybe_delete_stale_version config d (ir_doc_version r0)) w) as [[n|] w1] eqn:Ed; [|done].
  destruct (delete_stale_effect config d (ir_doc_version r0) w n w1 Hi Ed) as [Hi1 Heff].
  rewrite run_bind, run_lift in Hrun. unfold _batched in Hrun. rewrite py_batched_pos in Hrun by lia. rewrite run_bind in Hrun.
  destruct (run handle (pfold _ 0 _) w1) as [[m|] w2] eqn:El; [|done]. injection Hrun as <- <-.
  assert (Hsub : ∀ c r, stored (w_index w1) c = Some r → stored (w_index w) c = Some r).
  { intros c r Hr. destruct Heff as [[Hsame _]|Hdel]; [by rewrite <- Hsame|]. rewrite Hdel in Hr.
    destruct (stored (w_index w) c); [|done]. by case_decide. }
  pose proof (batched_concat records (Z.to_nat (_effective_batch_size config)) ltac:(lia)) as Hcat.
  apply (upsert_loop_stores d) in El as (Hi2 & Hs2 & Hu2); [|done|by rewrite Hcat|].
  2:{ rewrite Hcat. intros r Hr. destruct (Ho _ Hr) as [? H]. split; [done|]. eauto. }
  rewrite Hcat in Hs2, Hu2. by exists (ir_doc_version r0), n, w1.
Qed.
End client.

(** C11: with any adapter that keeps the laws, when [_upsert_all] returns for a document's
    records (distinct chunk ids, owned by the document, one version) the index holds every one
    of them, the records of all other documents are unchanged, and what else it holds for the
    document was there before; if the stored version was another one and replacement is on,
    it holds for the document exactly the new records, with no leftover of the old version. *)
Theorem upsert_all_stores {env : Env} (inv : index_state → Prop) stored `{!IndexLaws inv stored} config d v records w res w' :
  inv (w_index w) → NoDup (map ir_chunk_id records) → owned stored d records (w_index w) →
  Forall (λ r, ir_doc_version r = v) records → 0 < _effective_batch_size config →
  run handle (_upsert_all config d records) w = (Ok res, w') →
  inv (w_index w') ∧
  (∀ r, r ∈ records → stored (w_index w') (ir_chunk_id r) = Some r) ∧
  (∀ c r, ir_doc_id r ≠ d → stored (w_index w') c = Some r ↔ stored (w_index w) c = Some r) ∧
  (∀ c r, ir_doc_id r = d → stored (w_index w') c = Some r → r ∈ records ∨ stored (w_index w) c = Some r) ∧
  (delete_before_upsert_on_version_change config = true →
   (∀ c r, stored (w_index w) c = Some r → ir_doc_id r = d → ir_doc_version r ≠ v) →
   ∀ c r, ir_doc_id r = d → stored (w_index w') c = Some r → r ∈ records).
Proof.
  intros Hi Hnd Ho Hv Hsize Hrun.
  destruct (upsert_all_effect inv stored config d records w res w' Hi Hnd Ho Hsize Hrun) as (v' & n & w1 & Hv' & Ed & Hsub & Hi2 & Hs2 & Hu2).
  assert (v' = v) as -> by (destruct Hv; simplify_eq/=; done).
  destruct (delete_stale_effect inv stored config d v w n w1 Hi Ed) as [Hi1 Heff].
  assert (Hcase : ∀ c r, stored (w_index w') c = Some r → r ∈ records ∨ c ∉ map ir_chunk_id records ∧ stored (w_index w1) c = Some r).
  { intros c r Hr. destruct (decide (c ∈ map ir_chunk_id records)) as [Hin|Hnin].
    - apply list_elem_of_fmap in Hin as (r' & -> & Hr'). left. rewrite Hs2 in Hr by done. by simplify_eq.
    - rewrite Hu2 in Hr by done. auto. }
  split_and!; [done|done| | |].
  - intros c r Hd. split.
    + intros [Hin|[_ Hr]]%Hcase; [by destruct (Ho _ Hin)|eauto].
    + intros Hr. rewrite Hu2.
      * destruct Heff as [[-> _]|Hdel]; [done|]. rewrite Hdel, Hr. by rewrite decide_False.
      * intros (r' & -> & Hr')%list_elem_of_fmap. destruct (Ho _ Hr') as [_ H]. apply Hd. eauto.
  - intros c r _ [?|[_ Hr]]%Hcase; [by left|]. right. eauto.
  - intros Hflag Hstale c r Hd [?|[_ Hr]]%Hcase; [done|]. exfalso.
    destruct Heff as [[Hsame Hwhy]|Hdel].
    + destruct (Hwhy Hflag) as [Hnone|(c' & r' & Hr' & Hd' & Hver)]; [by apply (Hnone c r); [apply Hsub|]|]. by apply (Hstale c' r').
    + rewrite Hdel in Hr. destruct (stored (w_index w) c); [|done]. case_decide; [done|]. by simplify_eq.
Qed.
End Indexer.
