(* ===== verification/InMemoryIndexer.v ===== *)
(** * The in-memory index adapter (src/vestibule/indexer/adapters/in_memory.py)

    Its two dictionaries, its schema check and its search, and the proof that it keeps the laws
    the indexer relies on. *)
From S2P Require Import Prelude PyDict Types Identity Ledger Prog System Indexer.
#[local] Open Scope Z_scope.

Module InMemoryIndexer.
Import Indexer.

(** A Python set of strings, as the list of its distinct elements. *)
Definition set_add (x : string) (s : list string) : list string := if decide (x ∈ s) then s else s ++ [x].

Record InMemoryIndexer := mkIM {
  im_index_name : string;
  im_records : list (string * IndexRecord);
  im_by_doc : list (string * list string);
  im_schema : option (Z * string);
}.

Definition new_in_memory (index_name : string) : InMemoryIndexer := mkIM index_name [] [] None.

Definition ensure_schema {env : Env} (dimensions : Z) (metric : string) (ix : InMemoryIndexer) : result exn InMemoryIndexer :=
  match im_schema ix with
  | None => Ok (mkIM (im_index_name ix) (im_records ix) (im_by_doc ix) (Some (dimensions, metric)))
  | Some (dims, m) =>
    if decide ((dims, m) = (dimensions, metric)) then Ok ix
    else Exc (IndexerError "" ("index " +:+ str_repr (im_index_name ix) +:+ " already has schema dimensions=" +:+ pretty dims
           +:+ " metric=" +:+ str_repr m +:+ "; requested dimensions=" +:+ pretty dimensions +:+ " metric=" +:+ str_repr metric)
           INDEXER_SCHEMA_CONFLICT)
  end.

Definition im_add (ix : InMemoryIndexer) (r : IndexRecord) : InMemoryIndexer :=
  mkIM (im_index_name ix) (dict_set (ir_chunk_id r) r (im_records ix))
    (dict_set (ir_doc_id r) (set_add (ir_chunk_id r) (default [] (dict_get (ir_doc_id r) (im_by_doc ix)))) (im_by_doc ix)) (im_schema ix).

Definition upsert (records : list IndexRecord) (ix : InMemoryIndexer) : UpsertOutcome * InMemoryIndexer :=
  (mkOutcome (map ir_chunk_id records) [], fold_left im_add records ix).

Definition delete_by_doc_id (doc_id : string) (ix : InMemoryIndexer) : Z * InMemoryIndexer :=
  let chunk_ids := default [] (dict_get doc_id (im_by_doc ix)) in
  (Z.of_nat (length chunk_ids),
   mkIM (im_index_name ix) (fold_left (λ rs c, dict_pop c rs) chunk_ids (im_records ix)) (dict_pop doc_id (im_by_doc ix)) (im_schema ix)).

Definition count_by_doc_id (doc_id : string) (ix : InMemoryIndexer) : Z :=
  Z.of_nat (length (default [] (dict_get doc_id (im_by_doc ix)))).

(** [next(iter(chunk_ids))]: the iteration order of a set is not specified, so which element
    comes first is a choice function. *)
Section version.
Context (set_first : string → list string → string).

Definition get_doc_version (doc_id : string) (ix : InMemoryIndexer) : result exn (option string) :=
  match dict_get doc_id (im_by_doc ix) with
  | None | Some [] => Ok None
  | Some (c :: cs) =>
    let any_chunk_id := set_first c cs in
    match dict_get any_chunk_id (im_records ix) with
    | Some r => Ok (Some (ir_doc_version r))
    | None => Exc (PyExc "KeyError" any_chunk_id)
    end
  end.
End version.

(** ** Search *)

(** The values of a record's fields, and of the filters they are compared with. *)
Inductive attr :=
| AStr (s : string) | AInt (z : Z) | ANone | AStrs (l : list string) | AFloats (l : list pyfloat) | AFloat (f : pyfloat) | ATime (t : Z).

#[export] Instance attr_eq_dec : EqDecision attr.
Proof. solve_decision. Defined.

(** [getattr(record, field_name, None)]. *)
Definition record_attr (r : IndexRecord) (field_name : string) : attr :=
  if decide (field_name = "chunk_id") then AStr (ir_chunk_id r) else
  if decide (field_name = "doc_id") then AStr (ir_doc_id r) else
  if decide (field_name = "doc_version") then AStr (ir_doc_version r) else
  if decide (field_name = "vector") then AFloats (ir_vector r) else
  if decide (field_name = "text") then AStr (ir_text r) else
  if decide (field_name = "position") then AInt (ir_position r) else
  if decide (field_name = "section_path") then match ir_section_path r with Some s => AStr s | None => ANone end else
  if decide (field_name = "element_types") then AStrs (ir_element_types r) else
  if decide (field_name = "strategy") then AStr (ir_strategy r) else
  if decide (field_name = "allowed_groups") then AStrs (ir_allowed_groups r) else
  if decide (field_name = "trust_tier") then AStr (ir_trust_tier r) else
  if decide (field_name = "embedding_model") then AStr (ir_embedding_model r) else
  if decide (field_name = "embedding_dimensions") then AInt (ir_embedding_dimensions r) else
  if decide (field_name = "config_version") then AStr (ir_config_version r) else
  if decide (field_name = "indexed_at") then ATime (ir_indexed_at r) else ANone.

(** [attribute == value]: numbers of different types compare by value. *)
Definition attr_eqb (attribute value : attr) : bool :=
  match attribute, value with
  | AInt z, AFloat f => f_eq (f_of_Z z) f
  | _, _ => bool_decide (attribute = value)
  end.

(** [value in attribute], for a list of strings or of floats. *)
Definition attr_in (value : attr) (attribute : attr) : bool :=
  match attribute, value with
  | AStrs l, AStr s => bool_decide (s ∈ l)
  | AFloats l, AFloat f => existsb (f_eq f) l
  | AFloats l, AInt z => existsb (f_eq (f_of_Z z)) l
  | _, _ => false
  end.

Fixpoint _matches_filters (r : IndexRecord) (filters : list (string * attr)) : bool :=
  match filters with
  | [] => true
  | (field_name, value) :: rest =>
    let attribute := record_attr r field_name in
    match attribute with
    | AStrs _ | AFloats _ => if attr_in value attribute then _matches_filters r rest else false
    | _ => if attr_eqb attribute value then _matches_filters r rest else false
    end
  end.

Definition _cosine_similarity (a b : list pyfloat) : result exn pyfloat :=
  rbind (zip_strict a b) (λ pairs,
  let dot := f_sum (map (λ xy, f_mul xy.1 xy.2) pairs) in
  let norm_a := f_sqrt (f_sum (map (λ x, f_mul x x) a)) in
  let norm_b := f_sqrt (f_sum (map (λ y, f_mul y y) b)) in
  if f_eq norm_a (f_of_Z 0) || f_eq norm_b (f_of_Z 0) then Ok (f_of_Z 0)
  else
    let denominator := f_mul norm_a norm_b in
    if f_eq denominator (f_of_Z 0) then Exc (PyExc "ZeroDivisionError" "float division by zero") else Ok (f_div dot denominator)).

(** The scores are compared as floats; for scores that are numbers (not NaN) Python's stable
    descending sort is determined by the comparison. *)
Definition search (query_vector : list pyfloat) (top_k : Z) (filters : list (string * attr)) (ix : InMemoryIndexer)
    : result exn (list (IndexRecord * pyfloat)) :=
  let candidates := dict_values (im_records ix) in
  let candidates := match filters with [] => candidates | _ => List.filter (λ c, _matches_filters c filters) candidates end in
  rbind (rmap (λ c, rbind (_cosine_similarity query_vector (ir_vector c)) (λ s, Ok (c, s))) candidates) (λ scored,
  Ok (py_take top_k (py_sort (λ y x, f_lt x.2 y.2) scored))).

(** ** The representation invariant *)

(** The two dictionaries agree: a document's set holds exactly the chunk ids of its records. *)
Definition im_ok (ix : InMemoryIndexer) : Prop :=
  dict_wf (im_records ix) ∧ dict_wf (im_by_doc ix) ∧
  (∀ d, NoDup (default [] (dict_get d (im_by_doc ix)))) ∧
  ∀ d c, c ∈ default [] (dict_get d (im_by_doc ix)) ↔ ∃ r, dict_get c (im_records ix) = Some r ∧ ir_doc_id r = d.

Definition im_stored (ix : InMemoryIndexer) (c : string) : option IndexRecord := dict_get c (im_records ix).

Lemma elem_of_set_add x y s : x ∈ set_add y s ↔ x = y ∨ x ∈ s.
Proof. unfold set_add. case_decide; set_solver. Qed.

Lemma NoDup_set_add x s : NoDup s → NoDup (set_add x s).
Proof. intros. unfold set_add. case_decide; [done|]. apply NoDup_app. split_and!; [done|set_solver|apply NoDup_singleton]. Qed.

Lemma new_in_memory_ok name : im_ok (new_in_memory name).
Proof. split_and!; [apply dict_wf_nil..| |]; intros; simpl; [constructor|]. split; [set_solver|naive_solver]. Qed.

(** Adding a record of a chunk id that no other document holds. *)
Lemma im_add_ok ix r :
  im_ok ix → (∀ r0, im_stored ix (ir_chunk_id r) = Some r0 → ir_doc_id r0 = ir_doc_id r) →
  im_ok (im_add ix r) ∧ ∀ c, im_stored (im_add ix r) c = if decide (c = ir_chunk_id r) then Some r else im_stored ix c.
Proof.
  intros (Hw1 & Hw2 & Hnd & Hiff) Hown. unfold im_stored in *. split; [|intros c; apply dict_get_set].
  split_and!; simpl; [by apply dict_set_wf..| |].
  - intros d. rewrite dict_get_set. case_decide; simpl; [by apply NoDup_set_add|done].
  - intros d c. rewrite !dict_get_set. destruct (decide (d = ir_doc_id r)) as [->|Hd]; simpl.
    + rewrite elem_of_set_add, Hiff. case_decide; [naive_solver|]. naive_solver.
    + rewrite Hiff. case_decide as Hc; [|done]. subst c. split.
      * intros (r0 & Hr0 & Hdr). destruct Hd. rewrite <- Hdr. auto.
      * intros (r0 & [= <-] & Hdr). by destruct Hd.
Qed.

Lemma upsert_fold_ok rs ix :
  im_ok ix → NoDup (map ir_chunk_id rs) →
  (∀ r r0, r ∈ rs → im_stored ix (ir_chunk_id r) = Some r0 → ir_doc_id r0 = ir_doc_id r) →
  im_ok (fold_left im_add rs ix) ∧
  (∀ r, r ∈ rs → im_stored (fold_left im_add rs ix) (ir_chunk_id r) = Some r) ∧
  (∀ c, c ∉ map ir_chunk_id rs → im_stored (fold_left im_add rs ix) c = im_stored ix c).
Proof.
  revert ix. induction rs as [|r rs IH]; intros ix Hok Hnd Hown; cbn [fold_left].
  { split_and!; [done|set_solver|done]. }
  simpl in Hnd. apply NoDup_cons in Hnd as [Hr Hnd].
  destruct (im_add_ok ix r Hok) as [Hok1 Hs1]; [intros; eapply Hown; [set_solver|done]|].
  destruct (IH (im_add ix r) Hok1 Hnd) as (Hok2 & Hin & Hout).
  { intros r' r0 Hr' H0. rewrite Hs1 in H0. rewrite decide_False in H0; [eapply Hown; [set_solver|done]|].
    intros Heq. apply Hr. rewrite <- Heq. by apply (list_elem_of_fmap_2 ir_chunk_id). }
  split_and!; [done| |].
  - intros r' [->|Hr']%elem_of_cons; [|auto]. rewrite Hout, Hs1 by done. by rewrite decide_True.
  - intros c Hc. simpl in Hc. apply not_elem_of_cons in Hc as [? ?]. rewrite Hout, Hs1 by done. by rewrite decide_False.
Qed.

Lemma dict_get_pops {V} (cs : list string) (d : list (string * V)) c :
  dict_wf d → dict_wf (fold_left (λ rs c, dict_pop c rs) cs d) ∧
  dict_get c (fold_left (λ rs c, dict_pop c rs) cs d) = if decide (c ∈ cs) then None else dict_get c d.
Proof.
  revert d. induction cs as [|x cs IH]; intros d Hd; cbn [fold_left]; [done|].
  destruct (IH (dict_pop x d)) as [Hw Hg]; [by apply dict_pop_wf|]. split; [done|]. rewrite Hg, dict_get_pop by done.
  repeat case_decide; set_solver.
Qed.

Lemma delete_ok d ix :
  im_ok ix →
  im_ok (delete_by_doc_id d ix).2 ∧
  ∀ c, im_stored (delete_by_doc_id d ix).2 c =
    match im_stored ix c with Some r => if decide (ir_doc_id r = d) then None else Some r | None => None end.
Proof.
  intros (Hw1 & Hw2 & Hnd & Hiff). unfold im_stored, delete_by_doc_id. simpl.
  set (cs := default [] (dict_get d (im_by_doc ix))).
  assert (Hget : ∀ c, dict_get c (fold_left (λ rs c, dict_pop c rs) cs (im_records ix)) =
    match dict_get c (im_records ix) with Some r => if decide (ir_doc_id r = d) then None else Some r | None => None end).
  { intros c. rewrite (proj2 (dict_get_pops cs (im_records ix) c Hw1)). unfold cs. destruct (dict_get c (im_records ix)) as [r|] eqn:E.
    - destruct (decide (ir_doc_id r = d)); [rewrite decide_True; [done|]|rewrite decide_False; [done|]]; rewrite Hiff; naive_solver.
    - by case_decide. }
  split; [|done]. split_and!; simpl.
  - apply (dict_get_pops cs (im_records ix) d Hw1).
  - by apply dict_pop_wf.
  - intros d'. rewrite dict_get_pop by done. case_decide; simpl; [constructor|done].
  - intros d' c. rewrite dict_get_pop by done. rewrite Hget. case_decide as Hd; simpl.
    + subst d'. split; [set_solver|]. intros (r & Hr & Hdr). destruct (dict_get c (im_records ix)); [|done]. case_decide; naive_solver.
    + rewrite Hiff. destruct (dict_get c (im_records ix)) as [r|]; [|done]. case_decide; naive_solver.
Qed.

(** ** The environment with this adapter *)

Definition in_memory_env (base : Env) (name : string) (set_first : string → list string → string) : Env := {|
  clock := @clock base; str_repr := @str_repr base; meta_repr := @meta_repr base;
  index_state := InMemoryIndexer;
  ix_upsert rs ix := let '(o, ix') := upsert rs ix in (Ok o, ix');
  ix_delete_by_doc_id d ix := let '(n, ix') := delete_by_doc_id d ix in (Ok n, ix');
  ix_get_doc_version d ix := (get_doc_version set_first d ix, ix);
  ix_index_name := name;
  ix_max_batch_size := 1000;
  embed_state := @embed_state base; ea_embed_batch := @ea_embed_batch base; ea_model_name := @ea_model_name base;
  ea_max_batch_size := @ea_max_batch_size base; ea_max_input_tokens := @ea_max_input_tokens base;
  ea_supports_mrl := @ea_supports_mrl base; ea_document_prefix := @ea_document_prefix base;
  scenario_state := @scenario_state base; ss_get := @ss_get base; ss_get_by_vertical := @ss_get_by_vertical base;
|}.

Lemma version_ok set_first d ix :
  (∀ c cs, set_first c cs ∈ c :: cs) → im_ok ix →
  ∃ v, get_doc_version set_first d ix = Ok v ∧
    match v with
    | None => ∀ c r, im_stored ix c = Some r → ir_doc_id r ≠ d
    | Some x => ∃ c r, im_stored ix c = Some r ∧ ir_doc_id r = d ∧ ir_doc_version r = x
    end.
Proof.
  intros Hfirst (_ & _ & _ & Hiff). unfold get_doc_version. specialize (Hiff d).
  assert (Hnone : default [] (dict_get d (im_by_doc ix)) = [] → ∀ c r, im_stored ix c = Some r → ir_doc_id r ≠ d).
  { intros Hnil c r Hr Hd. assert (c ∈ ([] : list string)) by (rewrite <- Hnil; apply Hiff; eauto). set_solver. }
  destruct (dict_get d (im_by_doc ix)) as [[|c cs]|]; simpl in Hiff.
  - exists None. split; [done|]. by apply Hnone.
  - destruct (proj1 (Hiff _) (Hfirst c cs)) as (r & Hr & Hd). rewrite Hr. eexists. split; [done|]. by exists (set_first c cs), r.
  - exists None. split; [done|]. by apply Hnone.
Qed.

Lemma im_laws base name set_first :
  (∀ c cs, set_first c cs ∈ c :: cs) → @IndexLaws (in_memory_env base name set_first) im_ok im_stored.
Proof.
  intros Hfirst. constructor.
  - intros st rs o st' Hi Hnd Hown [= <- <-]. destruct (upsert_fold_ok rs st Hi Hnd Hown) as (? & ? & ?). split_and!; naive_solver.
  - intros st d n st' Hi [= <- <-]. by apply delete_ok.
  - intros st d v st' Hi [= Hv <-]. destruct (version_ok set_first d st Hfirst Hi) as (v' & Hv' & H). rewrite Hv' in Hv. injection Hv as ->. done.
Qed.

(** Writing to this adapter always succeeds. *)
Lemma im_upsert_all_ok base name set_first config d records (w : @world (in_memory_env base name set_first)) :
  (∀ c cs, set_first c cs ∈ c :: cs) → im_ok (w_index w) → records ≠ [] →
  0 < @_effective_batch_size (in_memory_env base name set_first) config →
  ∃ res w', run (@handle (in_memory_env base name set_first)) (@_upsert_all (in_memory_env base name set_first) config d records) w = (Ok res, w') ∧
    res_chunks_upserted res = Z.of_nat (length records).
Proof.
  intros Hfirst Hok Hne Hsize. set (env := in_memory_env base name set_first) in *.
  assert (Hdel : ∀ v, ∃ n w1, run (@handle env) (_maybe_delete_stale_version config d v) w = (Ok n, w1)).
  { intros v. unfold _maybe_delete_stale_version. destruct (delete_before_upsert_on_version_change config); [|by eexists _, _].
    rewrite run_bind, run_call. simpl handle. destruct (version_ok set_first d (w_index w) Hfirst Hok) as (o & -> & _).
    destruct o as [x|]; [|by eexists _, _]. case_decide; [by eexists _, _|]. rewrite run_call. by eexists _, _. }
  assert (Hloop : ∀ bs acc w0, ∃ w1,
    run (@handle env) (pfold (λ chunks_upserted batch, pbind (_upsert_batch_with_retry batch) (λ n, Ret (chunks_upserted + n))) acc bs) w0
    = (Ok (acc + Z.of_nat (length (mjoin bs))), w1)).
  { induction bs as [|b bs IH]; intros acc w0; cbn [pfold].
    - eexists. cbn [run]. by rewrite Z.add_0_r.
    - rewrite run_bind, run_bind. unfold _upsert_batch_with_retry at 1. rewrite run_bind, run_call. simpl handle. cbn [up_failed run up_succeeded].
      match goal with |- context [run _ (pfold _ ?a bs) ?w'] => destruct (IH a w') as [w1 ->] end.
      eexists. do 2 f_equal. rewrite length_map. simpl. rewrite length_app. lia. }
  destruct records as [|r rs]; [done|]. unfold _upsert_all. rewrite run_bind. destruct (Hdel (ir_doc_version r)) as (n & w1 & ->).
  rewrite run_bind, run_lift. unfold _batched. rewrite (py_batched_pos _ _ _ Hsize), run_bind.
  match goal with |- context [pfold _ 0 ?bs] => destruct (Hloop bs 0 w1) as [w2 ->]; assert (mjoin bs = r :: rs) as -> by (apply batched_concat; lia) end.
  by eexists _, _.
Qed.

Lemma Sorted_take {A} (R : relation A) n l : Sorted R l → Sorted R (take n l).
Proof.
  intros H. revert n. induction H as [|x l Hs IH Hd]; intros [|n]; simpl; try constructor; [apply IH|].
  destruct Hd; destruct n; by constructor.
Qed.

Lemma Sorted_py_take {A} (R : relation A) z l : Sorted R l → Sorted R (py_take z l).
Proof. intros. unfold py_take. case_bool_decide; by apply Sorted_take. Qed.

Lemma matches_filters_group r filters g :
  _matches_filters r filters = true → ("allowed_groups", AStr g) ∈ filters → g ∈ ir_allowed_groups r.
Proof.
  induction filters as [|[f v] rest IH]; simpl; [set_solver|]. intros Hm [Heq|Hin]%elem_of_cons.
  - simplify_eq. simpl in Hm. by case_bool_decide.
  - apply IH; [|done]. destruct (record_attr r f); by repeat case_match.
Qed.

(** The candidates of a search. *)
Definition candidates (filters : list (string * attr)) (ix : InMemoryIndexer) : list IndexRecord :=
  List.filter (λ c, _matches_filters c filters) (dict_values (im_records ix)).

Lemma search_eq q k filters ix :
  search q k filters ix =
  rbind (rmap (λ c, rbind (_cosine_similarity q (ir_vector c)) (λ s, Ok (c, s))) (candidates filters ix)) (λ scored,
  Ok (py_take k (py_sort (λ y x, f_lt x.2 y.2) scored))).
Proof.
  unfold search, candidates. destruct filters; [|done]. simpl. do 2 f_equal.
  induction (dict_values (im_records ix)) as [|c cs IH]; simpl; [done|]. by rewrite <- IH.
Qed.

(** What a search returns. *)
Lemma search_hits q k filters ix hits :
  search q k filters ix = Ok hits →
  (∀ r s, (r, s) ∈ hits → r ∈ dict_values (im_records ix) ∧ _matches_filters r filters = true ∧
     _cosine_similarity q (ir_vector r) = Ok s ∧
     (∀ g, ("allowed_groups", AStr g) ∈ filters → g ∈ ir_allowed_groups r)) ∧
  Sorted (λ a b, f_lt a.2 b.2 = false) hits ∧
  (0 ≤ k → length hits = Nat.min (Z.to_nat k) (length (candidates filters ix))) ∧
  (∀ r, r ∈ candidates filters ix → Z.of_nat (length (candidates filters ix)) ≤ k → ∃ s, (r, s) ∈ hits).
Proof.
  rewrite search_eq. intros (scored & Hs%rmap_ok & [= <-])%rbind_ok.
  pose proof (py_sort_perm (λ y x : IndexRecord * pyfloat, f_lt x.2 y.2) scored) as Hperm.
  assert (Hin : ∀ r s, (r, s) ∈ scored → r ∈ candidates filters ix ∧ _cosine_similarity q (ir_vector r) = Ok s).
  { intros r s Hrs. apply list_elem_of_lookup in Hrs as [i Hi]. destruct (Forall2_lookup_r _ _ _ _ _ Hs Hi) as (c & Hc & Heq).
    apply rbind_ok in Heq as (s' & Hcos & [= <- <-]). split; [by eapply list_elem_of_lookup_2|done]. }
  split_and!.
  - intros r s Hrs. eapply elem_of_submseteq in Hrs; [|apply sublist_submseteq, py_take_sublist]. rewrite Hperm in Hrs. apply Hin in Hrs as [Hc Hcos].
    unfold candidates in Hc. apply list_elem_of_In, filter_In in Hc as [Hr Hm]. apply list_elem_of_In in Hr.
    split_and!; try done. intros g. by apply matches_filters_group.
  - apply Sorted_py_take, py_sort_sorted; intros x y; [apply f_lt_asym|done].
  - intros Hk. rewrite py_take_length by done. rewrite Hperm. by rewrite (Forall2_length _ _ _ Hs).
  - intros r Hr Hlen. apply list_elem_of_lookup in Hr as [i Hi]. destruct (Forall2_lookup_l _ _ _ _ _ Hs Hi) as ([r' s] & Hc & Heq).
    apply rbind_ok in Heq as (s' & Hcos & [= -> ->]). exists s. unfold py_take. rewrite bool_decide_eq_false_2 by lia.
    rewrite take_ge; [|rewrite Hperm, <- (Forall2_length _ _ _ Hs); lia]. rewrite Hperm. by eapply list_elem_of_lookup_2.
Qed.

(** The hits of a search and the other candidates: together they are the candidates, each once
    and with its similarity, and when the similarities are numbers no other candidate is more
    similar than a hit. *)
Lemma search_top q k filters ix hits :
  search q k filters ix = Ok hits → 0 ≤ k →
  (∀ r s, r ∈ candidates filters ix → _cosine_similarity q (ir_vector r) = Ok s → is_nan s = false) →
  ∃ others, map fst (hits ++ others) ≡ₚ candidates filters ix ∧
    (∀ r s, (r, s) ∈ hits ++ others → _cosine_similarity q (ir_vector r) = Ok s) ∧
    ∀ r s r' s', (r, s) ∈ hits → (r', s') ∈ others → f_le s' s = true.
Proof.
  rewrite search_eq. intros (scored & Hs%rmap_ok & [= <-])%rbind_ok Hk Hnan. set (R := λ y x : IndexRecord * pyfloat, f_lt x.2 y.2).
  pose proof (py_sort_perm R scored) as Hperm.
  assert (Hfst : map fst scored = candidates filters ix).
  { clear -Hs. induction Hs as [|r [r' s] rs l Hc _ IH]; [done|]. apply rbind_ok in Hc as (s' & _ & [= -> ->]). simpl. by f_equal. }
  assert (Hin : ∀ r s, (r, s) ∈ scored → r ∈ candidates filters ix ∧ _cosine_similarity q (ir_vector r) = Ok s).
  { intros r s [i Hi]%list_elem_of_lookup. destruct (Forall2_lookup_r _ _ _ _ _ Hs Hi) as (c & Hc & (s' & Hcos & [= <- <-])%rbind_ok).
    split; [by eapply list_elem_of_lookup_2|done]. }
  assert (Htake : py_take k (py_sort R scored) = take (Z.to_nat k) (py_sort R scored)) by (unfold py_take; by rewrite bool_decide_eq_false_2 by lia).
  rewrite Htake. exists (drop (Z.to_nat k) (py_sort R scored)). rewrite take_drop. split_and!.
  - by rewrite Hperm, Hfst.
  - intros r s Hrs. rewrite Hperm in Hrs. by apply Hin.
  - assert (Hall : Forall (λ x, is_nan x.2 = false) (py_sort R scored)).
    { rewrite Hperm. apply Forall_forall. intros [r s] [Hr Hc]%Hin. by eapply Hnan. }
    assert (Hsorted : Sorted (λ a b, f_lt a.2 b.2 = false) (py_sort R scored)) by (apply py_sort_sorted; intros x y; [apply f_lt_asym|done]).
    assert (Hstrong : StronglySorted (λ a b, f_le b.2 a.2 = true) (py_sort R scored)).
    { apply Sorted_StronglySorted; [intros a b c Hab Hbc; by eapply f_le_trans|]. clear -Hall Hsorted.
      induction Hsorted as [|a l _ IH Ha]; constructor; apply Forall_cons in Hall as [Hna Hall]; [by apply IH|].
      destruct Ha; constructor. apply Forall_cons in Hall as [Hnb _]. by apply f_lt_le. }
    rewrite <- (take_drop (Z.to_nat k) (py_sort R scored)) in Hstrong. intros r s r' s' Hr Hr'.
    exact (StronglySorted_app_1_elem_of _ _ _ _ _ Hstrong Hr Hr').
Qed.

(** It returns when every candidate can be compared with the query. *)
Lemma search_returns q k filters ix :
  (∀ r, r ∈ candidates filters ix → ∃ s, _cosine_similarity q (ir_vector r) = Ok s) → ∃ hits, search q k filters ix = Ok hits.
Proof.
  rewrite search_eq. generalize (candidates filters ix). intros cs Hcs.
  assert (H : ∃ scored, rmap (λ c, rbind (_cosine_similarity q (ir_vector c)) (λ s, Ok (c, s))) cs = Ok scored).
  { induction cs as [|c cs IH]; [by exists []|]. destruct (Hcs c) as [s Hs]; [set_solver|]. destruct IH as [scored IH]; [set_solver|].
    simpl. rewrite Hs. simpl. rewrite IH. by eexists. }
  destruct H as [scored ->]. by eexists.
Qed.

(** The records of a consistent index whose contents are known. *)
Lemma im_values ix records :
  im_ok ix → NoDup (map ir_chunk_id records) → (∀ r, r ∈ records → im_stored ix (ir_chunk_id r) = Some r) →
  (∀ c r, im_stored ix c = Some r → c ∈ map ir_chunk_id records) → dict_values (im_records ix) ≡ₚ records.
Proof.
  intros (Hw & _) Hnd Hin Hout. unfold im_stored in *.
  assert (H : im_records ix ≡ₚ map (λ r, (ir_chunk_id r, r)) records).
  { apply NoDup_Permutation.
    - by apply (NoDup_fmap_1 fst).
    - apply (NoDup_fmap_1 fst). change (NoDup (fst <$> ((λ r, (ir_chunk_id r, r)) <$> records))). by rewrite <- list_fmap_compose.
    - intros [c r]. split.
      + intros Hcr. apply dict_elem_get in Hcr; [|done]. pose proof (Hout _ _ Hcr) as Hc. apply list_elem_of_fmap in Hc as (r' & -> & Hr').
        rewrite (Hin _ Hr') in Hcr. injection Hcr as <-. by apply (list_elem_of_fmap_2 (λ r, (ir_chunk_id r, r))).
      + intros Hcr. apply list_elem_of_fmap in Hcr as (r' & [= -> ->] & Hr'). by apply dict_get_elem, Hin. }
  unfold dict_values. rewrite H. change (snd <$> ((λ r, (ir_chunk_id r, r)) <$> records) ≡ₚ records). rewrite <- list_fmap_compose. by rewrite list_fmap_id.
Qed.

(** ** Properties *)

(** The in-memory adapter keeps the laws of an index adapter: from a consistent state,
    upserts store every record and touch nothing else, deletes remove exactly the document's
    records, the version reported belongs to the document, none of them raises, and the two
    dictionaries stay consistent, whatever element a set's iteration yields first. *)
Theorem in_memory_laws base name set_first :
  (∀ c cs, set_first c cs ∈ c :: cs) →
  @IndexLaws (in_memory_env base name set_first) im_ok im_stored ∧
  (∀ d ix, im_ok ix → ∃ v, get_doc_version set_first d ix = Ok v) ∧
  (∀ d ix, im_ok ix → (delete_by_doc_id d ix).1 = count_by_doc_id d ix ∧ count_by_doc_id d (delete_by_doc_id d ix).2 = 0) ∧
  im_ok (new_in_memory name).
Proof.
  intros Hfirst. split_and!.
  - by apply im_laws.
  - intros d ix Hok. destruct (version_ok set_first d ix Hfirst Hok) as (v & Hv & _). by exists v.
  - intros d ix (_ & Hw & _). split; [done|]. unfold count_by_doc_id. simpl. rewrite dict_get_pop by done. by rewrite decide_True.
  - apply new_in_memory_ok.
Qed.

Lemma in_memory_laws_witness :
  @IndexLaws (in_memory_env unit_env "in-memory" (λ c _, c)) im_ok im_stored.
Proof. apply (in_memory_laws unit_env "in-memory" (λ c _, c)). intros c cs. apply elem_of_cons. left. reflexivity. Defined.

Definition example_record (c v : string) : IndexRecord :=
  mkRecord c "doc" v [] "text" 0 None [] "recursive" [] "internal" "m" 0 "1" 0.

Lemma upsert_all_stores_witness :
  let env := in_memory_env unit_env "in-memory" (λ c _, c) in
  let w := @mkWorld env [] [] (upsert [example_record "c0" "v1"; example_record "c1" "v1"] (new_in_memory "in-memory")).2 tt tt 0 in
  ∃ res w', run (@handle env) (@_upsert_all env (mkIndexerConfig 0 "cosine" None true) "doc" [example_record "c0" "v2"]) w = (Ok res, w') ∧
    res_chunks_deleted res = 2 ∧ ∀ c r, ir_doc_id r = "doc" → im_stored (w_index w') c = Some r → r ∈ [example_record "c0" "v2"].
Proof.
  intros env w.
  destruct (run (@handle env) (@_upsert_all env (mkIndexerConfig 0 "cosine" None true) "doc" [example_record "c0" "v2"]) w) as [[res|x] w'] eqn:E;
    [|vm_compute in E; discriminate].
  exists res, w'. split; [reflexivity|]. split; [vm_compute in E; by injection E as <- _|].
  assert (Hl : @IndexLaws env im_ok im_stored) by (apply im_laws; intros c cs; apply elem_of_cons; by left).
  apply (@upsert_all_stores env im_ok im_stored Hl (mkIndexerConfig 0 "cosine" None true) "doc" "v2" [example_record "c0" "v2"] w res w').
  - apply upsert_fold_ok; [apply new_in_memory_ok| |naive_solver]. apply NoDup_cons. split; [set_solver|apply NoDup_singleton].
  - apply NoDup_singleton.
  - intros r Hr. apply list_elem_of_singleton in Hr as ->. split; [reflexivity|]. intros r0 Hr0. vm_compute in Hr0. injection Hr0 as <-. reflexivity.
  - repeat constructor.
  - vm_compute. reflexivity.
  - exact E.
  - reflexivity.
  - intros c r Hr _. apply dict_get_elem in Hr. vm_compute in Hr. repeat (apply elem_of_cons in Hr as [Hr|Hr]; [injection Hr as _ ->; discriminate|]). by apply elem_of_nil in Hr.
Defined.

(** A search returns stored records that satisfy every filter (a caller who filters on a
    group only sees records that list it), each with its cosine similarity, in order of
    decreasing score, as many as asked for or as there are. *)
Theorem search_sound q k filters ix hits :
  search q k filters ix = Ok hits →
  (∀ r s, (r, s) ∈ hits → r ∈ dict_values (im_records ix) ∧ _matches_filters r filters = true ∧
     _cosine_similarity q (ir_vector r) = Ok s ∧
     (∀ g, ("allowed_groups", AStr g) ∈ filters → g ∈ ir_allowed_groups r)) ∧
  Sorted (λ a b, f_lt a.2 b.2 = false) hits ∧
  (0 ≤ k → length hits = Nat.min (Z.to_nat k) (length (candidates filters ix))) ∧
  (∀ r, r ∈ candidates filters ix → Z.of_nat (length (candidates filters ix)) ≤ k → ∃ s, (r, s) ∈ hits).
Proof. apply search_hits. Qed.

Lemma search_sound_witness :
  Sorted (λ a b : IndexRecord * pyfloat, f_lt a.2 b.2 = false)
    (default [] (match search [] 5 [("doc_id", AStr "doc")] (upsert [example_record "c0" "v1"] (new_in_memory "in-memory")).2 with Ok h => Some h | Exc _ => None end)).
Proof.
  destruct (search_sound [] 5 [("doc_id", AStr "doc")] (upsert [example_record "c0" "v1"] (new_in_memory "in-memory")).2
    [(example_record "c0" "v1", f_of_Z 0)] ltac:(vm_compute; reflexivity)) as (_ & H & _). exact H.
Defined.
End InMemoryIndexer.
