(* ===== verification/Vertical.v ===== *)
(** * Vertical loader and review queue (src/vestibule/vertical)

    Which scenario a document is processed under, the parking of documents for which none can
    be found, and the review of parked documents. The scenario store is an interface of the
    environment; the ledger and the review registry are shared with every other worker. *)
From S2P Require Import Prelude PyDict Types Fnmatch Identity Ledger Prog System.
#[local] Open Scope Z_scope.

Module Vertical.
Import Identity Ledger Fnmatch.

Definition VERTICAL_UNRESOLVED : string := "VERTICAL_UNRESOLVED".
Definition VERTICAL_MAPPING_INVALID : string := "VERTICAL_MAPPING_INVALID".
Definition VERTICAL_REJECTED : string := "VERTICAL_REJECTED".
Definition REVIEW_ITEM_NOT_FOUND : string := "REVIEW_ITEM_NOT_FOUND".
Definition SCENARIO_NOT_FOUND : string := "SCENARIO_NOT_FOUND".

Inductive ResolutionSource := REVIEW_ASSIGNMENT | ENVELOPE_SCENARIO_ID | ENVELOPE_VERTICAL | SOURCE_MAPPING | UNRESOLVED.

#[export] Instance resolution_source_eq_dec : EqDecision ResolutionSource.
Proof. solve_decision. Defined.

Inductive Confidence := explicit | inferred | unresolved.

Record VerticalResolution := mkResolution {
  vr_vertical : option string; vr_scenario_id : option string; vr_source : ResolutionSource; vr_confidence : Confidence; vr_reason : string }.

Record SourceMappingRule := mkRule { sm_match : string; sm_vertical : string }.

Record VerticalLoaderConfig := mkLoaderConfig {
  source_mappings : list SourceMappingRule; park_unresolved : bool; suggest_verticals : bool }.

(** ** Source mappings *)

Definition _is_glob (pattern : string) : bool := existsb (λ c, bool_decide (c ∈ ["*"; "?"; "["])) (chars pattern).

Fixpoint first_rule (p : SourceMappingRule → bool) (rules : list SourceMappingRule) : option SourceMappingRule :=
  match rules with
  | [] => None
  | r :: rest => if p r then Some r else first_rule p rest
  end.

Definition exact_rule (source : string) (r : SourceMappingRule) : bool := negb (_is_glob (sm_match r)) && bool_decide (sm_match r = source).
Definition glob_rule (source : string) (r : SourceMappingRule) : bool := _is_glob (sm_match r) && fnmatchcase source (sm_match r).

Definition _select_source_rule (source : string) (rules : list SourceMappingRule) : option SourceMappingRule :=
  match first_rule (exact_rule source) rules with
  | Some r => Some r
  | None => first_rule (glob_rule source) rules
  end.

(** [s.split(":", 1)[0]]. *)
Fixpoint before_colon (s : string) : string :=
  match s with
  | "" => ""
  | String c s' => if bool_decide (c = ":"%char) then "" else String c (before_colon s')
  end.

Definition _suggest_verticals (source : string) (rules : list SourceMappingRule) : list string :=
  dedup_first [] (map sm_vertical (filter (λ r, before_colon (sm_match r) = before_colon source) rules)).

Section loader.
Context {env : Env}.

(** ** Resolution (loader.py) *)

Definition scenario_missing {A} (key reason : string) : component A := Raise (ScenarioError key reason SCENARIO_NOT_FOUND).

(** [VerticalLoader.__init__]. *)
Fixpoint _validate_mappings (rules : list SourceMappingRule) : component unit :=
  match rules with
  | [] => Ret tt
  | r :: rest =>
    pbind (call (SByVertical (sm_vertical r))) (λ s,
    match s with
    | None => Raise (VerticalError "" ("source mapping match=" +:+ str_repr (sm_match r) +:+ " references vertical="
                       +:+ str_repr (sm_vertical r) +:+ ", which has no enabled scenario") VERTICAL_MAPPING_INVALID)
    | Some _ => _validate_mappings rest
    end)
  end.

Definition _assigned_scenario_id (doc_id : string) : component (option string) :=
  pbind (perform (LGet doc_id)) (λ row : option LedgerRow, Ret (row ≫= row_assigned_scenario_id)).

Definition resolved (s : Scenario) (src : ResolutionSource) (c : Confidence) (reason : string) : VerticalResolution :=
  mkResolution (Some (sc_vertical s)) (Some (sc_scenario_id s)) src c reason.

Definition _resolve_review_assignment (scenario_id : string) : component VerticalResolution :=
  pbind (call (SGet scenario_id)) (λ s,
  match s with
  | None => scenario_missing scenario_id ("ledger row carries assigned_scenario_id=" +:+ str_repr scenario_id
              +:+ " (from a prior ReviewQueue.assign()), but no such scenario exists")
  | Some sc => Ret (resolved sc REVIEW_ASSIGNMENT explicit ("human-assigned scenario_id=" +:+ str_repr scenario_id +:+ " via ReviewQueue.assign()"))
  end).

Definition _resolve_scenario_id (scenario_id : string) : component VerticalResolution :=
  pbind (call (SGet scenario_id)) (λ s,
  match s with
  | None => scenario_missing scenario_id ("envelope declared scenario_id=" +:+ str_repr scenario_id +:+ ", but no such scenario exists")
  | Some sc => Ret (resolved sc ENVELOPE_SCENARIO_ID explicit ("envelope declared scenario_id=" +:+ str_repr scenario_id))
  end).

Definition _resolve_vertical (vertical : string) : component VerticalResolution :=
  pbind (call (SByVertical vertical)) (λ s,
  match s with
  | None => scenario_missing vertical ("envelope declared vertical=" +:+ str_repr vertical +:+ ", but no enabled scenario exists for it")
  | Some sc => Ret (resolved sc ENVELOPE_VERTICAL explicit ("envelope declared vertical=" +:+ str_repr vertical))
  end).

Definition _match_source_mapping (config : VerticalLoaderConfig) (source : string) : component (option VerticalResolution) :=
  match _select_source_rule source (source_mappings config) with
  | None => Ret None
  | Some rule =>
    pbind (call (SByVertical (sm_vertical rule))) (λ s,
    match s with
    | None => scenario_missing (sm_vertical rule) ("source mapping match=" +:+ str_repr (sm_match rule) +:+ " matched, but vertical="
                +:+ str_repr (sm_vertical rule) +:+ " no longer has an enabled scenario")
    | Some sc => Ret (Some (resolved sc SOURCE_MAPPING inferred
                   ("source=" +:+ str_repr source +:+ " matched mapping rule match=" +:+ str_repr (sm_match rule))))
    end)
  end.

Definition _unresolved_resolution (source : string) : VerticalResolution :=
  mkResolution None None UNRESOLVED unresolved
    ("no scenario_id/vertical on the envelope and no source mapping matched source=" +:+ str_repr source).

Definition resolve (config : VerticalLoaderConfig) (envelope : ArrivalEnvelope) : component VerticalResolution :=
  pbind (_assigned_scenario_id (env_doc_id envelope)) (λ assigned,
  match assigned with
  | Some s => _resolve_review_assignment s
  | None =>
    match env_scenario_id envelope with
    | Some s => _resolve_scenario_id s
    | None =>
      match env_vertical envelope with
      | Some v => _resolve_vertical v
      | None =>
        pbind (_match_source_mapping config (env_source envelope)) (λ matched,
        match matched with
        | Some r => Ret r
        | None => Ret (_unresolved_resolution (env_source envelope))
        end)
      end
    end
  end).

Definition _park {A} (config : VerticalLoaderConfig) (envelope : ArrivalEnvelope) (resolution : VerticalResolution) : component A :=
  let error := VerticalError (env_doc_id envelope) (vr_reason resolution) VERTICAL_UNRESOLVED in
  if negb (park_unresolved config) then Raise error else
  let suggested := if suggest_verticals config then _suggest_verticals (env_source envelope) (source_mappings config) else [] in
  pbind (perform (RRecord (env_doc_id envelope) (mkParked (env_source envelope) (env_blob_path envelope) suggested))) (λ _,
  pbind (transition_or_benign (env_doc_id envelope) NEEDS_REVIEW (Some VERTICAL_UNRESOLVED) (Some (vr_reason resolution)) None) (λ _,
  Raise error)).

Definition load (config : VerticalLoaderConfig) (envelope : ArrivalEnvelope) : component (Scenario * VerticalResolution) :=
  pbind (resolve config envelope) (λ resolution,
  match vr_scenario_id resolution with
  | None => _park config envelope resolution
  | Some sid =>
    pbind (call (SGet sid)) (λ s,
    match s with
    | None => scenario_missing sid "scenario no longer exists (concurrent delete between resolve() and load())"
    | Some sc => Ret (sc, resolution)
    end)
  end).

(** ** The review queue (review_queue.py) *)

Record ReviewItem := mkReviewItem {
  ri_doc_id : string; ri_source : string; ri_blob_path : string; ri_reason : string; ri_parked_at : Z; ri_suggested_verticals : list string }.

Definition review_item (row : LedgerRow) (m : option _ParkedMetadata) : ReviewItem :=
  mkReviewItem (row_doc_id row) (match m with Some p => pm_source p | None => "" end) (match m with Some p => pm_blob_path p | None => "" end)
    (py_or (row_last_error_message row) "") (row_updated_at row) (match m with Some p => pm_suggested_verticals p | None => [] end).

Definition list_pending (limit : Z) : component (list ReviewItem) :=
  pbind (perform (LList NEEDS_REVIEW limit)) (λ rows,
  pfold (λ items row, pbind (perform (RGet (row_doc_id row))) (λ m, Ret (items ++ [review_item row m]))) [] rows).

Definition _require_needs_review (doc_id caller : string) : component unit :=
  pbind (perform (LGet doc_id)) (λ current,
  let error := VerticalError doc_id (caller +:+ "() called for a doc_id not currently in needs_review") REVIEW_ITEM_NOT_FOUND in
  match current with
  | Some row => if decide (row_status row = NEEDS_REVIEW) then Ret tt else Raise error
  | None => Raise error
  end).

Definition assign (doc_id scenario_id : string) : component unit :=
  pbind (call (SGet scenario_id)) (λ s,
  match s with
  | None => scenario_missing scenario_id ("assign() referenced scenario_id=" +:+ str_repr scenario_id +:+ ", which does not exist")
  | Some _ =>
    pbind (_require_needs_review doc_id "assign") (λ _,
    pbind (transition_or_benign doc_id PENDING None None (Some scenario_id)) (λ _,
    perform (RDiscard doc_id)))
  end).

Definition reject (doc_id reason : string) : component unit :=
  pbind (_require_needs_review doc_id "reject") (λ _,
  pbind (transition_or_benign doc_id FAILED (Some VERTICAL_REJECTED) (Some reason) None) (λ _,
  perform (RDiscard doc_id))).

(** ** Specification of the precedence *)

(** The signals a resolution may rest on, in order of precedence. *)
Inductive signal :=
| SigAssigned (scenario_id : string)
| SigScenario (scenario_id : string)
| SigVertical (vertical : string)
| SigRule (rule : SourceMappingRule)
| SigNone.

Definition first_signal (row : option LedgerRow) (config : VerticalLoaderConfig) (envelope : ArrivalEnvelope) : signal :=
  match row ≫= row_assigned_scenario_id, env_scenario_id envelope, env_vertical envelope, _select_source_rule (env_source envelope) (source_mappings config) with
  | Some s, _, _, _ => SigAssigned s
  | None, Some s, _, _ => SigScenario s
  | None, None, Some v, _ => SigVertical v
  | None, None, None, Some r => SigRule r
  | None, None, None, None => SigNone
  end.

(** What the store says about a signal, and the key an error about it names. *)
Definition signal_lookup (g : signal) (st : scenario_state) : result exn (option Scenario) * scenario_state :=
  match g with
  | SigAssigned s | SigScenario s => ss_get s st
  | SigVertical v => ss_get_by_vertical v st
  | SigRule r => ss_get_by_vertical (sm_vertical r) st
  | SigNone => (Ok None, st)
  end.

Definition signal_key (g : signal) : string :=
  match g with SigAssigned s | SigScenario s => s | SigVertical v => v | SigRule r => sm_vertical r | SigNone => "" end.

Definition signal_source (g : signal) : ResolutionSource :=
  match g with
  | SigAssigned _ => REVIEW_ASSIGNMENT | SigScenario _ => ENVELOPE_SCENARIO_ID | SigVertical _ => ENVELOPE_VERTICAL
  | SigRule _ => SOURCE_MAPPING | SigNone => UNRESOLVED
  end.

(** [resolve] follows the first signal, and only that one. *)
Lemma resolve_run config envelope w :
  let g := first_signal (get (env_doc_id envelope) (w_ledger w)) config envelope in
  match g with
  | SigNone => run handle (resolve config envelope) w = (Ok (_unresolved_resolution (env_source envelope)), w)
  | _ =>
    let w' := set_scenarios (signal_lookup g (w_scenarios w)).2 w in
    match (signal_lookup g (w_scenarios w)).1 with
    | Ok (Some sc) => ∃ c reason, run handle (resolve config envelope) w = (Ok (resolved sc (signal_source g) c reason), w')
    | Ok None => ∃ reason, run handle (resolve config envelope) w = (Exc (ScenarioError (signal_key g) reason SCENARIO_NOT_FOUND), w')
    | Exc x => run handle (resolve config envelope) w = (Exc x, w')
    end
  end.
Proof.
  unfold first_signal, resolve, _assigned_scenario_id. rewrite run_bind, run_bind, run_get. cbn [run].
  destruct (get _ _ ≫= _) as [s|]; [|destruct (env_scenario_id envelope) as [s|]; [|destruct (env_vertical envelope) as [v|]]].
  1-3: unfold _resolve_review_assignment, _resolve_scenario_id, _resolve_vertical; rewrite run_bind, run_call; simpl handle; unfold signal_lookup;
    match goal with
    | |- context [ss_get ?k ?st] => destruct (ss_get k st) as [[[sc|]|x] st']
    | |- context [ss_get_by_vertical ?k ?st] => destruct (ss_get_by_vertical k st) as [[[sc|]|x] st']
    end; cbn [fst snd]; first [by eexists _, _|by eexists|done].
  unfold _match_source_mapping. destruct (_select_source_rule _ _) as [r|]; [|done].
  rewrite run_bind, run_bind, run_call. simpl handle. unfold signal_lookup.
  destruct (ss_get_by_vertical _ (w_scenarios w)) as [[[sc|]|x] st]; cbn [fst snd]; first [by eexists _, _|by eexists|done].
Qed.

Lemma run_require_ok d caller w cur :
  dict_get d (w_ledger w) = Some cur → row_status cur = NEEDS_REVIEW → run handle (_require_needs_review d caller) w = (Ok tt, w).
Proof. intros Hc Hs. unfold _require_needs_review. rewrite run_bind, run_get. unfold get. rewrite Hc. by rewrite decide_True. Qed.

Lemma run_require_no d caller w :
  (∀ cur, dict_get d (w_ledger w) = Some cur → row_status cur ≠ NEEDS_REVIEW) →
  run handle (_require_needs_review d caller) w =
  (Exc (VerticalError d (caller +:+ "() called for a doc_id not currently in needs_review") REVIEW_ITEM_NOT_FOUND), w).
Proof.
  intros Hno. unfold _require_needs_review. rewrite run_bind, run_get. unfold get. destruct (dict_get d (w_ledger w)) as [cur|]; [|done].
  by rewrite decide_False by auto.
Qed.

(** The transitions the loader and the queue ever request. *)
Lemma load_targets config envelope : all_ops (targets_in [NEEDS_REVIEW]) (load config envelope).
Proof.
  unfold load, resolve, _assigned_scenario_id, _resolve_review_assignment, _resolve_scenario_id, _resolve_vertical, _match_source_mapping, _park.
  repeat (all_ops_tac; try ((apply transition_or_benign_targets; set_solver) || done)).
Qed.

Lemma reject_targets d reason : all_ops (targets_in [FAILED]) (reject d reason).
Proof. unfold reject, _require_needs_review. repeat (all_ops_tac; try ((apply transition_or_benign_targets; set_solver) || done)). Qed.

Lemma assign_targets d s : all_ops (targets_in [PENDING]) (assign d s).
Proof. unfold assign, _require_needs_review. repeat (all_ops_tac; try ((apply transition_or_benign_targets; set_solver) || done)). Qed.
End loader.

Lemma first_rule_spec p rules :
  match first_rule p rules with
  | Some r => p r = true ∧ ∃ pre post, rules = pre ++ r :: post ∧ Forall (λ x, p x = false) pre
  | None => Forall (λ x, p x = false) rules
  end.
Proof.
  induction rules as [|r rules IH]; simpl; [done|]. destruct (p r) eqn:E; [split; [done|by exists [], rules]|].
  destruct (first_rule p rules); [|by constructor]. destruct IH as (? & pre & post & -> & ?). split; [done|].
  exists (r :: pre), post. by repeat constructor.
Qed.

(** ** Properties *)

(** [_select_source_rule] picks the first exact rule for the source if there is one, and
    otherwise the first glob rule that matches; it finds nothing only when no rule applies. A
    rule written as a literal and a star applies to exactly the sources that start with the
    literal. *)
Theorem source_rule_selection source rules :
  match _select_source_rule source rules with
  | Some r =>
    ∃ pre post, rules = pre ++ r :: post ∧
      ((exact_rule source r = true ∧ sm_match r = source ∧ Forall (λ x, exact_rule source x = false) pre) ∨
       (Forall (λ x, exact_rule source x = false) rules ∧ glob_rule source r = true ∧ Forall (λ x, glob_rule source x = false) pre))
  | None => Forall (λ x, exact_rule source x = false ∧ glob_rule source x = false) rules
  end ∧
  ∀ r lit, chars (sm_match r) = lit ++ ["*"] → Forall (λ c, plain c = true) lit →
    glob_rule source r = true ↔ ∃ rest, chars source = lit ++ rest.
Proof.
  split.
  - unfold _select_source_rule. pose proof (first_rule_spec (exact_rule source) rules) as He.
    destruct (first_rule (exact_rule source) rules) as [r|].
    + destruct He as (Hr & pre & post & -> & Hpre). exists pre, post. split; [done|]. left. split_and!; try done.
      unfold exact_rule in Hr. apply andb_prop in Hr as [_ Hr]. by case_bool_decide.
    + pose proof (first_rule_spec (glob_rule source) rules) as Hg. destruct (first_rule (glob_rule source) rules) as [r|].
      * destruct Hg as (Hr & pre & post & -> & Hpre). exists pre, post. split; [done|]. by right.
      * rewrite Forall_forall in *. intros x Hx. eauto.
  - intros r lit Hc Hl. unfold glob_rule, _is_glob. rewrite <- (fnmatch_prefix source (sm_match r) lit Hc Hl).
    assert (existsb (λ c, bool_decide (c ∈ ["*"; "?"; "["])) (chars (sm_match r)) = true) as ->; [|done].
    rewrite Hc, existsb_app. apply orb_true_iff. right. done.
Qed.

(** C36: the precedence of [resolve]: a review assignment on the ledger row wins over the
    envelope's scenario, that over its vertical, that over the source mappings. The first
    signal decides alone: if the store does not know what it names, the call raises
    [SCENARIO_NOT_FOUND] and never falls through to a later signal; only without any signal is
    the resolution unresolved. Resolving changes neither the ledger nor the registry. *)
Theorem resolve_precedence {env : Env} config envelope w :
  let g := first_signal (get (env_doc_id envelope) (w_ledger w)) config envelope in
  w_ledger (run handle (resolve config envelope) w).2 = w_ledger w ∧
  w_review (run handle (resolve config envelope) w).2 = w_review w ∧
  match (run handle (resolve config envelope) w).1 with
  | Ok r =>
    vr_source r = signal_source g ∧
    (vr_scenario_id r = None ↔ g = SigNone) ∧
    (g ≠ SigNone → ∃ sc, (signal_lookup g (w_scenarios w)).1 = Ok (Some sc) ∧
       vr_scenario_id r = Some (sc_scenario_id sc) ∧ vr_vertical r = Some (sc_vertical sc))
  | Exc x => g ≠ SigNone ∧
    ((∃ reason, x = ScenarioError (signal_key g) reason SCENARIO_NOT_FOUND ∧ (signal_lookup g (w_scenarios w)).1 = Ok None) ∨
     (signal_lookup g (w_scenarios w)).1 = Exc x)
  end.
Proof.
  intros g. pose proof (resolve_run config envelope w) as H. fold g in H. cbv zeta in H. destruct g as [s|s|v|r|] eqn:Eg.
  5:{ rewrite H. simpl. split_and!; [done..|]. done. }
  all: destruct (signal_lookup _ (w_scenarios w)) as [[[sc|]|x] st]; cbn [fst snd] in H;
    [destruct H as (c & reason & ->)|destruct H as (reason & ->)|rewrite H]; cbn [fst snd];
    (split; [done|]; split; [done|]); first [by split; [|split]; [done|split; done|intros _; exists sc]|split; [done|]; eauto].
Qed.

(** [load] of a pending document without any signal parks it: the row becomes
    [NEEDS_REVIEW] with [VERTICAL_UNRESOLVED], the review registry holds its source, path and
    suggestions, and the call raises that error. With parking disabled it only raises. When
    the scenario is found, it is returned and neither the ledger nor the registry changes. *)
Theorem load_outcomes {env : Env} config envelope w cur :
  let d := env_doc_id envelope in
  let reason := vr_reason (_unresolved_resolution (env_source envelope)) in
  ledger_ok (w_ledger w) → dict_get d (w_ledger w) = Some cur → row_status cur = PENDING →
  match first_signal (Some cur) config envelope with
  | SigNone =>
    ∃ w', run handle (load config envelope) w = (Exc (VerticalError d reason VERTICAL_UNRESOLVED), w') ∧
      if park_unresolved config then
        (∃ row, dict_get d (w_ledger w') = Some row ∧ row_status row = NEEDS_REVIEW ∧
                row_last_error_code row = Some VERTICAL_UNRESOLVED ∧ row_attempts row = 1) ∧
        (∀ d', d' ≠ d → dict_get d' (w_ledger w') = dict_get d' (w_ledger w)) ∧
        dict_get d (w_review w') = Some (mkParked (env_source envelope) (env_blob_path envelope)
          (if suggest_verticals config then _suggest_verticals (env_source envelope) (source_mappings config) else []))
      else w' = w
  | _ =>
    w_ledger (run handle (load config envelope) w).2 = w_ledger w ∧ w_review (run handle (load config envelope) w).2 = w_review w ∧
    ∀ sc r, (run handle (load config envelope) w).1 = Ok (sc, r) → ∃ sid, vr_scenario_id r = Some sid
  end.
Proof.
  intros d reason Hok Hc Hs. pose proof (proj2 Hok _ _ Hc) as Hrow. pose proof Hrow as (_ & Hhex & _).
  pose proof (resolve_run config envelope w) as H. cbv zeta in H. unfold get in H. fold d in H. rewrite Hc in H.
  unfold load. rewrite run_bind. destruct (first_signal (Some cur) config envelope) as [s|s|v|r|].
  5:{ rewrite H. cbn [vr_scenario_id _unresolved_resolution]. fold d. unfold _park. cbv zeta. fold d. fold reason.
    destruct (park_unresolved config); cbn [negb]; [|by eexists].
    rewrite run_bind, run_perform. cbn [handle fst snd]. set (w1 := set_review _ w). rewrite run_bind.
    rewrite (run_transition_or_benign_ok d NEEDS_REVIEW (Some VERTICAL_UNRESOLVED) (Some reason) None w1 cur Hhex Hc Hrow);
      [|rewrite Hs; constructor|naive_solver].
    eexists. split; [done|]. split_and!.
    - eexists. split; [apply dict_get_set_eq|]. destruct (next_row_forward (w_now w1) d NEEDS_REVIEW NEEDS_REVIEW (Some VERTICAL_UNRESOLVED) (Some reason) None cur)
        as (? & ? & ?); rewrite ?Hs; done.
    - intros d' Hd'. by apply dict_get_set_ne.
    - apply dict_get_set_eq. }
  all: destruct (signal_lookup _ (w_scenarios w)) as [[[sc|]|x] st]; cbn [fst snd] in H;
    [destruct H as (c & rs & ->)|destruct H as (rs & ->)|rewrite H]; [|done..]; cbn [vr_scenario_id resolved];
    rewrite run_bind, run_call; simpl handle; destruct (ss_get _ st) as [[[sc'|]|x] st']; simpl; split_and!; try done; naive_solver.
Qed.

Definition no_rules : VerticalLoaderConfig := mkLoaderConfig [] true true.
Definition unsorted_envelope : ArrivalEnvelope := mkEnvelope example_doc "blob:hr" "a.pdf" None None [] INTERNAL "" 0.

Lemma load_outcomes_witness :
  ∃ w', run (@handle unit_env) (@load unit_env no_rules unsorted_envelope) (unit_world example_rows) =
    (Exc (VerticalError example_doc (vr_reason (@_unresolved_resolution unit_env "blob:hr")) VERTICAL_UNRESOLVED), w') ∧
    status_of example_doc (w_ledger w') = Some NEEDS_REVIEW.
Proof.
  destruct (@load_outcomes unit_env no_rules unsorted_envelope (unit_world example_rows)
    (mkRow example_doc PENDING PENDING 0 None None "1" 1 1 None) example_rows_ok) as (w' & Hrun & (row & Hrow & Hst & _) & _).
  - by vm_compute.
  - reflexivity.
  - exists w'. split; [exact Hrun|]. unfold status_of. cbn [env_doc_id unsorted_envelope] in Hrow. rewrite Hrow. simpl. by rewrite Hst.
Defined.

(** C38: the review round trip. Assigning a scenario the store knows to a parked document makes
    it [PENDING] again with the assignment on its row and forgets its registry entry, and the
    next [load] returns that scenario, whatever the envelope and the mappings say. *)
Theorem review_roundtrip {env : Env} config envelope s sc w cur :
  let d := env_doc_id envelope in
  ledger_ok (w_ledger w) → dict_wf (w_review w) → dict_get d (w_ledger w) = Some cur → row_status cur = NEEDS_REVIEW →
  (∀ st, ss_get s st = (Ok (Some sc), st)) → sc_scenario_id sc = s →
  ∃ w1 w2 r, run handle (assign d s) w = (Ok tt, w1) ∧
    status_of d (w_ledger w1) = Some PENDING ∧ dict_get d (w_review w1) = None ∧
    (get d (w_ledger w1) ≫= row_assigned_scenario_id) = Some s ∧
    run handle (load config envelope) w1 = (Ok (sc, r), w2) ∧ vr_source r = REVIEW_ASSIGNMENT.
Proof.
  intros d Hok Hwf Hc Hs Hstore Hid. pose proof (proj2 Hok _ _ Hc) as Hrow. pose proof Hrow as (_ & Hhex & _).
  assert (Hst : ∀ w0 : world, set_scenarios (w_scenarios w0) w0 = w0) by (by intros []).
  assert (Hget : ∀ w0, run handle (call (SGet s)) w0 = (Ok (Some sc), w0)).
  { intros w0. rewrite run_call. simpl. by rewrite Hstore, Hst. }
  unfold assign. rewrite run_bind, Hget. rewrite run_bind, (run_require_ok d "assign" w cur Hc Hs). rewrite run_bind.
  rewrite (run_transition_or_benign_ok d PENDING None None (Some s) w cur Hhex Hc Hrow); [|rewrite Hs; constructor|naive_solver].
  rewrite run_perform. cbn [handle fst snd]. set (row := next_row _ _ _ _ _ _ _ _). set (w1 := set_review _ _).
  assert (Hrow1 : get d (w_ledger w1) = Some row) by apply dict_get_set_eq.
  exists w1. unfold load, resolve, _assigned_scenario_id, _resolve_review_assignment.
  do 2 eexists. split; [done|]. split; [unfold status_of; fold (get d (w_ledger w1)); by rewrite Hrow1|].
  split; [subst w1; simpl; unfold review_discard; rewrite dict_get_pop by done; by rewrite decide_True|]. split; [by rewrite Hrow1|].
  rewrite !run_bind, run_get. fold d. rewrite Hrow1. cbn [run mbind option_bind row_assigned_scenario_id]. simpl (row_assigned_scenario_id row).
  cbn [_next_assigned_scenario_id]. rewrite run_bind, Hget. cbn [run]. cbn [vr_scenario_id resolved]. rewrite Hid. rewrite run_bind, Hget. done.
Qed.

(** An environment whose store knows one scenario, and a parked document. *)
Definition hr_scenario : Scenario :=
  mkScenario "hr-1" "hr" "1" "hr-index" (mkChunkerSettings 512 64 40 800) (mkEmbedderSettings "fastembed" "nomic" None)
    (mkIndexerSettings "cosine" 768 4 400 500) "envelope" "internal" true 0 0 None.

Definition review_env : Env := {|
  clock := @clock unit_env; str_repr := @str_repr unit_env; meta_repr := @meta_repr unit_env;
  index_state := unit; ix_upsert := @ix_upsert unit_env; ix_delete_by_doc_id := @ix_delete_by_doc_id unit_env;
  ix_get_doc_version := @ix_get_doc_version unit_env; ix_index_name := "unit"; ix_max_batch_size := 10;
  embed_state := unit; ea_embed_batch := @ea_embed_batch unit_env; ea_model_name := "unit-model"; ea_max_batch_size := 10;
  ea_max_input_tokens := 100; ea_supports_mrl := true; ea_document_prefix := None;
  scenario_state := unit;
  ss_get s st := (Ok (if decide (s = "hr-1") then Some hr_scenario else None), st);
  ss_get_by_vertical v st := (Ok (if decide (v = "hr") then Some hr_scenario else None), st);
|}.

Definition parked_row : LedgerRow :=
  mkRow example_doc NEEDS_REVIEW NEEDS_REVIEW 1 (Some VERTICAL_UNRESOLVED) (Some "no signal") "1" 1 5 None.

Definition parked_world : @world review_env :=
  @mkWorld review_env [(example_doc, parked_row)] [(example_doc, mkParked "blob:hr" "a.pdf" [])] tt tt tt 100.

Lemma parked_rows_ok : ledger_ok [(example_doc, parked_row)].
Proof. apply (ledger_ok_set example_doc _ []); [|apply ledger_ok_empty]. split_and!; [done|apply example_doc_ok|done..]. Qed.

Lemma review_roundtrip_witness :
  ∃ w1 w2 r, run (@handle review_env) (@assign review_env example_doc "hr-1") parked_world = (Ok tt, w1) ∧
    run (@handle review_env) (@load review_env no_rules unsorted_envelope) w1 = (Ok (hr_scenario, r), w2) ∧ vr_source r = REVIEW_ASSIGNMENT.
Proof.
  destruct (@review_roundtrip review_env no_rules unsorted_envelope "hr-1" hr_scenario parked_world parked_row parked_rows_ok)
    as (w1 & w2 & r & H1 & _ & _ & _ & H2 & H3).
  - repeat constructor; set_solver.
  - by vm_compute.
  - reflexivity.
  - intros st. reflexivity.
  - reflexivity.
  - exists w1, w2, r. split; [exact H1|]. split; [exact H2|exact H3].
Defined.

(** A rejection can be undone by a concurrent assignment. There is an interleaving of
    [assign] and [reject] of one parked document in which both return normally, the rejection
    is written, and the document nevertheless ends [PENDING], on its way through the pipeline:
    the assignment's transition from [FAILED] is legal for the ledger. *)
Theorem assign_undoes_reject :
  ∃ mid pool' w',
    rtc (sched_step (@handle review_env)) ([@assign review_env example_doc "hr-1"; reject example_doc "not ours"], parked_world) mid ∧
    mid.1 !! 1%nat = Some (Ret tt) ∧ status_of example_doc (w_ledger mid.2) = Some FAILED ∧
    rtc (sched_step (@handle review_env)) mid (pool', w') ∧
    pool' !! 0%nat = Some (Ret tt) ∧ pool' !! 1%nat = Some (Ret tt) ∧ status_of example_doc (w_ledger w') = Some PENDING.
Proof.
  set (c := ([@assign review_env example_doc "hr-1"; reject example_doc "not ours"], parked_world)).
  set (mid := sched_exec (@handle review_env) [0; 0; 1; 1; 1]%nat c).
  exists mid, (sched_exec (@handle review_env) [0; 0]%nat mid).1, (sched_exec (@handle review_env) [0; 0]%nat mid).2.
  split; [apply sched_exec_rtc|]. split; [by vm_compute|]. split; [by vm_compute|].
  split; [rewrite <- surjective_pairing; apply sched_exec_rtc|]. split_and!; by vm_compute.
Qed.
End Vertical.
