(* ===== verification/Pipeline.v ===== *)
(** * The pipeline as a whole

    Stage calls of any number of workers, interleaved in any order on the shared ledger, index
    and registry; and one document taken through all stages, the way examples/quickstart.py
    composes them. *)
From S2P Require Import Prelude PyDict Types Identity Ledger Prog System Analyzer Chunker Embedder Indexer InMemoryIndexer Vertical.
#[local] Open Scope Z_scope.

Module Pipeline.
Import Identity Ledger.

(** ** Concurrent workers *)

(** One call a worker of the pipeline makes: a stage on some document with some
    configuration, the resolution of a document, or a reviewer's rejection. *)
Inductive worker {aenv : Analyzer.AnalyzerEnv} :=
| WAnalyze (config : Analyzer.AnalyzerConfig) (registry : list (DetectedType * Analyzer.ParserAdapter)) (envelope : ArrivalEnvelope) (reader : Analyzer.BytesReader)
| WChunk (ch : Chunker.Chunker) (envelope : ArrivalEnvelope) (elements : list Element)
| WEmbed (config : Embedder.EmbedderConfig) (envelope : ArrivalEnvelope) (chunks : list Chunk)
| WIndex (config : Indexer.IndexerConfig) (envelope : ArrivalEnvelope) (chunks : list EmbeddedChunk)
| WLoad (config : Vertical.VerticalLoaderConfig) (envelope : ArrivalEnvelope)
| WReject (doc_id reason : string).

Definition worker_prog {env : Env} {aenv : Analyzer.AnalyzerEnv} (x : worker) : component unit :=
  match x with
  | WAnalyze config registry envelope reader => forget (Analyzer.analyze config registry envelope reader)
  | WChunk ch envelope elements => forget (Chunker.chunk ch envelope elements)
  | WEmbed config envelope chunks => forget (Embedder.embed config envelope chunks)
  | WIndex config envelope chunks => forget (Indexer.index config envelope chunks)
  | WLoad config envelope => forget (Vertical.load config envelope)
  | WReject d reason => Vertical.reject d reason
  end.

(** How far a status is along the pipeline. *)
Definition rank (s : Status) : nat :=
  match s with
  | PENDING => 0 | NEEDS_REVIEW => 1 | ANALYZING => 1 | CHUNKING => 2 | EMBEDDING => 3 | INDEXING => 4
  | INDEXED => 5 | FAILED => 5 | ARCHIVED => 6
  end%nat.

Definition stage_targets : list Status := [ANALYZING; CHUNKING; EMBEDDING; INDEXING; INDEXED; FAILED; NEEDS_REVIEW].

Lemma worker_targets {env : Env} {aenv : Analyzer.AnalyzerEnv} (x : worker) : all_ops (targets_in stage_targets) (worker_prog x).
Proof.
  assert (Hmono : ∀ A ts (p : component A), ts ⊆ stage_targets → all_ops (targets_in ts) p → all_ops (targets_in stage_targets) p).
  { intros A ts p Hsub. apply all_ops_mono. intros X []; simpl; auto. }
  destruct x; unfold worker_prog; try apply all_ops_forget; (eapply Hmono; [|first [apply Analyzer.analyze_targets|apply Chunker.chunk_targets|apply Embedder.embed_targets
    |apply Indexer.index_targets|apply Vertical.load_targets|apply Vertical.reject_targets]]); unfold stage_targets; set_solver.
Qed.

(** What a document's row may become without an operator's intervention. *)
Definition row_advances (cur cur' : LedgerRow) : Prop :=
  (rank (row_status cur) ≤ rank (row_status cur'))%nat ∧ (row_status cur ∈ [FAILED; INDEXED; ARCHIVED] → cur' = cur).

Definition advances {env : Env} (w w' : world) : Prop :=
  ∀ d cur, dict_get d (w_ledger w) = Some cur → ∃ cur', dict_get d (w_ledger w') = Some cur' ∧ row_advances cur cur'.

Lemma advances_trans {env : Env} w1 w2 w3 : advances w1 w2 → advances w2 w3 → advances w1 w3.
Proof.
  intros H12 H23 d cur Hc. destruct (H12 d cur Hc) as (c2 & Hc2 & Hr & Ht). destruct (H23 d c2 Hc2) as (c3 & Hc3 & Hr' & Ht').
  exists c3. split; [done|]. split; [lia|]. intros Hs. rewrite (Ht Hs) in Ht'. auto.
Qed.

(** An edge that no operator causes. *)
Lemma edge_rank s t : edge s t → t ∈ stage_targets → (rank s ≤ rank t)%nat ∧ s ∉ [FAILED; INDEXED; ARCHIVED].
Proof.
  unfold stage_targets. intros He Ht. destruct He as [| | | | |s Hs| | | | |s Hs]; simpl; try (split; [lia|set_solver]); try set_solver.
  - repeat (apply elem_of_cons in Hs as [->|Hs]; [split; [simpl; lia|set_solver]|]). by apply elem_of_nil in Hs.
Qed.

Lemma handle_advances {env : Env} X (e : sysE X) w : targets_in stage_targets X e → advances w (handle X e w).2.
Proof.
  intros Ht d cur Hc. rewrite handle_ledger.
  assert (Hsame : ∃ cur', Some cur = Some cur' ∧ row_advances cur cur') by (exists cur; split; [done|split; [lia|done]]).
  destruct e as [d0 s|d0 t g ec em a| | | | | | | | | | | |]; cbn [call_op]; try (rewrite Hc; exact Hsame); cbn [apply_op].
  - destruct (create _ _ _ _) as [[r rows]|] eqn:Ec; [|rewrite Hc; exact Hsame].
    apply create_ok_iff in Ec as [_ Ec]. destruct (dict_get d0 (w_ledger w)) eqn:Ed; destruct Ec as [-> ->]; [rewrite Hc; exact Hsame|].
    rewrite dict_get_set_ne, Hc by congruence. exact Hsame.
  - simpl in Ht. destruct (transition _ _ _ _ _ _ _ _) as [[r rows]|] eqn:Et; [|rewrite Hc; exact Hsame].
    apply transition_ok_iff in Et as (_ & c & Hc' & -> & Hl%legal_edge & _ & _ & -> & ->).
    rewrite dict_get_set. case_decide as Hd; [|rewrite Hc; exact Hsame]. subst d0. assert (c = cur) as -> by congruence.
    eexists. split; [done|]. destruct (edge_rank _ _ Hl Ht) as [Hr Hn]. by split.
Qed.

(** ** One document through all stages *)

(** The calls of [main] in examples/quickstart.py, from the registration in the ledger to the
    indexer. *)
Definition ingest {env : Env} {aenv : Analyzer.AnalyzerEnv} (acfg : Analyzer.AnalyzerConfig)
    (registry : list (DetectedType * Analyzer.ParserAdapter)) (ch : Chunker.Chunker) (ecfg : Embedder.EmbedderConfig)
    (icfg : Indexer.IndexerConfig) (config_version : string) (envelope : ArrivalEnvelope) (reader : Analyzer.BytesReader)
    : component IndexResult :=
  pbind (call (LCreate (env_doc_id envelope) (mkSummary config_version))) (λ _,
  pbind (Analyzer.analyze acfg registry envelope reader) (λ elements,
  pbind (Chunker.chunk ch envelope elements) (λ chunks,
  pbind (Embedder.embed ecfg envelope chunks) (λ embedded,
  Indexer.index icfg envelope embedded)))).

(** The document is in the status [s] with its config version, in a well-formed ledger. *)
Definition in_stage {env : Env} (d : string) (s : Status) (cv : string) (w : world) : Prop :=
  ledger_ok (w_ledger w) ∧ ∃ row, dict_get d (w_ledger w) = Some row ∧ row_status row = s ∧ row_config_version row = cv.

(** A program that ends with writing the next row of the document. *)
Lemma in_stage_next {env : Env} {A} (p : component A) d s cv x now cur w w1 :
  ledger_ok (w_ledger w) →
  run handle p w = (Ok x, set_ledger (dict_set d (next_row now d s s None None None cur) (w_ledger w1)) w1) → row_config_version cur = cv →
  ∃ w', run handle p w = (Ok x, w') ∧ in_stage d s cv w' ∧ w_index w' = w_index w1.
Proof.
  intros Hok Hrun Hcv. pose proof (run_ledger_ok p w Hok) as Hok'. rewrite Hrun in Hok'. eexists. split; [exact Hrun|].
  split; [|done]. split; [done|]. eexists. split; [apply dict_get_set_eq|]. done.
Qed.

Lemma analyze_stage {env : Env} {aenv : Analyzer.AnalyzerEnv} acfg registry envelope reader elements cv w :
  in_stage (env_doc_id envelope) PENDING cv w → Analyzer.analysis_of acfg registry envelope reader = Analyzer.Parsed elements →
  ∃ w', run handle (Analyzer.analyze acfg registry envelope reader) w = (Ok elements, w') ∧
    in_stage (env_doc_id envelope) CHUNKING cv w' ∧ w_index w' = w_index w.
Proof.
  intros (Hok & cur & Hc & Hs & Hcv) Ha.
  pose proof (Analyzer.analyze_parsed acfg registry envelope reader w cur elements Hok Hc ltac:(rewrite Hs; set_solver) Ha) as Hrun.
  destruct (in_stage_next _ _ _ cv _ _ _ _ _ Hok Hrun Hcv) as (w' & ? & ? & Hi). by exists w'.
Qed.

Lemma chunk_stage {env : Env} ch envelope elements chunks cv w :
  in_stage (env_doc_id envelope) CHUNKING cv w → elements ≠ [] → Chunker._assemble_chunks ch (env_doc_id envelope) elements = Ok chunks →
  ∃ w', run handle (Chunker.chunk ch envelope elements) w = (Ok chunks, w') ∧
    in_stage (env_doc_id envelope) EMBEDDING cv w' ∧ w_index w' = w_index w.
Proof.
  intros (Hok & cur & Hc & Hs & Hcv) Hne Ha.
  pose proof (Chunker.chunk_success ch envelope elements chunks w cur Hok Hc Hs Hne Ha) as Hrun.
  exact (in_stage_next _ _ _ cv _ _ _ _ _ Hok Hrun Hcv).
Qed.

Lemma embed_stage {env : Env} config envelope chunks f cv w :
  in_stage (env_doc_id envelope) EMBEDDING cv w → Embedder.embed_refusal chunks = None →
  (∀ ts st, ∃ st', ea_embed_batch ts st = (Ok (map f ts), st')) → 0 < Embedder._effective_batch_size config →
  ∃ w', run handle (Embedder.embed config envelope chunks) w =
      (Ok (map (λ c, Embedder._build_embedded_chunk config c (f (Embedder._apply_prefix (ck_text c) ea_document_prefix))) chunks), w') ∧
    in_stage (env_doc_id envelope) INDEXING cv w' ∧ w_index w' = w_index w.
Proof.
  intros (Hok & cur & Hc & Hs & Hcv) Href Hf Hb. destruct (Embedder.embed_all_pointwise config chunks w f Hf Hb) as [st Hall].
  destruct (Embedder.embed_success config envelope chunks w cur _ _ Hok Hc Hs Href Hall) as [_ Hrun].
  destruct (in_stage_next _ _ _ cv _ _ _ _ _ Hok Hrun Hcv) as (w' & ? & ? & Hi). by exists w'.
Qed.

Lemma create_stage {env : Env} d cv w :
  ledger_ok (w_ledger w) → hex_re 64 d = true → dict_get d (w_ledger w) = None →
  ∃ row w', run handle (call (LCreate d (mkSummary cv))) w = (Ok row, w') ∧ in_stage d PENDING cv w' ∧ w_index w' = w_index w.
Proof.
  intros Hok Hhex Hnone. set (r0 := mkRow d PENDING PENDING 0 None None cv (w_now w) (w_now w) None).
  assert (Hrun : run handle (call (LCreate d (mkSummary cv))) w = (Ok r0, set_ledger (dict_set d r0 (w_ledger w)) w)).
  { rewrite run_call. simpl handle. assert (create (w_now w) d (mkSummary cv) (w_ledger w) = Ok (r0, dict_set d r0 (w_ledger w))) as ->; [|done].
    apply create_ok_iff. by rewrite Hnone. }
  pose proof (run_ledger_ok (call (LCreate d (mkSummary cv))) w Hok) as Hok'. rewrite Hrun in Hok'.
  eexists _, _. split; [exact Hrun|]. split; [|done]. split; [done|]. exists r0. split; [apply dict_get_set_eq|done].
Qed.

(** The record of an embedded chunk. *)
Definition record_of (envelope : ArrivalEnvelope) (cv : string) (e : EmbeddedChunk) (r : IndexRecord) : Prop :=
  ir_chunk_id r = ck_chunk_id (em_chunk e) ∧ ir_text r = ck_text (em_chunk e) ∧ ir_vector r = em_vector e ∧
  ir_doc_id r = env_doc_id envelope ∧ ir_allowed_groups r = env_allowed_groups envelope ∧
  ir_trust_tier r = trust_tier_value (env_trust_tier envelope) ∧ ir_config_version r = cv.

Definition chunk_ids (es : list EmbeddedChunk) : list string := map (λ e, ck_chunk_id (em_chunk e)) es.

(** Records can be built from the chunks the chunker assembles. *)
Lemma build_records_ok {env : Env} envelope cv at_ es :
  Forall (λ e, Chunker.sectioned (ck_metadata (em_chunk e))) es →
  ∃ records, rmap (Indexer.build_record (env_doc_id envelope) envelope cv at_) es = Ok records ∧
    Forall2 (record_of envelope cv) es records.
Proof.
  induction 1 as [|e es [o Ho] _ (records & IH & Hall)]; [by exists []|]. simpl. unfold Indexer.build_record at 1.
  assert (Indexer.section_path_of (ck_metadata (em_chunk e)) = Ok o) as ->.
  { unfold Indexer.section_path_of. rewrite Ho. by destruct o. }
  simpl. rewrite IH. simpl. eexists. split; [done|]. by constructor.
Qed.

Lemma records_ids envelope cv es records : Forall2 (record_of envelope cv) es records → map ir_chunk_id records = chunk_ids es.
Proof. unfold chunk_ids. induction 1 as [|e r es rs (He & _) _ IH]; simpl; congruence. Qed.

(** The embedded chunks of assembled chunks are those chunks, with their sections. *)
Lemma embedded_sectioned {env : Env} {cenv : Chunker.ChunkerEnv} ccfg tc ecfg d elements chunks (v : Chunk → list pyfloat) :
  Chunker._assemble_chunks (Chunker.new_chunker ccfg tc) d elements = Ok chunks →
  let es := map (λ c, Embedder._build_embedded_chunk ecfg c (v c)) chunks in
  Forall (λ e, Chunker.sectioned (ck_metadata (em_chunk e))) es ∧ chunk_ids es = map ck_chunk_id chunks.
Proof.
  intros Has es. unfold es, chunk_ids. split.
  - apply Chunker.assemble_sectioned in Has. apply Forall_map. eapply Forall_impl; [exact Has|]. intros c [Hsc _].
    cbv beta delta [compose]. by rewrite (proj1 (Embedder.build_dimensions ecfg c _)).
  - rewrite map_map. apply map_ext. intros c. by rewrite (proj1 (Embedder.build_dimensions ecfg c _)).
Qed.

(** Indexing over the in-memory adapter, when no other document holds the chunk ids. *)
Lemma index_stage base name set_first icfg envelope es cv (w : @world (InMemoryIndexer.in_memory_env base name set_first)) :
  let env := InMemoryIndexer.in_memory_env base name set_first in
  (∀ c cs, set_first c cs ∈ c :: cs) → @in_stage env (env_doc_id envelope) INDEXING cv w →
  Forall (λ e, Chunker.sectioned (ck_metadata (em_chunk e))) es →
  @Indexer.index_refusal env icfg es = None → 0 < @Indexer._effective_batch_size env icfg →
  InMemoryIndexer.im_ok (w_index w) → NoDup (chunk_ids es) →
  (∀ c, c ∈ chunk_ids es → InMemoryIndexer.im_stored (w_index w) c = None) →
  ∃ res row w' records, run (@handle env) (@Indexer.index env icfg envelope es) w = (Ok res, w') ∧
    dict_get (env_doc_id envelope) (w_ledger w') = Some row ∧ row_status row = INDEXED ∧ row_last_error_code row = None ∧
    res_chunks_upserted res = Z.of_nat (length es) ∧ Forall2 (record_of envelope cv) es records ∧
    InMemoryIndexer.im_ok (w_index w') ∧
    (∀ r, r ∈ records → InMemoryIndexer.im_stored (w_index w') (ir_chunk_id r) = Some r) ∧
    (∀ c r, c ∉ chunk_ids es → InMemoryIndexer.im_stored (w_index w') c = Some r → InMemoryIndexer.im_stored (w_index w) c = Some r).
Proof.
  intros env Hfirst (Hok & cur & Hc & Hs & Hcv) Hsec Href Hb Him Hnd Hfree. set (d := env_doc_id envelope) in *.
  destruct (@build_records_ok env envelope cv (w_now w) es Hsec) as (records & Hrec & Hall). pose proof (records_ids _ _ _ _ Hall) as Hids.
  set (w1 := set_ledger (w_ledger w) w).
  assert (Hrne : records ≠ []) by (intros ->; inversion Hall; subst; discriminate Href).
  destruct (InMemoryIndexer.im_upsert_all_ok base name set_first icfg d records w1 Hfirst Him Hrne Hb) as (res & w2 & R & Hn).
  rewrite <- Hcv in Hrec. destruct (@Indexer.index_success env icfg envelope es w cur records res w2 Hok Hc Hs Href Hrec R) as [_ R']. fold d in R'.
  assert (Howned : @Indexer.owned env InMemoryIndexer.im_stored d records (w_index w1)).
  { intros r Hr. split.
    - apply list_elem_of_lookup in Hr as [i Hr]. by destruct (Forall2_lookup_r _ _ _ _ _ Hall Hr) as (e & _ & _ & _ & _ & Hd & _).
    - intros r0. change (w_index w1) with (w_index w). rewrite Hfree; [done|]. rewrite <- Hids. by apply (list_elem_of_fmap_2 ir_chunk_id). }
  destruct (@Indexer.upsert_all_effect env InMemoryIndexer.im_ok InMemoryIndexer.im_stored (InMemoryIndexer.im_laws base name set_first Hfirst)
    icfg d records w1 res w2 Him ltac:(by rewrite Hids) Howned Hb R) as (v & n & w3 & _ & _ & Hsub & Hok2 & Hst & Hrest).
  eexists _, _, _, records. split; [exact R'|]. split; [apply dict_get_set_eq|]. split; [done|].
  split; [by apply next_row_forward; rewrite ?Hs|]. split; [by rewrite Hn, (Forall2_length _ _ _ Hall)|]. split; [done|]. split; [exact Hok2|].
  split; [exact Hst|]. intros c r Hni Hr. apply Hsub. rewrite <- Hrest; [exact Hr|]. by rewrite Hids.
Qed.

(** ** Properties *)

(** C2: whatever stage calls of however many workers run concurrently, on whatever documents,
    with whatever configurations, inputs and adapter behaviour, and however their ledger,
    index and registry calls interleave: the ledger stays well-formed, no document moves
    backwards along the pipeline, a failed document is never reopened, and an indexed or
    archived row is never changed. *)
Theorem workers_never_regress {env : Env} {aenv : Analyzer.AnalyzerEnv} (workers : list worker) w pool' w' :
  rtc (sched_step handle) (map worker_prog workers, w) (pool', w') →
  (ledger_ok (w_ledger w) → ledger_ok (w_ledger w')) ∧
  ∀ d cur, dict_get d (w_ledger w) = Some cur →
    ∃ cur', dict_get d (w_ledger w') = Some cur' ∧
      (rank (row_status cur) ≤ rank (row_status cur'))%nat ∧
      (row_status cur ∈ [FAILED; INDEXED; ARCHIVED] → cur' = cur).
Proof.
  intros Hsteps. assert (Hall : Forall (all_ops (targets_in stage_targets)) (map worker_prog workers)).
  { apply Forall_map, Forall_true. intros x. apply worker_targets. }
  split.
  - assert (Hev : ledger_evolves w w').
    { eapply (interleaving_preserves handle (targets_in stage_targets)); [apply ledger_evolves_refl|apply ledger_evolves_trans| |exact Hall|exact Hsteps].
      intros X e s _. apply handle_evolves. }
    destruct Hev as [ops ->]. apply ops_ok.
  - change (advances w w'). eapply (interleaving_preserves handle (targets_in stage_targets)); [|apply advances_trans| |exact Hall|exact Hsteps].
    + intros s d cur Hc. exists cur. split; [done|]. by split.
    + intros X e s. apply handle_advances.
Qed.

(** Two duplicate deliveries of one failed document, fully executed. *)
Lemma workers_never_regress_witness :
  ∃ pool' w', rtc (sched_step (@handle unit_env))
      (map (@worker_prog unit_env Analyzer.example_aenv)
         [WAnalyze Analyzer.example_config [] Analyzer.example_envelope (Ok "plain text");
          WAnalyze Analyzer.example_config [] Analyzer.example_envelope (Ok "plain text")], unit_world example_rows) (pool', w') ∧
    ledger_ok (w_ledger w') ∧ status_of example_doc (w_ledger w') = Some FAILED.
Proof.
  set (c := (map (@worker_prog unit_env Analyzer.example_aenv)
         [WAnalyze Analyzer.example_config [] Analyzer.example_envelope (Ok "plain text");
          WAnalyze Analyzer.example_config [] Analyzer.example_envelope (Ok "plain text")], unit_world example_rows)).
  exists (sched_exec (@handle unit_env) [0; 1; 0; 1]%nat c).1, (sched_exec (@handle unit_env) [0; 1; 0; 1]%nat c).2.
  assert (H : rtc (sched_step (@handle unit_env)) c ((sched_exec (@handle unit_env) [0; 1; 0; 1]%nat c).1, (sched_exec (@handle unit_env) [0; 1; 0; 1]%nat c).2)).
  { rewrite <- surjective_pairing. apply sched_exec_rtc. }
  split; [exact H|]. split; [|by vm_compute].
  apply (@workers_never_regress unit_env Analyzer.example_aenv
    [WAnalyze Analyzer.example_config [] Analyzer.example_envelope (Ok "plain text");
     WAnalyze Analyzer.example_config [] Analyzer.example_envelope (Ok "plain text")] _ _ _ H). apply example_rows_ok.
Defined.

(** A new document goes all the way. If its content parses into elements, the chunker can
    assemble them, no chunk exceeds the provider's limit, the provider embeds each text on its
    own, the vectors have the index's dimension, and no other document holds its chunk ids,
    then ingesting it over the in-memory index returns: the document ends [INDEXED] with no
    error, and for every chunk the index holds a record under the chunk's id with its text, the
    document's id, the envelope's groups and the config version. *)
Theorem ingest_indexes_document base name set_first {aenv : Analyzer.AnalyzerEnv} {cenv : Chunker.ChunkerEnv} acfg registry ccfg tc ecfg icfg cv envelope
    reader elements chunks f (w : @world (InMemoryIndexer.in_memory_env base name set_first)) :
  let env := InMemoryIndexer.in_memory_env base name set_first in
  let d := env_doc_id envelope in
  let es := map (λ c, @Embedder._build_embedded_chunk env ecfg c (f (Embedder._apply_prefix (ck_text c) (@ea_document_prefix env)))) chunks in
  (∀ c cs, set_first c cs ∈ c :: cs) →
  ledger_ok (w_ledger w) → hex_re 64 d = true → dict_get d (w_ledger w) = None →
  Analyzer.analysis_of acfg registry envelope reader = Analyzer.Parsed elements → elements ≠ [] →
  Chunker._assemble_chunks (Chunker.new_chunker ccfg tc) d elements = Ok chunks →
  @Embedder.embed_refusal env chunks = None →
  (∀ ts st, ∃ st', @ea_embed_batch env ts st = (Ok (map f ts), st')) → 0 < @Embedder._effective_batch_size env ecfg →
  @Indexer.index_refusal env icfg es = None → 0 < @Indexer._effective_batch_size env icfg →
  InMemoryIndexer.im_ok (w_index w) → NoDup (map ck_chunk_id chunks) →
  (∀ c, c ∈ chunks → InMemoryIndexer.im_stored (w_index w) (ck_chunk_id c) = None) →
  ∃ res row w', run (@handle env) (@ingest env aenv acfg registry (Chunker.new_chunker ccfg tc) ecfg icfg cv envelope reader) w = (Ok res, w') ∧
    dict_get d (w_ledger w') = Some row ∧ row_status row = INDEXED ∧ row_last_error_code row = None ∧
    res_chunks_upserted res = Z.of_nat (length chunks) ∧
    ∀ c, c ∈ chunks → ∃ r, InMemoryIndexer.im_stored (w_index w') (ck_chunk_id c) = Some r ∧ ir_text r = ck_text c ∧ ir_doc_id r = d ∧
      ir_allowed_groups r = env_allowed_groups envelope ∧ ir_config_version r = cv.
Proof.
  intros env d es Hfirst Hok Hhex Hnone Han Hne Has Href Hf Hb Hiref Hib Him Hnd Hfree. unfold ingest. fold d.
  destruct (@create_stage env d cv w Hok Hhex Hnone) as (row0 & w1 & R1 & S1 & I1). rewrite run_bind, R1.
  destruct (analyze_stage acfg registry envelope reader elements cv w1 S1 Han) as (w2 & R2 & S2 & I2). rewrite run_bind, R2.
  destruct (chunk_stage (Chunker.new_chunker ccfg tc) envelope elements chunks cv w2 S2 Hne Has) as (w3 & R3 & S3 & I3). rewrite run_bind, R3.
  destruct (@embed_stage env ecfg envelope chunks f cv w3 S3 Href Hf Hb) as (w4 & R4 & S4 & I4). rewrite run_bind, R4. fold es.
  destruct (@embedded_sectioned env cenv ccfg tc ecfg d elements chunks (λ c, f (Embedder._apply_prefix (ck_text c) (@ea_document_prefix env))) Has) as [Hsec Hids]. fold es in Hsec, Hids.
  assert (Hix : w_index w4 = w_index w) by exact (eq_trans I4 (eq_trans I3 (eq_trans I2 I1))).
  destruct (index_stage base name set_first icfg envelope es cv w4 Hfirst S4 Hsec Hiref Hib) as (res & row & w' & records & R & Hrow & Hs & He & Hn & Hall & _ & Hst & _).
  - exact (eq_ind_r InMemoryIndexer.im_ok Him Hix).
  - by rewrite Hids.
  - intros c Hc. rewrite Hids in Hc. apply list_elem_of_fmap in Hc as (c' & -> & Hc). refine (eq_trans (f_equal (λ ix, InMemoryIndexer.im_stored ix _) Hix) _). by apply Hfree.
  - exists res, row, w'. split; [exact R|]. split; [exact Hrow|]. split; [done|]. split; [done|]. split; [rewrite Hn; unfold es; by rewrite length_map|].
    intros c Hc. assert (Hce : Embedder._build_embedded_chunk ecfg c (f (Embedder._apply_prefix (ck_text c) (@ea_document_prefix env))) ∈ es)
      by (by apply (list_elem_of_fmap_2 (λ c, Embedder._build_embedded_chunk ecfg c (f (Embedder._apply_prefix (ck_text c) (@ea_document_prefix env)))))).
    apply list_elem_of_lookup in Hce as [i Hi]. destruct (Forall2_lookup_l _ _ _ _ _ Hall Hi) as (r & Hr & Hid & Ht & _ & Hd & Hg & _ & Hcv).
    rewrite (proj1 (Embedder.build_dimensions ecfg c _)) in Hid, Ht. exists r. rewrite <- Hid. split; [|done]. apply Hst. by eapply list_elem_of_lookup_2.
Qed.

(** A one-paragraph document. *)
Definition docx_bytes : string := Analyzer._DOCX_MAGIC +:+ "content".
Definition docx_registry : list (DetectedType * Analyzer.ParserAdapter) :=
  Analyzer.registry_register DOCX (λ _ _, Analyzer.Finished (Ok [mkElement PARAGRAPH "hello" []])) [].
Definition first_in (c : string) (_ : list string) : string := c.
Definition memory_env : Env := InMemoryIndexer.in_memory_env unit_env "in-memory" first_in.
Definition hello_chunk : Chunk :=
  mkChunk (Sha256.Sha256.hexdigest (example_doc +:+ "0")) example_doc 0 [PARAGRAPH] "hello" 5
    [("strategy", MStr "recursive"); ("section_path", MNone)].

Lemma ingest_indexes_document_witness :
  ∃ res w' r, run (@handle memory_env)
      (@ingest memory_env Analyzer.example_aenv Analyzer.example_config docx_registry
        (@Chunker.new_chunker Chunker.example_cenv Chunker.example_chunker_config Chunker.byte_counter)
        (Embedder.mkEmbedderConfig None None) (Indexer.mkIndexerConfig 1 "cosine" None true) "v1" Analyzer.example_envelope (Ok docx_bytes))
      (@mkWorld memory_env [] [] (InMemoryIndexer.new_in_memory "in-memory") tt tt 0) = (Ok res, w') ∧
    status_of example_doc (w_ledger w') = Some INDEXED ∧
    InMemoryIndexer.im_stored (w_index w') (ck_chunk_id hello_chunk) = Some r ∧ ir_text r = "hello".
Proof.
  destruct (@ingest_indexes_document unit_env "in-memory" first_in Analyzer.example_aenv Chunker.example_cenv Analyzer.example_config docx_registry
    Chunker.example_chunker_config Chunker.byte_counter (Embedder.mkEmbedderConfig None None) (Indexer.mkIndexerConfig 1 "cosine" None true) "v1"
    Analyzer.example_envelope (Ok docx_bytes) [mkElement PARAGRAPH "hello" []] [hello_chunk] (λ _, [S754_finite false 4503599627370496 (-52)])
    (@mkWorld memory_env [] [] (InMemoryIndexer.new_in_memory "in-memory") tt tt 0)) as (res & row & w' & Hrun & Hrow & Hs & _ & _ & Hst).
  - intros c cs. apply elem_of_cons. left. reflexivity.
  - apply ledger_ok_empty.
  - apply example_doc_ok.
  - reflexivity.
  - vm_compute. reflexivity.
  - discriminate.
  - unfold Chunker._assemble_chunks. assert (@Chunker.all_drafts (@Chunker.new_chunker Chunker.example_cenv Chunker.example_chunker_config Chunker.byte_counter)
      [mkElement PARAGRAPH "hello" []] = Ok [Chunker.mkDraft [PARAGRAPH] "hello" 5 [("strategy", MStr "recursive"); ("section_path", MNone)]]) as -> by (vm_compute; reflexivity).
    unfold rbind at 1, Chunker._assign_positions, Chunker.assign_from. rewrite derive_chunk_id_ok; [reflexivity|apply example_doc_ok|lia].
  - vm_compute. reflexivity.
  - intros ts st. exists st. reflexivity.
  - vm_compute. reflexivity.
  - vm_compute. reflexivity.
  - vm_compute. reflexivity.
  - apply InMemoryIndexer.new_in_memory_ok.
  - apply NoDup_singleton.
  - intros c Hc. reflexivity.
  - destruct (Hst hello_chunk ltac:(apply elem_of_cons; left; reflexivity)) as (r & Hr & Ht & _). exists res, w', r. split; [exact Hrun|].
    split; [|split; [exact Hr|exact Ht]]. exact (eq_trans (f_equal (fmap row_status) Hrow) (f_equal Some Hs)).
Defined.
End Pipeline.
