(* ===== verification/Rely.v ===== *)
(** * Reasoning about one worker among many

    [safe Q p s]: whatever the other workers do in between (as long as they keep the invariant
    [I] and move the shared state along [R]), every call of the program [p] keeps [I] and moves
    the state along [R], and if [p] ends then its outcome satisfies [Q] from then on. A pool of
    safe programs keeps [I], moves along [R] and only ends as promised, in every interleaving
    ([safe_pool]). *)
From S2P Require Import Prelude Types Prog.

Section rely.
Context {E : Type → Type} {S : Type} (h : ∀ X, E X → S → X * S).
Context (I : S → Prop) (R : S → S → Prop) `{!PreOrder R}.

Fixpoint safe {A} (Q : result exn A → S → Prop) (p : prog E A) (s : S) : Prop :=
  match p with
  | Ret a => ∀ s', R s s' → I s' → Q (Ok a) s'
  | Raise x => ∀ s', R s s' → I s' → Q (Exc x) s'
  | Vis e k => ∀ s', R s s' → I s' → I (h _ e s').2 ∧ R s' (h _ e s').2 ∧ safe Q (k (h _ e s').1) (h _ e s').2
  end.

(** What a worker knows survives the steps of the others. *)
Lemma safe_later {A} (Q : result exn A → S → Prop) p s s' : R s s' → safe Q p s → safe Q p s'.
Proof. intros Hs. destruct p; simpl; intros H s'' Hs''; apply H; by etrans. Qed.

Lemma safe_weaken {A} (Q Q' : result exn A → S → Prop) p s :
  (∀ r s', R s s' → I s' → Q r s' → Q' r s') → safe Q p s → safe Q' p s.
Proof.
  revert s. induction p as [a|x|X e k IH]; simpl; intros s HQ H.
  - intros s' Hs HI. apply HQ; auto.
  - intros s' Hs HI. apply HQ; auto.
  - intros s' Hs HI. destruct (H s' Hs HI) as (H1 & H2 & H3). split_and!; [done..|]. apply IH; [|done].
    intros r s'' Hs''. apply HQ. by do 2 (etrans; [eassumption|]).
Qed.

Lemma safe_ret {A} (Q : result exn A → S → Prop) a s : (∀ s', R s s' → I s' → Q (Ok a) s') → safe Q (Ret a) s.
Proof. done. Qed.

Lemma safe_raise {A} (Q : result exn A → S → Prop) x s : (∀ s', R s s' → I s' → Q (Exc x) s') → safe Q (Raise x) s.
Proof. done. Qed.

Lemma safe_bind {A B} (Q : result exn B → S → Prop) (p : prog E A) (f : A → prog E B) s :
  I s → safe (λ r s, match r with Ok a => safe Q (f a) s | Exc x => Q (Exc x) s end) p s → safe Q (pbind p f) s.
Proof.
  revert s. induction p as [a|x|X e k IH]; simpl; intros s Hs H; [by apply H|done|].
  intros s' Hs' HI. destruct (H s' Hs' HI) as (H1 & H2 & H3). split_and!; [done..|]. by apply IH.
Qed.

Lemma safe_attempt {A} (Q : result exn (result exn A) → S → Prop) (p : prog E A) s :
  safe (λ r s, Q (Ok r) s) p s → safe Q (attempt p) s.
Proof.
  revert s. induction p as [a|x|X e k IH]; simpl; intros s H; [done..|].
  intros s' Hs' HI. destruct (H s' Hs' HI) as (H1 & H2 & H3). auto.
Qed.

Lemma safe_lift {A} (Q : result exn A → S → Prop) (r : result exn A) s :
  (∀ s', R s s' → I s' → Q r s') → safe Q (lift r) s.
Proof. by destruct r. Qed.

(** The rule for one call: it keeps the invariant, it is a step the others tolerate, and what
    its answer tells must hold however the others go on. *)
Lemma safe_call {A} (Q : result exn A → S → Prop) (e : E (result exn A)) s :
  (∀ s', R s s' → I s' → I (h _ e s').2 ∧ R s' (h _ e s').2 ∧ ∀ s'', R (h _ e s').2 s'' → I s'' → Q (h _ e s').1 s'') →
  safe Q (call e) s.
Proof. intros H s' Hs HI. destruct (H s' Hs HI) as (? & ? & ?). split_and!; [done..|]. by apply safe_lift. Qed.

Lemma safe_perform {A} (Q : result exn A → S → Prop) (e : E A) s :
  (∀ s', R s s' → I s' → I (h _ e s').2 ∧ R s' (h _ e s').2 ∧ ∀ s'', R (h _ e s').2 s'' → I s'' → Q (Ok (h _ e s').1) s'') →
  safe Q (perform e) s.
Proof. intros H s' Hs HI. destruct (H s' Hs HI) as (? & ? & ?). by split_and!. Qed.

(** What is promised of an outcome may be promised of it from then on. *)
Lemma safe_stable {A} (Q : result exn A → S → Prop) (p : prog E A) s :
  safe Q p s → safe (λ r s, ∀ s', R s s' → I s' → Q r s') p s.
Proof.
  revert s. induction p as [a|x|X e k IH]; simpl; intros s H.
  - intros s' Hs HI s'' Hs'' HI''. apply H; [by etrans|done].
  - intros s' Hs HI s'' Hs'' HI''. apply H; [by etrans|done].
  - intros s' Hs HI. destruct (H s' Hs HI) as (H1 & H2 & H3). auto.
Qed.

(** ** Promises about normal returns only *)

Definition returns {A} (P : A → S → Prop) : prog E A → S → Prop :=
  safe (λ r s, match r with Ok a => P a s | Exc _ => True end).

Lemma returns_bind {A B} (P : A → S → Prop) (P' : B → S → Prop) p (f : A → prog E B) s :
  I s → returns P p s → (∀ a s', R s s' → I s' → P a s' → returns P' (f a) s') → returns P' (pbind p f) s.
Proof. intros Hs Hp Hf. apply safe_bind; [done|]. eapply safe_weaken; [|exact Hp]. intros [a|x] s' ??; [by apply Hf|done]. Qed.

Lemma returns_attempt {A} (P : A → S → Prop) (p : prog E A) s :
  returns P p s → returns (λ r s, match r with Ok a => P a s | Exc _ => True end) (attempt p) s.
Proof. intros H. apply (safe_attempt (λ r s, match r with Ok (Ok a) => P a s | _ => True end)). exact H. Qed.

Lemma returns_ret {A} (P : A → S → Prop) a s : (∀ s', R s s' → I s' → P a s') → returns P (Ret a) s.
Proof. done. Qed.

Lemma returns_raise {A} (P : A → S → Prop) x s : returns P (Raise x) s.
Proof. done. Qed.

Lemma returns_lift {A} (P : A → S → Prop) (r : result exn A) s :
  (∀ a s', R s s' → I s' → r = Ok a → P a s') → returns P (lift r) s.
Proof. intros H. destruct r as [a|x]; [|done]. intros s' ??. by apply H. Qed.

Lemma returns_weaken {A} (P P' : A → S → Prop) p s :
  (∀ a s', R s s' → I s' → P a s' → P' a s') → returns P p s → returns P' p s.
Proof. intros H. apply safe_weaken. intros [a|x] s' ??; [by apply H|done]. Qed.

Lemma returns_stable {A} (P : A → S → Prop) (p : prog E A) s :
  returns P p s → returns (λ a s, ∀ s', R s s' → I s' → P a s') p s.
Proof. intros H. eapply safe_weaken; [|by apply safe_stable]. intros [a|x] s' _ _ HP; [exact HP|done]. Qed.

(** ** Pools *)

Lemma safe_pool {A} (Q : nat → result exn A → S → Prop) (pool pool' : list (prog E A)) s s' :
  I s → (∀ i p, pool !! i = Some p → safe (Q i) p s) → rtc (sched_step h) (pool, s) (pool', s') →
  I s' ∧ R s s' ∧ ∀ i p, pool' !! i = Some p → safe (Q i) p s'.
Proof.
  intros HI Hall Hsteps. remember (pool, s) as c eqn:Hc. remember (pool', s') as c' eqn:Hc'.
  revert pool s Hc HI Hall. induction Hsteps as [c|c c1 c' Hstep Hsteps IH]; intros pool s -> HI Hall; simplify_eq.
  { by split_and!. }
  inversion Hstep as [pool0 s0 i X e k Hi]; subst.
  destruct (Hall i _ Hi s (reflexivity s) HI) as (HI1 & HR1 & Hk).
  destruct (IH eq_refl _ _ eq_refl HI1) as (? & HR2 & ?).
  - intros j p [(<- & <- & _)|[_ Hj]]%list_lookup_insert_Some; [done|]. eapply safe_later; [done|by apply Hall].
  - split_and!; [done| |done]. by etrans.
Qed.

(** What a finished worker of the pool returned. *)
Lemma safe_pool_ret {A} (Q : nat → result exn A → S → Prop) (pool pool' : list (prog E A)) s s' i a :
  I s → (∀ i p, pool !! i = Some p → safe (Q i) p s) → rtc (sched_step h) (pool, s) (pool', s') →
  pool' !! i = Some (Ret a) → Q i (Ok a) s'.
Proof.
  intros HI Hall Hsteps Hi. destruct (safe_pool Q pool pool' s s' HI Hall Hsteps) as (HI' & HR & Hall').
  by apply (Hall' i _ Hi s').
Qed.

(** A program alone is a pool of one. *)
Lemma safe_run {A} (Q : result exn A → S → Prop) (p : prog E A) s :
  I s → safe Q p s → I (run h p s).2 ∧ R s (run h p s).2 ∧ Q (run h p s).1 (run h p s).2.
Proof.
  revert s. induction p as [a|x|X e k IH]; simpl; intros s HI H.
  - split_and!; [done..|]. by apply H.
  - split_and!; [done..|]. by apply H.
  - destruct (H s (reflexivity s) HI) as (H1 & H2 & H3). destruct (h X e s) as [r s'] eqn:Hh. simpl in *.
    destruct (IH r s' H1 H3) as (? & ? & ?). split_and!; [done| |done]. by etrans.
Qed.
End rely.

(** ** Layers

    A program over the calls of an interface, each of which is itself a program over a lower
    interface: it is enough to know each call's program, and the interleaving happens at the lower
    level, between the calls that implement one call. *)
Section layers.
Context {E E' : Type → Type} {S : Type} (h : ∀ X, E' X → S → X * S).
Context (I : S → Prop) (R : S → S → Prop) `{!PreOrder R} (lower : ∀ X, E X → prog E' X).

Fixpoint returns_via {A} (P : A → S → Prop) (p : prog E A) (s : S) : Prop :=
  match p with
  | Ret a => ∀ s', R s s' → I s' → P a s'
  | Raise _ => True
  | Vis e k => returns h I R (λ r s, returns_via P (k r) s) (lower _ e) s
  end.

Lemma via_translate {A} (P : A → S → Prop) (p : prog E A) s : I s → returns_via P p s → returns h I R P (translate lower p) s.
Proof.
  revert s. induction p as [a|x|X e k IH]; simpl; intros s Hs H; [done..|].
  eapply returns_bind; [done..|exact H|]. intros r s' _ Hs'. by apply IH.
Qed.

Lemma via_weaken {A} (P P' : A → S → Prop) (p : prog E A) s :
  (∀ a s', R s s' → I s' → P a s' → P' a s') → returns_via P p s → returns_via P' p s.
Proof.
  revert s. induction p as [a|x|X e k IH]; simpl; intros s HP H; [by auto|done|].
  eapply returns_weaken; [done| |exact H]. intros r s' Hs' HI'. apply IH. intros a s'' Hs''. apply HP. by etrans.
Qed.

Lemma via_bind {A B} (P : A → S → Prop) (P' : B → S → Prop) p (f : A → prog E B) s :
  I s → returns_via P p s → (∀ a s', R s s' → I s' → P a s' → returns_via P' (f a) s') → returns_via P' (pbind p f) s.
Proof.
  revert s. induction p as [a|x|X e k IH]; simpl; intros s Hs Hp Hf.
  - apply Hf; [done..|by apply Hp].
  - done.
  - eapply returns_weaken; [done| |exact Hp]. intros r s' Hs' HI' Hk. apply IH; [done..|]. intros a s'' Hs''. apply Hf. by etrans.
Qed.

Lemma via_attempt {A} (P : A → S → Prop) (p : prog E A) s :
  returns_via P p s → returns_via (λ r s, match r with Ok a => P a s | Exc _ => True end) (attempt p) s.
Proof.
  revert s. induction p as [a|x|X e k IH]; simpl; intros s Hp; [done..|].
  eapply returns_weaken; [done| |exact Hp]. intros r s' _ _. apply IH.
Qed.

Lemma via_perform {A} (P : A → S → Prop) (e : E A) s : returns h I R P (lower _ e) s → returns_via P (perform e) s.
Proof. apply returns_stable; done. Qed.

Lemma via_call {A} (P : A → S → Prop) (e : E (result exn A)) (p : prog E' A) s :
  lower _ e = attempt p → returns h I R P p s → returns_via P (call e) s.
Proof.
  intros He Hp. simpl. rewrite He. eapply returns_weaken; [done| |by apply returns_attempt, returns_stable].
  by intros [a|x] s' _ _ HP.
Qed.

(** It is enough that every call the program may make is safe. *)
Lemma via_all_ops {A} (P : ∀ X, E X → Prop) (p : prog E A) s :
  (∀ X (e : E X) s, P X e → I s → returns h I R (λ _ _, True) (lower X e) s) → all_ops P p → I s → returns_via (λ _ _, True) p s.
Proof.
  intros Hcall. revert s. induction p as [a|x|X e k IH]; simpl; intros s Hp Hs; [done..|]. destruct Hp as [He Hk].
  eapply returns_weaken; [done| |by apply Hcall]. intros r s' _ Hs' _. by apply IH.
Qed.

(** A layer that only renames the calls. *)
Lemma returns_renamed {A} (σ : ∀ X, E X → E' X) (P : A → S → Prop) (p : prog E A) s :
  returns (λ X e, h X (σ X e)) I R P p s → returns h I R P (translate (λ X e, perform (σ X e)) p) s.
Proof.
  revert s. induction p as [a|x|X e k IH]; simpl; intros s H; [done..|].
  intros s' Hs HI. destruct (H s' Hs HI) as (H1 & H2 & H3). split_and!; [done..|]. by apply IH.
Qed.
End layers.

(** ** A part of the state

    A program that works on one part of a larger state, while the rest keeps moving along [F]. *)
Section part.
Context {E : Type → Type} {S T : Type} (h : ∀ X, E X → S → X * S).
Context (I : S → Prop) (R : S → S → Prop) (get : T → S) (put : S → T → T) (F : T → T → Prop).
Context (get_put : ∀ s t, get (put s t) = s) (F_put : ∀ s t, F t (put s t)).

Definition on_part (X : Type) (e : E X) (t : T) : X * T := let '(r, s) := h X e (get t) in (r, put s t).

Lemma safe_part {A} (Q : result exn A → S → Prop) (p : prog E A) t :
  safe h I R Q p (get t) →
  safe on_part (λ t, I (get t)) (λ t t', R (get t) (get t') ∧ F t t') (λ r t, Q r (get t)) p t.
Proof.
  revert t. induction p as [a|x|X e k IH]; simpl; intros t H.
  - intros t' [HR _] HI. by apply H.
  - intros t' [HR _] HI. by apply H.
  - intros t' [HR _] HI. destruct (H (get t') HR HI) as (H1 & H2 & H3). unfold on_part. destruct (h X e (get t')) as [r s] eqn:Hh.
    cbn [fst snd] in *. rewrite get_put. split_and!; [done|done|apply F_put|]. apply IH. by rewrite get_put.
Qed.
End part.
