(* ===== verification/Registry.v ===== *)
(** * The index registry (src/vestibule/provisioning/model.py, src/vestibule/provisioning/registry.py)

    The entries of the registry, the operations of [InMemoryIndexRegistry], the interface the
    provisioner relies on ([RegistryLaws]) and the proof that the in-memory registry keeps it.
    Each operation runs under the registry's lock and is one atomic step. *)
From S2P Require Import Prelude PyDict Types ErrorCodes.
#[local] Open Scope Z_scope.

Module Registry.

(** ** Data *)

Definition INDEX_TEMPLATE_NOT_FOUND : string := "INDEX_TEMPLATE_NOT_FOUND".
Definition INDEX_TEMPLATE_INVALID : string := "INDEX_TEMPLATE_INVALID".
Definition INDEX_SCHEMA_DRIFT : string := "INDEX_SCHEMA_DRIFT".
Definition INDEX_PROVISION_FAILED : string := "INDEX_PROVISION_FAILED".
Definition INDEX_RETIRED : string := "INDEX_RETIRED".
Definition INDEX_AUTO_CREATE_DISABLED : string := "INDEX_AUTO_CREATE_DISABLED".
Definition INDEX_PROVISION_TIMEOUT : string := "INDEX_PROVISION_TIMEOUT".
Definition INDEX_PROVISION_CONFLICT : string := "INDEX_PROVISION_CONFLICT".
Definition INDEX_REGISTRY_UNAVAILABLE : string := "INDEX_REGISTRY_UNAVAILABLE".
Definition INDEX_PROVISIONER_UNAVAILABLE : string := "INDEX_PROVISIONER_UNAVAILABLE".

Inductive FieldType :=
| key | text | vector | filterable_string | filterable_string_collection | filterable_datetime | retrievable_only.

#[export] Instance field_type_eq_dec : EqDecision FieldType.
Proof. solve_decision. Defined.

Record FieldSpec := mkField { fs_name : string; fs_type : FieldType; fs_searchable : bool }.

Record HnswSettings := mkHnsw { hn_m : Z; hn_ef_construction : Z; hn_ef_search : Z }.

(** [metric] is one of three literals in a template, but any string in an entry. *)
Inductive Metric := cosine | dotProduct | euclidean.

Definition metric_value (m : Metric) : string :=
  match m with cosine => "cosine" | dotProduct => "dotProduct" | euclidean => "euclidean" end.

#[export] Instance field_spec_eq_dec : EqDecision FieldSpec.
Proof. solve_decision. Defined.

#[export] Instance hnsw_eq_dec : EqDecision HnswSettings.
Proof. solve_decision. Defined.

#[export] Instance metric_eq_dec : EqDecision Metric.
Proof. solve_decision. Defined.

Record IndexTemplate := mkTemplate {
  tp_template_id : string;
  tp_template_version : string;
  tp_dimensions : option Z;
  tp_metric : Metric;
  tp_hnsw : HnswSettings;
  tp_fields : list FieldSpec;
  tp_semantic_ranker_enabled : bool;
  tp_hybrid_enabled : bool;
}.

#[export] Instance template_eq_dec : EqDecision IndexTemplate.
Proof. solve_decision. Defined.

(** [IndexRegistryEntry.status]. *)
Inductive EntryStatus := provisioning | ready | failed | retired.

#[export] Instance entry_status_eq_dec : EqDecision EntryStatus.
Proof. solve_decision. Defined.

Record IndexRegistryEntry := mkEntry {
  en_index_name : string;
  en_vertical : string;
  en_scenario_id : string;
  en_template_id : string;
  en_template_version : string;
  en_dimensions : Z;
  en_metric : string;
  en_embedding_model : string;
  en_status : EntryStatus;
  en_created_at : Z;
  en_last_verified_at : option Z;
  en_document_count : option Z;
  en_claim_token : option string;
  en_claimed_at : option Z;
  en_last_error_message : option string;
  en_resolved_template : option IndexTemplate;
}.

#[export] Instance entry_eq_dec : EqDecision IndexRegistryEntry.
Proof. solve_decision. Defined.

Record IndexDescription := mkDescription { ds_dimensions : Z; ds_metric : string }.

#[export] Instance description_eq_dec : EqDecision IndexDescription.
Proof. solve_decision. Defined.

(** ** The copies the operations store ([model_copy(update={...})]) *)

Definition touched (now : Z) (e : IndexRegistryEntry) : IndexRegistryEntry :=
  mkEntry (en_index_name e) (en_vertical e) (en_scenario_id e) (en_template_id e) (en_template_version e)
    (en_dimensions e) (en_metric e) (en_embedding_model e) (en_status e) (en_created_at e)
    (Some now) (en_document_count e) (en_claim_token e) (en_claimed_at e) (en_last_error_message e) (en_resolved_template e).

Definition made_ready (now : Z) (e : IndexRegistryEntry) : IndexRegistryEntry :=
  mkEntry (en_index_name e) (en_vertical e) (en_scenario_id e) (en_template_id e) (en_template_version e)
    (en_dimensions e) (en_metric e) (en_embedding_model e) ready (en_created_at e)
    (Some now) (en_document_count e) None None (en_last_error_message e) None.

Definition made_failed (reason : string) (e : IndexRegistryEntry) : IndexRegistryEntry :=
  mkEntry (en_index_name e) (en_vertical e) (en_scenario_id e) (en_template_id e) (en_template_version e)
    (en_dimensions e) (en_metric e) (en_embedding_model e) failed (en_created_at e)
    (en_last_verified_at e) (en_document_count e) None None (Some reason) None.

Definition made_retired (e : IndexRegistryEntry) : IndexRegistryEntry :=
  mkEntry (en_index_name e) (en_vertical e) (en_scenario_id e) (en_template_id e) (en_template_version e)
    (en_dimensions e) (en_metric e) (en_embedding_model e) retired (en_created_at e)
    (en_last_verified_at e) (en_document_count e) (en_claim_token e) (en_claimed_at e) (en_last_error_message e) (en_resolved_template e).

(** ** [InMemoryIndexRegistry] *)

Notation entries := (list (string * IndexRegistryEntry)).

Definition get (index_name : string) (es : entries) : option IndexRegistryEntry := dict_get index_name es.

Definition list_by_vertical (vertical : string) (es : entries) : list IndexRegistryEntry :=
  List.filter (λ e, bool_decide (en_vertical e = vertical)) (dict_values es).

Definition register (entry : IndexRegistryEntry) (es : entries) : IndexRegistryEntry * entries :=
  match dict_get (en_index_name entry) es with
  | Some existing => (existing, es)
  | None => (entry, dict_set (en_index_name entry) entry es)
  end.

Definition reclaim (index_name : string) (observed new_entry : IndexRegistryEntry) (es : entries)
    : result exn IndexRegistryEntry * entries :=
  if decide (dict_get index_name es ≠ Some observed) then
    (Exc (ProvisioningError index_name "reclaim observed a stale snapshot; the stored entry has since changed" INDEX_PROVISION_CONFLICT), es)
  else (Ok new_entry, dict_set index_name new_entry es).

Definition _require (index_name : string) (es : entries) : result exn IndexRegistryEntry :=
  match dict_get index_name es with
  | None => Exc (ProvisioningError index_name "no registry entry exists for index_name" INDEX_PROVISION_CONFLICT)
  | Some current => Ok current
  end.

Definition _check_claim_token (current : IndexRegistryEntry) (expected_claim_token : option string) : result exn unit :=
  if decide (expected_claim_token ≠ None ∧ en_claim_token current ≠ expected_claim_token) then
    Exc (ProvisioningError (en_index_name current)
           "claim_token no longer matches the stored entry (superseded by a reclaim or a concurrent finalization)"
           INDEX_PROVISION_CONFLICT)
  else Ok tt.

(** The shape of the four writes: read under the lock, check, store a copy. *)
Definition update (index_name : string) (check : IndexRegistryEntry → result exn unit)
    (f : IndexRegistryEntry → IndexRegistryEntry) (es : entries) : result exn IndexRegistryEntry * entries :=
  match rbind (_require index_name es) (λ current, rbind (check current) (λ _, Ok current)) with
  | Exc x => (Exc x, es)
  | Ok current => (Ok (f current), dict_set index_name (f current) es)
  end.

Definition touch_verified (now : Z) (index_name : string) : entries → result exn IndexRegistryEntry * entries :=
  update index_name (λ _, Ok tt) (touched now).

Definition mark_ready (now : Z) (index_name : string) (expected_claim_token : option string)
    : entries → result exn IndexRegistryEntry * entries :=
  update index_name (λ current, _check_claim_token current expected_claim_token) (made_ready now).

Definition mark_failed (index_name reason : string) (expected_claim_token : option string)
    : entries → result exn IndexRegistryEntry * entries :=
  update index_name (λ current, _check_claim_token current expected_claim_token) (made_failed reason).

Definition mark_retired (index_name : string) : entries → result exn IndexRegistryEntry * entries :=
  update index_name (λ _, Ok tt) made_retired.

(** ** The interface the provisioner uses *)

(** The mutable operations of [IndexRegistry]; the instant is the one [datetime.now] gives
    inside the call. A backend may also fail to answer. *)
Class IndexRegistry := {
  reg_state : Type;
  r_get : string → reg_state → result exn (option IndexRegistryEntry) * reg_state;
  r_register : IndexRegistryEntry → reg_state → result exn IndexRegistryEntry * reg_state;
  r_reclaim : string → IndexRegistryEntry → IndexRegistryEntry → reg_state → result exn IndexRegistryEntry * reg_state;
  r_touch_verified : Z → string → reg_state → result exn IndexRegistryEntry * reg_state;
  r_mark_ready : Z → string → option string → reg_state → result exn IndexRegistryEntry * reg_state;
  r_mark_failed : string → string → option string → reg_state → result exn IndexRegistryEntry * reg_state;
  r_mark_retired : string → reg_state → result exn IndexRegistryEntry * reg_state;
}.

Definition conflict (x : exn) : bool :=
  match x with ProvisioningError _ _ c => bool_decide (c = INDEX_PROVISION_CONFLICT) | _ => false end.

(** The token check passes on the entry. *)
Definition token_ok (t : option string) (e : IndexRegistryEntry) : Prop := t = None ∨ en_claim_token e = t.

(** One conditional write of the entry called [n]: it either stores [f e] for the stored entry
    [e], which then passed [guard], and returns it; or changes nothing and raises, with
    [INDEX_PROVISION_CONFLICT] only if there is no entry or the guard fails. *)
Definition writes (v v' : gmap string IndexRegistryEntry) (n : string) (guard : IndexRegistryEntry → Prop)
    (f : IndexRegistryEntry → IndexRegistryEntry) (r : result exn IndexRegistryEntry) : Prop :=
  match r with
  | Ok x => ∃ e, v !! n = Some e ∧ guard e ∧ x = f e ∧ v' = <[n := f e]> v
  | Exc x => v' = v ∧ (conflict x = true → ∀ e, v !! n = Some e → ¬ guard e)
  end.

(** What the class documents of its operations, in terms of the entries [view st] a state holds. *)
Class RegistryLaws {reg : IndexRegistry} (view : reg_state → gmap string IndexRegistryEntry) := {
  get_law n st r st' : r_get n st = (r, st') →
    view st' = view st ∧ ∀ o, r = Ok o → o = view st !! n;
  register_law e st r st' : r_register e st = (r, st') →
    match r with
    | Ok x => view st' = (if view st !! en_index_name e then view st else <[en_index_name e := e]> (view st)) ∧
              view st' !! en_index_name e = Some x
    | Exc x => view st' = view st ∧ conflict x = false
    end;
  reclaim_law n o e st r st' : r_reclaim n o e st = (r, st') → writes (view st) (view st') n (λ c, c = o) (λ _, e) r;
  touch_law now n st r st' : r_touch_verified now n st = (r, st') →
    writes (view st) (view st') n (λ _, True) (touched now) r;
  ready_law now n t st r st' : r_mark_ready now n t st = (r, st') →
    writes (view st) (view st') n (token_ok t) (made_ready now) r;
  failed_law n m t st r st' : r_mark_failed n m t st = (r, st') →
    writes (view st) (view st') n (token_ok t) (made_failed m) r;
  retired_law n st r st' : r_mark_retired n st = (r, st') →
    writes (view st) (view st') n (λ _, True) made_retired r;
}.

Definition in_memory_registry : IndexRegistry := {|
  reg_state := entries;
  r_get n es := (Ok (get n es), es);
  r_register e es := let '(x, es') := register e es in (Ok x, es');
  r_reclaim := reclaim;
  r_touch_verified := touch_verified;
  r_mark_ready := mark_ready;
  r_mark_failed := mark_failed;
  r_mark_retired := mark_retired;
|}.

(** ** The in-memory registry keeps the laws *)

Lemma update_writes n check (guard : IndexRegistryEntry → Prop) f es r es' :
  (∀ e, dict_get n es = Some e → match check e with Ok _ => guard e | Exc x => conflict x = true → ¬ guard e end) →
  update n check f es = (r, es') → writes (dict_map es) (dict_map es') n guard f r.
Proof.
  intros Hcheck. unfold update, _require, writes. rewrite dict_map_lookup. destruct (dict_get n es) as [e|] eqn:He; simpl.
  - specialize (Hcheck e eq_refl). destruct (check e) as [[]|x]; simpl; intros [= <- <-].
    + exists e. rewrite dict_map_set. done.
    + split; [done|]. intros ? ? [= <-]. auto.
  - intros [= <- <-]. done.
Qed.

Lemma check_claim_token_ok e t :
  match _check_claim_token e t with Ok _ => token_ok t e | Exc x => conflict x = true → ¬ token_ok t e end.
Proof. unfold _check_claim_token, token_ok. case_decide as H; [naive_solver|]. destruct t as [t|]; [|by left]. right. apply dec_stable. naive_solver. Qed.

Lemma in_memory_registry_laws : RegistryLaws (reg := in_memory_registry) dict_map.
Proof.
  constructor.
  - intros n st r st' [= <- <-]. split; [done|]. intros o [= <-]. by rewrite dict_map_lookup.
  - intros e st r st'. simpl. unfold register. rewrite dict_map_lookup.
    destruct (dict_get (en_index_name e) st) eqn:He; intros [= <- <-]; [by rewrite dict_map_lookup|].
    rewrite dict_map_set. split; [done|]. apply lookup_insert_eq.
  - intros n o e st r st'. simpl. unfold reclaim, writes. rewrite dict_map_lookup. case_decide as H; intros [= <- <-].
    + split; [done|]. intros _ c Hc ->. done.
    + exists o. by rewrite dict_map_set.
  - intros now n st r st'. by apply update_writes.
  - intros now n t st r st'. apply update_writes. intros. apply check_claim_token_ok.
  - intros n m t st r st'. apply update_writes. intros. apply check_claim_token_ok.
  - intros n st r st'. by apply update_writes.
Qed.

End Registry.
