(* ===== verification/Templates.v ===== *)
(** * Index templates (src/vestibule/provisioning/model.py, src/vestibule/provisioning/templates.py)

    The validators of [IndexTemplate] and the store that loads every template file of a
    directory. The YAML parser and pydantic's own typing of a mapping are arguments. *)
From S2P Require Import Prelude PyDict Types Registry.
#[local] Open Scope Z_scope.

Module Templates.
Import Registry.

(** ** [int(s)] on an ASCII string: surrounding white space, a sign, and digits that single
    underscores may separate; [None] stands for [ValueError]. *)

Definition is_space (c : ascii) : bool :=
  let n := nat_of_ascii c in (9 <=? n)%nat && (n <=? 13)%nat || (28 <=? n)%nat && (n <=? 32)%nat.

Definition digit_value (c : ascii) : option Z :=
  let n := nat_of_ascii c in if (48 <=? n)%nat && (n <=? 57)%nat then Some (Z.of_nat n - 48) else None.

Fixpoint lstrip (l : list ascii) : list ascii :=
  match l with
  | [] => []
  | c :: l' => if is_space c then lstrip l' else l
  end.

Fixpoint digits (acc : Z) (after_digit : bool) (l : list ascii) : option Z :=
  match l with
  | [] => if after_digit then Some acc else None
  | c :: l' =>
    match digit_value c with
    | Some d => digits (10 * acc + d) true l'
    | None => if decide (c = "_"%char) then (if after_digit then digits acc false l' else None) else None
    end
  end.

Definition py_int (s : string) : option Z :=
  let body := reverse (lstrip (reverse (lstrip (String.list_ascii_of_string s)))) in
  match body with
  | c :: l => if decide (c = "-"%char) then Z.opp <$> digits 0 false l
              else if decide (c = "+"%char) then digits 0 false l else digits 0 false body
  | [] => None
  end.

(** ** The validators of [IndexTemplate] *)

Section validators.
Context (str_repr : string → string).

(** The message of the [ValueError], if any. *)
Definition _version_is_integer_string (value : string) : option string :=
  match py_int value with
  | None => Some ("template_version=" +:+ str_repr value +:+ " must parse as a non-negative integer (Assumption A6)")
  | Some parsed => if bool_decide (parsed < 0) then Some ("template_version=" +:+ str_repr value +:+ " must be non-negative") else None
  end.

Definition _validate_field_shape (fields : list FieldSpec) : option string :=
  let key_fields := List.filter (λ f, bool_decide (fs_type f = key)) fields in
  let vector_fields := List.filter (λ f, bool_decide (fs_type f = vector)) fields in
  let names := map fs_name fields in
  if bool_decide (length key_fields ≠ 1%nat) then
    Some ("IndexTemplate must declare exactly one field with type='key', found " +:+ pretty (length key_fields))
  else if bool_decide (vector_fields = []) then Some "IndexTemplate must declare at least one field with type='vector'"
  else if bool_decide (length names ≠ length (dedup_first [] names)) then Some "IndexTemplate field names must be unique"
  else None.

(** The field validator runs first; the model validator only on fields that passed. *)
Definition template_error (t : IndexTemplate) : option string :=
  match _version_is_integer_string (tp_template_version t) with
  | Some m => Some m
  | None => _validate_field_shape (tp_fields t)
  end.

(** ** [IndexTemplateStore] *)

(** What [yaml.safe_load] makes of a file: an error, a document that is not a mapping (with the
    name of its type), or a mapping, which pydantic types or rejects. *)
Inductive yaml_doc (raw : Type) :=
| YamlError (message : string)
| YamlOther (type_name : string)
| YamlMapping (r : raw).

Record template_file := mkFile { tf_path : string; tf_stem : string; tf_text : string }.

Context {raw : Type} (safe_load : string → yaml_doc raw) (raw_template_id : raw → string)
  (parse_fields : raw → result string IndexTemplate) (validation_error : string → string).

Definition _load_one (file : template_file) : result exn IndexTemplate :=
  match safe_load (tf_text file) with
  | YamlError _ m => Exc (ProvisioningError "" (tf_path file +:+ ": invalid YAML: " +:+ m) INDEX_TEMPLATE_INVALID)
  | YamlOther _ ty =>
    Exc (ProvisioningError "" (tf_path file +:+ ": expected a YAML mapping at the document root, got " +:+ ty) INDEX_TEMPLATE_INVALID)
  | YamlMapping _ r =>
    let invalid m := Exc (ProvisioningError (raw_template_id r) (tf_path file +:+ ": " +:+ m) INDEX_TEMPLATE_INVALID) in
    match parse_fields r with
    | Exc m => invalid m
    | Ok template =>
      match template_error template with
      | Some m => invalid (validation_error m)
      | None =>
        if decide (tp_template_id template ≠ tf_stem file) then
          Exc (ProvisioningError (tp_template_id template)
                 (tf_path file +:+ ": filename stem " +:+ str_repr (tf_stem file) +:+ " does not match declared template_id "
                  +:+ str_repr (tp_template_id template)) INDEX_TEMPLATE_INVALID)
        else Ok template
      end
    end
  end.

Notation template_store := (list (string * IndexTemplate)).

(** [__init__] over the sorted files of the directory. *)
Fixpoint load_from (templates : template_store) (files : list template_file) : result exn template_store :=
  match files with
  | [] => Ok templates
  | file :: files' => rbind (_load_one file) (λ template, load_from (dict_set (tp_template_id template) template templates) files')
  end.

Definition IndexTemplateStore (files : list template_file) : result exn template_store := load_from [] files.

Definition get_template (templates : template_store) (template_id : string) : option IndexTemplate := dict_get template_id templates.

Definition get_or_raise (templates : template_store) (template_id : string) : result exn IndexTemplate :=
  match dict_get template_id templates with
  | None => Exc (ProvisioningError template_id ("no index template registered for template_id=" +:+ str_repr template_id) INDEX_TEMPLATE_NOT_FOUND)
  | Some template => Ok template
  end.

(** ** What a loaded store holds *)

(** A template the validators accept, stated on its own. *)
Definition template_ok (t : IndexTemplate) : Prop :=
  (∃ v, py_int (tp_template_version t) = Some v ∧ 0 ≤ v) ∧
  (∃ f, List.filter (λ f, bool_decide (fs_type f = key)) (tp_fields t) = [f]) ∧
  (∃ f, f ∈ tp_fields t ∧ fs_type f = vector) ∧
  NoDup (map fs_name (tp_fields t)).

Lemma length_dedup_first_NoDup (l : list string) :
  length l = length (dedup_first [] l) ↔ NoDup l.
Proof.
  split.
  - intros Hl. assert (Hsub : dedup_first [] l ⊆+ l).
    { apply NoDup_submseteq; [apply NoDup_dedup_first; constructor|]. intros x. rewrite elem_of_dedup_first. set_solver. }
    apply submseteq_length_Permutation in Hsub; [|lia]. rewrite <- Hsub. apply NoDup_dedup_first. constructor.
  - intros Hnd. apply Permutation_length, NoDup_Permutation; [done|apply NoDup_dedup_first; constructor|].
    intros x. rewrite elem_of_dedup_first. set_solver.
Qed.

Lemma filter_nil_iff (P : FieldSpec → bool) l : List.filter P l = [] ↔ ∀ f, f ∈ l → P f = false.
Proof.
  induction l as [|f l IH]; simpl; [set_solver|]. destruct (P f) eqn:E.
  - split; [done|]. intros H. specialize (H f). rewrite E in H. set_solver.
  - rewrite IH. set_solver.
Qed.

Lemma template_error_none t : template_error t = None ↔ template_ok t.
Proof.
  unfold template_error, _version_is_integer_string, _validate_field_shape, template_ok.
  destruct (py_int (tp_template_version t)) as [v|]; [|naive_solver].
  rewrite <- length_dedup_first_NoDup. case_bool_decide as H0; [|case_bool_decide as H1; [|case_bool_decide as H2; [|case_bool_decide as H3]]].
  - split; [done|]. naive_solver lia.
  - split; [done|]. intros (_ & (f & Hf) & _). rewrite Hf in *. done.
  - split; [done|]. intros (_ & _ & (f & Hin & Hf) & _). pose proof (proj1 (filter_nil_iff _ _) H2 f Hin) as Hn.
    simpl in Hn. by rewrite bool_decide_eq_true_2 in Hn.
  - split; [done|]. naive_solver.
  - split; [|done]. intros _. split_and!; [naive_solver lia| | |naive_solver].
    + destruct (List.filter _ (tp_fields t)) as [|f [|]]; naive_solver.
    + destruct (List.filter _ (tp_fields t)) as [|f l] eqn:E in H2; [done|]. exists f.
      assert (Hin : In f (List.filter (λ f, bool_decide (fs_type f = vector)) (tp_fields t))) by (rewrite E; by left).
      apply filter_In in Hin as [Hin Hf]. split; [by apply list_elem_of_In|]. by apply bool_decide_eq_true in Hf.
Qed.

(** A file is accepted exactly when it is a mapping pydantic can type, the template passes the
    validators, and the file is named after it. *)
Definition file_gives (file : template_file) (t : IndexTemplate) : Prop :=
  ∃ r, safe_load (tf_text file) = YamlMapping _ r ∧ parse_fields r = Ok t ∧ template_ok t ∧ tp_template_id t = tf_stem file.

Lemma load_one_ok file t : _load_one file = Ok t ↔ file_gives file t.
Proof.
  unfold _load_one, file_gives. destruct (safe_load (tf_text file)) as [m|ty|r]; [naive_solver..|].
  destruct (parse_fields r) as [t'|m] eqn:Hp; [|split; [done|]; intros (r' & [= <-] & Hp' & _); congruence].
  destruct (template_error t') eqn:He; [|destruct (decide (tp_template_id t' ≠ tf_stem file)) as [H|H%dec_stable]].
  - split; [done|]. intros (r' & [= <-] & Hp' & Hok%template_error_none & _). congruence.
  - split; [done|]. intros (r' & [= <-] & Hp' & _ & Hid). congruence.
  - apply template_error_none in He. split; [intros [= <-]; by exists r|]. intros (r' & [= <-] & Hp' & _). congruence.
Qed.

Lemma load_one_exc file x : _load_one file = Exc x → exn_error_code x = Some INDEX_TEMPLATE_INVALID.
Proof. unfold _load_one. intros H. repeat case_match; naive_solver. Qed.

Lemma load_from_ok files ts ts' :
  NoDup (map tf_stem files) → (∀ f, f ∈ files → dict_get (tf_stem f) ts = None) →
  load_from ts files = Ok ts' →
  ∀ i, match list_find (λ f, tf_stem f = i) files with
       | Some (_, f) => ∃ t, file_gives f t ∧ dict_get i ts' = Some t
       | None => dict_get i ts' = dict_get i ts
       end.
Proof.
  revert ts. induction files as [|f files IH]; intros ts Hnd Hts; cbn [load_from].
  { by intros [= <-] i. }
  intros (t & Ht%load_one_ok & Hl)%rbind_ok i. simpl in Hnd. apply NoDup_cons in Hnd as [Hf Hnd].
  assert (Hid : tp_template_id t = tf_stem f) by (destruct Ht as (? & _ & _ & _ & ?); done).
  assert (Hfresh : ∀ g, g ∈ files → tf_stem g ≠ tf_stem f).
  { intros g Hg Heq. apply Hf. rewrite <- Heq. by apply (list_elem_of_fmap_2 tf_stem). }
  rewrite Hid in Hl. assert (IH' := IH (dict_set (tf_stem f) t ts) Hnd).
  specialize (IH' ltac:(intros g Hg; rewrite dict_get_set, decide_False by eauto; set_solver) Hl i).
  simpl. case_decide as Hi.
  - subst i. exists t. split; [done|]. rewrite (proj2 (list_find_None _ _)) in IH'; [|by apply Forall_forall].
    rewrite IH', dict_get_set. by rewrite decide_True.
  - destruct (list_find _ files) as [[j g]|]; simpl; [done|]. rewrite IH', dict_get_set. by rewrite decide_False.
Qed.

Lemma load_from_exc files ts x :
  load_from ts files = Exc x → exn_error_code x = Some INDEX_TEMPLATE_INVALID ∧ ∃ f, f ∈ files ∧ ∀ t, ¬ file_gives f t.
Proof.
  revert ts. induction files as [|f files IH]; intros ts; cbn [load_from]; [done|].
  destruct (_load_one f) as [t|y] eqn:Hf; simpl.
  - intros (? & g & Hg & ?)%IH. split; [done|]. exists g. split; [set_solver|done].
  - intros [= ->]. split; [by eapply load_one_exc|]. exists f. split; [set_solver|]. intros t Ht%load_one_ok. congruence.
Qed.

(** Loading the template directory either fails with INDEX_TEMPLATE_INVALID, and then some
    file is not an acceptable template, or every file is one, and looking a template up finds
    exactly the file of that name: get_or_raise returns its template, whose version is a
    non-negative integer and whose fields have unique names, one key and at least one vector,
    and raises INDEX_TEMPLATE_NOT_FOUND when there is no such file. *)
Theorem template_store_correct (files : list template_file) :
  NoDup (map tf_stem files) →
  match IndexTemplateStore files with
  | Exc x => exn_error_code x = Some INDEX_TEMPLATE_INVALID ∧ ∃ f, f ∈ files ∧ ∀ t, ¬ file_gives f t
  | Ok ts => ∀ i,
      match list_find (λ f, tf_stem f = i) files with
      | Some (_, f) => ∃ t, file_gives f t ∧ template_ok t ∧ get_or_raise ts i = Ok t ∧ get_template ts i = Some t
      | None => ∃ m, get_or_raise ts i = Exc (ProvisioningError i m INDEX_TEMPLATE_NOT_FOUND) ∧ get_template ts i = None
      end
  end.
Proof.
  intros Hnd. destruct (IndexTemplateStore files) as [ts|x] eqn:Hl; [|by eapply load_from_exc].
  intros i. pose proof (load_from_ok files [] ts Hnd (λ _ _, eq_refl) Hl i) as H. unfold get_or_raise, get_template.
  destruct (list_find _ files) as [[j f]|].
  - destruct H as (t & Ht & Hg). exists t. rewrite Hg. destruct (Ht) as (_ & _ & _ & ? & _). done.
  - rewrite H. by eexists.
Qed.
End validators.

(** ** A concrete directory *)

Definition standard_v1 : IndexTemplate :=
  mkTemplate "standard-v1" "1" None cosine (mkHnsw 4 400 500)
    [mkField "chunk_id" key false; mkField "text" text true; mkField "vector" vector false] false true.

(** The files' texts are their template ids; a file called "broken" is not valid YAML. *)
Definition demo_load (s : string) : yaml_doc string := if decide (s = "broken") then YamlError _ "bad" else YamlMapping _ s.
Definition demo_parse (s : string) : result string IndexTemplate :=
  Ok (mkTemplate s "1" None cosine (mkHnsw 4 400 500) (tp_fields standard_v1) false true).

(** The store of a directory with one valid template finds it. *)
Lemma template_store_witness :
  NoDup (map tf_stem [mkFile "t/standard-v1.yaml" "standard-v1" "standard-v1"]) ∧
  ∃ t, get_or_raise id [("standard-v1", standard_v1)] "standard-v1" = Ok t ∧ template_ok t.
Proof.
  assert (Hnd : NoDup (map tf_stem [mkFile "t/standard-v1.yaml" "standard-v1" "standard-v1"])) by (apply NoDup_singleton).
  split; [exact Hnd|].
  destruct (template_store_correct id demo_load id demo_parse id [mkFile "t/standard-v1.yaml" "standard-v1" "standard-v1"] Hnd "standard-v1")
    as (t & _ & Hok & Hg & _).
  exists t. split; [exact Hg|exact Hok].
Defined.

End Templates.
