(* ===== verification/Provisioner.v ===== *)
(** * The index provisioner (src/vestibule/provisioning/provisioner.py)

    [ensure] makes sure the index of a scenario exists: it claims the index in the registry,
    creates it, waits for another worker's claim, takes over a stale one, and re-verifies. The
    registry is the interface of [Registry]; the vector store's adapter, the clock and the token
    generator are the arguments [ProvisionerEnv].

    The methods call each other only in tail position ([return self._claim_new(...)] and the
    like), so each is a program that ends with the call it goes on with ([next]), and [resume]
    runs those calls. [fuel] bounds their number, polls of the wait loop included. *)
From S2P Require Import Prelude PyDict Types Prog Rely Registry Templates.
#[local] Open Scope Z_scope.
#[local] Open Scope py_scope.

Module Provisioner.
Import Registry Templates.

(** ** Shared objects *)

Class ProvisionerEnv := {
  pr_registry :: IndexRegistry;
  (** [IndexProvisionerAdapter] (src/vestibule/provisioning/adapters/base.py). *)
  adapter_state : Type;
  pa_index_exists : string → adapter_state → result exn bool * adapter_state;
  pa_create_index : string → IndexTemplate → Z → string → adapter_state → result exn unit * adapter_state;
  pa_describe_index : string → adapter_state → result exn (option IndexDescription) * adapter_state;
  (** How far the wall clock moves before its [n]-th reading, and how much a sleep overruns. *)
  drift : nat → Z;
  (** The [n]-th [uuid4().hex]. *)
  new_claim_token : nat → string;
  (** [repr] of a string. *)
  p_repr : string → string;
}.

Inductive provE : Type → Type :=
| RGetEntry (index_name : string) : provE (result exn (option IndexRegistryEntry))
| RRegister (entry : IndexRegistryEntry) : provE (result exn IndexRegistryEntry)
| RReclaim (index_name : string) (observed new_entry : IndexRegistryEntry) : provE (result exn IndexRegistryEntry)
| RTouch (index_name : string) : provE (result exn IndexRegistryEntry)
| RReady (index_name : string) (expected_claim_token : option string) : provE (result exn IndexRegistryEntry)
| RFailed (index_name reason : string) (expected_claim_token : option string) : provE (result exn IndexRegistryEntry)
| RRetired (index_name : string) : provE (result exn IndexRegistryEntry)
| AExists (index_name : string) : provE (result exn bool)
| ACreate (index_name : string) (template : IndexTemplate) (dimensions : Z) (metric : string) : provE (result exn unit)
| ADescribe (index_name : string) : provE (result exn (option IndexDescription))
| Clock : provE Z
| Sleep (duration : Z) : provE (result exn unit)
| NewToken : provE string.

Section provisioner.
Context {env : ProvisionerEnv}.

Record pworld := mkPW {
  pw_registry : reg_state;
  pw_adapter : adapter_state;
  pw_time : Z;
  pw_ticks : nat;
  pw_tokens : nat;
}.

(** The instant the next clock reading gives. *)
Definition pw_now (w : pworld) : Z := pw_time w + drift (pw_ticks w).

Definition set_registry (r : reg_state) (w : pworld) : pworld :=
  mkPW r (pw_adapter w) (pw_time w) (pw_ticks w) (pw_tokens w).
Definition set_adapter (a : adapter_state) (w : pworld) : pworld :=
  mkPW (pw_registry w) a (pw_time w) (pw_ticks w) (pw_tokens w).
(** The world once the clock has been read, [d] later. *)
Definition elapse (d : Z) (w : pworld) : pworld :=
  mkPW (pw_registry w) (pw_adapter w) (pw_now w + d) (S (pw_ticks w)) (pw_tokens w).

Definition reg_call {A} (f : reg_state → result exn A * reg_state) (w : pworld) : result exn A * pworld :=
  let '(r, s) := f (pw_registry w) in (r, set_registry s w).
Definition adapter_call {A} (f : adapter_state → result exn A * adapter_state) (w : pworld) : result exn A * pworld :=
  let '(r, s) := f (pw_adapter w) in (r, set_adapter s w).

Definition phandle (X : Type) (e : provE X) (w : pworld) : X * pworld :=
  match e in provE X return X * pworld with
  | RGetEntry n => reg_call (r_get n) w
  | RRegister entry => reg_call (r_register entry) w
  | RReclaim n observed new_entry => reg_call (r_reclaim n observed new_entry) w
  | RTouch n => reg_call (r_touch_verified (pw_now w) n) (elapse 0 w)
  | RReady n t => reg_call (r_mark_ready (pw_now w) n t) (elapse 0 w)
  | RFailed n m t => reg_call (r_mark_failed n m t) w
  | RRetired n => reg_call (r_mark_retired n) w
  | AExists n => adapter_call (pa_index_exists n) w
  | ACreate n t d m => adapter_call (pa_create_index n t d m) w
  | ADescribe n => adapter_call (pa_describe_index n) w
  | Clock => (pw_now w, elapse 0 w)
  | Sleep d => if bool_decide (d < 0) then (Exc (PyExc "ValueError" "sleep length must be non-negative"), w) else (Ok tt, elapse d w)
  | NewToken => (new_claim_token (pw_tokens w),
                 mkPW (pw_registry w) (pw_adapter w) (pw_time w) (pw_ticks w) (S (pw_tokens w)))
  end.

(** ** The provisioner *)

(** [ProvisioningConfig]; the durations are the [timedelta]s the code makes of the seconds, in
    microseconds. *)
Record ProvisioningConfig := mkPConfig {
  default_template_id : string;
  provisioning_stale_after : Z;
  verification_interval : Z;
  wait_for_provisioning_timeout : Z;
  wait_poll_interval : Z;
  auto_create : bool;
}.

(** The call a method ends with, or its return value. *)
Inductive next :=
| Done (entry : IndexRegistryEntry)
| ClaimNew
| AfterLosingClaim (entry : IndexRegistryEntry)
| ClaimAndCreate (won_entry : IndexRegistryEntry)
| WaitForReady (entry : IndexRegistryEntry)
| Poll (index_name : string) (deadline : Z) (current : IndexRegistryEntry).

Definition _elapsed (now since threshold : Z) : bool := bool_decide (threshold ≤ now - since).

Definition _failed_error (entry : IndexRegistryEntry) : exn :=
  ProvisioningError (en_index_name entry)
    (py_or (en_last_error_message entry) "index provisioning failed; requires human intervention") INDEX_PROVISION_FAILED.

Definition _retired_error (entry : IndexRegistryEntry) : exn :=
  ProvisioningError (en_index_name entry) "index has been retired" INDEX_RETIRED.

(** [repr] of an [IndexDescription | None]. *)
Definition description_repr (o : option IndexDescription) : string :=
  match o with
  | None => "None"
  | Some d => "IndexDescription(dimensions=" +:+ pretty (ds_dimensions d) +:+ ", metric=" +:+ p_repr (ds_metric d) +:+ ")"
  end.

Definition _call_adapter {A} (index_name : string) (fn : provE (result exn A)) : prog provE A :=
  r ← attempt (call fn);
  match r with
  | Ok a => Ret a
  | Exc (ProvisioningError n m c) => Raise (ProvisioningError n m c)
  | Exc x => Raise (ProvisioningError index_name (exn_str x) INDEX_PROVISIONER_UNAVAILABLE)
  end.

Definition _absorb_conflict (fn : provE (result exn IndexRegistryEntry)) : prog provE unit :=
  r ← attempt (call fn);
  match r with
  | Ok _ => Ret tt
  | Exc x => if conflict x then Ret tt else Raise x
  end.

Section methods.
Context (config : ProvisioningConfig) (templates : list (string * IndexTemplate)) (scenario : Scenario).

Definition _resolve_template : result exn (IndexTemplate * Z * string) :=
  let template_id := py_or (sc_index_template_id scenario) (default_template_id config) in
  rbind (get_or_raise p_repr templates template_id) (λ template,
  let scenario_dimensions := is_dimensions (sc_indexer scenario) in
  match tp_dimensions template with
  | Some d =>
    if bool_decide (d ≠ scenario_dimensions) then
      Exc (ProvisioningError (sc_index_name scenario)
             ("template " +:+ p_repr (tp_template_id template) +:+ "'s explicit dimensions=" +:+ pretty d
              +:+ " disagrees with scenario.indexer.dimensions=" +:+ pretty scenario_dimensions) INDEX_TEMPLATE_INVALID)
    else Ok (template, d, metric_value (tp_metric template))
  | None => Ok (template, scenario_dimensions, metric_value (tp_metric template))
  end).

(** [int(value)] where a value that does not parse raises. *)
Definition int_or_raise (value : string) : result exn Z :=
  match py_int value with
  | Some z => Ok z
  | None => Exc (PyExc "ValueError" ("invalid literal for int() with base 10: " +:+ p_repr value))
  end.

(** The condition [drifted], with the short cuts of [or]. *)
Definition drifted (entry : IndexRegistryEntry) (template : IndexTemplate) (dimensions : Z) (metric : string)
    (description : option IndexDescription) : result exn bool :=
  match description with
  | None => Ok true
  | Some d =>
    if bool_decide (ds_dimensions d ≠ dimensions) then Ok true
    else if bool_decide (ds_metric d ≠ metric) then Ok true
    else rbind (int_or_raise (en_template_version entry)) (λ v,
         rbind (int_or_raise (tp_template_version template)) (λ v', Ok (bool_decide (v < v'))))
  end.

Definition _verify (entry : IndexRegistryEntry) : prog provE next :=
  '(template, resolved_dimensions, resolved_metric) ← lift _resolve_template;
  description ← _call_adapter (en_index_name entry) (ADescribe (en_index_name entry));
  bad ← lift (drifted entry template resolved_dimensions resolved_metric description);
  if bad : bool then
    Raise (ProvisioningError (en_index_name entry)
      ("live index incompatible with resolved template: description=" +:+ description_repr description
       +:+ ", resolved_dimensions=" +:+ pretty resolved_dimensions +:+ ", resolved_metric=" +:+ p_repr resolved_metric
       +:+ ", entry.template_version=" +:+ p_repr (en_template_version entry)
       +:+ ", template.template_version=" +:+ p_repr (tp_template_version template)) INDEX_SCHEMA_DRIFT)
  else e ← call (RTouch (en_index_name entry)); Ret (Done e).

Definition _handle_ready (entry : IndexRegistryEntry) : prog provE next :=
  match en_last_verified_at entry with
  | Some at_ =>
    now ← perform Clock;
    if _elapsed now at_ (verification_interval config) then _verify entry else Ret (Done entry)
  | None => _verify entry
  end.

Definition _dispatch_existing (entry : IndexRegistryEntry) : prog provE next :=
  match en_status entry with
  | ready => _handle_ready entry
  | provisioning => Ret (WaitForReady entry)
  | failed => Raise (_failed_error entry)
  | retired => Raise (_retired_error entry)
  end.

Definition _after_losing_claim (entry : IndexRegistryEntry) : prog provE next :=
  match en_status entry with
  | ready => Ret (Done entry)
  | provisioning => Ret (WaitForReady entry)
  | failed => Raise (_failed_error entry)
  | retired => Raise (_retired_error entry)
  end.

Definition _claim_new : prog provE next :=
  if negb (auto_create config) then
    Raise (ProvisioningError (sc_index_name scenario) "no index exists and config.auto_create is False" INDEX_AUTO_CREATE_DISABLED)
  else
    '(template, resolved_dimensions, resolved_metric) ← lift _resolve_template;
    now ← perform Clock;
    token ← perform NewToken;
    let candidate :=
      mkEntry (sc_index_name scenario) (sc_vertical scenario) (sc_scenario_id scenario) (tp_template_id template)
        (tp_template_version template) resolved_dimensions resolved_metric (es_model (sc_embedder scenario)) provisioning
        now None None (Some token) (Some now) None (Some template) in
    won_entry ← call (RRegister candidate);
    if decide (en_claim_token won_entry = en_claim_token candidate) then Ret (ClaimAndCreate won_entry)
    else Ret (AfterLosingClaim won_entry).

Definition _finalize_ready (won_entry : IndexRegistryEntry) : prog provE next :=
  r ← attempt (call (RReady (en_index_name won_entry) (en_claim_token won_entry)));
  match r with
  | Ok e => Ret (Done e)
  | Exc x =>
    if conflict x then
      current ← call (RGetEntry (en_index_name won_entry));
      match current with
      | None => Ret ClaimNew
      | Some current => Ret (AfterLosingClaim current)
      end
    else Raise x
  end.

(** The index is there, or is created now; a failure to create it fails the claim. *)
Definition _create_if_missing (won_entry : IndexRegistryEntry) : prog provE unit :=
  let index_name := en_index_name won_entry in
  already_exists ← _call_adapter index_name (AExists index_name);
  if already_exists : bool then Ret tt
  else match en_resolved_template won_entry with
  | None => Raise (PyExc "AssertionError" "")
  | Some template =>
    r ← attempt (_call_adapter index_name (ACreate index_name template (en_dimensions won_entry) (en_metric won_entry)));
    match r with
    | Ok _ => Ret tt
    | Exc exc => (_absorb_conflict (RFailed index_name (exn_str exc) (en_claim_token won_entry));; Raise exc)
    end
  end.

Definition incompatible_reason (won_entry : IndexRegistryEntry) (description : option IndexDescription) : string :=
  "index " +:+ p_repr (en_index_name won_entry) +:+ " incompatible after creation/existence check: description="
  +:+ description_repr description +:+ ", expected dimensions=" +:+ pretty (en_dimensions won_entry)
  +:+ ", metric=" +:+ p_repr (en_metric won_entry).

Definition _claim_and_create (won_entry : IndexRegistryEntry) : prog provE next :=
  let index_name := en_index_name won_entry in
  _create_if_missing won_entry;;
  (description ← _call_adapter index_name (ADescribe index_name);
   if decide (description = Some (mkDescription (en_dimensions won_entry) (en_metric won_entry))) then _finalize_ready won_entry
   else
     let reason := incompatible_reason won_entry description in
     (_absorb_conflict (RFailed index_name reason (en_claim_token won_entry));;
      Raise (ProvisioningError index_name reason INDEX_SCHEMA_DRIFT))).

Definition _is_stale (entry : IndexRegistryEntry) : prog provE bool :=
  match en_claimed_at entry with
  | None => Ret false
  | Some claimed_at => now ← perform Clock; Ret (_elapsed now claimed_at (provisioning_stale_after config))
  end.

(** [observed.model_copy(update={"claim_token": ..., "claimed_at": ...})]. *)
Definition reclaimed (token : string) (now : Z) (e : IndexRegistryEntry) : IndexRegistryEntry :=
  mkEntry (en_index_name e) (en_vertical e) (en_scenario_id e) (en_template_id e) (en_template_version e)
    (en_dimensions e) (en_metric e) (en_embedding_model e) (en_status e) (en_created_at e)
    (en_last_verified_at e) (en_document_count e) (Some token) (Some now) (en_last_error_message e) (en_resolved_template e).

Definition _try_reclaim (observed : IndexRegistryEntry) : prog provE (option IndexRegistryEntry) :=
  token ← perform NewToken;
  now ← perform Clock;
  r ← attempt (call (RReclaim (en_index_name observed) observed (reclaimed token now observed)));
  match r with
  | Ok e => Ret (Some e)
  | Exc x => if conflict x then Ret None else Raise x
  end.

Definition _wait_for_ready (entry : IndexRegistryEntry) : prog provE next :=
  now ← perform Clock;
  Ret (Poll (en_index_name entry) (now + wait_for_provisioning_timeout config) entry).

(** One round of the [while True] loop. *)
Definition _poll (index_name : string) (deadline : Z) (current : IndexRegistryEntry) : prog provE next :=
  stale ← _is_stale current;
  r ← (if stale : bool then _try_reclaim current else Ret None);
  match r with
  | Some e => Ret (ClaimAndCreate e)
  | None =>
    now ← perform Clock;
    if bool_decide (deadline ≤ now) then
      Raise (ProvisioningError index_name "timed out waiting for another worker's provisioning claim to reach ready" INDEX_PROVISION_TIMEOUT)
    else
      (call (Sleep (wait_poll_interval config));;
       (refreshed ← call (RGetEntry index_name);
        match refreshed with
        | None => Ret ClaimNew
        | Some e => if decide (en_status e ≠ provisioning) then Ret (AfterLosingClaim e) else Ret (Poll index_name deadline e)
        end))
  end.

(** One tail call. *)
Definition step (n : next) : prog provE next :=
  match n with
  | Done e => Ret (Done e)
  | ClaimNew => _claim_new
  | AfterLosingClaim e => _after_losing_claim e
  | ClaimAndCreate e => _claim_and_create e
  | WaitForReady e => _wait_for_ready e
  | Poll n d e => _poll n d e
  end.

(** [None] stands for running out of fuel. *)
Fixpoint resume (fuel : nat) (n : next) : prog provE (option IndexRegistryEntry) :=
  match n with
  | Done e => Ret (Some e)
  | _ => match fuel with
         | O => Ret None
         | S fuel' => pbind (step n) (resume fuel')
         end
  end.

Definition ensure (fuel : nat) : prog provE (option IndexRegistryEntry) :=
  entry ← call (RGetEntry (sc_index_name scenario));
  match entry with
  | None => resume fuel ClaimNew
  | Some entry => n ← _dispatch_existing entry; resume fuel n
  end.
End methods.
End provisioner.

End Provisioner.
