(* ===== verification/ProvisionerLogic.v ===== *)
(** * The program logic of the provisioner

    What [ensure] does to its registry and its vector store is argued once, for any system it may
    run in: [ProvLogic] is a judgement [psafe P p w] (run from the world [w] among other workers,
    the program [p] keeps the system's invariant, and what it returns satisfies [P] from then on),
    with what a worker knows of an entry it has read and of the live indexes; [ProvRules] are the
    rules the judgement must validate, one for each call the methods make. From them alone follows
    that [ensure] only returns a ready entry of its index ([psafe_ensure]).

    [ProvisionerSafety] validates the rules for a registry and a vector store with atomic calls,
    [Deployment] for the two Azure services over an unreliable network. *)
From S2P Require Import Prelude PyDict Types Prog Registry Templates Provisioner.
#[local] Open Scope Z_scope.

Module ProvisionerLogic.
Import Registry Templates Provisioner.

#[local] Arguments pbind : simpl never.
#[local] Arguments attempt : simpl never.
#[local] Arguments call : simpl never.

(** ** How an entry may evolve *)

(** The fields no operation changes. *)
Definition core (e : IndexRegistryEntry) :=
  (en_index_name e, en_vertical e, en_scenario_id e, en_template_id e, en_template_version e,
   en_dimensions e, en_metric e, en_embedding_model e, en_created_at e, en_document_count e).

(** A claim is renewed, or ends in [ready] or [failed]; a [ready] entry is only verified again;
    [failed] and [retired] entries are final. *)
Definition evolves (e e' : IndexRegistryEntry) : Prop :=
  core e' = core e ∧
  match en_status e, en_status e' with
  | provisioning, provisioning => e' = e ∨ ∃ tok now, e' = reclaimed tok now e
  | provisioning, ready | provisioning, failed => True
  | ready, ready => e' = e ∨ ∃ now, e' = touched now e
  | failed, failed | retired, retired => e' = e
  | _, _ => False
  end.

#[export] Instance evolves_preorder : PreOrder evolves.
Proof.
  split.
  - intros e. split; [done|]. destruct (en_status e); auto.
  - intros e1 e2 e3 [H1 H1'] [H2 H2']. split; [congruence|].
    destruct (en_status e1), (en_status e2), (en_status e3); try done; subst; eauto.
    + destruct H1' as [->|(t1 & n1 & ->)]; [done|]. destruct H2' as [->|(t2 & n2 & ->)]; eauto.
    + destruct H1' as [->|(n1 & ->)]; [done|]. destruct H2' as [->|(n2 & ->)]; eauto.
Qed.

(** The schema an entry records. *)
Definition recorded (e : IndexRegistryEntry) : IndexDescription := mkDescription (en_dimensions e) (en_metric e).

(** ** The judgement and its rules *)

Class ProvLogic := {
  pl_world : Type;
  pl_ok : pl_world → Prop;
  pl_moves : pl_world → pl_world → Prop;
  (** The live indexes; an entry the worker once read under a name; the names a vertical may claim. *)
  pl_live : pl_world → string → option IndexDescription;
  pl_seen : pl_world → string → IndexRegistryEntry → Prop;
  pl_claimable : string → string → Prop;
  psafe {A} : (A → pl_world → Prop) → prog provE A → pl_world → Prop;
}.

Class ProvRules (logic : ProvLogic) := {
  pl_preorder :: PreOrder pl_moves;
  pl_live_moves w w' n d : pl_moves w w' → pl_live w n = Some d → pl_live w' n = Some d;
  pl_seen_moves w w' n e : pl_moves w w' → pl_seen w n e → pl_seen w' n e;
  pl_seen_name w n e : pl_seen w n e → en_index_name e = n;
  pl_seen_token w n e : pl_seen w n e → is_Some (en_claim_token e) → en_status e = provisioning;

  psafe_bind {A B} (P : A → pl_world → Prop) (Q : B → pl_world → Prop) p f w :
    pl_ok w → psafe P p w → (∀ a w', pl_moves w w' → pl_ok w' → P a w' → psafe Q (f a) w') → psafe Q (pbind p f) w;
  psafe_attempt {A} (P : A → pl_world → Prop) p w :
    psafe P p w → psafe (λ r w, match r with Ok a => P a w | Exc _ => True end) (attempt p) w;
  psafe_ret {A} (P : A → pl_world → Prop) a w : (∀ w', pl_moves w w' → pl_ok w' → P a w') → psafe P (Ret a) w;
  psafe_raise {A} (P : A → pl_world → Prop) x w : psafe P (Raise x) w;
  psafe_weaken {A} (P Q : A → pl_world → Prop) p w :
    (∀ a w', pl_moves w w' → pl_ok w' → P a w' → Q a w') → psafe P p w → psafe Q p w;

  psafe_clock w : pl_ok w → psafe (λ _ _, True) (perform Clock) w;
  psafe_token w : pl_ok w → psafe (λ _ _, True) (perform NewToken) w;
  psafe_sleep d w : pl_ok w → psafe (λ _ _, True) (call (Sleep d)) w;
  psafe_get n w : pl_ok w → psafe (λ o w, ∀ e, o = Some e → pl_seen w n e) (call (RGetEntry n)) w;
  psafe_register e w :
    pl_ok w → pl_claimable (en_vertical e) (en_index_name e) →
    en_status e = provisioning → is_Some (en_claim_token e) → is_Some (en_resolved_template e) →
    psafe (λ x w, pl_seen w (en_index_name e) x) (call (RRegister e)) w;
  psafe_reclaim n o tok now w :
    pl_ok w → pl_seen w n o → en_status o = provisioning →
    psafe (λ x w, pl_seen w n x ∧ en_status x = provisioning) (call (RReclaim n o (reclaimed tok now o))) w;
  psafe_touch n e w :
    pl_ok w → pl_seen w n e → en_status e = ready → psafe (λ x w, pl_seen w n x ∧ en_status x = ready) (call (RTouch n)) w;
  psafe_ready n won w :
    pl_ok w → pl_seen w n won → en_status won = provisioning → pl_live w n = Some (recorded won) →
    psafe (λ x w, pl_seen w n x ∧ en_status x = ready) (call (RReady n (en_claim_token won))) w;
  psafe_failed n m won w :
    pl_ok w → pl_seen w n won → en_status won = provisioning → psafe (λ _ _, True) (call (RFailed n m (en_claim_token won))) w;
  psafe_exists n w : pl_ok w → psafe (λ _ _, True) (call (AExists n)) w;
  psafe_describe n w : pl_ok w → psafe (λ o w, ∀ d, o = Some d → pl_live w n = Some d) (call (ADescribe n)) w;
  psafe_create n t d m w : pl_ok w → psafe (λ _ _, True) (call (ACreate n t d m)) w;
}.

Section logic.
Context {logic : ProvLogic} {rules : ProvRules logic} {env : ProvisionerEnv}.

Lemma psafe_lift {A} (P : A → pl_world → Prop) (r : result exn A) w :
  (∀ a w', pl_moves w w' → pl_ok w' → r = Ok a → P a w') → psafe P (lift r) w.
Proof. intros H. destruct r as [a|x]; [|apply psafe_raise]. apply psafe_ret. auto. Qed.


Lemma psafe_call_adapter {A} n (fn : provE (result exn A)) (P : A → pl_world → Prop) w :
  (∀ a w w', pl_moves w w' → P a w → P a w') → pl_ok w → psafe P (call fn) w → psafe P (_call_adapter n fn) w.
Proof.
  intros Hst Hw H. unfold _call_adapter. eapply psafe_bind; [done|by apply psafe_attempt|]. simpl.
  intros [a|x] w' Hm Hw' HP; [by apply psafe_ret; eauto|]. destruct x; apply psafe_raise.
Qed.

Lemma psafe_absorb (fn : provE (result exn IndexRegistryEntry)) P w :
  pl_ok w → psafe P (call fn) w → psafe (λ _ _, True) (_absorb_conflict fn) w.
Proof.
  intros Hw H. unfold _absorb_conflict. eapply psafe_bind; [done|by apply psafe_attempt|]. simpl.
  intros [a|x] w' Hm Hw' HP; [by apply psafe_ret|]. destruct (conflict x); [by apply psafe_ret|apply psafe_raise].
Qed.

Section methods.
Context (config : ProvisioningConfig) (templates : list (string * IndexTemplate)) (scenario : Scenario).
Context (Hscenario : pl_claimable (sc_vertical scenario) (sc_index_name scenario)).

(** What holds when a method goes on with a call. *)
Definition next_ok (nx : next) (w : pl_world) : Prop :=
  match nx with
  | Done e => pl_seen w (sc_index_name scenario) e ∧ en_status e = ready
  | ClaimNew => True
  | AfterLosingClaim e => pl_seen w (sc_index_name scenario) e
  | ClaimAndCreate e | WaitForReady e => pl_seen w (sc_index_name scenario) e ∧ en_status e = provisioning
  | Poll n _ e => n = sc_index_name scenario ∧ pl_seen w n e ∧ en_status e = provisioning
  end.

Lemma next_ok_moves nx w w' : pl_moves w w' → next_ok nx w → next_ok nx w'.
Proof. intros Hm. destruct nx; simpl; naive_solver eauto using pl_seen_moves. Qed.

Lemma psafe_next nx w : next_ok nx w → psafe next_ok (Ret nx) w.
Proof. intros H. apply psafe_ret. intros w' Hm _. by eapply next_ok_moves. Qed.

Lemma psafe_verify e w :
  pl_ok w → pl_seen w (sc_index_name scenario) e → en_status e = ready →
  psafe next_ok (_verify config templates scenario e) w.
Proof.
  intros Hw He Hs. unfold _verify. eapply psafe_bind; [done|by apply (psafe_lift (λ _ _, True))|].
  intros [[t d] m] w1 Hm1 Hw1 _. eapply psafe_bind; [done|apply (psafe_call_adapter _ _ (λ _ _, True)); [done..|]|].
  { eapply psafe_weaken; [|by apply psafe_describe]. done. }
  intros o w2 Hm2 Hw2 _. eapply psafe_bind; [done|by apply (psafe_lift (λ _ _, True))|].
  intros [] w3 Hm3 Hw3 _; [apply psafe_raise|].
  rewrite (pl_seen_name _ _ _ He). eapply psafe_bind; [done|eapply psafe_touch; [done| |exact Hs]|].
  { eapply pl_seen_moves; [|exact He]. by do 2 (etrans; [eassumption|]). }
  intros x w4 Hm4 Hw4 [Hx Hxs]. by apply psafe_next.
Qed.

Lemma psafe_dispatch e w :
  pl_ok w → pl_seen w (sc_index_name scenario) e → psafe next_ok (_dispatch_existing config templates scenario e) w.
Proof.
  intros Hw He. unfold _dispatch_existing. destruct (en_status e) eqn:Hs; [by apply psafe_next| |apply psafe_raise..].
  unfold _handle_ready. destruct (en_last_verified_at e) as [t|]; [|by apply psafe_verify].
  eapply psafe_bind; [done|by apply psafe_clock|]. intros now w' Hm Hw' _.
  assert (He' : pl_seen w' (sc_index_name scenario) e) by (by eapply pl_seen_moves).
  destruct (_elapsed _ _ _); [by apply psafe_verify|by apply psafe_next].
Qed.

Lemma psafe_after_losing e w : pl_seen w (sc_index_name scenario) e → psafe next_ok (_after_losing_claim e) w.
Proof. intros He. unfold _after_losing_claim. destruct (en_status e) eqn:Hs; [by apply psafe_next..|apply psafe_raise|apply psafe_raise]. Qed.

Lemma psafe_claim_new w : pl_ok w → psafe next_ok (_claim_new config templates scenario) w.
Proof.
  intros Hw. unfold _claim_new. destruct (auto_create config); cbn [negb]; [|apply psafe_raise].
  eapply psafe_bind; [done|by apply (psafe_lift (λ _ _, True))|]. intros [[t d] m] w1 Hm1 Hw1 _.
  eapply psafe_bind; [done|by apply psafe_clock|]. intros now w2 Hm2 Hw2 _.
  eapply psafe_bind; [done|by apply psafe_token|]. intros tok w3 Hm3 Hw3 _.
  eapply psafe_bind; [done|by apply psafe_register; [..|eexists|eexists]|]. simpl. intros x w4 Hm4 Hw4 Hx.
  case_decide as Htok; [|by apply psafe_next]. apply psafe_next. split; [done|].
  eapply pl_seen_token; [exact Hx|]. rewrite Htok. by eexists.
Qed.

Lemma psafe_finalize won w :
  pl_ok w → pl_seen w (sc_index_name scenario) won → en_status won = provisioning →
  pl_live w (sc_index_name scenario) = Some (recorded won) → psafe next_ok (_finalize_ready won) w.
Proof.
  intros Hw He Hs Hl. unfold _finalize_ready. rewrite (pl_seen_name _ _ _ He).
  eapply psafe_bind; [done|by apply psafe_attempt, psafe_ready|]. simpl.
  intros [x|x] w1 Hm1 Hw1 Hx; [by apply psafe_next|]. destruct (conflict x); [|apply psafe_raise].
  eapply psafe_bind; [done|by apply psafe_get|]. simpl. intros [c|] w2 Hm2 Hw2 Hc; apply psafe_next; [|done]. by apply Hc.
Qed.

Lemma psafe_create_if_missing won w :
  pl_ok w → pl_seen w (sc_index_name scenario) won → en_status won = provisioning →
  psafe (λ _ _, True) (_create_if_missing won) w.
Proof.
  intros Hw He Hs. unfold _create_if_missing. rewrite (pl_seen_name _ _ _ He).
  eapply psafe_bind; [done|apply (psafe_call_adapter _ _ (λ _ _, True)); [done..|by apply psafe_exists]|]. simpl.
  intros [] w1 Hm1 Hw1 _; [by apply psafe_ret|]. destruct (en_resolved_template won) as [t|]; [|apply psafe_raise].
  eapply psafe_bind; [done|apply psafe_attempt, (psafe_call_adapter _ _ (λ _ _, True)); [done..|by apply psafe_create]|]. simpl.
  intros [x|x] w2 Hm2 Hw2 _; [by apply psafe_ret|].
  eapply psafe_bind; [done|eapply psafe_absorb; [done|apply psafe_failed; [done| |done]]|intros; apply psafe_raise].
  eapply pl_seen_moves; [|exact He]. by etrans.
Qed.

Lemma psafe_claim_and_create won w :
  pl_ok w → pl_seen w (sc_index_name scenario) won → en_status won = provisioning → psafe next_ok (_claim_and_create won) w.
Proof.
  intros Hw He Hs. unfold _claim_and_create.
  eapply psafe_bind; [done|by apply psafe_create_if_missing|]. intros [] w1 Hm1 Hw1 _.
  assert (He1 : pl_seen w1 (sc_index_name scenario) won) by (by eapply pl_seen_moves).
  eapply psafe_bind; [done|apply psafe_call_adapter; [|done|by apply psafe_describe]|].
  { intros a w2 w3 Hm Ha d ->. eauto using pl_live_moves. }
  simpl. intros o w2 Hm2 Hw2 Ho. rewrite (pl_seen_name _ _ _ He) in Ho.
  assert (He2 : pl_seen w2 (sc_index_name scenario) won) by (by eapply pl_seen_moves).
  case_decide as Hd; [apply psafe_finalize; auto|].
  rewrite (pl_seen_name _ _ _ He).
  eapply psafe_bind; [done|eapply psafe_absorb; [done|by apply psafe_failed]|intros; apply psafe_raise].
Qed.

Lemma psafe_try_reclaim o w :
  pl_ok w → pl_seen w (sc_index_name scenario) o → en_status o = provisioning →
  psafe (λ r w, ∀ e, r = Some e → pl_seen w (sc_index_name scenario) e ∧ en_status e = provisioning) (_try_reclaim o) w.
Proof.
  intros Hw He Hs. unfold _try_reclaim. rewrite (pl_seen_name _ _ _ He).
  eapply psafe_bind; [done|by apply psafe_token|]. intros tok w1 Hm1 Hw1 _.
  eapply psafe_bind; [done|by apply psafe_clock|]. intros now w2 Hm2 Hw2 _.
  eapply psafe_bind; [done|apply psafe_attempt, psafe_reclaim; [done| |done]|].
  { eapply pl_seen_moves; [|exact He]. by etrans. }
  simpl. intros [x|x] w3 Hm3 Hw3 Hx; [|destruct (conflict x); [by apply psafe_ret|apply psafe_raise]].
  destruct Hx as [Hx Hxs].
  apply psafe_ret. intros w4 Hm4 _ e [= <-]. split; [by eapply pl_seen_moves|done].
Qed.

Lemma psafe_poll dl e w :
  pl_ok w → pl_seen w (sc_index_name scenario) e → en_status e = provisioning →
  psafe next_ok (_poll config (sc_index_name scenario) dl e) w.
Proof.
  intros Hw He Hs. unfold _poll. eapply (psafe_bind (λ _ _, True)); [done| |].
  { unfold _is_stale. destruct (en_claimed_at e); [|by apply psafe_ret].
    eapply psafe_bind; [done|by apply psafe_clock|]. intros; by apply psafe_ret. }
  intros stale w1 Hm1 Hw1 _.
  eapply (psafe_bind (λ r w, ∀ e, r = Some e → pl_seen w (sc_index_name scenario) e ∧ en_status e = provisioning)); [done| |].
  { destruct stale; [apply psafe_try_reclaim; eauto using pl_seen_moves|by apply psafe_ret]. }
  intros [x|] w2 Hm2 Hw2 Hx; [apply psafe_next; by apply Hx|].
  eapply psafe_bind; [done|by apply psafe_clock|]. intros now w3 Hm3 Hw3 _.
  case_bool_decide; [apply psafe_raise|].
  eapply psafe_bind; [done|by apply psafe_sleep|]. intros [] w4 Hm4 Hw4 _.
  eapply psafe_bind; [done|by apply psafe_get|]. simpl. intros [c|] w5 Hm5 Hw5 Hc; [|by apply psafe_next].
  specialize (Hc c eq_refl). destruct (decide (en_status c ≠ provisioning)) as [?|?%dec_stable]; by apply psafe_next.
Qed.

Lemma psafe_step nx w : pl_ok w → next_ok nx w → psafe next_ok (step config templates scenario nx) w.
Proof.
  intros Hw. destruct nx; simpl.
  - intros ?. by apply (psafe_next (Done entry)).
  - intros _. by apply psafe_claim_new.
  - apply psafe_after_losing.
  - intros [? ?]. by apply psafe_claim_and_create.
  - intros [He Hs]. unfold _wait_for_ready. eapply psafe_bind; [done|by apply psafe_clock|]. intros now w' Hm Hw' _.
    apply psafe_next. simpl. rewrite (pl_seen_name _ _ _ He). eauto using pl_seen_moves.
  - intros (-> & ? & ?). by apply psafe_poll.
Qed.

(** What [ensure] promises of its result. *)
Definition returned_ok (o : option IndexRegistryEntry) (w : pl_world) : Prop :=
  ∀ e, o = Some e → pl_seen w (sc_index_name scenario) e ∧ en_status e = ready.

Lemma psafe_resume fuel nx w : pl_ok w → next_ok nx w → psafe returned_ok (resume config templates scenario fuel nx) w.
Proof.
  assert (Hdone : ∀ e w, next_ok (Done e) w → psafe returned_ok (Ret (Some e)) w).
  { intros e w' H. apply psafe_ret. intros w'' Hm _ e' [= <-]. by apply (next_ok_moves (Done e) w'). }
  revert nx w. induction fuel as [|fuel IH]; intros nx w Hw Hnx.
  - destruct nx; simpl; try (by apply psafe_ret); by apply Hdone.
  - assert (Hstep : psafe returned_ok (pbind (step config templates scenario nx) (resume config templates scenario fuel)) w).
    { eapply psafe_bind; [done|by apply psafe_step|]. intros nx' w' _ Hw' Hnx'. by apply IH. }
    destruct nx; try exact Hstep. by apply Hdone.
Qed.

Lemma psafe_ensure fuel w : pl_ok w → psafe returned_ok (ensure config templates scenario fuel) w.
Proof.
  intros Hw. unfold ensure. eapply psafe_bind; [done|by apply psafe_get|]. simpl.
  intros [e|] w1 Hm1 Hw1 He; [|by apply psafe_resume].
  eapply psafe_bind; [done|by apply psafe_dispatch; [|apply He]|]. intros nx w2 Hm2 Hw2 Hnx. by apply psafe_resume.
Qed.
End methods.

End logic.
End ProvisionerLogic.
