(* ===== verification/ProvisionerSafety.v ===== *)
(** * The claim protocol under concurrency

    Any number of workers run [ensure] at the same time, on any scenarios, with any interleaving
    of their calls. Against the laws of the registry and of the store's adapter: the entries only
    evolve along the protocol, a [ready] entry always describes a live index, and what [ensure]
    returns is such an entry. *)
From S2P Require Import Prelude PyDict Types Prog Rely Registry Templates Provisioner ProvisionerLogic.
#[local] Open Scope Z_scope.

Module ProvisionerSafety.
Import Registry Templates Provisioner.
Export ProvisionerLogic.

#[local] Arguments pbind : simpl never.
#[local] Arguments attempt : simpl never.
#[local] Arguments call : simpl never.

(** What [IndexProvisionerAdapter] documents, in terms of the live indexes [described st] of a
    state: the questions are answered truthfully, and a live index never changes its schema. *)
Class AdapterLaws {env : ProvisionerEnv} (described : adapter_state → string → option IndexDescription) := {
  exists_law n st r st' : pa_index_exists n st = (r, st') →
    (∀ k, described st' k = described st k) ∧ ∀ b, r = Ok b → b = bool_decide (is_Some (described st n));
  describe_law n st r st' : pa_describe_index n st = (r, st') →
    (∀ k, described st' k = described st k) ∧ ∀ o, r = Ok o → o = described st n;
  create_law n t d m st r st' : pa_create_index n t d m st = (r, st') →
    ∀ k x, described st k = Some x → described st' k = Some x;
}.

(** A creation that returns has established the requested schema. The provisioner's safety does
    not rely on it: it looks at the index again before it marks the entry as ready. *)
Class CreateLaws {env : ProvisionerEnv} (described : adapter_state → string → option IndexDescription) := {
  create_establishes n t d m st st' : pa_create_index n t d m st = (Ok tt, st') → described st' n = Some (mkDescription d m);
}.

Section safety.
Context {env : ProvisionerEnv} (view : reg_state → gmap string IndexRegistryEntry) `{!RegistryLaws view}.
Context (described : adapter_state → string → option IndexDescription) `{!AdapterLaws described}.

Definition entry_at (w : pworld) (n : string) : option IndexRegistryEntry := view (pw_registry w) !! n.
Definition live (w : pworld) (n : string) : option IndexDescription := described (pw_adapter w) n.

(** ** The invariant

    A claim carries its token and its template; every other entry has no token; a [ready] entry
    records the schema of a live index. *)
Definition entry_ok (w : pworld) (n : string) (e : IndexRegistryEntry) : Prop :=
  en_index_name e = n ∧
  match en_status e with
  | provisioning => is_Some (en_claim_token e) ∧ is_Some (en_resolved_template e)
  | ready => en_claim_token e = None ∧ live w n = Some (recorded e)
  | failed | retired => en_claim_token e = None
  end.

Definition registry_ok (w : pworld) : Prop := ∀ n e, entry_at w n = Some e → entry_ok w n e.

(** How the shared state moves. *)
Definition moves (w w' : pworld) : Prop :=
  (∀ n e, entry_at w n = Some e → ∃ e', entry_at w' n = Some e' ∧ evolves e e') ∧
  (∀ n d, live w n = Some d → live w' n = Some d).

#[export] Instance moves_preorder : PreOrder moves.
Proof.
  split.
  - intros w. split; [|done]. intros n e ?. exists e. by split.
  - intros w1 w2 w3 [H1 L1] [H2 L2]. split; [|auto]. intros n e (e' & He' & ?)%H1.
    destruct (H2 n e' He') as (e'' & ? & ?). exists e''. split; [done|]. by etrans.
Qed.

(** What a worker knows of an entry it once read. *)
Definition seen (w : pworld) (n : string) (e : IndexRegistryEntry) : Prop :=
  entry_ok w n e ∧ ∃ e', entry_at w n = Some e' ∧ evolves e e'.

Lemma entry_ok_moves w w' n e : moves w w' → entry_ok w n e → entry_ok w' n e.
Proof. intros [_ HL] [? H]. split; [done|]. destruct (en_status e); try done. naive_solver. Qed.

Lemma seen_moves w w' n e : moves w w' → seen w n e → seen w' n e.
Proof.
  intros Hm [Hok (e' & He' & Hev)]. split; [by eapply entry_ok_moves|].
  destruct Hm as [Hm _]. destruct (Hm n e' He') as (e'' & ? & ?). exists e''. split; [done|]. by etrans.
Qed.

Lemma live_moves w w' n d : moves w w' → live w n = Some d → live w' n = Some d.
Proof. intros [_ HL]. apply HL. Qed.

Lemma seen_name w n e : seen w n e → en_index_name e = n.
Proof. by intros [[? _] _]. Qed.

Lemma seen_token w n e : seen w n e → is_Some (en_claim_token e) → en_status e = provisioning.
Proof. intros [[_ Hok] _] [t Ht]. destruct (en_status e); [done|destruct Hok; congruence|congruence..]. Qed.

Lemma registry_seen w n e : registry_ok w → entry_at w n = Some e → seen w n e.
Proof. intros Hw He. split; [by apply Hw|]. by exists e. Qed.

(** ** Moves of the shared state *)

(** Nothing observable changed. *)
Lemma moves_same w w' :
  view (pw_registry w') = view (pw_registry w) → (∀ n, live w' n = live w n) → registry_ok w →
  registry_ok w' ∧ moves w w'.
Proof.
  intros Hv Hl Hw. assert (Hm : moves w w').
  { split; [|intros n d; by rewrite Hl]. intros n e He. exists e. unfold entry_at in *. by rewrite Hv. }
  split; [|done]. intros n e He. apply (entry_ok_moves w w'); [done|]. apply Hw. unfold entry_at in *. by rewrite <- Hv.
Qed.

(** One entry was stored. *)
Lemma moves_store w w' n e' :
  view (pw_registry w') = <[n := e']> (view (pw_registry w)) → pw_adapter w' = pw_adapter w → registry_ok w →
  (∀ e, entry_at w n = Some e → evolves e e') → entry_ok w n e' →
  registry_ok w' ∧ moves w w' ∧ seen w' n e'.
Proof.
  intros Hv Ha Hw Hev Hok. assert (Hl : ∀ k, live w' k = live w k) by (intros; unfold live; by rewrite Ha).
  assert (He : ∀ k, entry_at w' k = if decide (n = k) then Some e' else entry_at w k).
  { intros k. unfold entry_at. by rewrite Hv, lookup_insert. }
  assert (Hm : moves w w').
  { split; [|intros k d; by rewrite Hl]. intros k e Hk. rewrite He. case_decide; [subst; eauto|by exists e]. }
  assert (Hw' : registry_ok w').
  { intros k e. rewrite He. case_decide; [intros [= <-]; subst|intros ?]; apply (entry_ok_moves w w'); auto. }
  split_and!; [done..|]. apply registry_seen; [done|]. rewrite He. by rewrite decide_True.
Qed.

(** The live indexes only gained one. *)
Lemma moves_adapter w w' :
  pw_registry w' = pw_registry w → (∀ n d, live w n = Some d → live w' n = Some d) → registry_ok w →
  registry_ok w' ∧ moves w w'.
Proof.
  intros Hr Hl Hw. assert (Hm : moves w w') by (split; [unfold entry_at; rewrite Hr; intros n e ?; by exists e|done]).
  split; [|done]. intros n e He. apply (entry_ok_moves w w'); [done|]. apply Hw. unfold entry_at in *. by rewrite <- Hr.
Qed.

(** One conditional write of the registry. *)
Lemma moves_writes w w' n guard f r :
  writes (view (pw_registry w)) (view (pw_registry w')) n guard f r → pw_adapter w' = pw_adapter w → registry_ok w →
  (∀ e, entry_at w n = Some e → guard e → evolves e (f e) ∧ entry_ok w n (f e)) →
  registry_ok w' ∧ moves w w' ∧
  match r with Ok x => seen w' n x ∧ ∃ e, entry_at w n = Some e ∧ guard e ∧ x = f e | Exc _ => True end.
Proof.
  intros Hr Ha Hw Hf. destruct r as [x|x]; simpl in Hr.
  - destruct Hr as (e & He & Hg & -> & Hv). destruct (Hf e He Hg) as [Hev Hok].
    destruct (moves_store w w' n (f e) Hv Ha Hw) as (? & ? & ?); [|done|].
    + intros e0 He0. unfold entry_at in He0. congruence.
    + split_and!; eauto.
  - destruct Hr as [Hv _]. destruct (moves_same w w' Hv) as [? ?]; [intros; unfold live; by rewrite Ha|done|]. done.
Qed.

(** ** Safe calls *)

Notation asafe := (returns phandle registry_ok moves).

(** A call, from what it does to the state it finds. *)
Lemma asafe_call {A} (P : A → pworld → Prop) (e : provE (result exn A)) w :
  (∀ w' a w'', moves w w' → moves w' w'' → P a w' → P a w'') →
  (∀ w' r w'', moves w w' → registry_ok w' → phandle _ e w' = (r, w'') →
     registry_ok w'' ∧ moves w' w'' ∧ match r with Ok a => P a w'' | Exc _ => True end) →
  asafe P (call e) w.
Proof.
  intros Hstable Hcall. apply safe_call. intros w' Hm Hw. destruct (phandle _ e w') as [r w''] eqn:Hh. simpl.
  destruct (Hcall w' r w'' Hm Hw Hh) as (? & Hm' & HP). split_and!; [done..|]. intros w3 Hm3 Hw3. destruct r; [|done].
  apply (Hstable w''); [by etrans|done..].
Qed.

Lemma asafe_perform {A} (e : provE A) w :
  (∀ w' r w'', phandle _ e w' = (r, w'') → pw_registry w'' = pw_registry w' ∧ pw_adapter w'' = pw_adapter w') →
  asafe (λ _ _, True) (perform e) w.
Proof.
  intros Hcall. apply safe_perform. intros w' Hm Hw. destruct (phandle _ e w') as [r w''] eqn:Hh. simpl.
  destruct (Hcall w' r w'' Hh) as [Hr Ha]. destruct (moves_same w' w'') as [? ?]; [by rewrite Hr| |done|done].
  intros. unfold live. by rewrite Ha.
Qed.

Lemma asafe_clock w : asafe (λ _ _, True) (perform Clock) w.
Proof. apply asafe_perform. by intros w' r w'' [= <- <-]. Qed.

Lemma asafe_token w : asafe (λ _ _, True) (perform NewToken) w.
Proof. apply asafe_perform. by intros w' r w'' [= <- <-]. Qed.

Lemma asafe_sleep d w : asafe (λ _ _, True) (call (Sleep d)) w.
Proof.
  apply asafe_call; [done|]. intros w' r w'' _ Hw. simpl. case_bool_decide; intros [= <- <-]; [by split_and!|].
  destruct (moves_same w' (elapse d w')) as [? ?]; done.
Qed.

Lemma reg_call_eq {A} (f : reg_state → result exn A * reg_state) w r w' :
  reg_call f w = (r, w') → f (pw_registry w) = (r, pw_registry w') ∧ pw_adapter w' = pw_adapter w.
Proof. unfold reg_call. destruct (f (pw_registry w)) as [r0 st] eqn:E. by intros [= -> <-]. Qed.

Lemma adapter_call_eq {A} (f : adapter_state → result exn A * adapter_state) w r w' :
  adapter_call f w = (r, w') → f (pw_adapter w) = (r, pw_adapter w') ∧ pw_registry w' = pw_registry w.
Proof. unfold adapter_call. destruct (f (pw_adapter w)) as [r0 st] eqn:E. by intros [= -> <-]. Qed.

Lemma asafe_get n w : asafe (λ o w, ∀ e, o = Some e → seen w n e) (call (RGetEntry n)) w.
Proof.
  apply asafe_call; [intros; eapply seen_moves; eauto|].
  intros w' r w'' _ Hw [Hg Ha]%reg_call_eq. apply get_law in Hg as [Hv Ho].
  destruct (moves_same w' w'' Hv) as [Hw'' Hm]; [intros; unfold live; by rewrite Ha|done|]. split_and!; [done..|].
  destruct r as [o|x]; [|done]. intros e ->. apply registry_seen; [done|]. unfold entry_at. rewrite Hv. by rewrite (Ho _ eq_refl).
Qed.

Lemma asafe_register e w :
  en_status e = provisioning → is_Some (en_claim_token e) → is_Some (en_resolved_template e) →
  asafe (λ x w, seen w (en_index_name e) x) (call (RRegister e)) w.
Proof.
  intros Hs Ht Hr. assert (Hok : ∀ w', entry_ok w' (en_index_name e) e) by (intros; split; [done|by rewrite Hs]).
  apply asafe_call; [intros; eapply seen_moves; eauto|].
  intros w' r w'' _ Hw [Hg Ha]%reg_call_eq. apply register_law in Hg. destruct r as [x|x].
  - destruct Hg as [Hv Hx]. destruct (view (pw_registry w') !! en_index_name e) as [e0|] eqn:He.
    + destruct (moves_same w' w'' Hv) as [Hw'' Hm]; [intros; unfold live; by rewrite Ha|done|]. split_and!; [done..|]. by apply registry_seen.
    + destruct (moves_store w' w'' (en_index_name e) e Hv Ha Hw) as (? & ? & ?); [unfold entry_at; naive_solver|done|].
      rewrite Hv, lookup_insert_eq in Hx. injection Hx as <-. done.
  - destruct Hg as [Hv _]. destruct (moves_same w' w'' Hv) as [? ?]; [intros; unfold live; by rewrite Ha|done|]. done.
Qed.

(** The stored entry an operation meets is the one the worker has seen, evolved. *)
Lemma seen_stored w n e c : seen w n e → entry_at w n = Some c → evolves e c.
Proof. intros [_ (e' & He' & ?)] ?. congruence. Qed.

Lemma asafe_reclaim n o tok now w :
  seen w n o → en_status o = provisioning →
  asafe (λ x w, seen w n x ∧ en_status x = provisioning) (call (RReclaim n o (reclaimed tok now o))) w.
Proof.
  intros Hseen Hs. apply asafe_call; [intros ? ? ? ? ? [? ?]; split; [by eapply seen_moves|done]|].
  intros w' r w'' Hm Hw [Hg Ha]%reg_call_eq. apply reclaim_law in Hg.
  destruct (moves_writes w' w'' _ _ _ _ Hg Ha Hw) as (? & ? & Hr).
  - intros e He ->. destruct (Hw n o He) as [Hn Hok]. rewrite Hs in Hok. split.
    + split; [done|]. simpl. rewrite Hs. eauto.
    + split; [done|]. simpl. rewrite Hs. naive_solver.
  - split_and!; [done..|]. destruct r; [|done]. naive_solver.
Qed.

Lemma asafe_touch n e w :
  seen w n e → en_status e = ready → asafe (λ x w, seen w n x ∧ en_status x = ready) (call (RTouch n)) w.
Proof.
  intros Hseen Hs. apply asafe_call; [intros ? ? ? ? ? [? ?]; split; [by eapply seen_moves|done]|].
  intros w' r w'' Hm Hw [Hg Ha]%reg_call_eq. apply touch_law in Hg. simpl in Ha.
  assert (Hready : ∀ c, entry_at w' n = Some c → en_status c = ready).
  { intros c Hc. destruct (seen_stored w' n e c) as [_ Hev]; [by eapply seen_moves|done|]. rewrite Hs in Hev. by destruct (en_status c). }
  destruct (moves_writes w' w'' _ _ _ _ Hg Ha Hw) as (? & ? & Hr).
  - intros c Hc _. destruct (Hw n c Hc) as [Hn Hok]. rewrite (Hready c Hc) in Hok. split.
    + split; [done|]. simpl. rewrite (Hready c Hc). eauto.
    + split; [done|]. simpl. by rewrite (Hready c Hc).
  - split_and!; [done..|]. destruct r; [|done]. destruct Hr as (? & c & Hc & _ & ->). split; [done|]. exact (Hready c Hc).
Qed.

(** A write that presents the token of a claim meets that claim: still [provisioning], with the
    schema the worker saw. *)
Lemma token_claim w n won c :
  registry_ok w → seen w n won → en_status won = provisioning → entry_at w n = Some c → token_ok (en_claim_token won) c →
  en_status c = provisioning ∧ core c = core won ∧ en_index_name c = n.
Proof.
  intros Hw Hseen Hs Hc Htok. destruct (seen_stored w n won c Hseen Hc) as [Hcore _]. destruct (Hw n c Hc) as [Hn Hok].
  destruct Hseen as [[_ Hwon] _]. rewrite Hs in Hwon. destruct Hwon as [[t Ht] _]. rewrite Ht in Htok.
  destruct Htok as [|Htok]; [done|]. split_and!; [|done..]. destruct (en_status c); [done|destruct Hok; congruence|congruence..].
Qed.

Lemma asafe_ready n won w :
  seen w n won → en_status won = provisioning → live w n = Some (recorded won) →
  asafe (λ x w, seen w n x ∧ en_status x = ready) (call (RReady n (en_claim_token won))) w.
Proof.
  intros Hseen Hs Hlive. apply asafe_call; [intros ? ? ? ? ? [? ?]; split; [by eapply seen_moves|done]|].
  intros w' r w'' Hm Hw [Hg Ha]%reg_call_eq. apply ready_law in Hg. simpl in Ha.
  destruct (moves_writes w' w'' _ _ _ _ Hg Ha Hw) as (? & ? & Hr).
  - intros c Hc Htok. destruct (token_claim w' n won c) as (Hcs & Hcore & Hn); [done|by eapply seen_moves|done..|].
    split; [split; [done|]; simpl; by rewrite Hcs|]. split; [done|]. simpl. split; [done|].
    unfold recorded. simpl. destruct Hm as [_ Hl]. rewrite (Hl _ _ Hlive). unfold recorded, core in *. congruence.
  - split_and!; [done..|]. destruct r; [|done]. naive_solver.
Qed.

Lemma asafe_failed n m won w :
  seen w n won → en_status won = provisioning →
  asafe (λ _ _, True) (call (RFailed n m (en_claim_token won))) w.
Proof.
  intros Hseen Hs. apply asafe_call; [done|].
  intros w' r w'' Hm Hw [Hg Ha]%reg_call_eq. apply failed_law in Hg.
  destruct (moves_writes w' w'' _ _ _ _ Hg Ha Hw) as (? & ? & Hr).
  - intros c Hc Htok. destruct (token_claim w' n won c) as (Hcs & Hcore & Hn); [done|by eapply seen_moves|done..|].
    split; [split; [done|]; simpl; by rewrite Hcs|]. by split.
  - split_and!; [done..|]. by destruct r.
Qed.

Lemma asafe_exists n w : asafe (λ _ _, True) (call (AExists n)) w.
Proof.
  apply asafe_call; [done|]. intros w' r w'' _ Hw [Hg Hr]%adapter_call_eq. apply exists_law in Hg as [Hl _].
  destruct (moves_same w' w'') as [? ?]; [by rewrite Hr|done..|]. split_and!; [done..|]. by destruct r.
Qed.

Lemma asafe_describe n w : asafe (λ o w, ∀ d, o = Some d → live w n = Some d) (call (ADescribe n)) w.
Proof.
  apply asafe_call; [intros w1 a w2 _ [_ Hl] H d ->; auto|].
  intros w' r w'' _ Hw [Hg Hr]%adapter_call_eq. apply describe_law in Hg as [Hl Ho].
  destruct (moves_same w' w'') as [? ?]; [by rewrite Hr|done..|]. split_and!; [done..|]. destruct r as [o|]; [|done].
  intros d ->. unfold live. rewrite Hl. by rewrite (Ho _ eq_refl).
Qed.

Lemma asafe_create n t d m w : asafe (λ _ _, True) (call (ACreate n t d m)) w.
Proof.
  apply asafe_call; [done|]. intros w' r w'' _ Hw [Hg Hr]%adapter_call_eq. pose proof (create_law _ _ _ _ _ _ _ Hg) as Hl.
  destruct (moves_adapter w' w'' Hr) as [? ?]; [intros; by apply Hl|done|]. split_and!; [done..|]. by destruct r.
Qed.

(** The calls of a registry and a vector store that are each atomic validate the rules. *)
Definition atomic_logic : ProvLogic := {|
  pl_world := pworld; pl_ok := registry_ok; pl_moves := moves; pl_live := live; pl_seen := seen; pl_claimable _ _ := True;
  psafe A := returns phandle registry_ok moves;
|}.

Lemma atomic_rules : ProvRules atomic_logic.
Proof.
  constructor; simpl; intros.
  - apply moves_preorder.
  - by eapply live_moves.
  - by eapply seen_moves.
  - by eapply seen_name.
  - by eapply seen_token.
  - by eapply returns_bind; [apply _|..].
  - by apply returns_attempt.
  - by apply returns_ret.
  - by apply returns_raise.
  - by eapply returns_weaken; [apply _|..].
  - apply asafe_clock.
  - apply asafe_token.
  - apply asafe_sleep.
  - apply asafe_get.
  - by apply asafe_register.
  - by apply asafe_reclaim.
  - by eapply asafe_touch.
  - by apply asafe_ready.
  - by apply asafe_failed.
  - apply asafe_exists.
  - apply asafe_describe.
  - apply asafe_create.
Qed.

Lemma ensure_safe config templates scenario fuel w :
  registry_ok w → asafe (returned_ok (logic := atomic_logic) scenario) (ensure config templates scenario fuel) w.
Proof. intros Hw. by apply (psafe_ensure (logic := atomic_logic) (rules := atomic_rules)). Qed.

(** ** Any number of workers *)

(** A worker: its configuration, the templates it loaded, the scenario it works on, and how many
    steps of [ensure] are looked at. *)
Record worker := mkWorker {
  wk_config : ProvisioningConfig; wk_templates : list (string * IndexTemplate); wk_scenario : Scenario; wk_fuel : nat }.

Definition worker_prog (k : worker) : prog provE (option IndexRegistryEntry) :=
  ensure (wk_config k) (wk_templates k) (wk_scenario k) (wk_fuel k).

Definition worker_post (workers : list worker) (i : nat) (r : result exn (option IndexRegistryEntry)) (w : pworld) : Prop :=
  match workers !! i, r with
  | Some k, Ok o => returned_ok (logic := atomic_logic) (wk_scenario k) o w
  | _, _ => True
  end.

Lemma workers_safe workers w i p :
  registry_ok w → map worker_prog workers !! i = Some p → safe phandle registry_ok moves (worker_post workers i) p w.
Proof.
  intros Hw Hp. rewrite list_lookup_fmap in Hp. unfold worker_post. destruct (workers !! i) as [k|]; [|done]. simpl in Hp.
  injection Hp as <-. by apply ensure_safe.
Qed.

(** C5: however the calls of concurrent [ensure]s interleave, whatever their scenarios,
    configurations and templates, and wherever the adapter or the registry fail: the registry
    stays consistent (every claim carries its token and its template, no finished entry carries
    a token, and every ready entry records the schema of a live index), every entry keeps its
    identity and moves only along the protocol (a claim is renewed or ends as ready or failed,
    a ready entry is only verified again, failed and retired entries never change), and no live
    index is lost. *)
Theorem claim_protocol_safe workers (w w' : pworld) pool' :
  registry_ok w → rtc (sched_step phandle) (map worker_prog workers, w) (pool', w') →
  registry_ok w' ∧ moves w w'.
Proof.
  intros Hw Hsteps.
  destruct (safe_pool phandle registry_ok moves (worker_post workers) _ _ w w' Hw (λ i p, workers_safe workers w i p Hw) Hsteps)
    as (? & ? & _). done.
Qed.

(** C9: whatever the other workers do, an [ensure] that returns gives a ready entry for its
    scenario's index, the index is live with the dimensions and metric the entry records, and
    the stored entry is the returned one up to later verifications. *)
Theorem ensure_returns_live workers (w w' : pworld) pool' i k e :
  registry_ok w → rtc (sched_step phandle) (map worker_prog workers, w) (pool', w') →
  workers !! i = Some k → pool' !! i = Some (Ret (Some e)) →
  en_status e = ready ∧ en_index_name e = sc_index_name (wk_scenario k) ∧
  live w' (sc_index_name (wk_scenario k)) = Some (recorded e) ∧
  ∃ e', entry_at w' (sc_index_name (wk_scenario k)) = Some e' ∧ (e' = e ∨ ∃ now, e' = touched now e).
Proof.
  intros Hw Hsteps Hk Hi.
  pose proof (safe_pool_ret phandle registry_ok moves (worker_post workers) _ _ w w' i _ Hw (λ i p, workers_safe workers w i p Hw) Hsteps Hi) as H.
  unfold worker_post in H. rewrite Hk in H. destruct (H e eq_refl) as [[[Hn Hok] (e' & He' & _ & Hev)] Hs]. rewrite Hs in Hok, Hev.
  split_and!; [done..|naive_solver|]. exists e'. split; [done|]. by destruct (en_status e').
Qed.
End safety.
End ProvisionerSafety.
