(* ===== verification/ProvisionerAlone.v ===== *)
(** * The provisioner with nobody else running

    What one [ensure] does from a given state when the other workers are idle, crashed ones
    included: it returns or raises after a bounded number of steps, it provisions a missing
    index, and it recovers the index of a worker that died holding the claim. *)
From S2P Require Import Prelude PyDict Types Prog Rely Registry Templates Provisioner ProvisionerSafety.
#[local] Open Scope Z_scope.

Module ProvisionerAlone.
Import Registry Templates Provisioner ProvisionerSafety.

#[local] Arguments pbind : simpl never.
#[local] Arguments attempt : simpl never.
#[local] Arguments call : simpl never.

Section alone.
Context {env : ProvisionerEnv} (view : reg_state → gmap string IndexRegistryEntry) `{!RegistryLaws view}.
Context (described : adapter_state → string → option IndexDescription) `{!AdapterLaws described} `{!CreateLaws described}.
(** The wall clock does not go back. *)
Context (Hdrift : ∀ n, 0 ≤ drift n).

Notation entry_at := (entry_at view).
Notation live := (live described).

(** The registry and the store answer: the registry raises nothing but conflicts, and an index
    that is missing, or has the requested schema already, can be created. *)
Record available : Prop := {
  av_get n st : ∃ o, (r_get n st).1 = Ok o;
  av_register e st : ∃ x, (r_register e st).1 = Ok x;
  av_reclaim n o e st x : (r_reclaim n o e st).1 = Exc x → conflict x = true;
  av_touch now n st x : (r_touch_verified now n st).1 = Exc x → conflict x = true;
  av_ready now n t st x : (r_mark_ready now n t st).1 = Exc x → conflict x = true;
  av_failed n m t st x : (r_mark_failed n m t st).1 = Exc x → conflict x = true;
  av_exists n st : ∃ b, (pa_index_exists n st).1 = Ok b;
  av_describe n st : ∃ o, (pa_describe_index n st).1 = Ok o;
  av_create n t d m st : described st n = None ∨ described st n = Some (mkDescription d m) → (pa_create_index n t d m st).1 = Ok tt;
}.

(** ** The outcome of a program run alone *)

Definition outcome {A} (Q : result exn A → pworld → Prop) (p : prog provE A) (w : pworld) : Prop :=
  Q (run phandle p w).1 (run phandle p w).2.

Lemma outcome_bind {A B} (Q : result exn B → pworld → Prop) (p : prog provE A) f w :
  outcome (λ r w', match r with Ok a => outcome Q (f a) w' | Exc x => Q (Exc x) w' end) p w → outcome Q (pbind p f) w.
Proof. unfold outcome. rewrite run_bind. by destruct (run phandle p w) as [[a|x] w']. Qed.

Lemma outcome_attempt {A} (Q : result exn (result exn A) → pworld → Prop) (p : prog provE A) w :
  outcome (λ r w', Q (Ok r) w') p w → outcome Q (attempt p) w.
Proof. unfold outcome. by rewrite run_attempt. Qed.

Lemma outcome_call {A} (Q : result exn A → pworld → Prop) (e : provE (result exn A)) w :
  (∀ r w', phandle _ e w = (r, w') → Q r w') → outcome Q (call e) w.
Proof. intros H. unfold outcome. rewrite run_call. destruct (phandle _ e w) as [r w']. by apply H. Qed.

Lemma outcome_lift {A} (Q : result exn A → pworld → Prop) (r : result exn A) w : Q r w → outcome Q (lift r) w.
Proof. unfold outcome. by rewrite run_lift. Qed.

Lemma outcome_weaken {A} (P Q : result exn A → pworld → Prop) p w : (∀ r w', P r w' → Q r w') → outcome P p w → outcome Q p w.
Proof. unfold outcome. auto. Qed.

(** Time passed, and nothing else happened. *)
Definition later (w w' : pworld) : Prop :=
  view (pw_registry w') = view (pw_registry w) ∧ (∀ n, live w' n = live w n) ∧ pw_time w ≤ pw_time w'.

(** The entry [e] was stored under [n], and nothing else happened. *)
Definition stored (n : string) (e : IndexRegistryEntry) (w w' : pworld) : Prop :=
  view (pw_registry w') = <[n := e]> (view (pw_registry w)) ∧ (∀ n, live w' n = live w n) ∧ pw_time w ≤ pw_time w'.

#[export] Instance later_preorder : PreOrder later.
Proof. split; [by intros w|]. intros w1 w2 w3 (? & H1 & ?) (? & H2 & ?). split_and!; [congruence| |lia]. intros n. by rewrite H2. Qed.

Lemma later_entry w w' n : later w w' → entry_at w' n = entry_at w n.
Proof. intros (Hv & _). unfold ProvisionerSafety.entry_at. by rewrite Hv. Qed.

Lemma stored_entry n e w w' : stored n e w w' → entry_at w' n = Some e.
Proof. intros (Hv & _). unfold ProvisionerSafety.entry_at. by rewrite Hv, lookup_insert_eq. Qed.

Lemma later_elapse d w : 0 ≤ d → later w (elapse d w) ∧ pw_time w + d ≤ pw_time (elapse d w).
Proof. intros Hd. specialize (Hdrift (pw_ticks w)). unfold elapse, pw_now, later. simpl. split_and!; try done; lia. Qed.

(** ** The calls *)

Lemma outcome_clock (Q : result exn Z → pworld → Prop) w :
  (∀ w', later w w' → pw_time w' = pw_now w → Q (Ok (pw_time w')) w') → outcome Q (perform Clock) w.
Proof.
  intros H. unfold outcome. rewrite run_perform. simpl.
  replace (pw_now w) with (pw_time (elapse 0 w)) by (unfold elapse; simpl; lia). apply H; [by apply later_elapse|]. simpl. lia.
Qed.

Lemma outcome_token (Q : result exn string → pworld → Prop) w :
  (∀ t w', later w w' → Q (Ok t) w') → outcome Q (perform NewToken) w.
Proof. intros H. unfold outcome. rewrite run_perform. simpl. by apply H. Qed.

Lemma outcome_sleep (Q : result exn unit → pworld → Prop) d w :
  0 ≤ d → (∀ w', later w w' → pw_time w + d ≤ pw_time w' → Q (Ok tt) w') → outcome Q (call (Sleep d)) w.
Proof.
  intros Hd H. apply outcome_call. simpl. rewrite bool_decide_eq_false_2 by lia. intros r w' [= <- <-].
  destruct (later_elapse d w Hd). by apply H.
Qed.

Lemma outcome_get (Q : result exn (option IndexRegistryEntry) → pworld → Prop) n w :
  (∀ w', later w w' → pw_now w' = pw_now w → Q (Ok (entry_at w n)) w') → (∀ x w', ¬ available → Q (Exc x) w') → outcome Q (call (RGetEntry n)) w.
Proof.
  intros Hok Hexc. apply outcome_call. simpl. unfold reg_call. intros r w'.
  destruct (r_get n (pw_registry w)) as [r0 st] eqn:Hg. intros [= -> <-]. destruct r as [o|x].
  - destruct (get_law _ _ _ _ Hg) as [Hv Ho]. rewrite (Ho o eq_refl). by apply Hok.
  - apply Hexc. intros Hav. destruct (av_get Hav n (pw_registry w)) as [o Ho]. rewrite Hg in Ho. done.
Qed.

(** A conditional write whose guard the stored entry passes. *)
Lemma outcome_write (Q : result exn IndexRegistryEntry → pworld → Prop) n guard f c w (call_ : reg_state → result exn IndexRegistryEntry * reg_state) w0 :
  entry_at w n = Some c → guard c → later w w0 →
  (∀ r st, call_ (pw_registry w0) = (r, st) → writes (view (pw_registry w0)) (view st) n guard f r) →
  (∀ x, available → (call_ (pw_registry w0)).1 = Exc x → conflict x = true) →
  (∀ w', stored n (f c) w w' → Q (Ok (f c)) w') → (∀ x w', conflict x = false → ¬ available → later w w' → Q (Exc x) w') →
  ∀ r w', reg_call call_ w0 = (r, w') → Q r w'.
Proof.
  intros Hc Hg Hl Hlaw Hav Hok Hexc r w'. unfold reg_call. destruct (call_ (pw_registry w0)) as [r0 st] eqn:Hcall. intros [= -> <-].
  specialize (Hlaw _ _ eq_refl). rewrite <- (later_entry _ _ _ Hl) in Hc. unfold ProvisionerSafety.entry_at in Hc. destruct Hl as (Hv & Hlive & Ht).
  destruct r as [x|x]; simpl in Hlaw.
  - destruct Hlaw as (e & He & _ & -> & Hv'). assert (e = c) as -> by congruence. apply Hok. split_and!; simpl; [by rewrite Hv', Hv|done..].
  - destruct Hlaw as [Hv' Hconf]. assert (Hnc : conflict x = false).
    { destruct (conflict x) eqn:Hx; [|done]. destruct (Hconf eq_refl c); done. }
    apply Hexc; [done| |by split_and!; simpl; [rewrite Hv'|..]]. intros H. rewrite (Hav x H eq_refl) in Hnc. done.
Qed.

Lemma outcome_ready (Q : result exn IndexRegistryEntry → pworld → Prop) n t c w :
  entry_at w n = Some c → token_ok t c →
  (∀ now w', stored n (made_ready now c) w w' → Q (Ok (made_ready now c)) w') → (∀ x w', conflict x = false → ¬ available → later w w' → Q (Exc x) w') →
  outcome Q (call (RReady n t)) w.
Proof.
  intros Hc Ht Hok Hexc. apply outcome_call. simpl.
  eapply (outcome_write _ n (token_ok t) (made_ready (pw_now w)) c w); [done..|by apply later_elapse| | |auto|auto].
  - intros r st. apply ready_law.
  - intros x Hav. by apply av_ready.
Qed.

Lemma outcome_failed (Q : result exn IndexRegistryEntry → pworld → Prop) n m t c w :
  entry_at w n = Some c → token_ok t c →
  (∀ w', stored n (made_failed m c) w w' → Q (Ok (made_failed m c)) w') → (∀ x w', conflict x = false → ¬ available → later w w' → Q (Exc x) w') →
  outcome Q (call (RFailed n m t)) w.
Proof.
  intros Hc Ht Hok Hexc. apply outcome_call. simpl.
  eapply (outcome_write _ n (token_ok t) (made_failed m) c w); [done..| | |auto|auto].
  - intros r st. apply failed_law.
  - intros x Hav. by apply av_failed.
Qed.

Lemma outcome_touch (Q : result exn IndexRegistryEntry → pworld → Prop) n c w :
  entry_at w n = Some c →
  (∀ now w', stored n (touched now c) w w' → Q (Ok (touched now c)) w') → (∀ x w', conflict x = false → ¬ available → later w w' → Q (Exc x) w') →
  outcome Q (call (RTouch n)) w.
Proof.
  intros Hc Hok Hexc. apply outcome_call. simpl.
  eapply (outcome_write _ n (λ _, True) (touched (pw_now w)) c w); [done..|by apply later_elapse| | |auto|auto].
  - intros r st. apply touch_law.
  - intros x Hav. by apply av_touch.
Qed.

Lemma outcome_reclaim (Q : result exn IndexRegistryEntry → pworld → Prop) n c e w :
  entry_at w n = Some c →
  (∀ w', stored n e w w' → Q (Ok e) w') → (∀ x w', conflict x = false → ¬ available → later w w' → Q (Exc x) w') →
  outcome Q (call (RReclaim n c e)) w.
Proof.
  intros Hc Hok Hexc. apply outcome_call. simpl.
  eapply (outcome_write _ n (λ o, o = c) (λ _, e) c w); [done..| | |auto|auto].
  - intros r st. apply reclaim_law.
  - intros x Hav. by apply av_reclaim.
Qed.

Lemma outcome_register (Q : result exn IndexRegistryEntry → pworld → Prop) e w :
  entry_at w (en_index_name e) = None →
  (∀ w', stored (en_index_name e) e w w' → Q (Ok e) w') → (∀ x w', ¬ available → Q (Exc x) w') →
  outcome Q (call (RRegister e)) w.
Proof.
  intros He Hok Hexc. apply outcome_call. simpl. unfold reg_call. intros r w'.
  destruct (r_register e (pw_registry w)) as [r0 st] eqn:Hg. intros [= -> <-]. apply register_law in Hg as Hlaw.
  unfold ProvisionerSafety.entry_at in He. rewrite He in Hlaw. destruct r as [x|x].
  - destruct Hlaw as [Hv Hx]. rewrite Hv, lookup_insert_eq in Hx. injection Hx as <-. by apply Hok.
  - apply Hexc. intros Hav. destruct (av_register Hav e (pw_registry w)) as [o Ho]. rewrite Hg in Ho. done.
Qed.

Lemma outcome_adapter {A} (Q : result exn A → pworld → Prop) n (fn : provE (result exn A)) w :
  outcome (λ r w', match r with Ok a => Q (Ok a) w' | Exc _ => ∀ x, Q (Exc x) w' end) (call fn) w → outcome Q (_call_adapter n fn) w.
Proof.
  intros H. unfold _call_adapter. apply outcome_bind, outcome_attempt. eapply outcome_weaken; [|exact H].
  intros [a|x] w'; [done|]. intros Hx. destruct x; apply Hx.
Qed.

Lemma outcome_exists (Q : result exn bool → pworld → Prop) n w :
  (∀ w', later w w' → Q (Ok (bool_decide (is_Some (live w n)))) w') → (∀ x w', ¬ available → Q (Exc x) w') →
  outcome Q (_call_adapter n (AExists n)) w.
Proof.
  intros Hok Hexc. apply outcome_adapter, outcome_call. simpl. unfold adapter_call. intros r w'.
  destruct (pa_index_exists n (pw_adapter w)) as [r0 st] eqn:Hg. intros [= -> <-]. apply exists_law in Hg as Hlaw.
  destruct Hlaw as [Hl Hb]. destruct r as [b|x].
  - rewrite (Hb b eq_refl). by apply Hok.
  - intros y. apply Hexc. intros Hav. destruct (av_exists Hav n (pw_adapter w)) as [b Hb']. rewrite Hg in Hb'. done.
Qed.

Lemma outcome_describe (Q : result exn (option IndexDescription) → pworld → Prop) n w :
  (∀ w', later w w' → Q (Ok (live w n)) w') → (∀ x w', ¬ available → later w w' → Q (Exc x) w') →
  outcome Q (_call_adapter n (ADescribe n)) w.
Proof.
  intros Hok Hexc. apply outcome_adapter, outcome_call. simpl. unfold adapter_call. intros r w'.
  destruct (pa_describe_index n (pw_adapter w)) as [r0 st] eqn:Hg. intros [= -> <-]. apply describe_law in Hg as Hlaw.
  destruct Hlaw as [Hl Hb]. destruct r as [b|x].
  - rewrite (Hb b eq_refl). by apply Hok.
  - intros y. apply Hexc; [|done]. intros Hav. destruct (av_describe Hav n (pw_adapter w)) as [b Hb']. rewrite Hg in Hb'. done.
Qed.

(** The index is absent or has the schema [d]. *)
Definition compatible (w : pworld) (n : string) (d : IndexDescription) : Prop := live w n = None ∨ live w n = Some d.

Lemma outcome_create (Q : result exn unit → pworld → Prop) n t d m w :
  (∀ w', view (pw_registry w') = view (pw_registry w) → pw_time w ≤ pw_time w' → live w' n = Some (mkDescription d m) → Q (Ok tt) w') →
  (∀ x w', view (pw_registry w') = view (pw_registry w) → (available → ¬ compatible w n (mkDescription d m)) → Q (Exc x) w') →
  outcome Q (_call_adapter n (ACreate n t d m)) w.
Proof.
  intros Hok Hexc. apply outcome_adapter, outcome_call. simpl. unfold adapter_call. intros r w'.
  destruct (pa_create_index n t d m (pw_adapter w)) as [r0 st] eqn:Hg. intros [= -> <-].
  destruct r as [[]|x]; [by apply Hok; [..|apply (create_establishes n t d m _ _ Hg)]|].
  intros y. apply Hexc; [done|]. intros Hav Hc. pose proof (av_create Hav n t d m (pw_adapter w) Hc) as Ho. rewrite Hg in Ho. done.
Qed.

Lemma outcome_any {A} (Q : result exn A → pworld → Prop) p w : (∀ r w', Q r w') → outcome Q p w.
Proof. intros H. apply H. Qed.

(** ** The methods *)

Section methods.
Context (config : ProvisioningConfig) (templates : list (string * IndexTemplate)) (scenario : Scenario).

Notation n0 := (sc_index_name scenario).

(** The stored entry of the index is this claim. *)
Definition holds (e : IndexRegistryEntry) (w : pworld) : Prop :=
  entry_at w n0 = Some e ∧ en_index_name e = n0 ∧ en_status e = provisioning ∧ is_Some (en_resolved_template e).

Lemma create_if_missing_alone won w :
  holds won w →
  outcome (λ r w', match r with
    | Ok _ => view (pw_registry w') = view (pw_registry w) ∧ pw_time w ≤ pw_time w' ∧
              (compatible w n0 (recorded won) → live w' n0 = Some (recorded won))
    | Exc _ => available → ¬ compatible w n0 (recorded won) end) (_create_if_missing won) w.
Proof.
  intros (He & Hn & Hs & [t Ht]). unfold _create_if_missing. rewrite Hn, Ht. apply outcome_bind, outcome_exists; [|naive_solver].
  intros w1 (Hv1 & Hl1 & Ht1). case_bool_decide as Hex.
  { unfold outcome. simpl. split_and!; [done..|]. intros [Hc|Hc]; [|by rewrite Hl1]. rewrite Hc in Hex. by destruct Hex. }
  apply outcome_bind, outcome_attempt, outcome_create.
  - intros w2 Hv2 Ht2 Hl2. unfold outcome. simpl. split_and!; [congruence|lia|done].
  - intros x w2 Hv2 Hc. apply outcome_bind, outcome_any. unfold compatible in *. rewrite Hl1 in Hc. intros [|] w3; done.
Qed.

Lemma claim_and_create_alone won w :
  holds won w →
  outcome (λ r w', match r with
    | Ok nx => ∃ now, nx = Done (made_ready now won) ∧ entry_at w' n0 = Some (made_ready now won) ∧ live w' n0 = Some (recorded won)
    | Exc _ => available → ¬ compatible w n0 (recorded won) end) (_claim_and_create won) w.
Proof.
  intros Hh. pose proof Hh as (He & Hn & Hs & Ht). unfold _claim_and_create. apply outcome_bind.
  eapply outcome_weaken; [|by apply create_if_missing_alone]. simpl. intros [[]|x] w1; [|done]. intros (Hv1 & Ht1 & Hl1).
  rewrite Hn. apply outcome_bind, outcome_describe; [|naive_solver]. intros w2 (Hv2 & Hl2 & Ht2).
  assert (He2 : entry_at w2 n0 = Some won) by (unfold ProvisionerSafety.entry_at in *; congruence).
  case_decide as Hd.
  - unfold _finalize_ready. rewrite Hn. apply outcome_bind, outcome_attempt.
    eapply outcome_ready; [exact He2|by right| |].
    + intros now w3 Hst. unfold outcome. simpl. exists now. split_and!; [done|by eapply stored_entry|].
      destruct Hst as (_ & Hl3 & _). by rewrite Hl3, Hl2.
    + intros x w3 Hx Hav _. rewrite Hx. unfold outcome. simpl. done.
  - apply outcome_bind, outcome_any. intros r w3. assert (Hbad : available → ¬ compatible w n0 (recorded won)).
    { intros _ Hc. apply Hd. exact (Hl1 Hc). }
    by destruct r as [[]|].
Qed.

(** ** Every run ends *)

(** How many more steps a method can take. *)
Definition rank (nx : next) (w : pworld) : nat :=
  match nx with
  | Done _ => 0
  | AfterLosingClaim _ | ClaimAndCreate _ => 1
  | ClaimNew => 2
  | WaitForReady _ => 3 + Z.to_nat (wait_for_provisioning_timeout config / wait_poll_interval config + 1)
  | Poll _ deadline _ => 2 + Z.to_nat ((deadline - pw_time w) / wait_poll_interval config + 1)
  end%nat.

(** What is stored when a method goes on, with nobody else writing. *)
Definition alone_ok (nx : next) (w : pworld) : Prop :=
  match nx with
  | Done _ => True
  | ClaimNew => entry_at w n0 = None
  | AfterLosingClaim e => en_status e ≠ provisioning
  | ClaimAndCreate e | WaitForReady e => holds e w
  | Poll n _ e => n = n0 ∧ holds e w
  end.

Definition progress_from (nx : next) (w : pworld) (r : result exn next) (w' : pworld) : Prop :=
  match r with Ok nx' => alone_ok nx' w' ∧ (rank nx' w' < rank nx w)%nat | Exc _ => True end.

Lemma holds_later e w w' : later w w' → holds e w → holds e w'.
Proof. intros Hl (He & ?). split; [|done]. by rewrite (later_entry _ _ _ Hl). Qed.

Lemma claim_new_progress w :
  entry_at w n0 = None → outcome (progress_from ClaimNew w) (_claim_new config templates scenario) w.
Proof.
  intros He. unfold _claim_new. destruct (auto_create config); cbn [negb]; [|done].
  apply outcome_bind, outcome_lift. destruct (_resolve_template config templates scenario) as [[[t d] m]|x]; [|done].
  apply outcome_bind, outcome_clock. intros w1 Hl1 _. apply outcome_bind, outcome_token. intros tok w2 Hl2.
  assert (He2 : entry_at w2 n0 = None) by (rewrite (later_entry _ _ _ Hl2), (later_entry _ _ _ Hl1); done).
  apply outcome_bind, outcome_register; [exact He2| |done]. simpl. intros w3 Hst. rewrite decide_True by done.
  unfold outcome. simpl. split; [|lia]. split_and!; [by apply (stored_entry _ _ w2)|done..].
Qed.

Lemma try_reclaim_alone e w :
  holds e w →
  outcome (λ r w', match r with
    | Ok o => ∃ tok now, o = Some (reclaimed tok now e) ∧ holds (reclaimed tok now e) w' ∧ ∀ n, live w' n = live w n
    | Exc _ => ¬ available end) (_try_reclaim e) w.
Proof.
  intros (He & Hn & Hs & Ht). unfold _try_reclaim. rewrite Hn.
  apply outcome_bind, outcome_token. intros tok w1 Hl1. apply outcome_bind, outcome_clock. intros w2 Hl2 _.
  assert (Hl : later w w2) by (by etrans). apply outcome_bind, outcome_attempt, outcome_reclaim.
  - by rewrite (later_entry _ _ _ Hl).
  - intros w3 Hst. unfold outcome. simpl. eexists _, _. split; [done|]. split.
    + split; [by eapply stored_entry|done].
    + intros n. destruct Hst as (_ & Hl3 & _), Hl as (_ & Hl' & _). by rewrite Hl3.
  - intros x w3 Hx Hav _. rewrite Hx. done.
Qed.

Lemma is_stale_alone e w (Q : result exn bool → pworld → Prop) :
  (∀ b w', later w w' → (∀ c, en_claimed_at e = Some c → provisioning_stale_after config ≤ pw_time w - c → b = true) → Q (Ok b) w') →
  outcome Q (_is_stale config e) w.
Proof.
  intros H. unfold _is_stale. destruct (en_claimed_at e) as [c|]; [|by apply H].
  apply outcome_bind, outcome_clock. intros w' Hl _. unfold outcome. simpl. apply H; [done|].
  intros c' [= <-] Hc. destruct Hl as (_ & _ & Ht). unfold _elapsed. apply bool_decide_eq_true. lia.
Qed.

Lemma poll_progress dl e w :
  0 < wait_poll_interval config → holds e w → outcome (progress_from (Poll n0 dl e) w) (_poll config n0 dl e) w.
Proof.
  intros Hp Hh. unfold _poll. apply outcome_bind, is_stale_alone. intros stale w1 Hl1 _.
  assert (Hh1 : holds e w1) by (by eapply holds_later).
  apply outcome_bind. destruct stale.
  { eapply outcome_weaken; [|by apply try_reclaim_alone]. intros [o|x] w2; [|done].
    intros (tok & now & -> & Hh2 & _). unfold outcome. simpl. split; [done|lia]. }
  unfold outcome at 1. simpl. apply outcome_bind, outcome_clock. intros w2 Hl2 _. case_bool_decide as Hdl; [done|].
  apply outcome_bind, outcome_sleep; [lia|]. intros w3 Hl3 Ht3.
  assert (Hl : later w1 w3) by (by etrans). apply outcome_bind, outcome_get; [|done]. intros w4 Hl4 _.
  assert (Hh4 : holds e w4) by (eapply holds_later; [exact Hl4|]; by eapply holds_later).
  assert (He3 : entry_at w3 n0 = Some e) by (rewrite <- (later_entry _ _ _ Hl4); apply Hh4). rewrite He3.
  assert (Hs : ¬ (en_status e ≠ provisioning)) by (destruct Hh as (_ & _ & ? & _); naive_solver).
  rewrite decide_False by done. unfold outcome. simpl. split; [done|].
  destruct Hl1 as (_ & _ & Ht1), Hl2 as (_ & _ & Ht2), Hl4 as (_ & _ & Ht4).
  set (p := wait_poll_interval config) in *.
  assert ((dl - pw_time w4) / p + 1 ≤ (dl - pw_time w) / p).
  { rewrite <- Z.div_add by lia. apply Z.div_le_mono; lia. }
  assert (0 ≤ (dl - pw_time w) / p) by (apply Z.div_pos; lia). lia.
Qed.

Lemma step_progress nx w :
  0 < wait_poll_interval config → (∀ e, nx ≠ Done e) → alone_ok nx w →
  outcome (progress_from nx w) (step config templates scenario nx) w.
Proof.
  intros Hp Hnd. destruct nx as [e| |e|e|e|n dl e]; simpl.
  - by destruct (Hnd e).
  - apply claim_new_progress.
  - intros Hs. unfold _after_losing_claim. destruct (en_status e); try done. unfold outcome. simpl. split; [done|lia].
  - intros Hh. eapply outcome_weaken; [|by apply claim_and_create_alone]. intros [nx|x] w'; [|done].
    intros (now & -> & _). simpl. split; [done|lia].
  - intros Hh. unfold _wait_for_ready. apply outcome_bind, outcome_clock. intros w' Hl _. unfold outcome. simpl. split.
    + split; [by destruct Hh as (_ & ? & _)|by eapply holds_later].
    + replace (pw_time w' + wait_for_provisioning_timeout config - pw_time w') with (wait_for_provisioning_timeout config) by lia. lia.
  - intros [-> Hh]. by apply poll_progress.
Qed.

Lemma resume_progress fuel nx w :
  0 < wait_poll_interval config → alone_ok nx w → (rank nx w ≤ fuel)%nat →
  outcome (λ r _, r ≠ Ok None) (resume config templates scenario fuel nx) w.
Proof.
  intros Hp. revert nx w. induction fuel as [|fuel IH]; intros nx w Hok Hr.
  - destruct nx; simpl in *; try lia. done.
  - assert (Hcase : (∃ e, nx = Done e) ∨ ∀ e, nx ≠ Done e) by (destruct nx; eauto).
    destruct Hcase as [[e ->]|Hnd]; [done|].
    assert (Hstep : outcome (λ r _, r ≠ Ok None) (pbind (step config templates scenario nx) (resume config templates scenario fuel)) w).
    { apply outcome_bind. eapply outcome_weaken; [|by apply step_progress]. intros [nx'|x] w'; [|done]. intros [Hok' Hr'].
      apply IH; [done|lia]. }
    destruct nx; try exact Hstep. done.
Qed.

(** Re-verifying a ready entry ends at once. *)
Lemma handle_ready_done e w :
  outcome (λ r _, ∀ nx, r = Ok nx → ∃ e', nx = Done e') (_handle_ready config templates scenario e) w.
Proof.
  assert (Hv : ∀ w, outcome (λ r _, ∀ nx, r = Ok nx → ∃ e', nx = Done e') (_verify config templates scenario e) w).
  { intros w1. unfold _verify. apply outcome_bind, outcome_any. intros [[[t d] m]|x] w2; [|done].
    apply outcome_bind, outcome_any. intros [o|x] w3; [|done]. apply outcome_bind, outcome_any. intros [[]|x] w4; [done| |done].
    apply outcome_bind, outcome_any. intros [x|x] w5; [|done]. intros nx [= <-]. eauto. }
  unfold _handle_ready. destruct (en_last_verified_at e); [|done]. apply outcome_bind, outcome_any. intros [now|x] w1; [|done].
  destruct (_elapsed _ _ _); [done|]. intros nx [= <-]. eauto.
Qed.

(** Enough steps for any call of [ensure]: one to start waiting, one per poll that fits into the
    timeout, and those of the claim that follows. *)
Definition ensure_fuel : nat :=
  (3 + Z.to_nat (wait_for_provisioning_timeout config / wait_poll_interval config + 1))%nat.

Lemma ensure_not_stuck fuel w :
  registry_ok view described w → 0 < wait_poll_interval config → (ensure_fuel ≤ fuel)%nat →
  outcome (λ r _, r ≠ Ok None) (ensure config templates scenario fuel) w.
Proof.
  unfold ensure_fuel. intros Hw Hp Hf. unfold ensure. apply outcome_bind, outcome_get; [|done]. intros w1 Hl1 _.
  destruct (entry_at w n0) as [e|] eqn:He.
  2:{ apply resume_progress; [done| |simpl; lia]. simpl. by rewrite (later_entry _ _ _ Hl1). }
  apply outcome_bind. unfold _dispatch_existing. destruct (Hw n0 e He) as [Hn Hok].
  destruct (en_status e) eqn:Hs; [| |done..].
  - apply (resume_progress fuel (WaitForReady e) w1 Hp); [|simpl; lia].
    apply (holds_later e w w1 Hl1). split_and!; [done..|]. by destruct Hok.
  - eapply outcome_weaken; [|apply handle_ready_done]. simpl. intros [nx|x] w2 H; [|done].
    destruct (H nx eq_refl) as [e' ->]. by destruct fuel.
Qed.

Lemma resume_done fuel e : resume config templates scenario fuel (Done e) = Ret (Some e).
Proof. by destruct fuel. Qed.

(** Running a claim to its end. *)
Lemma resume_claim fuel won w :
  available → holds won w → compatible w n0 (recorded won) → (1 ≤ fuel)%nat →
  outcome (λ r w', ∃ now, r = Ok (Some (made_ready now won)) ∧ entry_at w' n0 = Some (made_ready now won) ∧
                          live w' n0 = Some (recorded won)) (resume config templates scenario fuel (ClaimAndCreate won)) w.
Proof.
  intros Hav Hh Hc Hf. destruct fuel as [|fuel]; [lia|]. cbn [resume step]. apply outcome_bind.
  eapply outcome_weaken; [|by apply claim_and_create_alone]. intros [nx|x] w'; [|intros H; by destruct (H Hav)].
  intros (now & -> & ? & ?). rewrite resume_done. unfold outcome. simpl. eauto.
Qed.
End methods.

(** C16: alone, [ensure] ends, whatever is stored and wherever the adapter or the registry
    fail: given a positive poll interval and a clock that does not go back, it returns or raises
    within one step per poll that fits into the timeout and three more. If it returns, it
    returns the ready entry of a live index with the recorded schema. *)
Theorem ensure_terminates config templates scenario fuel w :
  registry_ok view described w → 0 < wait_poll_interval config → (ensure_fuel config ≤ fuel)%nat →
  match run phandle (ensure config templates scenario fuel) w with
  | (Ok None, _) => False
  | (Ok (Some e), w') => en_status e = ready ∧ live w' (sc_index_name scenario) = Some (recorded e) ∧ registry_ok view described w'
  | (Exc _, w') => registry_ok view described w'
  end.
Proof.
  intros Hw Hp Hf. pose proof (ensure_not_stuck config templates scenario fuel w Hw Hp Hf) as Hs. unfold outcome in Hs.
  destruct (safe_run phandle _ _ _ _ w Hw (ensure_safe view described config templates scenario fuel w Hw)) as (Hw' & _ & Hq).
  destruct (run phandle (ensure config templates scenario fuel) w) as [[[e|]|x] w']; simpl in *; [|done..].
  destruct (Hq e eq_refl) as [[[_ Hok] _] Hst]. rewrite Hst in Hok. naive_solver.
Qed.

(** C29: a missing index is provisioned: if nothing is registered, creation is allowed, the
    template resolves, the store has no index of that name or one with that very schema, and the
    backends answer, then [ensure] returns a ready entry with the scenario's vertical, template,
    dimensions, metric and model, stores it, and the index is live with that schema. *)
Theorem ensure_creates_missing config templates scenario fuel w t d m :
  available → entry_at w (sc_index_name scenario) = None → auto_create config = true →
  _resolve_template config templates scenario = Ok (t, d, m) →
  compatible w (sc_index_name scenario) (mkDescription d m) → (2 ≤ fuel)%nat →
  ∃ e w', run phandle (ensure config templates scenario fuel) w = (Ok (Some e), w') ∧
    en_status e = ready ∧ entry_at w' (sc_index_name scenario) = Some e ∧ live w' (sc_index_name scenario) = Some (mkDescription d m) ∧
    (en_vertical e, en_scenario_id e, en_template_id e, en_template_version e, en_dimensions e, en_metric e, en_embedding_model e) =
    (sc_vertical scenario, sc_scenario_id scenario, tp_template_id t, tp_template_version t, d, m, es_model (sc_embedder scenario)).
Proof.
  intros Hav He Hauto Hres Hc Hf. destruct fuel as [|fuel]; [lia|].
  cut (outcome (λ r w', ∃ e, r = Ok (Some e) ∧ en_status e = ready ∧ entry_at w' (sc_index_name scenario) = Some e ∧
    live w' (sc_index_name scenario) = Some (mkDescription d m) ∧
    (en_vertical e, en_scenario_id e, en_template_id e, en_template_version e, en_dimensions e, en_metric e, en_embedding_model e) =
    (sc_vertical scenario, sc_scenario_id scenario, tp_template_id t, tp_template_version t, d, m, es_model (sc_embedder scenario)))
    (ensure config templates scenario (S fuel)) w).
  { unfold outcome. destruct (run _ _ _) as [r w']. simpl. intros (e & -> & H). by exists e, w'. }
  unfold ensure. apply outcome_bind, outcome_get; [|done]. intros w1 Hl1 _. rewrite He.
  cbn [resume step]. apply outcome_bind. unfold _claim_new. rewrite Hauto. cbn [negb]. rewrite Hres.
  apply outcome_bind, outcome_lift. apply outcome_bind, outcome_clock. intros w2 Hl2 _.
  apply outcome_bind, outcome_token. intros tok w3 Hl3. assert (Hl : later w w3) by (by do 2 (etrans; [eassumption|])).
  apply outcome_bind, outcome_register; [by rewrite (later_entry _ _ _ Hl)| |done]. simpl. intros w4 Hst.
  rewrite decide_True by done. unfold outcome at 1. simpl.
  eapply outcome_weaken; [|apply resume_claim; [done| | |lia]].
  - intros r w' (now & -> & ? & ?). eexists. split_and!; try done.
  - split_and!; [by apply (stored_entry _ _ w3)|done..].
  - destruct Hst as (_ & Hl4 & _), Hl as (_ & Hl' & _). unfold compatible in *. by rewrite Hl4, Hl'.
Qed.

(** C15: a worker that dies holding a claim does not block the index: once the claim is older
    than the staleness bound, the next [ensure] takes it over and finishes it: it returns and
    stores a ready entry that agrees with the dead worker's claim, and the index is live with
    the schema that claim had resolved. *)
Theorem dead_claim_recovered config templates scenario fuel w c claimed_at :
  available → registry_ok view described w →
  entry_at w (sc_index_name scenario) = Some c → en_status c = provisioning →
  en_claimed_at c = Some claimed_at → provisioning_stale_after config ≤ pw_time w - claimed_at →
  compatible w (sc_index_name scenario) (recorded c) → (3 ≤ fuel)%nat →
  ∃ e w', run phandle (ensure config templates scenario fuel) w = (Ok (Some e), w') ∧
    en_status e = ready ∧ core e = core c ∧ entry_at w' (sc_index_name scenario) = Some e ∧
    live w' (sc_index_name scenario) = Some (recorded c).
Proof.
  intros Hav Hw He Hs Hca Hstale Hc Hf. destruct fuel as [|[|fuel]]; [lia..|].
  cut (outcome (λ r w', ∃ e, r = Ok (Some e) ∧ en_status e = ready ∧ core e = core c ∧ entry_at w' (sc_index_name scenario) = Some e ∧
    live w' (sc_index_name scenario) = Some (recorded c)) (ensure config templates scenario (S (S fuel))) w).
  { unfold outcome. destruct (run _ _ _) as [r w']. simpl. intros (e & -> & H). by exists e, w'. }
  destruct (Hw _ _ He) as [Hn Hok]. rewrite Hs in Hok. destruct Hok as [_ Htp].
  unfold ensure. apply outcome_bind, outcome_get; [|done]. intros w1 Hl1 _. rewrite He.
  apply outcome_bind. unfold _dispatch_existing. rewrite Hs. unfold outcome at 1. simpl.
  apply outcome_bind. unfold _wait_for_ready. apply outcome_bind, outcome_clock. intros w2 Hl2 _. unfold outcome at 1. simpl. rewrite Hn.
  apply outcome_bind. unfold _poll. apply outcome_bind, is_stale_alone. intros b w3 Hl3 Hb.
  assert (Hl12 : later w w2) by (by etrans). assert (Hl : later w w3) by (by etrans).
  rewrite (Hb claimed_at Hca) by (destruct Hl12 as (_ & _ & ?); lia).
  apply outcome_bind. eapply outcome_weaken; [|apply (try_reclaim_alone scenario c w3)].
  2:{ apply (holds_later scenario c w w3 Hl). by split_and!. }
  intros [o|x] w4; [|done]. intros (tok & now & -> & Hh & Hl4). unfold outcome at 1. simpl.
  eapply outcome_weaken; [|apply resume_claim; [done|exact Hh| |lia]].
  - intros r w' (now' & -> & ? & ?). eexists. by split_and!.
  - destruct Hl as (_ & Hl' & _). unfold compatible, recorded in *. simpl. by rewrite Hl4, Hl'.
Qed.

(** The entry is ready and its last verification is recent enough. *)
Definition fresh (config : ProvisioningConfig) (w : pworld) (e : IndexRegistryEntry) : Prop :=
  ∃ t, en_last_verified_at e = Some t ∧ pw_now w - t < verification_interval config.

(** What [ensure] does with an entry that is not being provisioned. *)
Definition settled_outcome config templates scenario (w : pworld) (e : IndexRegistryEntry) (r : result exn (option IndexRegistryEntry)) (w' : pworld) : Prop :=
  match en_status e with
  | failed => r = Exc (_failed_error e) ∧ later w w'
  | retired => r = Exc (_retired_error e) ∧ later w w'
  | provisioning => True
  | ready =>
    (fresh config w e → r = Ok (Some e) ∧ later w w') ∧
    (¬ fresh config w e →
      match _resolve_template config templates scenario with
      | Exc x => r = Exc x ∧ later w w'
      | Ok (t, d, m) =>
        match drifted e t d m (live w (en_index_name e)) with
        | Exc x => r = Exc x ∧ later w w'
        | Ok true => (∃ reason, r = Exc (ProvisioningError (en_index_name e) reason INDEX_SCHEMA_DRIFT)) ∧ later w w'
        | Ok false => ∃ now, r = Ok (Some (touched now e)) ∧ stored (en_index_name e) (touched now e) w w'
        end
      end)
  end.

Lemma verify_outcome config templates scenario e w (Q : result exn next → pworld → Prop) :
  available → entry_at w (en_index_name e) = Some e →
  match _resolve_template config templates scenario with
  | Exc x => ∀ w', later w w' → Q (Exc x) w'
  | Ok (t, d, m) =>
    match drifted e t d m (live w (en_index_name e)) with
    | Exc x => ∀ w', later w w' → Q (Exc x) w'
    | Ok true => ∀ reason w', later w w' → Q (Exc (ProvisioningError (en_index_name e) reason INDEX_SCHEMA_DRIFT)) w'
    | Ok false => ∀ now w', stored (en_index_name e) (touched now e) w w' → Q (Ok (Done (touched now e))) w'
    end
  end → outcome Q (_verify config templates scenario e) w.
Proof.
  intros Hav He HQ. unfold _verify. apply outcome_bind, outcome_lift.
  destruct (_resolve_template config templates scenario) as [[[t d] m]|x]; [|by apply HQ].
  apply outcome_bind, outcome_describe; [|done]. intros w1 Hl1. apply outcome_bind, outcome_lift.
  destruct (drifted e t d m (live w (en_index_name e))) as [[]|x]; [by apply HQ| |by apply HQ].
  assert (He1 : entry_at w1 (en_index_name e) = Some e) by (by rewrite (later_entry _ _ _ Hl1)).
  apply outcome_bind, (outcome_touch _ _ e); [done| |done]. intros now w2 Hst. unfold outcome. simpl. apply HQ.
  destruct Hst as (Hv2 & Hlv2 & Ht2), Hl1 as (Hv1 & Hlv1 & Ht1). split_and!; [by rewrite Hv2, Hv1| |lia]. intros n. by rewrite Hlv2.
Qed.

Lemma ensure_settled config templates scenario fuel w :
  available → registry_ok view described w →
  outcome (λ r w', match entry_at w (sc_index_name scenario) with
    | Some e => settled_outcome config templates scenario w e r w'
    | None => auto_create config = false → (1 ≤ fuel)%nat →
      (∃ reason, r = Exc (ProvisioningError (sc_index_name scenario) reason INDEX_AUTO_CREATE_DISABLED)) ∧ later w w'
    end) (ensure config templates scenario fuel) w.
Proof.
  intros Hav Hw. unfold ensure. apply outcome_bind, outcome_get; [|done]. intros w1 Hl1 Hnow1.
  destruct (entry_at w (sc_index_name scenario)) as [e|] eqn:He.
  2:{ destruct fuel as [|fuel]; [intros _ ?; lia|]. cbn [resume step]. apply outcome_bind. unfold _claim_new.
      destruct (auto_create config); [|intros _ _; unfold outcome; simpl; eauto].
      apply outcome_any. intros [a|x] w2; [apply outcome_any|]; by intros. }
  destruct (Hw _ _ He) as [Hn _]. apply outcome_bind. unfold _dispatch_existing, settled_outcome.
  destruct (en_status e) eqn:Hs; [apply outcome_any; intros [a|x] w2; [by apply outcome_any|done]| |done..].
  assert (He1 : entry_at w1 (en_index_name e) = Some e) by (by rewrite (later_entry _ _ _ Hl1), Hn).
  assert (Hver : ∀ w2, later w w2 → ¬ fresh config w e → entry_at w2 (en_index_name e) = Some e → outcome (λ r w', match r with
    | Ok a => outcome (λ r0 w'0, settled_outcome config templates scenario w e r0 w'0) (resume config templates scenario fuel a) w'
    | Exc x => settled_outcome config templates scenario w e (Exc x) w' end) (_verify config templates scenario e) w2).
  { intros w2 Hl2 Hnf He2. apply verify_outcome; [done..|].
    assert (Hlive : live w2 (en_index_name e) = live w (en_index_name e)) by (destruct Hl2 as (_ & -> & _); done). rewrite Hlive.
    unfold settled_outcome. rewrite Hs. destruct (_resolve_template config templates scenario) as [[[t d] m]|x].
    2:{ intros w3 Hl3. split; [done|]. intros _. split; [done|]. by etrans. }
    destruct (drifted e t d m (live w (en_index_name e))) as [[]|x].
    - intros reason w3 Hl3. split; [done|]. intros _. split; [by eexists|]. by etrans.
    - intros now w3 Hst. rewrite resume_done. unfold outcome. simpl. split; [done|]. intros _. exists now. split; [done|].
      destruct Hst as (Hv3 & Hlv3 & Ht3), Hl2 as (Hv2 & Hlv2 & Ht2). split_and!; [by rewrite Hv3, Hv2| |lia]. intros n. by rewrite Hlv3.
    - intros w3 Hl3. split; [done|]. intros _. split; [done|]. by etrans. }
  unfold settled_outcome in Hver. rewrite Hs in Hver.
  unfold _handle_ready. destruct (en_last_verified_at e) as [t|] eqn:Hlv.
  - apply outcome_bind, outcome_clock. intros w2 Hl2 Hnow2. assert (Hl : later w w2) by (by etrans).
    assert (Hfresh : fresh config w e ↔ _elapsed (pw_time w2) t (verification_interval config) = false).
    { unfold fresh, _elapsed. rewrite bool_decide_eq_false, Hnow2, Hnow1, Hlv. split; [naive_solver lia|]. intros. exists t. split; [done|lia]. }
    destruct (_elapsed _ _ _).
    + apply Hver; [done|naive_solver|by rewrite (later_entry _ _ _ Hl2)].
    + unfold outcome at 1. simpl. rewrite resume_done. split; [done|]. naive_solver.
  - apply Hver; [done| |done]. intros (t & Ht & _). congruence.
Qed.

(** An index that is not being provisioned is settled at once, by its entry alone: a failed
    or retired entry raises INDEX_PROVISION_FAILED or INDEX_RETIRED and a missing one raises
    INDEX_AUTO_CREATE_DISABLED when creation is off, changing nothing; a ready entry verified
    recently is returned unchanged without asking the store; an older one is compared with the
    live index and the resolved template, and is either re-stamped and returned or raises
    INDEX_SCHEMA_DRIFT, changing nothing. *)
Theorem ensure_settled_outcomes config templates scenario fuel w r w' :
  available → registry_ok view described w → run phandle (ensure config templates scenario fuel) w = (r, w') →
  match entry_at w (sc_index_name scenario) with
  | Some e => settled_outcome config templates scenario w e r w'
  | None => auto_create config = false → (1 ≤ fuel)%nat →
    (∃ reason, r = Exc (ProvisioningError (sc_index_name scenario) reason INDEX_AUTO_CREATE_DISABLED)) ∧ later w w'
  end.
Proof.
  intros Hav Hw Hrun. pose proof (ensure_settled config templates scenario fuel w Hav Hw) as H. unfold outcome in H. by rewrite Hrun in H.
Qed.
End alone.
End ProvisionerAlone.
