(* ===== verification/InMemoryProvisioner.v ===== *)
(** * The in-memory provisioner (src/vestibule/provisioning/adapters/in_memory.py)

    The adapter that provisions the schema of an [InMemoryIndexer], the proof that it and the
    in-memory registry keep the laws the provisioner relies on, concrete runs of the provisioner,
    and what a concurrent retirement does to it. *)
From S2P Require Import Prelude PyDict Types Prog Rely System Indexer InMemoryIndexer Registry Templates Provisioner ProvisionerSafety ProvisionerAlone.
#[local] Open Scope Z_scope.

Module InMemoryProvisioner.
Import Registry Templates Provisioner ProvisionerSafety ProvisionerAlone.
Import Indexer InMemoryIndexer.

(** ** The adapter *)

Definition index_exists (index_name : string) (ix : InMemoryIndexer) : bool := bool_decide (is_Some (im_schema ix)).

Definition create_index {base : Env} (index_name : string) (template : IndexTemplate) (dimensions : Z) (metric : string)
    (ix : InMemoryIndexer) : result exn unit * InMemoryIndexer :=
  match ensure_schema dimensions metric ix with
  | Ok ix' => (Ok tt, ix')
  | Exc (IndexerError d reason c) =>
    if decide (c ≠ INDEXER_SCHEMA_CONFLICT) then (Exc (IndexerError d reason c), ix)
    else (Exc (ProvisioningError index_name reason INDEX_SCHEMA_DRIFT), ix)
  | Exc x => (Exc x, ix)
  end.

Definition describe_index (index_name : string) (ix : InMemoryIndexer) : option IndexDescription :=
  match im_schema ix with
  | None => None
  | Some (dimensions, metric) => Some (mkDescription dimensions metric)
  end.

Definition delete_index (index_name : string) (ix : InMemoryIndexer) : InMemoryIndexer :=
  mkIM (im_index_name ix) (im_records ix) (im_by_doc ix) None.

(** ** The environment with both in-memory classes *)

Definition im_prov_env (base : Env) (drift_ : nat → Z) (tokens : nat → string) : ProvisionerEnv := {|
  pr_registry := in_memory_registry;
  adapter_state := InMemoryIndexer;
  pa_index_exists n ix := (Ok (index_exists n ix), ix);
  pa_create_index := create_index;
  pa_describe_index n ix := (Ok (describe_index n ix), ix);
  drift := drift_;
  new_claim_token := tokens;
  p_repr := @str_repr base;
|}.

Section laws.
Context (base : Env) (drift_ : nat → Z) (tokens : nat → string).

Definition im_described (ix : InMemoryIndexer) (n : string) : option IndexDescription := describe_index n ix.

Lemma create_index_eq n t d m ix :
  create_index n t d m ix =
  match im_schema ix with
  | None => (Ok tt, mkIM (im_index_name ix) (im_records ix) (im_by_doc ix) (Some (d, m)))
  | Some s => if decide (s = (d, m)) then (Ok tt, ix) else
      match ensure_schema d m ix with
      | Exc (IndexerError _ reason _) => (Exc (ProvisioningError n reason INDEX_SCHEMA_DRIFT), ix)
      | _ => (Ok tt, ix)
      end
  end.
Proof.
  unfold create_index, ensure_schema. destruct (im_schema ix) as [[d0 m0]|]; [|done]. case_decide; [done|].
  rewrite decide_False; [done|]. naive_solver.
Qed.

Lemma in_memory_adapter_laws : AdapterLaws (env := im_prov_env base drift_ tokens) im_described.
Proof.
  constructor.
  - intros n st r st' [= <- <-]. split; [done|]. intros b [= <-]. unfold index_exists, im_described, describe_index.
    by destruct (im_schema st) as [[]|].
  - intros n st r st' [= <- <-]. split; [done|]. by intros o [= <-].
  - intros n t d m st r st'. simpl. rewrite create_index_eq. unfold im_described, describe_index, ensure_schema.
    destruct (im_schema st) as [[d0 m0]|] eqn:Hs; [case_decide|]; intros [= <- <-]; by rewrite ?Hs.
Qed.

Lemma in_memory_create_laws : CreateLaws (env := im_prov_env base drift_ tokens) im_described.
Proof.
  constructor. intros n t d m st st'. simpl. rewrite create_index_eq. unfold im_described, describe_index, ensure_schema.
  destruct (im_schema st) as [[d0 m0]|] eqn:Hs; [case_decide|]; intros [= <-]; [rewrite Hs; by simplify_eq|done].
Qed.

Lemma update_conflict n check f es x :
  (∀ e y, check e = Exc y → conflict y = true) → (update n check f es).1 = Exc x → conflict x = true.
Proof.
  intros Hc. unfold update, _require. destruct (dict_get n es) as [e|]; simpl; [|naive_solver].
  destruct (check e) as [[]|y] eqn:E; simpl; [done|]. intros [= <-]. eauto.
Qed.

Lemma check_conflict e t x : _check_claim_token e t = Exc x → conflict x = true.
Proof. unfold _check_claim_token. case_decide; naive_solver. Qed.

Lemma in_memory_available : available (env := im_prov_env base drift_ tokens) im_described.
Proof.
  constructor; simpl.
  - eauto.
  - intros e st. destruct (register e st). eauto.
  - intros n o e st x. unfold reclaim. case_decide; naive_solver.
  - intros now n st x. by apply update_conflict.
  - intros now n t st x. apply update_conflict. intros. by eapply check_conflict.
  - intros n m t st x. apply update_conflict. intros. by eapply check_conflict.
  - eauto.
  - eauto.
  - intros n t d m st. unfold im_described, describe_index. rewrite create_index_eq.
    destruct (im_schema st) as [[d0 m0]|]; [|done]. intros [?|[= <- <-]]; [done|]. by rewrite decide_True.
Qed.
End laws.

(** ** A concrete system

    One index, the clock advancing by a microsecond per reading, the default configuration. *)

Definition demo_env : ProvisionerEnv := im_prov_env unit_env (λ _, 1) (λ n, "token-" +:+ pretty n).
Definition demo_scenario : Scenario :=
  mkScenario "hr-1" "hr" "1" "hr-index" (mkChunkerSettings 512 64 40 800) (mkEmbedderSettings "fastembed" "nomic" None)
    (mkIndexerSettings "cosine" 384 4 400 500) "envelope" "internal" true 0 0 None.
Definition demo_templates : list (string * IndexTemplate) := [("standard-v1", standard_v1)].
Definition demo_config : ProvisioningConfig := mkPConfig "standard-v1" 300000000 300000000 60000000 2000000 true.
Definition demo_world (es : list (string * IndexRegistryEntry)) (now : Z) : @pworld demo_env :=
  @mkPW demo_env es (new_in_memory "hr-index") now 0 0.
Definition demo_worker (fuel : nat) : worker := mkWorker demo_config demo_templates demo_scenario fuel.

Lemma demo_laws : RegistryLaws (reg := @pr_registry demo_env) dict_map.
Proof. exact in_memory_registry_laws. Qed.

Lemma demo_adapter_laws : AdapterLaws (env := demo_env) im_described.
Proof. apply in_memory_adapter_laws. Qed.

Lemma demo_create_laws : CreateLaws (env := demo_env) im_described.
Proof. apply in_memory_create_laws. Qed.

Lemma demo_empty_ok now : registry_ok (env := demo_env) dict_map im_described (demo_world [] now).
Proof. intros n e. done. Qed.

(** The claim of a worker that died at instant 0. *)
Definition dead_claim : IndexRegistryEntry :=
  mkEntry "hr-index" "hr" "hr-1" "standard-v1" "1" 384 "cosine" "nomic" provisioning 0 None None (Some "dead") (Some 0) None (Some standard_v1).

Lemma dead_claim_ok now : registry_ok (env := demo_env) dict_map im_described (demo_world [("hr-index", dead_claim)] now).
Proof.
  intros n e He. change (dict_map [("hr-index", dead_claim)] !! n = Some e) in He. rewrite dict_map_lookup in He. simpl in He.
  case_decide as Hn; [|done]. injection He as <-. subst n. split_and!; [done|by eexists..].
Qed.

(** Two workers start together; the second loses the claim, waits, and sees the index ready. *)
Definition demo_schedule : list nat := ([0; 1; 0; 1; 0; 1; 0; 1] ++ replicate 12 1 ++ replicate 8 0 ++ replicate 12 1)%nat.
Definition demo_pool : list (prog provE (option IndexRegistryEntry)) :=
  map (worker_prog (env := demo_env)) [demo_worker 20; demo_worker 20].
Definition demo_run : list (prog provE (option IndexRegistryEntry)) * @pworld demo_env :=
  sched_exec (@phandle demo_env) demo_schedule (demo_pool, demo_world [] 0).

Lemma demo_run_steps : rtc (sched_step (@phandle demo_env)) (demo_pool, demo_world [] 0) (demo_run.1, demo_run.2).
Proof. rewrite <- surjective_pairing. apply sched_exec_rtc. Qed.

(** The registry of the two workers stays consistent. *)
Lemma claim_protocol_safe_witness :
  registry_ok (env := demo_env) dict_map im_described (demo_world [] 0) ∧
  registry_ok (env := demo_env) dict_map im_described demo_run.2.
Proof.
  split; [apply demo_empty_ok|].
  exact (proj1 (claim_protocol_safe (env := demo_env) (RegistryLaws0 := demo_laws) dict_map im_described
    (AdapterLaws0 := demo_adapter_laws) [demo_worker 20; demo_worker 20] _ _ _ (demo_empty_ok 0) demo_run_steps)).
Defined.

(** Both workers return a ready entry. *)
Lemma ensure_returns_live_witness :
  ∃ e, demo_run.1 !! 1%nat = Some (Ret (Some e)) ∧ en_status e = ready.
Proof.
  eexists. assert (Hi : demo_run.1 !! 1%nat = Some (Ret (Some _))) by (vm_compute; reflexivity).
  split; [exact Hi|].
  exact (proj1 (ensure_returns_live (env := demo_env) (RegistryLaws0 := demo_laws) dict_map im_described
    (AdapterLaws0 := demo_adapter_laws) [demo_worker 20; demo_worker 20] _ _ _ 1 (demo_worker 20) _ (demo_empty_ok 0) demo_run_steps eq_refl Hi)).
Defined.

(** Alone, the provisioner ends within the computed number of steps. *)
Lemma ensure_terminates_witness :
  registry_ok (env := demo_env) dict_map im_described (demo_world [("hr-index", dead_claim)] 0) ∧
  (run (@phandle demo_env) (ensure (env := demo_env) demo_config demo_templates demo_scenario (ensure_fuel demo_config))
     (demo_world [("hr-index", dead_claim)] 0)).1 ≠ Ok None.
Proof.
  split; [apply dead_claim_ok|].
  pose proof (ensure_terminates (env := demo_env) dict_map (RegistryLaws0 := demo_laws) im_described
    (AdapterLaws0 := demo_adapter_laws) (CreateLaws0 := demo_create_laws) ltac:(done) demo_config demo_templates demo_scenario _
    (demo_world [("hr-index", dead_claim)] 0) (dead_claim_ok 0) eq_refl (le_n _)) as H.
  destruct (run _ _ _) as [[[e|]|x] w'].
  - intros [=].
  - destruct H.
  - intros [=].
Defined.

(** From an empty registry the index is created. *)
Lemma ensure_creates_missing_witness :
  ∃ e w', run (@phandle demo_env) (ensure (env := demo_env) demo_config demo_templates demo_scenario 2) (demo_world [] 0) = (Ok (Some e), w') ∧
    en_status e = ready.
Proof.
  destruct (ensure_creates_missing (env := demo_env) dict_map (RegistryLaws0 := demo_laws) im_described
    (AdapterLaws0 := demo_adapter_laws) (CreateLaws0 := demo_create_laws) ltac:(done) demo_config demo_templates demo_scenario 2 (demo_world [] 0) standard_v1 384 "cosine"
    (in_memory_available unit_env _ _) eq_refl eq_refl eq_refl (or_introl eq_refl) (le_n _)) as (e & w' & Hr & Hs & _).
  exists e, w'. split; [exact Hr|exact Hs].
Defined.

(** Ten minutes after its owner died, a claim is taken over. *)
Lemma dead_claim_recovered_witness :
  ∃ e w', run (@phandle demo_env) (ensure (env := demo_env) demo_config demo_templates demo_scenario 3)
    (demo_world [("hr-index", dead_claim)] 600000000) = (Ok (Some e), w') ∧ en_status e = ready.
Proof.
  destruct (dead_claim_recovered (env := demo_env) dict_map (RegistryLaws0 := demo_laws) im_described
    (AdapterLaws0 := demo_adapter_laws) (CreateLaws0 := demo_create_laws) ltac:(done) demo_config demo_templates demo_scenario 3
    (demo_world [("hr-index", dead_claim)] 600000000) dead_claim 0 (in_memory_available unit_env _ _) (dead_claim_ok _)
    eq_refl eq_refl eq_refl ltac:(vm_compute; discriminate) (or_introl eq_refl) (le_n _)) as (e & w' & Hr & Hs & _).
  exists e, w'. split; [exact Hr|exact Hs].
Defined.

(** With creation switched off, a missing index raises. *)
Lemma ensure_settled_outcomes_witness :
  (run (@phandle demo_env) (ensure (env := demo_env) (mkPConfig "standard-v1" 1 1 1 1 false) demo_templates demo_scenario 1) (demo_world [] 0)).1 =
  Exc (ProvisioningError "hr-index" "no index exists and config.auto_create is False" INDEX_AUTO_CREATE_DISABLED).
Proof.
  destruct (run (@phandle demo_env) (ensure (env := demo_env) (mkPConfig "standard-v1" 1 1 1 1 false) demo_templates demo_scenario 1) (demo_world [] 0))
    as [r w'] eqn:Hr.
  destruct (ensure_settled_outcomes (env := demo_env) dict_map (RegistryLaws0 := demo_laws) im_described
    (AdapterLaws0 := demo_adapter_laws) ltac:(done) _ _ _ _ _ r w' (in_memory_available unit_env _ _) (demo_empty_ok 0) Hr eq_refl (le_n _))
    as [[reason ->] _].
  vm_compute in Hr. injection Hr as Hreason Hw. simpl. rewrite <- Hreason. reflexivity.
Defined.

(** ** Retiring an index while it is in use *)

(** An administrator's [registry.mark_retired(index_name)]. *)
Definition retire (index_name : string) : prog provE (option IndexRegistryEntry) :=
  pbind (call (RRetired index_name)) (λ e, Ret (Some e)).

Definition ready_entry : IndexRegistryEntry :=
  mkEntry "hr-index" "hr" "hr-1" "standard-v1" "1" 384 "cosine" "nomic" ready 0 None None None None None None.

(** The index is live, and its entry has never been verified. *)
Definition ready_world : @pworld demo_env :=
  @mkPW demo_env [("hr-index", ready_entry)] (mkIM "hr-index" [] [] (Some (384, "cosine"))) 0 0 0.

Definition with_admin : list (prog provE (option IndexRegistryEntry)) :=
  [worker_prog (env := demo_env) (demo_worker 20); retire "hr-index"].

(** Retiring an index is not final while a worker is in [ensure]: if the retirement lands
    after the worker's claim and before its [mark_ready], the claim token is still stored, so
    [mark_ready] succeeds and the retired entry is ready again; and if it lands between the
    verification of a ready entry and [touch_verified], [ensure] returns the retired entry as
    if it were ready. *)
Theorem retirement_races :
  (∃ schedule e e', let final := sched_exec (@phandle demo_env) schedule (with_admin, demo_world [] 0) in
     final.1 !! 1%nat = Some (Ret (Some e')) ∧ en_status e' = retired ∧
     final.1 !! 0%nat = Some (Ret (Some e)) ∧ en_status e = ready ∧ dict_get "hr-index" (pw_registry final.2) = Some e) ∧
  (∃ schedule e, let final := sched_exec (@phandle demo_env) schedule (with_admin, ready_world) in
     final.1 !! 0%nat = Some (Ret (Some e)) ∧ en_status e = retired).
Proof.
  split.
  - exists [0; 0; 0; 0; 1; 0; 0; 0; 0]%nat. eexists _, _. vm_compute. split_and!; reflexivity.
  - exists [0; 0; 1; 0]%nat. eexists. vm_compute. split; reflexivity.
Qed.

End InMemoryProvisioner.
