(* ===== verification/Scenarios.v ===== *)
(** * Scenarios (src/vestibule/scenario/model.py, src/vestibule/scenario/_validation.py)

    The validation of a scenario and its conversion into the configurations of the stages. The
    field types are those of [Types.Scenario]; what pydantic checks of them, and the messages it
    makes of a [ValueError], are the arguments of the stores that construct scenarios. *)
From S2P Require Import Prelude PyDict Types Prog System Chunker Embedder Indexer.
#[local] Open Scope Z_scope.

Module Scenarios.

Definition SCENARIO_INVALID : string := "SCENARIO_INVALID".
Definition SCENARIO_STORE_READ_ONLY : string := "SCENARIO_STORE_READ_ONLY".
Definition SCENARIO_CONFLICT : string := "SCENARIO_CONFLICT".
Definition SCENARIO_STORE_UNAVAILABLE : string := "SCENARIO_STORE_UNAVAILABLE".

(** ** [_INDEX_NAME_RE], used with [match]

    [^[a-z0-9][a-z0-9-]{0,126}[a-z0-9]$]: as in [Identity.hex_re], [$] also matches before a
    final newline. *)

Definition is_lower_or_digit (c : ascii) : bool :=
  let n := nat_of_ascii c in ((97 <=? n) && (n <=? 122) || (48 <=? n) && (n <=? 57))%nat.

Definition is_name_char (c : ascii) : bool := is_lower_or_digit c || bool_decide (c = "-"%char).

(** [$] at this point. *)
Definition at_end (s : string) : bool := bool_decide (s = "" ∨ s = String "010"%char "").

(** [[a-z0-9-]{0,k}[a-z0-9]$] from this point. *)
Fixpoint name_rest (k : nat) (s : string) {struct s} : bool :=
  match s with
  | EmptyString => false
  | String c s' =>
    is_lower_or_digit c && at_end s' ||
    match k with O => false | S k' => is_name_char c && name_rest k' s' end
  end.

Definition index_name_re (s : string) : bool :=
  match s with
  | EmptyString => false
  | String c s' => is_lower_or_digit c && name_rest 126 s'
  end.

(** ** [_validation.py]

    Each check gives the message of the [ValueError] it raises, if any. *)

Definition _NATIVE_DIMENSIONS : list ((string * string) * Z) :=
  [(("azure_openai", "text-embedding-3-large"), 3072); (("fastembed", "nomic-ai/nomic-embed-text-v1.5"), 768)].

Section validation.
Context (str_repr : string → string).

Definition validate_index_name (index_name : string) : option string :=
  if index_name_re index_name then None
  else Some ("index_name=" +:+ str_repr index_name
             +:+ " is invalid: must be 2-128 characters, lowercase alphanumeric or dashes, and not start/end with a dash").

Definition validate_chunker_bounds (chunker : ChunkerSettings) : option string :=
  if bool_decide (cs_min_chunk_tokens chunker ≤ cs_target_chunk_tokens chunker ≤ cs_max_chunk_tokens chunker) then None
  else Some ("chunker token bounds violated: expected min_chunk_tokens (" +:+ pretty (cs_min_chunk_tokens chunker)
             +:+ ") <= target_chunk_tokens (" +:+ pretty (cs_target_chunk_tokens chunker)
             +:+ ") <= max_chunk_tokens (" +:+ pretty (cs_max_chunk_tokens chunker) +:+ ")").

(** [repr] of an [int | None]. *)
Definition opt_int_repr (o : option Z) : string := match o with Some z => pretty z | None => "None" end.

Definition effective_dimensions (embedder : EmbedderSettings) (native : Z) : Z := default native (es_target_dimensions embedder).

Definition validate_dimension_consistency (embedder : EmbedderSettings) (indexer : IndexerSettings) : option string :=
  match dict_get (es_adapter embedder, es_model embedder) _NATIVE_DIMENSIONS with
  | None =>
    Some ("embedder (adapter=" +:+ str_repr (es_adapter embedder) +:+ ", model=" +:+ str_repr (es_model embedder)
          +:+ ") is not a recognized (adapter, model) combination in the native-dimensions registry; add an entry to _NATIVE_DIMENSIONS")
  | Some native =>
    let too_big := match es_target_dimensions embedder with Some target => bool_decide (native < target) | None => false end in
    if too_big then
      Some ("embedder.target_dimensions=" +:+ opt_int_repr (es_target_dimensions embedder) +:+ " exceeds model "
            +:+ str_repr (es_model embedder) +:+ "'s native_dimensions=" +:+ pretty native)
    else
      let effective := effective_dimensions embedder native in
      if bool_decide (is_dimensions indexer ≠ effective) then
        Some ("indexer.dimensions=" +:+ pretty (is_dimensions indexer) +:+ " does not match the embedder's effective dimensions="
              +:+ pretty effective +:+ " (target_dimensions=" +:+ opt_int_repr (es_target_dimensions embedder)
              +:+ ", native=" +:+ pretty native +:+ ")")
      else None
  end.

(** ** The validators of [Scenario] *)

(** [_non_empty] on the three fields it is registered for. *)
Definition _non_empty (s : Scenario) : list (string * string) :=
  List.filter (λ e, bool_decide (e.2 ≠ ""))
    (map (λ fv, (fv.1, if decide (fv.2 = "") then "must be non-empty" else ""))
       [("scenario_id", sc_scenario_id s); ("vertical", sc_vertical s); ("default_trust_tier", sc_default_trust_tier s)]).

(** The first failing check. *)
Definition _validate_cross_field_invariants (s : Scenario) : option string :=
  match validate_index_name (sc_index_name s) with
  | Some m => Some m
  | None =>
    match validate_chunker_bounds (sc_chunker s) with
    | Some m => Some m
    | None => validate_dimension_consistency (sc_embedder s) (sc_indexer s)
    end
  end.

(** The errors of [Scenario(...)] on well-typed fields: the model validator only runs when the
    field validators passed. *)
Definition scenario_errors (s : Scenario) : list (string * string) :=
  match _non_empty s with
  | [] => match _validate_cross_field_invariants s with Some m => [("", m)] | None => [] end
  | es => es
  end.
End validation.

(** ** Conversions *)

Definition to_chunker_config (s : Scenario) : Chunker.ChunkerConfig :=
  Chunker.mkChunkerConfig (cs_target_chunk_tokens (sc_chunker s)) (cs_overlap_tokens (sc_chunker s))
    (cs_min_chunk_tokens (sc_chunker s)) (cs_max_chunk_tokens (sc_chunker s)) "tiktoken_cl100k".

Definition to_embedder_config (s : Scenario) : Embedder.EmbedderConfig :=
  Embedder.mkEmbedderConfig (es_target_dimensions (sc_embedder s)) None.

Definition to_indexer_config (s : Scenario) : Indexer.IndexerConfig :=
  Indexer.mkIndexerConfig (is_dimensions (sc_indexer s)) (is_metric (sc_indexer s)) None true.

(** ** What an accepted scenario guarantees *)

Fixpoint string_all (P : ascii → bool) (s : string) : bool :=
  match s with EmptyString => true | String c s' => P c && string_all P s' end.

(** Two to 128 lower-case letters, digits or dashes, the first and the last no dash. *)
Definition index_name_ok (s : string) : Prop :=
  ∃ first middle last, s = String first (middle +:+ String last "") ∧ (String.length middle ≤ 126)%nat ∧
    is_lower_or_digit first = true ∧ string_all is_name_char middle = true ∧ is_lower_or_digit last = true.

Definition scenario_ok (s : Scenario) : Prop :=
  sc_scenario_id s ≠ "" ∧ sc_vertical s ≠ "" ∧ sc_default_trust_tier s ≠ "" ∧
  (index_name_ok (sc_index_name s) ∨ ∃ name, sc_index_name s = name +:+ String "010"%char "" ∧ index_name_ok name) ∧
  cs_min_chunk_tokens (sc_chunker s) ≤ cs_target_chunk_tokens (sc_chunker s) ≤ cs_max_chunk_tokens (sc_chunker s) ∧
  ∃ native, dict_get (es_adapter (sc_embedder s), es_model (sc_embedder s)) _NATIVE_DIMENSIONS = Some native ∧
    (∀ t, es_target_dimensions (sc_embedder s) = Some t → t ≤ native) ∧
    is_dimensions (sc_indexer s) = effective_dimensions (sc_embedder s) native.

Lemma name_rest_spec k s :
  name_rest k s = true ↔
  ∃ m b t, s = m +:+ String b t ∧ (String.length m ≤ k)%nat ∧ string_all is_name_char m = true ∧
           is_lower_or_digit b = true ∧ (t = "" ∨ t = String "010"%char "").
Proof.
  revert k. induction s as [|c s IH]; intros k; cbn [name_rest].
  { split; [done|]. intros (m & b & t & H & _). destruct m; discriminate H. }
  rewrite orb_true_iff, andb_true_iff. unfold at_end. rewrite bool_decide_eq_true. split.
  - intros [[Hc Ht]|H].
    + exists "", c, s. split_and!; [done|simpl; lia|done..].
    + destruct k as [|k]; [done|]. apply andb_true_iff in H as [Hc H]. apply IH in H as (m & b & t & -> & Hl & Hm & Hb & Ht).
      exists (String c m), b, t. split_and!; [done|simpl; lia|simpl; by rewrite Hc|done..].
  - intros (m & b & t & Heq & Hl & Hm & Hb & Ht). destruct m as [|c' m]; injection Heq as -> ->; [by left|].
    right. simpl in Hl, Hm. destruct k as [|k]; [lia|]. apply andb_true_iff in Hm as [Hc Hm]. rewrite Hc. apply IH.
    exists m, b, t. split_and!; [done|lia|done..].
Qed.

Lemma index_name_re_spec s :
  index_name_re s = true ↔ index_name_ok s ∨ ∃ name, s = name +:+ String "010"%char "" ∧ index_name_ok name.
Proof.
  unfold index_name_ok. destruct s as [|c s]; cbn [index_name_re].
  { split; [done|]. intros [(?&?&?&?&_)|(name & Hn & ? & ? & ? & -> & _)]; done. }
  rewrite andb_true_iff, name_rest_spec. split.
  - intros [Hc (m & b & t & -> & Hl & Hm & Hb & [->| ->])]; [left|right]; [by eexists c, m, b|].
    exists (String c (m +:+ String b "")). split; [|by eexists c, m, b].
    change (String c (m +:+ String b (String "010"%char "")) = String c ((m +:+ String b "") +:+ String "010"%char "")).
    by rewrite string_app_assoc.
  - intros [(a & m & b & [= -> ->] & Hl & Ha & Hm & Hb)|(name & Hs & a & m & b & -> & Hl & Ha & Hm & Hb)].
    + split; [done|]. eexists m, b, "". split_and!; auto.
    + change (String c s = String a ((m +:+ String b "") +:+ String "010"%char "")) in Hs. injection Hs as -> ->. split; [done|]. exists m, b, (String "010"%char "").
      split_and!; auto. by rewrite string_app_assoc.
Qed.

Lemma dimension_check_spec repr e i :
  validate_dimension_consistency repr e i = None ↔
  ∃ native, dict_get (es_adapter e, es_model e) _NATIVE_DIMENSIONS = Some native ∧
    (∀ t, es_target_dimensions e = Some t → t ≤ native) ∧ is_dimensions i = effective_dimensions e native.
Proof.
  unfold validate_dimension_consistency. destruct (dict_get _ _) as [native|]; [|naive_solver].
  destruct (es_target_dimensions e) as [t|]; simpl; repeat case_bool_decide; split; try done.
  - intros (n & [= <-] & H' & _). specialize (H' t eq_refl). lia.
  - intros (n & [= <-] & _ & ?). done.
  - intros _. exists native. split_and!; [done| |done]. intros ? [= <-]. lia.
  - intros (n & [= <-] & _ & ?). done.
  - intros _. exists native. split_and!; [done..|done].
Qed.

Lemma non_empty_nil s : _non_empty s = [] ↔ sc_scenario_id s ≠ "" ∧ sc_vertical s ≠ "" ∧ sc_default_trust_tier s ≠ "".
Proof.
  unfold _non_empty. simpl.
  destruct (decide (sc_scenario_id s = "")), (decide (sc_vertical s = "")), (decide (sc_default_trust_tier s = "")); simpl; tauto || (split; [done|tauto]).
Qed.

(** The constructor accepts exactly the scenarios of [scenario_ok]. *)
Lemma scenario_errors_nil repr s : scenario_errors repr s = [] ↔ scenario_ok s.
Proof.
  unfold scenario_ok. rewrite <- index_name_re_spec, <- (dimension_check_spec repr).
  unfold scenario_errors. destruct (_non_empty s) as [|e es] eqn:Hne.
  - apply non_empty_nil in Hne. unfold _validate_cross_field_invariants, validate_index_name, validate_chunker_bounds.
    destruct (index_name_re _); [|naive_solver]. case_bool_decide; [|naive_solver].
    destruct (validate_dimension_consistency _ _ _); naive_solver.
  - split; [done|]. intros (? & ? & ? & _). assert (_non_empty s = []) by (by apply non_empty_nil). congruence.
Qed.

(** ** The stages accept what an accepted scenario configures *)

(** The vectors a successful [_embed_all] builds its result from. *)
Lemma embed_all_vectors {env : Env} (P : list pyfloat → Prop) config chunks w es w' :
  (∀ ts st vs st', ea_embed_batch ts st = (Ok vs, st') → Forall P vs) →
  run handle (Embedder._embed_all config chunks) w = (Ok es, w') →
  length es = length chunks ∧ Forall (λ e, ∃ c v, P v ∧ e = Embedder._build_embedded_chunk config c v) es.
Proof.
  intros HP. unfold Embedder._embed_all. rewrite run_bind, run_lift. destruct (Embedder._batched _ _) as [bs|]; [|done].
  rewrite run_bind.
  assert (Hloop : ∀ bs acc w0 vs w1, Forall P acc →
    run handle (pfold (λ vectors batch, pbind (call (EBatch batch)) (λ vs, Ret (vectors ++ vs))) acc bs) w0 = (Ok vs, w1) → Forall P vs).
  { clear -HP. induction bs as [|b bs IH]; intros acc w0 vs w1 Hacc; cbn [pfold].
    - by intros [= <- _].
    - rewrite run_bind, run_bind, run_call. simpl handle. destruct (ea_embed_batch b (w_embed w0)) as [[vs0|x] st] eqn:Hb; [|done].
      cbn [run]. apply IH. apply Forall_app. split; [done|]. by eapply HP. }
  destruct (run handle (pfold _ [] bs) w) as [[vs|] w1] eqn:Hrun; [|done]. rewrite run_lift.
  apply Hloop in Hrun; [|constructor]. unfold zip_strict. case_bool_decide as Hlen; [|done]. simpl. intros [= <- _].
  split; [rewrite length_map, length_zip; lia|]. clear -Hrun. revert chunks. induction Hrun as [|v vs Hv Hvs IH]; intros [|c cs]; simpl; constructor; eauto.
Qed.

(** Chunks of one model and of the dimensions of the index are not refused. *)
Lemma index_accepts {env : Env} config es :
  es ≠ [] → Forall (λ e, em_embedding_model e = ea_model_name ∧ em_embedding_dimensions e = Indexer.dimensions config) es →
  Indexer.index_refusal config es = None.
Proof.
  intros Hne Hmodel. unfold Indexer.index_refusal. destruct es as [|e es'] eqn:Ees; [done|].
  rewrite <- Ees in *. clear Ees. rewrite bool_decide_eq_false_2.
  - rewrite (proj2 (list_find_None _ _)); [done|]. eapply Forall_impl; [exact Hmodel|]. simpl. naive_solver.
  - assert (Hone : dedup_first [] (map em_embedding_model es) ⊆+ [ea_model_name]).
    { apply NoDup_submseteq; [apply NoDup_dedup_first; constructor|]. intros m. rewrite elem_of_dedup_first.
      intros [Hm|Hm]; [set_solver|]. apply list_elem_of_In, in_map_iff in Hm as (x & <- & Hx). apply list_elem_of_In in Hx.
      rewrite Forall_forall in Hmodel. apply list_elem_of_singleton. by apply Hmodel. }
    apply submseteq_length in Hone. simpl in Hone. lia.
Qed.

(** An accepted batch has the dimensions of the index. *)
Lemma index_accepted {env : Env} config es :
  Indexer.index_refusal config es = None → Forall (λ e, em_embedding_dimensions e = Indexer.dimensions config) es.
Proof.
  unfold Indexer.index_refusal. destruct es as [|e es]; [done|]. case_bool_decide; [done|].
  destruct (list_find _ _) as [[]|] eqn:Hf; [done|]. intros _. apply list_find_None in Hf. eapply Forall_impl; [exact Hf|]. simpl.
  intros x Hx. by destruct (decide (em_embedding_dimensions x = Indexer.dimensions config)).
Qed.

(** C30: the dimension guard of a scenario, exactly. If a scenario is accepted and the provider
    returns vectors of the native length recorded for the scenario's model, then what the
    embedder produces with the scenario's configuration passes the indexer's batch validation
    with the scenario's configuration if and only if the target dimension is not negative: no
    batch is refused for its dimensions or for mixing models, and only a negative target, which
    the guard lets through, makes every batch refused. The token bounds of the chunker's
    configuration are in order. *)
Theorem scenario_dimensions_agree {env : Env} repr s native chunks w es w' :
  scenario_errors repr s = [] →
  dict_get (es_adapter (sc_embedder s), es_model (sc_embedder s)) _NATIVE_DIMENSIONS = Some native →
  (∀ ts st vs st', ea_embed_batch ts st = (Ok vs, st') → Forall (λ v, Z.of_nat (length v) = native) vs) →
  chunks ≠ [] → run handle (Embedder._embed_all (to_embedder_config s) chunks) w = (Ok es, w') →
  (Indexer.index_refusal (to_indexer_config s) es = None ↔ ∀ t, es_target_dimensions (sc_embedder s) = Some t → 0 ≤ t) ∧
  Chunker.min_chunk_tokens (to_chunker_config s) ≤ Chunker.target_chunk_tokens (to_chunker_config s) ≤ Chunker.max_chunk_tokens (to_chunker_config s).
Proof.
  intros Hok Hnat Hprov Hne Hrun. apply scenario_errors_nil in Hok as (_ & _ & _ & _ & Hbounds & n & Hn & Hmax & Hdim). split; [|exact Hbounds].
  rewrite Hnat in Hn. injection Hn as <-.
  destruct (embed_all_vectors _ _ _ _ _ _ Hprov Hrun) as [Hlen Hes].
  assert (Hes0 : es ≠ []) by (intros ->; by destruct chunks). split.
  - intros Hnone%index_accepted t Ht. destruct es as [|e es]; [done|]. apply Forall_cons in Hnone as [He _], Hes as [(c & v & _ & ->) _].
    destruct (Embedder.build_dimensions (to_embedder_config s) c v) as (_ & _ & Hd & _). rewrite Hd in He. simpl in He.
    rewrite Hdim in He. unfold effective_dimensions in He. rewrite Ht in He. simpl in He. lia.
  - intros Ht. apply index_accepts; [done|]. eapply Forall_impl; [exact Hes|]. intros e (c & v & Hv & ->).
    destruct (Embedder.build_dimensions (to_embedder_config s) c v) as (_ & Hm & Hd & Htd). split; [exact Hm|]. simpl.
    rewrite Hdim. unfold effective_dimensions. simpl in Htd. destruct (es_target_dimensions (sc_embedder s)) as [t|] eqn:Et; simpl.
    + destruct Htd as [_ Htd]. rewrite Htd, Hv by auto. specialize (Hmax t eq_refl). lia.
    + destruct Htd as [Hv' _]. by rewrite Hd, Hv'.
Qed.

(** ** Concrete scenarios *)

Definition nomic_scenario (target : option Z) (dims : Z) (index_name : string) : Scenario :=
  mkScenario "hr-1" "hr" "1" index_name (mkChunkerSettings 512 64 40 800)
    (mkEmbedderSettings "fastembed" "nomic-ai/nomic-embed-text-v1.5" target)
    (mkIndexerSettings "cosine" dims 4 400 500) "envelope" "internal" true 0 0 None.

(** A provider with vectors of the native length. *)
Definition nomic_env : Env := {|
  clock := @clock unit_env; str_repr := @str_repr unit_env; meta_repr := @meta_repr unit_env;
  index_state := unit; ix_upsert := @ix_upsert unit_env; ix_delete_by_doc_id := @ix_delete_by_doc_id unit_env;
  ix_get_doc_version := @ix_get_doc_version unit_env; ix_index_name := "unit"; ix_max_batch_size := 10;
  embed_state := unit;
  ea_embed_batch ts st := (Ok (map (λ _, replicate 768 (f_of_Z 1)) ts), st);
  ea_model_name := "nomic-ai/nomic-embed-text-v1.5"; ea_max_batch_size := 32;
  ea_max_input_tokens := 8192; ea_supports_mrl := true; ea_document_prefix := Some "search_document: ";
  scenario_state := unit; ss_get := @ss_get unit_env; ss_get_by_vertical := @ss_get_by_vertical unit_env;
|}.

(** Vectors truncated to four dimensions pass the check of an index with four. *)
Lemma scenario_dimensions_agree_witness :
  ∃ es w', run (@handle nomic_env) (@Embedder._embed_all nomic_env (to_embedder_config (nomic_scenario (Some 4) 4 "hr-index"))
      [mkChunk "c" "d" 0 [] "text" 1 []]) (@mkWorld nomic_env [] [] tt tt tt 0) = (Ok es, w') ∧
    @Indexer.index_refusal nomic_env (to_indexer_config (nomic_scenario (Some 4) 4 "hr-index")) es = None.
Proof.
  eexists _, _.
  assert (Hrun : run (@handle nomic_env) (@Embedder._embed_all nomic_env (to_embedder_config (nomic_scenario (Some 4) 4 "hr-index"))
    [mkChunk "c" "d" 0 [] "text" 1 []]) (@mkWorld nomic_env [] [] tt tt tt 0) = (Ok _, _)) by (vm_compute; reflexivity).
  split; [exact Hrun|].
  refine (proj2 (proj1 (@scenario_dimensions_agree nomic_env (λ s, s) (nomic_scenario (Some 4) 4 "hr-index") 768 [mkChunk "c" "d" 0 [] "text" 1 []] _ _ _
    eq_refl eq_refl _ _ Hrun)) _); [|discriminate|intros t [= <-]; discriminate].
  intros ts st vs st' [= <- _]. clear. induction ts as [|t ts IH]; constructor; [vm_compute; reflexivity|exact IH].
Defined.

(** Two scenarios the validation lets through: a negative target dimension, which no vector can
    have, with an equally negative index dimension; and an index name that ends with a newline. *)
Lemma scenario_validation_gaps :
  scenario_errors (λ s, s) (nomic_scenario (Some (-1)) (-1) "hr-index") = [] ∧
  scenario_errors (λ s, s) (nomic_scenario None 768 ("hr-index" +:+ String "010"%char "")) = [].
Proof. split; vm_compute; reflexivity. Qed.

End Scenarios.
