(* ===== verification/ScenarioStores.v ===== *)
(** * Scenario stores (src/vestibule/scenario/stores/base.py, src/vestibule/scenario/stores/yaml_store.py)

    Choosing among scenarios, the fallback chain [resolve] of every store, and the read-only
    store of a directory of YAML files. *)
From S2P Require Import Prelude PyDict Types Prog System Registry Templates Scenarios.
#[local] Open Scope Z_scope.
#[local] Open Scope py_scope.

Module ScenarioStores.
Import Templates Scenarios.

(** ** base.py *)

(** [min(xs, key=...)]: the first of the smallest. *)
Fixpoint py_min {A} (lt : A → A → bool) (best : A) (l : list A) : A :=
  match l with
  | [] => best
  | x :: l' => py_min lt (if lt x best then x else best) l'
  end.

Definition id_lt (a b : Scenario) : bool := String.ltb (sc_scenario_id a) (sc_scenario_id b).

Definition select_enabled_for_vertical (vertical : string) (candidates : list Scenario) : option Scenario :=
  match candidates with
  | [] => None
  | c :: cs => Some (py_min id_lt c cs)
  end.

(** [repr] of a [str | None]. *)
Definition opt_repr (repr : string → string) (o : option string) : string := match o with Some s => repr s | None => "None" end.

(** [ScenarioStore.resolve], over the store's [get] and [get_by_vertical]. *)
Definition resolve {env : Env} (scenario_id vertical default_scenario_id : option string) : component Scenario :=
  let lookup (key : option string) (get : string → sysE (result exn (option Scenario))) (otherwise : component Scenario) :=
    match key with
    | None => otherwise
    | Some k => found ← call (get k); match found with Some s => Ret s | None => otherwise end
    end in
  lookup scenario_id SGet
    (lookup vertical SByVertical
       (lookup default_scenario_id SGet
          (Raise (ScenarioError (default "" scenario_id)
             ("no scenario found for scenario_id=" +:+ opt_repr str_repr scenario_id +:+ " vertical=" +:+ opt_repr str_repr vertical
              +:+ ", and no default_scenario_id resolved") "SCENARIO_NOT_FOUND")))).

(** ** yaml_store.py *)

Notation scenarios := (list (string * Scenario)).

Section yaml.
Context (repr : string → string) {raw : Type} (safe_load : string → yaml_doc raw) (raw_scenario_id : raw → string)
  (parse_fields : raw → result string Scenario) (validation_error : list (string * string) → string).

Definition _load_one (file : template_file) : result exn Scenario :=
  match safe_load (tf_text file) with
  | YamlError _ m => Exc (ScenarioError "" (tf_path file +:+ ": invalid YAML: " +:+ m) SCENARIO_INVALID)
  | YamlOther _ ty =>
    Exc (ScenarioError "" (tf_path file +:+ ": expected a YAML mapping at the document root, got " +:+ ty) SCENARIO_INVALID)
  | YamlMapping _ r =>
    let invalid m := Exc (ScenarioError (raw_scenario_id r) (tf_path file +:+ ": " +:+ m) SCENARIO_INVALID) in
    match parse_fields r with
    | Exc m => invalid m
    | Ok s => match scenario_errors repr s with [] => Ok s | es => invalid (validation_error es) end
    end
  end.

Fixpoint load_all (loaded : scenarios) (files : list template_file) : result exn scenarios :=
  match files with
  | [] => Ok loaded
  | file :: files' => rbind (_load_one file) (λ s, load_all (dict_set (sc_scenario_id s) s loaded) files')
  end.

(** [reload]: the store is replaced only when every file loaded. *)
Definition reload (files : list template_file) (st : scenarios) : result exn unit * scenarios :=
  match load_all [] files with
  | Ok loaded => (Ok tt, loaded)
  | Exc x => (Exc x, st)
  end.

Definition YamlScenarioStore (files : list template_file) : result exn scenarios := load_all [] files.

Definition yaml_get (scenario_id : string) (st : scenarios) : option Scenario := dict_get scenario_id st.

Definition yaml_get_by_vertical (vertical : string) (st : scenarios) : option Scenario :=
  select_enabled_for_vertical vertical
    (List.filter (λ s, bool_decide (sc_vertical s = vertical) && sc_enabled s) (dict_values st)).

Definition yaml_list_all (include_disabled : bool) (st : scenarios) : list Scenario :=
  if include_disabled then dict_values st else List.filter sc_enabled (dict_values st).

Definition read_only {A} (scenario_id : string) : result exn A :=
  Exc (ScenarioError scenario_id "YamlScenarioStore is read-only; edit the underlying YAML file and call reload() instead" SCENARIO_STORE_READ_ONLY).

Definition yaml_upsert (scenario : Scenario) (st : scenarios) : result exn Scenario * scenarios := (read_only (sc_scenario_id scenario), st).
Definition yaml_delete (scenario_id : string) (st : scenarios) : result exn bool * scenarios := (read_only scenario_id, st).

(** ** Lemmas *)

Lemma load_one_valid file s : _load_one file = Ok s → scenario_ok s.
Proof.
  unfold _load_one. destruct (safe_load (tf_text file)) as [m|ty|r]; [done..|]. destruct (parse_fields r) as [s'|m]; [|done].
  destruct (scenario_errors repr s') eqn:He; [|done]. intros [= <-]. by eapply scenario_errors_nil.
Qed.

Lemma load_scenario_exc file x : _load_one file = Exc x → exn_error_code x = Some SCENARIO_INVALID.
Proof.
  unfold _load_one. destruct (safe_load (tf_text file)) as [m|ty|r]; [by intros [= <-]..|].
  destruct (parse_fields r) as [s'|m]; [|by intros [= <-]]. destruct (scenario_errors repr s'); [done|by intros [= <-]].
Qed.

(** The scenarios of the files, and the last file that declares an id. *)
Lemma load_all_ok files loaded st :
  load_all loaded files = Ok st →
  ∃ ss, Forall2 (λ f s, _load_one f = Ok s) files ss ∧
    ∀ i, dict_get i st = match list_find (λ s, sc_scenario_id s = i) (reverse ss) with Some (_, s) => Some s | None => dict_get i loaded end.
Proof.
  revert loaded. induction files as [|f files IH]; intros loaded; cbn [load_all].
  { intros [= <-]. exists []. by split; [constructor|]. }
  intros (s & Hs & (ss & Hss & Hget)%IH)%rbind_ok. exists (s :: ss). split; [by constructor|].
  intros i. rewrite Hget, reverse_cons, dict_get_set. destruct (list_find (λ s, sc_scenario_id s = i) (reverse ss)) as [[j s']|] eqn:Hf.
  - by rewrite (list_find_app_l _ _ _ _ _ Hf).
  - rewrite list_find_app_r by done. simpl. case_decide as Hi; case_decide; subst; done.
Qed.

Lemma load_all_exc files loaded x : load_all loaded files = Exc x → exn_error_code x = Some SCENARIO_INVALID ∧ ∃ f, f ∈ files ∧ ∃ y, _load_one f = Exc y.
Proof.
  revert loaded. induction files as [|f files IH]; intros loaded; cbn [load_all]; [done|].
  destruct (_load_one f) as [s|y] eqn:Hf; simpl.
  - intros (? & g & Hg & ?)%IH. split; [done|]. exists g. split; [set_solver|done].
  - intros [= ->]. split; [by eapply load_scenario_exc|]. exists f. split; [set_solver|eauto].
Qed.
End yaml.

(** ** The order of identifiers *)

Lemma string_compare_trans x y z : String.compare x y = Lt → String.compare y z = Lt → String.compare x z = Lt.
Proof.
  revert y z. induction x as [|a x IH]; intros [|b y] [|c z]; simpl; try done. unfold Ascii.compare.
  destruct (N.compare_spec (N_of_ascii a) (N_of_ascii b)) as [Hab|Hab|Hab]; [|intros _|done];
    (destruct (N.compare_spec (N_of_ascii b) (N_of_ascii c)) as [Hbc|Hbc|Hbc]; [|try intros _|done]).
  - rewrite Hab, Hbc, N.compare_refl. apply IH.
  - intros _. by rewrite (proj2 (N.compare_lt_iff _ _)) by lia.
  - intros _. by rewrite (proj2 (N.compare_lt_iff _ _)) by lia.
  - by rewrite (proj2 (N.compare_lt_iff _ _)) by lia.
Qed.

Lemma ltb_Lt a b : String.ltb a b = true ↔ String.compare a b = Lt.
Proof. unfold String.ltb. destruct (String.compare a b); naive_solver. Qed.

Lemma ltb_trans a b c : String.ltb a b = true → String.ltb b c = true → String.ltb a c = true.
Proof. rewrite !ltb_Lt. apply string_compare_trans. Qed.

Lemma ltb_total a b : String.ltb a b = false → String.ltb b a = false → a = b.
Proof.
  unfold String.ltb. rewrite (String.compare_antisym b a). destruct (String.compare a b) eqn:E; simpl; try done.
  intros _ _. by apply String.compare_eq_iff.
Qed.

Lemma ltb_irrefl a : String.ltb a a = false.
Proof. unfold String.ltb. pose proof (String.compare_antisym a a) as H. by destruct (String.compare a a). Qed.

(** [¬ (c < b)] and [¬ (b < a)] give [¬ (c < a)]. *)
Lemma ltb_neg_trans a b c : String.ltb c b = false → String.ltb b a = false → String.ltb c a = false.
Proof.
  intros Hcb Hba. destruct (String.ltb c a) eqn:Hca; [|done]. destruct (String.ltb a b) eqn:Hab.
  - by rewrite (ltb_trans c a b) in Hcb.
  - assert (a = b) as -> by (by apply ltb_total). congruence.
Qed.

Lemma py_min_spec best l :
  py_min id_lt best l ∈ best :: l ∧ ∀ c, c ∈ best :: l → id_lt c (py_min id_lt best l) = false.
Proof.
  unfold id_lt. revert best. induction l as [|x l IH]; intros best; cbn [py_min].
  { split; [set_solver|]. intros c Hc. apply list_elem_of_singleton in Hc as ->. apply ltb_irrefl. }
  destruct (String.ltb (sc_scenario_id x) (sc_scenario_id best)) eqn:Hx.
  - destruct (IH x) as [Hin Hle]. split; [set_solver|]. intros c [->|Hc]%elem_of_cons; [|by apply Hle].
    apply (ltb_neg_trans _ (sc_scenario_id x)); [|apply Hle; set_solver].
    destruct (String.ltb (sc_scenario_id best) (sc_scenario_id x)) eqn:Hb; [|done]. pose proof (ltb_trans _ _ _ Hx Hb) as H. by rewrite ltb_irrefl in H.
  - destruct (IH best) as [Hin Hle]. split; [set_solver|]. intros c [->|[->|Hc]%elem_of_cons]%elem_of_cons; [apply Hle; set_solver| |apply Hle; set_solver].
    apply (ltb_neg_trans _ (sc_scenario_id best)); [done|]. apply Hle. set_solver.
Qed.

Lemma select_spec v candidates :
  match select_enabled_for_vertical v candidates with
  | None => candidates = []
  | Some m => m ∈ candidates ∧ ∀ c, c ∈ candidates → id_lt c m = false
  end.
Proof. destruct candidates as [|c cs]; simpl; [done|]. apply py_min_spec. Qed.

(** The choice does not depend on the order of the candidates. *)
Lemma select_perm v cs cs' :
  NoDup (map sc_scenario_id cs) → cs ≡ₚ cs' → select_enabled_for_vertical v cs = select_enabled_for_vertical v cs'.
Proof.
  intros Hnd Hp. pose proof (select_spec v cs) as H. pose proof (select_spec v cs') as H'.
  destruct (select_enabled_for_vertical v cs) as [m|], (select_enabled_for_vertical v cs') as [m'|]; try done.
  - destruct H as [Hm Hle], H' as [Hm' Hle']. assert (Hid : sc_scenario_id m = sc_scenario_id m').
    { apply ltb_total; [apply Hle'|apply Hle]; [by rewrite <- Hp|by rewrite Hp]. }
    rewrite <- Hp in Hm'. f_equal. apply elem_of_Permutation in Hm as [rest Hr]. rewrite Hr in Hnd, Hm'. simpl in Hnd.
    apply NoDup_cons in Hnd as [Hnot _]. apply elem_of_cons in Hm' as [->|Hin]; [done|]. destruct Hnot. rewrite Hid.
    by apply (list_elem_of_fmap_2 sc_scenario_id).
  - destruct H as [Hm _]. subst cs'. rewrite Hp in Hm. set_solver.
  - destruct H' as [Hm _]. subst cs. rewrite <- Hp in Hm. set_solver.
Qed.

(** ** The YAML store *)

(** A directory of scenario files loads as a whole or not at all: a bad file makes
    construction and [reload] raise SCENARIO_INVALID, and [reload] then keeps the old contents;
    otherwise [get] finds exactly the scenario of the last file that declares the id, every
    stored scenario is valid, [get_by_vertical] returns the enabled scenario of the vertical
    with the smallest id and None only if there is none, and writing always raises
    SCENARIO_STORE_READ_ONLY and changes nothing. *)
Theorem yaml_store_correct {raw : Type} repr (safe_load : string → yaml_doc raw) raw_id parse verr files st0 :
  let load := _load_one repr safe_load raw_id parse verr in
  match reload repr safe_load raw_id parse verr files st0 with
  | (Exc x, st) => st = st0 ∧ exn_error_code x = Some SCENARIO_INVALID ∧ (∃ f y, f ∈ files ∧ load f = Exc y) ∧
                   YamlScenarioStore repr safe_load raw_id parse verr files = Exc x
  | (Ok _, st) =>
    YamlScenarioStore repr safe_load raw_id parse verr files = Ok st ∧
    (∃ ss, Forall2 (λ f s, load f = Ok s) files ss ∧ Forall scenario_ok ss ∧
       ∀ i, yaml_get i st = (list_find (λ s, sc_scenario_id s = i) (reverse ss)) ≫= (λ js, Some js.2)) ∧
    (∀ v, match yaml_get_by_vertical v st with
          | None => ∀ s, s ∈ dict_values st → sc_vertical s = v → sc_enabled s = false
          | Some m => m ∈ yaml_list_all false st ∧ sc_vertical m = v ∧
                      ∀ s, s ∈ yaml_list_all false st → sc_vertical s = v → String.ltb (sc_scenario_id s) (sc_scenario_id m) = false
          end) ∧
    (∀ s, (yaml_upsert s st).2 = st ∧ ∃ m, (yaml_upsert s st).1 = Exc (ScenarioError (sc_scenario_id s) m SCENARIO_STORE_READ_ONLY)) ∧
    (∀ i, (yaml_delete i st).2 = st ∧ ∃ m, (yaml_delete i st).1 = Exc (ScenarioError i m SCENARIO_STORE_READ_ONLY))
  end.
Proof.
  intros load. unfold reload, YamlScenarioStore. destruct (load_all repr safe_load raw_id parse verr [] files) as [st|x] eqn:Hl.
  - split; [done|]. split; [|split; [|split; by eauto]].
    + apply load_all_ok in Hl as (ss & Hss & Hget). exists ss. split_and!; [done| |].
      * clear Hget. induction Hss; constructor; [by eapply load_one_valid|done].
      * intros i. unfold yaml_get. rewrite Hget. by destruct (list_find _ _) as [[]|].
    + intros v. unfold yaml_get_by_vertical, yaml_list_all.
      set (cs := List.filter (λ s, bool_decide (sc_vertical s = v) && sc_enabled s) (dict_values st)).
      assert (Hcs : ∀ s, s ∈ cs ↔ s ∈ dict_values st ∧ sc_vertical s = v ∧ sc_enabled s = true).
      { intros s. unfold cs. rewrite list_elem_of_In, filter_In, <- list_elem_of_In, andb_true_iff, bool_decide_eq_true. tauto. }
      assert (Hen : ∀ s, s ∈ List.filter sc_enabled (dict_values st) ↔ s ∈ dict_values st ∧ sc_enabled s = true).
      { intros s. by rewrite list_elem_of_In, filter_In, <- list_elem_of_In. }
      pose proof (select_spec v cs) as Hsel. destruct (select_enabled_for_vertical v cs) as [m|].
      * destruct Hsel as [Hm Hle]. apply Hcs in Hm as (? & ? & ?). split_and!; [by apply Hen|done|].
        intros s [? ?]%Hen ?. apply Hle. by apply Hcs.
      * intros s Hs Hv. destruct (sc_enabled s) eqn:E; [|done]. assert (s ∈ cs) by (by apply Hcs). rewrite Hsel in *. set_solver.
  - destruct (load_all_exc _ _ _ _ _ _ _ _ Hl) as (? & f & ? & y & ?). split_and!; eauto.
Qed.

End ScenarioStores.
