(* ===== verification/Caches.v ===== *)
(** * TTL caches (src/vestibule/scenario/stores/cached_store.py,
      src/vestibule/provisioning/stores/cached_registry.py)

    Both decorators read through a cache that keeps an answer for [ttl] and drop the whole
    cache after a successful write. A lock guards each access to the cache, but not the call on
    the wrapped store in between, so a read is three steps: look up, delegate, store. The
    monotonic clock is read inside the look-up (when there is an entry) and inside the store. *)
From S2P Require Import Prelude PyDict Types Prog Rely Registry.
#[local] Open Scope Z_scope.
#[local] Open Scope py_scope.

(** ** What the two decorators share *)

Section slots.
Context {E : Type → Type} {K V : Type} `{EqDecision K}.

(** A cache dictionary: the value and the instant it was stored. *)
Definition slot := list (K * (V * Z)).

Definition _is_expired (now ttl_seconds cached_at : Z) : bool := bool_decide (ttl_seconds ≤ now - cached_at).

Definition slot_lookup (now ttl_seconds : Z) (k : K) (c : slot) : option V :=
  match dict_get k c with
  | Some (v, cached_at) => if _is_expired now ttl_seconds cached_at then None else Some v
  | None => None
  end.

Definition slot_store (now : Z) (k : K) (v : V) (c : slot) : slot := dict_set k (v, now) c.

(** The clock is read only when the cache has an entry. *)
Definition slot_reads (k : K) (c : slot) : nat := match dict_get k c with Some _ => 1 | None => 0 end.

(** The shape of every cached read. *)
Definition read_through (lookup : K → E (option V)) (delegate : K → E (result exn V)) (store : K → V → E unit) (k : K) : prog E V :=
  cached ← perform (lookup k);
  match cached with
  | Some v => Ret v
  | None => value ← call (delegate k); perform (store k value) ;; Ret value
  end.

(** The shape of every write: delegate, then clear. *)
Definition write_through {A} (delegate : E (result exn A)) (clear : E unit) : prog E A :=
  r ← call delegate; perform clear ;; Ret r.

Context {S : Type} (h : ∀ X, E X → S → X * S).

Lemma run_read_through (lookup : K → E (option V)) delegate store k w :
  run h (read_through lookup delegate store k) w =
  let '(c, w1) := h _ (lookup k) w in
  match c with
  | Some v => (Ok v, w1)
  | None => let '(r, w2) := h _ (delegate k) w1 in
            match r with Ok v => (Ok v, (h _ (store k v) w2).2) | Exc x => (Exc x, w2) end
  end.
Proof.
  unfold read_through. rewrite run_bind, run_perform. destruct (h _ (lookup k) w) as [[v|] w1]; [done|]. cbn [fst snd].
  rewrite run_bind, run_call. destruct (h _ (delegate k) w1) as [[v|x] w2]; [|done]. by rewrite run_bind, run_perform.
Qed.

(** A read over a cache that holds true answers, and a store that reading does not change. *)
Lemma read_through_coherent (lookup : K → E (option V)) delegate store k w (answer : result exn V) :
  let w1 := (h _ (lookup k) w).2 in
  (∀ v, (h _ (lookup k) w).1 = Some v → answer = Ok v) → h _ (delegate k) w1 = (answer, w1) →
  ∃ w', run h (read_through lookup delegate store k) w = (answer, w') ∧
    (w' = w1 ∨ ∃ v, answer = Ok v ∧ w' = (h _ (store k v) w1).2).
Proof.
  intros w1 Hc Hd. rewrite run_read_through. destruct (h _ (lookup k) w) as [c w1'] eqn:Hl. subst w1. cbn [fst snd] in *.
  destruct c as [v|]; [rewrite (Hc v eq_refl); eauto|]. rewrite Hd. destruct answer as [v|x]; [|by eauto].
  eexists. split; [done|]. right. eauto.
Qed.

Lemma run_write_through {A} (delegate : E (result exn A)) (clear : E unit) w :
  run h (write_through delegate clear) w =
  let '(r, w1) := h _ delegate w in match r with Ok a => (Ok a, (h _ clear w1).2) | Exc x => (Exc x, w1) end.
Proof.
  unfold write_through. rewrite run_bind, run_call. destruct (h _ delegate w) as [[a|x] w1]; [|done]. by rewrite run_bind, run_perform.
Qed.

Lemma slot_lookup_some now ttl k (c : slot) v :
  slot_lookup now ttl k c = Some v → ∃ t, dict_get k c = Some (v, t) ∧ now - t < ttl.
Proof.
  unfold slot_lookup, _is_expired. destruct (dict_get k c) as [[v' t]|]; [|done]. case_bool_decide; [done|].
  intros [= <-]. exists t. split; [done|lia].
Qed.

(** A property of the entries of a cache survives a store that has it. *)
Lemma slot_store_inv (P : K → V → Z → Prop) now k v (c : slot) :
  (∀ k v t, dict_get k c = Some (v, t) → P k v t) → P k v now →
  ∀ k' v' t, dict_get k' (slot_store now k v c) = Some (v', t) → P k' v' t.
Proof. intros Hc Hk k' v' t. unfold slot_store. rewrite dict_get_set. case_decide; [intros [= <- <-]; by subst|apply Hc]. Qed.
End slots.
Arguments slot : clear implicits.

#[local] Arguments pbind : simpl never.
#[local] Arguments attempt : simpl never.
#[local] Arguments call : simpl never.
#[local] Arguments perform : simpl never.

(** ** [CachedScenarioStore] *)
Module CachedScenarioStore.

(** The wrapped [ScenarioStore]. *)
Class ScenarioBackend := {
  sb_state : Type;
  sb_get : string → sb_state → result exn (option Scenario) * sb_state;
  sb_get_by_vertical : string → sb_state → result exn (option Scenario) * sb_state;
  sb_list_all : bool → sb_state → result exn (list Scenario) * sb_state;
  sb_upsert : Scenario → sb_state → result exn Scenario * sb_state;
  sb_delete : string → sb_state → result exn bool * sb_state;
}.

(** The calls of a client of the [ScenarioStore] interface. *)
Inductive storeE : Type → Type :=
| Get (scenario_id : string) : storeE (result exn (option Scenario))
| GetByVertical (vertical : string) : storeE (result exn (option Scenario))
| ListAll (include_disabled : bool) : storeE (result exn (list Scenario))
| Upsert (scenario : Scenario) : storeE (result exn Scenario)
| Delete (scenario_id : string) : storeE (result exn bool).

Inductive cacheE : Type → Type :=
| Wrapped {X} (e : storeE X) : cacheE X
| LookupId (k : string) : cacheE (option (option Scenario))
| LookupVertical (k : string) : cacheE (option (option Scenario))
| LookupList (k : bool) : cacheE (option (list Scenario))
| StoreId (k : string) (v : option Scenario) : cacheE unit
| StoreVertical (k : string) (v : option Scenario) : cacheE unit
| StoreList (k : bool) (v : list Scenario) : cacheE unit
| Clear : cacheE unit
| Monotonic : cacheE Z.

Section store.
Context {backend : ScenarioBackend} (monotonic : nat → Z) (ttl_seconds : Z).

Record cworld := mkCW {
  cw_wrapped : sb_state;
  cw_by_id : slot string (option Scenario);
  cw_by_vertical : slot string (option Scenario);
  cw_list_cache : slot bool (list Scenario);
  cw_ticks : nat;
}.

Definition cw_now (w : cworld) : Z := monotonic (cw_ticks w).
Definition tick (n : nat) (w : cworld) : cworld :=
  mkCW (cw_wrapped w) (cw_by_id w) (cw_by_vertical w) (cw_list_cache w) (n + cw_ticks w).

Definition bhandle (X : Type) (e : storeE X) (st : sb_state) : X * sb_state :=
  match e in storeE X return X * sb_state with
  | Get k => sb_get k st
  | GetByVertical v => sb_get_by_vertical v st
  | ListAll b => sb_list_all b st
  | Upsert s => sb_upsert s st
  | Delete k => sb_delete k st
  end.

Definition chandle (X : Type) (e : cacheE X) (w : cworld) : X * cworld :=
  match e in cacheE X return X * cworld with
  | Wrapped e => let '(r, st) := bhandle _ e (cw_wrapped w) in
                 (r, mkCW st (cw_by_id w) (cw_by_vertical w) (cw_list_cache w) (cw_ticks w))
  | LookupId k => (slot_lookup (cw_now w) ttl_seconds k (cw_by_id w), tick (slot_reads k (cw_by_id w)) w)
  | LookupVertical k => (slot_lookup (cw_now w) ttl_seconds k (cw_by_vertical w), tick (slot_reads k (cw_by_vertical w)) w)
  | LookupList k => (slot_lookup (cw_now w) ttl_seconds k (cw_list_cache w), tick (slot_reads k (cw_list_cache w)) w)
  | StoreId k v => (tt, mkCW (cw_wrapped w) (slot_store (cw_now w) k v (cw_by_id w)) (cw_by_vertical w) (cw_list_cache w) (S (cw_ticks w)))
  | StoreVertical k v => (tt, mkCW (cw_wrapped w) (cw_by_id w) (slot_store (cw_now w) k v (cw_by_vertical w)) (cw_list_cache w) (S (cw_ticks w)))
  | StoreList k v => (tt, mkCW (cw_wrapped w) (cw_by_id w) (cw_by_vertical w) (slot_store (cw_now w) k v (cw_list_cache w)) (S (cw_ticks w)))
  | Clear => (tt, mkCW (cw_wrapped w) [] [] [] (cw_ticks w))
  | Monotonic => (cw_now w, tick 1 w)
  end.

Definition get : string → prog cacheE (option Scenario) := read_through LookupId (λ k, Wrapped (Get k)) StoreId.
Definition get_by_vertical : string → prog cacheE (option Scenario) :=
  read_through LookupVertical (λ k, Wrapped (GetByVertical k)) StoreVertical.
Definition list_all : bool → prog cacheE (list Scenario) := read_through LookupList (λ k, Wrapped (ListAll k)) StoreList.
Definition invalidate (scenario_id : string) : prog cacheE unit := perform Clear.
Definition upsert (scenario : Scenario) : prog cacheE Scenario := write_through (Wrapped (Upsert scenario)) Clear.
Definition delete (scenario_id : string) : prog cacheE bool := write_through (Wrapped (Delete scenario_id)) Clear.

(** A method of the decorator for each call of the interface; a client is any program of such
    calls. *)
Definition method {X} (e : storeE X) : prog cacheE X :=
  match e in storeE X return prog cacheE X with
  | Get k => attempt (get k)
  | GetByVertical v => attempt (get_by_vertical v)
  | ListAll b => attempt (list_all b)
  | Upsert s => attempt (upsert s)
  | Delete k => attempt (delete k)
  end.

Fixpoint cached {A} (client : prog storeE A) : prog cacheE A :=
  match client with
  | Ret a => Ret a
  | Raise x => Raise x
  | Vis e k => pbind (method e) (λ r, cached (k r))
  end.

(** ** One client at a time *)

(** What the decorator relies on: a read has no effect, and a write that raises had none. *)
Class BackendLaws : Prop := {
  get_pure k st : (sb_get k st).2 = st;
  get_by_vertical_pure v st : (sb_get_by_vertical v st).2 = st;
  list_all_pure b st : (sb_list_all b st).2 = st;
  upsert_atomic s st x : (sb_upsert s st).1 = Exc x → (sb_upsert s st).2 = st;
  delete_atomic k st x : (sb_delete k st).1 = Exc x → (sb_delete k st).2 = st;
}.
Section alone.
Context {laws : BackendLaws}.

(** Every cached value is the one the wrapped store would answer now. *)
Definition coherent (w : cworld) : Prop :=
  (∀ k v t, dict_get k (cw_by_id w) = Some (v, t) → (sb_get k (cw_wrapped w)).1 = Ok v) ∧
  (∀ k v t, dict_get k (cw_by_vertical w) = Some (v, t) → (sb_get_by_vertical k (cw_wrapped w)).1 = Ok v) ∧
  (∀ k v t, dict_get k (cw_list_cache w) = Some (v, t) → (sb_list_all k (cw_wrapped w)).1 = Ok v).

Lemma method_transparent X (e : storeE X) w :
  coherent w → ∃ w', run chandle (method e) w = (Ok (bhandle X e (cw_wrapped w)).1, w') ∧
    cw_wrapped w' = (bhandle X e (cw_wrapped w)).2 ∧ coherent w'.
Proof.
  intros Hco. pose proof Hco as (Hi & Hv & Hl).
  destruct e as [k|k|k|sc|k]; cbn [method bhandle]; rewrite run_attempt.
  - destruct (read_through_coherent chandle LookupId (λ k, Wrapped (Get k)) StoreId k w (sb_get k (cw_wrapped w)).1) as (w' & Hr & Hw').
    + intros v (t & Ht & _)%slot_lookup_some. by eapply Hi.
    + simpl. pose proof (get_pure k (cw_wrapped w)) as Hp. destruct (sb_get k (cw_wrapped w)) as [r st]. simpl in *. by subst st.
    + unfold get. rewrite Hr. exists w'. split; [done|]. rewrite get_pure.
      destruct Hw' as [->|(v & Hok & ->)]; [by split|]. split; [done|]. split_and!; simpl; [|done..].
      by apply (slot_store_inv (λ k v _, (sb_get k (cw_wrapped w)).1 = Ok v)).
  - destruct (read_through_coherent chandle LookupVertical (λ k, Wrapped (GetByVertical k)) StoreVertical k w
                (sb_get_by_vertical k (cw_wrapped w)).1) as (w' & Hr & Hw').
    + intros v (t & Ht & _)%slot_lookup_some. by eapply Hv.
    + simpl. pose proof (get_by_vertical_pure k (cw_wrapped w)) as Hp. destruct (sb_get_by_vertical k (cw_wrapped w)) as [r st]. simpl in *. by subst st.
    + unfold get_by_vertical. rewrite Hr. exists w'. split; [done|]. rewrite get_by_vertical_pure.
      destruct Hw' as [->|(v & Hok & ->)]; [by split|]. split; [done|]. split_and!; simpl; [done| |done].
      by apply (slot_store_inv (λ k v _, (sb_get_by_vertical k (cw_wrapped w)).1 = Ok v)).
  - destruct (read_through_coherent chandle LookupList (λ k, Wrapped (ListAll k)) StoreList k w
                (sb_list_all k (cw_wrapped w)).1) as (w' & Hr & Hw').
    + intros v (t & Ht & _)%slot_lookup_some. by eapply Hl.
    + simpl. pose proof (list_all_pure k (cw_wrapped w)) as Hp. destruct (sb_list_all k (cw_wrapped w)) as [r st]. simpl in *. by subst st.
    + unfold list_all. rewrite Hr. exists w'. split; [done|]. rewrite list_all_pure.
      destruct Hw' as [->|(v & Hok & ->)]; [by split|]. split; [done|]. split_and!; simpl; [done..|].
      by apply (slot_store_inv (λ k v _, (sb_list_all k (cw_wrapped w)).1 = Ok v)).
  - unfold upsert. rewrite run_write_through. simpl. pose proof (upsert_atomic sc (cw_wrapped w)) as Ha.
    destruct (sb_upsert sc (cw_wrapped w)) as [[s'|x] st']; (eexists; split; [reflexivity|]); simpl; [done|].
    split; [done|]. specialize (Ha x eq_refl). simpl in Ha. by subst st'.
  - unfold delete. rewrite run_write_through. simpl. pose proof (delete_atomic k (cw_wrapped w)) as Ha.
    destruct (sb_delete k (cw_wrapped w)) as [[b|x] st']; (eexists; split; [reflexivity|]); simpl; [done|].
    split; [done|]. specialize (Ha x eq_refl). simpl in Ha. by subst st'.
Qed.
End alone.

(** ** Many clients at once *)

(** The handler with a log of the states the wrapped store was called in, and when. *)
Definition lhandle (X : Type) (e : cacheE X) (c : cworld * list (Z * sb_state)) : X * (cworld * list (Z * sb_state)) :=
  let '(r, w') := chandle X e c.1 in
  (r, (w', match e with Wrapped _ => c.2 ++ [(cw_now c.1, cw_wrapped c.1)] | _ => c.2 end)).

(** [v] was the wrapped store's answer at some logged instant up to [t]. *)
Definition answered {V} (read : sb_state → result exn V) (log : list (Z * sb_state)) (v : V) (t : Z) : Prop :=
  ∃ t0 st, (t0, st) ∈ log ∧ t0 ≤ t ∧ read st = Ok v.

Definition backed (c : cworld * list (Z * sb_state)) : Prop :=
  (∀ k v t, dict_get k (cw_by_id c.1) = Some (v, t) → answered (λ st, (sb_get k st).1) c.2 v t) ∧
  (∀ k v t, dict_get k (cw_by_vertical c.1) = Some (v, t) → answered (λ st, (sb_get_by_vertical k st).1) c.2 v t) ∧
  (∀ k v t, dict_get k (cw_list_cache c.1) = Some (v, t) → answered (λ st, (sb_list_all k st).1) c.2 v t).

Definition later (c c' : cworld * list (Z * sb_state)) : Prop := c.2 ⊆ c'.2 ∧ (cw_ticks c.1 ≤ cw_ticks c'.1)%nat.

Context (Hmono : ∀ n m, (n ≤ m)%nat → monotonic n ≤ monotonic m) (Httl : 0 < ttl_seconds).

#[local] Instance later_preorder : PreOrder later.
Proof.
  split; [by intros c; split|]. intros c1 c2 c3 [H1 H2] [H3 H4]. split; [by etrans|by etrans].
Qed.

Lemma later_now c c' : later c c' → cw_now c.1 ≤ cw_now c'.1.
Proof. intros [_ H]. by apply Hmono. Qed.

Lemma answered_later {V} (read : sb_state → result exn V) log log' v t t' :
  answered read log v t → log ⊆ log' → t ≤ t' → answered read log' v t'.
Proof. intros (t0 & st & Hin & Ht & Hr) Hl Htt. exists t0, st. split; [by apply Hl|]. split; [lia|done]. Qed.

(** What a read promises to a caller who entered it at [t]: an answer of the wrapped store that
    entered the cache less than [ttl_seconds] before, or later. *)
Definition recent {V} (read : sb_state → result exn V) (t : Z) (r : result exn V) (c : cworld * list (Z * sb_state)) : Prop :=
  ∀ v, r = Ok v → ∃ stored, answered read c.2 v stored ∧ t < stored + ttl_seconds.

Lemma read_through_recent {K V} (lookup : K → cacheE (option V)) (delegate : K → cacheE (result exn V)) store k (read : sb_state → result exn V) c :
  (∀ c, backed c → let '(o, c') := lhandle _ (lookup k) c in backed c' ∧ later c c' ∧
     ∀ v, o = Some v → ∃ t, answered read c.2 v t ∧ cw_now c.1 - t < ttl_seconds) →
  (∀ c, backed c → let '(r, c') := lhandle _ (delegate k) c in backed c' ∧ later c c' ∧
     ∀ v, r = Ok v → answered read c'.2 v (cw_now c.1)) →
  (∀ c v, backed c → answered read c.2 v (cw_now c.1) → let c' := (lhandle _ (store k v) c).2 in backed c' ∧ later c c') →
  backed c → safe lhandle backed later (recent read (cw_now c.1)) (read_through lookup delegate store k) c.
Proof.
  intros H1 H2 H3 Hb. unfold read_through. apply safe_bind; [apply _|done|]. apply safe_perform. intros c1 Hc1 Hb1.
  specialize (H1 c1 Hb1). destruct (lhandle _ (lookup k) c1) as [o c2] eqn:Hl. destruct H1 as (Hb2 & Hc2 & Ho). cbn [fst snd].
  split_and!; [done..|]. intros c3 Hc3 Hb3. destruct o as [v|].
  { destruct (Ho v eq_refl) as (t & Ha & Ht). intros c4 Hc4 _ v' [= <-]. exists t. split.
    - eapply answered_later; [done| |done]. etrans; [apply Hc2|]. etrans; [apply Hc3|apply Hc4].
    - apply later_now in Hc1. lia. }
  apply safe_bind; [apply _|done|]. apply safe_call. intros c4 Hc4 Hb4. specialize (H2 c4 Hb4).
  destruct (lhandle _ (delegate k) c4) as [r c5] eqn:Hd. destruct H2 as (Hb5 & Hc5 & Hr). cbn [fst snd].
  split_and!; [done..|]. intros c6 Hc6 Hb6. destruct r as [v|x]; [|done]. specialize (Hr v eq_refl).
  apply safe_bind; [apply _|done|]. apply safe_perform. intros c7 Hc7 Hb7.
  assert (Ha : answered read c7.2 v (cw_now c7.1)).
  { eapply answered_later; [done|etrans; [apply Hc6|apply Hc7]|]. apply later_now in Hc5, Hc6, Hc7. lia. }
  destruct (H3 c7 v Hb7 Ha) as [Hb8 Hc8]. split_and!; [done..|]. intros c9 Hc9 _. intros c10 Hc10 _ v' [= <-].
  exists (cw_now c7.1). split.
  - eapply answered_later; [done| |done]. etrans; [apply Hc8|]. etrans; [apply Hc9|apply Hc10].
  - apply later_now in Hc1, Hc2, Hc3, Hc4, Hc5, Hc6, Hc7. lia.
Qed.

Lemma wrapped_backed X (e : storeE X) c :
  backed c → let '(r, c') := lhandle _ (Wrapped e) c in
  backed c' ∧ later c c' ∧ r = (bhandle X e (cw_wrapped c.1)).1 ∧ (cw_now c.1, cw_wrapped c.1) ∈ c'.2.
Proof.
  intros (H1 & H2 & H3). unfold lhandle. simpl. destruct (bhandle X e (cw_wrapped c.1)) as [r st']. simpl.
  assert (c.2 ⊆ c.2 ++ [(cw_now c.1, cw_wrapped c.1)]) as Hsub by set_solver.
  split_and!; simpl; [..|done|set_solver].
  - split_and!; simpl; intros k v t Hg; [apply H1 in Hg|apply H2 in Hg|apply H3 in Hg]; by eapply answered_later.
  - by split.
Qed.

Lemma quiet_backed X (e : cacheE X) c n :
  lhandle _ e c = ((lhandle _ e c).1, (tick n c.1, c.2)) → backed c → backed (lhandle _ e c).2 ∧ later c (lhandle _ e c).2.
Proof. intros -> (H1 & H2 & H3). simpl. split; [by split_and!|]. split; simpl; [done|lia]. Qed.

(** ** The calls of a client, and of other writers of the wrapped store *)
Inductive client_call :=
| CGet (scenario_id : string)
| CGetByVertical (vertical : string)
| CListAll (include_disabled : bool)
| CUpsert (scenario : Scenario)
| CDelete (scenario_id : string)
| CInvalidate (scenario_id : string)
| Elsewhere {X} (e : storeE X).

(** A reader notes the time before it calls. *)
Inductive client_answer := AScenario (began : Z) (o : option Scenario) | AScenarios (began : Z) (l : list Scenario) | ADone.

Definition serve (c : client_call) : prog cacheE client_answer :=
  match c with
  | CGet k => began ← perform Monotonic; o ← get k; Ret (AScenario began o)
  | CGetByVertical v => began ← perform Monotonic; o ← get_by_vertical v; Ret (AScenario began o)
  | CListAll b => began ← perform Monotonic; l ← list_all b; Ret (AScenarios began l)
  | CUpsert s => upsert s ;; Ret ADone
  | CDelete k => delete k ;; Ret ADone
  | CInvalidate k => invalidate k ;; Ret ADone
  | Elsewhere e => perform (Wrapped e) ;; Ret ADone
  end.

(** The promise of [recent] for each kind of read. *)
Definition served_recent (c : client_call) (r : result exn client_answer) (w : cworld * list (Z * sb_state)) : Prop :=
  match c, r with
  | CGet k, Ok (AScenario began o) => recent (λ st, (sb_get k st).1) began (Ok o) w
  | CGetByVertical v, Ok (AScenario began o) => recent (λ st, (sb_get_by_vertical v st).1) began (Ok o) w
  | CListAll b, Ok (AScenarios began l) => recent (λ st, (sb_list_all b st).1) began (Ok l) w
  | _, _ => True
  end.

Lemma get_recent k c : backed c → safe lhandle backed later (recent (λ st, (sb_get k st).1) (cw_now c.1)) (get k) c.
Proof.
  apply (read_through_recent LookupId (λ k, Wrapped (Get k)) StoreId k (λ st, (sb_get k st).1)).
  - intros c0 Hb. destruct (quiet_backed _ (LookupId k) c0 (slot_reads k (cw_by_id c0.1)) eq_refl Hb) as [Hb' Hl].
    split_and!; [done..|]. intros v (t & Ht & Hlt)%slot_lookup_some. exists t. split; [by apply Hb|done].
  - intros c0 Hb. pose proof (wrapped_backed _ (Get k) c0 Hb) as H. destruct (lhandle _ (Wrapped (Get k)) c0) as [r c'].
    destruct H as (? & ? & -> & ?). split_and!; [done..|]. intros v Hv. by exists (cw_now c0.1), (cw_wrapped c0.1).
  - intros c0 v (H1 & H2 & H3) Ha. simpl. split; [|split; simpl; [done|lia]]. split_and!; simpl; [|done..].
    by apply (slot_store_inv (λ k v t, answered (λ st, (sb_get k st).1) c0.2 v t)).
Qed.

Lemma get_by_vertical_recent k c :
  backed c → safe lhandle backed later (recent (λ st, (sb_get_by_vertical k st).1) (cw_now c.1)) (get_by_vertical k) c.
Proof.
  apply (read_through_recent LookupVertical (λ k, Wrapped (GetByVertical k)) StoreVertical k (λ st, (sb_get_by_vertical k st).1)).
  - intros c0 Hb. destruct (quiet_backed _ (LookupVertical k) c0 (slot_reads k (cw_by_vertical c0.1)) eq_refl Hb) as [Hb' Hl].
    split_and!; [done..|]. intros v (t & Ht & Hlt)%slot_lookup_some. exists t. split; [by apply Hb|done].
  - intros c0 Hb. pose proof (wrapped_backed _ (GetByVertical k) c0 Hb) as H. destruct (lhandle _ (Wrapped (GetByVertical k)) c0) as [r c'].
    destruct H as (? & ? & -> & ?). split_and!; [done..|]. intros v Hv. by exists (cw_now c0.1), (cw_wrapped c0.1).
  - intros c0 v (H1 & H2 & H3) Ha. simpl. split; [|split; simpl; [done|lia]]. split_and!; simpl; [done| |done].
    by apply (slot_store_inv (λ k v t, answered (λ st, (sb_get_by_vertical k st).1) c0.2 v t)).
Qed.

Lemma list_all_recent k c : backed c → safe lhandle backed later (recent (λ st, (sb_list_all k st).1) (cw_now c.1)) (list_all k) c.
Proof.
  apply (read_through_recent LookupList (λ k, Wrapped (ListAll k)) StoreList k (λ st, (sb_list_all k st).1)).
  - intros c0 Hb. destruct (quiet_backed _ (LookupList k) c0 (slot_reads k (cw_list_cache c0.1)) eq_refl Hb) as [Hb' Hl].
    split_and!; [done..|]. intros v (t & Ht & Hlt)%slot_lookup_some. exists t. split; [by apply Hb|done].
  - intros c0 Hb. pose proof (wrapped_backed _ (ListAll k) c0 Hb) as H. destruct (lhandle _ (Wrapped (ListAll k)) c0) as [r c'].
    destruct H as (? & ? & -> & ?). split_and!; [done..|]. intros v Hv. by exists (cw_now c0.1), (cw_wrapped c0.1).
  - intros c0 v (H1 & H2 & H3) Ha. simpl. split; [|split; simpl; [done|lia]]. split_and!; simpl; [done..|].
    by apply (slot_store_inv (λ k v t, answered (λ st, (sb_list_all k st).1) c0.2 v t)).
Qed.

Lemma clear_backed c : backed c → backed (lhandle _ Clear c).2 ∧ later c (lhandle _ Clear c).2.
Proof. intros _. split; [by split_and!|by split]. Qed.

Lemma perform_true X (e : cacheE X) c :
  (∀ c, backed c → backed (lhandle _ e c).2 ∧ later c (lhandle _ e c).2) →
  safe lhandle backed later (λ _ _, True) (perform e) c.
Proof. intros H. apply safe_perform. intros c' _ Hb. destruct (H c' Hb). by split_and!. Qed.

Lemma wrapped_true X (e : storeE X) c : backed c → backed (lhandle _ (Wrapped e) c).2 ∧ later c (lhandle _ (Wrapped e) c).2.
Proof. intros Hb. pose proof (wrapped_backed X e c Hb) as H. destruct (lhandle _ (Wrapped e) c). by destruct H as (? & ? & _). Qed.

Lemma write_through_true A (e : storeE (result exn A)) c :
  backed c → safe lhandle backed later (λ _ _, True) (write_through (Wrapped e) Clear) c.
Proof.
  intros Hb. unfold write_through. apply safe_bind; [apply _|done|]. apply safe_call. intros c1 _ Hb1.
  destruct (wrapped_true _ e c1 Hb1). split_and!; [done..|]. intros c2 _ Hb2. destruct (lhandle _ (Wrapped e) c1).1; [|done].
  apply safe_bind; [apply _|done|]. eapply safe_weaken; [apply _| |apply perform_true, clear_backed]. by intros [[]|x] ? _ _ _.
Qed.

(** A read that starts with a look at the clock. *)
Lemma timed_read {V} (read : sb_state → result exn V) (p : prog cacheE V) (call : client_call) (answer : Z → V → client_answer) c :
  (∀ c, backed c → safe lhandle backed later (recent read (cw_now c.1)) p c) →
  (∀ began v c, recent read began (Ok v) c → served_recent call (Ok (answer began v)) c) → (∀ x c, served_recent call (Exc x) c) →
  backed c → safe lhandle backed later (served_recent call) (began ← perform Monotonic; v ← p; Ret (answer began v)) c.
Proof.
  intros Hp Ha Hx Hb. apply safe_bind; [apply _|done|]. apply safe_perform. intros c1 _ Hb1.
  destruct (quiet_backed _ Monotonic c1 1 eq_refl Hb1) as [Hb2 Hc2]. split_and!; [done..|]. intros c3 Hc3 Hb3. apply safe_bind; [apply _|done|].
  eapply safe_weaken; [apply _| |by apply Hp]. intros [v|x] c4 _ _ Hq; [|apply Hx].
  intros c5 Hc5 _. apply Ha. intros v' [= <-]. destruct (Hq v eq_refl) as (t & Han & Ht). exists t. split.
  - eapply answered_later; [done|apply Hc5|done].
  - apply later_now in Hc2, Hc3. simpl in Hc2 |- *. unfold lhandle in *. simpl in *. lia.
Qed.

Lemma serve_safe call c : backed c → safe lhandle backed later (served_recent call) (serve call) c.
Proof.
  intros Hb. destruct call; cbn [serve].
  1: apply (timed_read (λ st, (sb_get scenario_id st).1)); [by apply get_recent|done..].
  1: apply (timed_read (λ st, (sb_get_by_vertical vertical st).1)); [by apply get_by_vertical_recent|done..].
  1: apply (timed_read (λ st, (sb_list_all include_disabled st).1)); [by apply list_all_recent|done..].
  all: (apply safe_bind; [apply _|done|]).
  - eapply safe_weaken; [apply _| |by apply write_through_true]. by intros [?|x] ? _ _ _.
  - eapply safe_weaken; [apply _| |by apply write_through_true]. by intros [?|x] ? _ _ _.
  - eapply safe_weaken; [apply _| |apply perform_true, clear_backed]. by intros [?|x] ? _ _ _.
  - eapply safe_weaken; [apply _| |apply perform_true, wrapped_true]. by intros [?|x] ? _ _ _.
Qed.

End store.

(** ** Properties *)


(** Under any interleaving of any number of clients of the cache with any other writers of
    the wrapped store, every answer of a read is one the wrapped store gave, and it entered the
    cache less than [ttl_seconds] before the read began, or since. *)
Theorem cached_store_staleness {backend : ScenarioBackend} (monotonic : nat → Z) (ttl_seconds : Z) calls w pool w' log i call a :
  (∀ n m, (n ≤ m)%nat → monotonic n ≤ monotonic m) → 0 < ttl_seconds →
  cw_by_id w = [] → cw_by_vertical w = [] → cw_list_cache w = [] →
  rtc (sched_step (lhandle monotonic ttl_seconds)) (map serve calls, (w, [])) (pool, (w', log)) →
  calls !! i = Some call → pool !! i = Some (Ret a) →
  served_recent ttl_seconds call (Ok a) (w', log).
Proof.
  intros Hmono Httl H1 H2 H3 Hsteps Hcall Hret.
  assert (Hb : backed (w, [])) by (unfold backed; simpl; by rewrite H1, H2, H3).
  assert (Hall : ∀ j p, map serve calls !! j = Some p →
    safe (lhandle monotonic ttl_seconds) backed later
      (λ r c, match calls !! j with Some cl => served_recent ttl_seconds cl r c | None => True end) p (w, [])).
  { intros j p. rewrite list_lookup_fmap. destruct (calls !! j) as [cl|]; [|done]. intros [= <-].
    by apply (serve_safe monotonic ttl_seconds Hmono Httl cl (w, [])). }
  pose proof (safe_pool_ret _ _ _ (PreOrder0:=later_preorder) _ _ _ _ _ i a Hb Hall Hsteps Hret) as Hq. cbv beta in Hq. by rewrite Hcall in Hq.
Qed.

(** ** A store in memory, for the examples *)

Definition dict_backend : ScenarioBackend := {|
  sb_state := list (string * Scenario);
  sb_get k st := (Ok (dict_get k st), st);
  sb_get_by_vertical v st := (Ok (List.find (λ s, bool_decide (sc_vertical s = v)) (dict_values st)), st);
  sb_list_all b st := (Ok (List.filter (λ s, b || sc_enabled s) (dict_values st)), st);
  sb_upsert s st := (Ok s, dict_set (sc_scenario_id s) s st);
  sb_delete k st := (Ok (bool_decide (is_Some (dict_get k st))), dict_pop k st);
|}.

Lemma dict_backend_laws : BackendLaws (backend := dict_backend).
Proof. by split. Qed.

Definition example_scenario (version : string) : Scenario :=
  mkScenario "hr-1" "hr" version "hr-index" (mkChunkerSettings 512 64 32 1024) (mkEmbedderSettings "fastembed" "nomic" None)
    (mkIndexerSettings "cosine" 768 16 200 100) "envelope" "internal" true 0 0 None.

Definition fresh_cache (st : list (string * Scenario)) : @cworld dict_backend := @mkCW dict_backend st [] [] [] 0.

Lemma fresh_coherent st : coherent (fresh_cache st).
Proof. by split_and!. Qed.

(** Read, write, read again. *)
Definition example_client : prog storeE (option Scenario) :=
  call (Get "hr-1") ;; call (Upsert (example_scenario "2")) ;; call (Get "hr-1").


Definition example_calls : list client_call := [CGet "hr-1"; CUpsert (example_scenario "2")].

(** The reader runs first. *)
Lemma cached_store_staleness_witness :
  let final := sched_exec (lhandle (backend := dict_backend) Z.of_nat 60) [0; 0; 0; 0]%nat
    (map serve example_calls, (fresh_cache [("hr-1", example_scenario "1")], [])) in
  final.1 !! 0%nat = Some (Ret (AScenario 0 (Some (example_scenario "1")))) ∧
  served_recent 60 (CGet "hr-1") (Ok (AScenario 0 (Some (example_scenario "1")))) final.2.
Proof.
  split; [vm_compute; reflexivity|].
  apply (cached_store_staleness (backend := dict_backend) Z.of_nat 60 example_calls (fresh_cache [("hr-1", example_scenario "1")])
    (sched_exec (lhandle (backend := dict_backend) Z.of_nat 60) [0; 0; 0; 0]%nat
       (map serve example_calls, (fresh_cache [("hr-1", example_scenario "1")], []))).1 _ _ 0 (CGet "hr-1"));
    [intros; lia|lia|reflexivity..| |reflexivity|vm_compute; reflexivity].
  apply (sched_exec_rtc (lhandle (backend := dict_backend) Z.of_nat 60) [0; 0; 0; 0]%nat
    (map serve example_calls, (fresh_cache [("hr-1", example_scenario "1")], []))).
Defined.

(** An upsert does not force the next read to ask the wrapped store again when a read is
    under way: the reader has fetched the old scenario, the writer stores the new one and
    clears the cache, the reader then caches what it fetched. Both calls have returned, and the
    next [get] is answered from the cache with the scenario from before the write. *)
Theorem cached_store_invalidate_race :
  ∃ schedule, let final := sched_exec (lhandle (backend := dict_backend) Z.of_nat 60) schedule
      (map serve example_calls, (fresh_cache [("hr-1", example_scenario "1")], [])) in
    final.1 = [Ret (AScenario 0 (Some (example_scenario "1"))); Ret ADone] ∧
    (sb_get (ScenarioBackend := dict_backend) "hr-1" (cw_wrapped final.2.1)).1 = Ok (Some (example_scenario "2")) ∧
    (run (chandle (backend := dict_backend) Z.of_nat 60) (get "hr-1") final.2.1).1 = Ok (Some (example_scenario "1")).
Proof. exists [0; 0; 0; 1; 1; 0]%nat. vm_compute. split_and!; reflexivity. Qed.

End CachedScenarioStore.
