(* ===== verification/CachedRegistry.v ===== *)
(** * The cached index registry (src/vestibule/provisioning/stores/cached_registry.py)

    [CachedIndexRegistry] over any registry: reads through the two caches of [Caches], writes
    that drop every cached answer, and the proof that it keeps the laws the provisioner relies
    on. *)
From S2P Require Import Prelude PyDict Types Prog Rely Registry Caches.
#[local] Open Scope Z_scope.
#[local] Open Scope py_scope.
#[local] Arguments pbind : simpl never.
#[local] Arguments attempt : simpl never.
#[local] Arguments call : simpl never.
#[local] Arguments perform : simpl never.

Module CachedIndexRegistry.
Import Registry.

(** The calls on the wrapped registry; [now] is the instant the wrapped method reads. *)
Inductive regE : Type → Type :=
| WGet (index_name : string) : regE (result exn (option IndexRegistryEntry))
| WList (vertical : string) : regE (result exn (list IndexRegistryEntry))
| WRegister (entry : IndexRegistryEntry) : regE (result exn IndexRegistryEntry)
| WReclaim (index_name : string) (observed new_entry : IndexRegistryEntry) : regE (result exn IndexRegistryEntry)
| WTouch (now : Z) (index_name : string) : regE (result exn IndexRegistryEntry)
| WReady (now : Z) (index_name : string) (expected_claim_token : option string) : regE (result exn IndexRegistryEntry)
| WFailed (index_name reason : string) (expected_claim_token : option string) : regE (result exn IndexRegistryEntry)
| WRetired (index_name : string) : regE (result exn IndexRegistryEntry).

Inductive rcacheE : Type → Type :=
| RWrapped {X} (e : regE X) : rcacheE X
| LookupName (k : string) : rcacheE (option (option IndexRegistryEntry))
| LookupVertical (k : string) : rcacheE (option (list IndexRegistryEntry))
| StoreName (k : string) (v : option IndexRegistryEntry) : rcacheE unit
| StoreVertical (k : string) (v : list IndexRegistryEntry) : rcacheE unit
| RClear : rcacheE unit.

Section registry.
Context {reg : IndexRegistry} (r_list_by_vertical : string → reg_state → result exn (list IndexRegistryEntry) * reg_state).
Context (monotonic : nat → Z) (ttl_seconds : Z).

Record rworld := mkRW {
  rw_wrapped : reg_state;
  rw_by_name : slot string (option IndexRegistryEntry);
  rw_by_vertical : slot string (list IndexRegistryEntry);
  rw_ticks : nat;
}.

Definition rw_now (w : rworld) : Z := monotonic (rw_ticks w).

Definition rbhandle (X : Type) (e : regE X) (st : reg_state) : X * reg_state :=
  match e in regE X return X * reg_state with
  | WGet n => r_get n st
  | WList v => r_list_by_vertical v st
  | WRegister e => r_register e st
  | WReclaim n o e => r_reclaim n o e st
  | WTouch now n => r_touch_verified now n st
  | WReady now n t => r_mark_ready now n t st
  | WFailed n m t => r_mark_failed n m t st
  | WRetired n => r_mark_retired n st
  end.

Definition rhandle (X : Type) (e : rcacheE X) (w : rworld) : X * rworld :=
  match e in rcacheE X return X * rworld with
  | RWrapped e => let '(r, st) := rbhandle _ e (rw_wrapped w) in (r, mkRW st (rw_by_name w) (rw_by_vertical w) (rw_ticks w))
  | LookupName k => (slot_lookup (rw_now w) ttl_seconds k (rw_by_name w),
                     mkRW (rw_wrapped w) (rw_by_name w) (rw_by_vertical w) (slot_reads k (rw_by_name w) + rw_ticks w))
  | LookupVertical k => (slot_lookup (rw_now w) ttl_seconds k (rw_by_vertical w),
                     mkRW (rw_wrapped w) (rw_by_name w) (rw_by_vertical w) (slot_reads k (rw_by_vertical w) + rw_ticks w))
  | StoreName k v => (tt, mkRW (rw_wrapped w) (slot_store (rw_now w) k v (rw_by_name w)) (rw_by_vertical w) (S (rw_ticks w)))
  | StoreVertical k v => (tt, mkRW (rw_wrapped w) (rw_by_name w) (slot_store (rw_now w) k v (rw_by_vertical w)) (S (rw_ticks w)))
  | RClear => (tt, mkRW (rw_wrapped w) [] [] (rw_ticks w))
  end.

Definition get : string → prog rcacheE (option IndexRegistryEntry) := read_through LookupName (λ k, RWrapped (WGet k)) StoreName.
Definition list_by_vertical : string → prog rcacheE (list IndexRegistryEntry) :=
  read_through LookupVertical (λ k, RWrapped (WList k)) StoreVertical.
Definition invalidate (index_name : string) : prog rcacheE unit := perform RClear.
Definition register (entry : IndexRegistryEntry) : prog rcacheE IndexRegistryEntry := write_through (RWrapped (WRegister entry)) RClear.
Definition reclaim (index_name : string) (observed new_entry : IndexRegistryEntry) : prog rcacheE IndexRegistryEntry :=
  write_through (RWrapped (WReclaim index_name observed new_entry)) RClear.
Definition touch_verified (now : Z) (index_name : string) : prog rcacheE IndexRegistryEntry := write_through (RWrapped (WTouch now index_name)) RClear.
Definition mark_ready (now : Z) (index_name : string) (expected_claim_token : option string) : prog rcacheE IndexRegistryEntry :=
  write_through (RWrapped (WReady now index_name expected_claim_token)) RClear.
Definition mark_failed (index_name reason : string) (expected_claim_token : option string) : prog rcacheE IndexRegistryEntry :=
  write_through (RWrapped (WFailed index_name reason expected_claim_token)) RClear.
Definition mark_retired (index_name : string) : prog rcacheE IndexRegistryEntry := write_through (RWrapped (WRetired index_name)) RClear.

(** ** The decorator as a registry *)

Context (view : reg_state → gmap string IndexRegistryEntry) {laws : RegistryLaws view}.

(** Every cached entry is the one the wrapped registry holds. *)
Definition rcoherent (w : rworld) : Prop :=
  ∀ k v t, dict_get k (rw_by_name w) = Some (v, t) → v = view (rw_wrapped w) !! k.

(** A write leaves the cache coherent, because it clears it or, having raised, changed nothing. *)
Lemma write_coherent A (e : regE (result exn A)) w :
  (∀ x st', rbhandle _ e (rw_wrapped w) = (Exc x, st') → view st' = view (rw_wrapped w)) →
  rcoherent w → rcoherent (run rhandle (write_through (RWrapped e) RClear) w).2.
Proof.
  intros Hx Hw. rewrite run_write_through. simpl. destruct (rbhandle _ e (rw_wrapped w)) as [[a|x] st'] eqn:He; simpl; [done|].
  intros k v t Hg. simpl. rewrite (Hx x st' eq_refl). by eapply Hw.
Qed.

Lemma get_coherent n w : rcoherent w → rcoherent (run rhandle (get n) w).2.
Proof.
  intros Hw. unfold get. rewrite run_read_through. simpl. destruct (slot_lookup _ _ _ _) as [v|]; [done|].
  destruct (r_get n (rw_wrapped w)) as [[v|x] st'] eqn:He; destruct (get_law _ _ _ _ He) as [Hv Ho]; simpl.
  - intros k v' t. simpl. rewrite Hv. apply (slot_store_inv (λ k v _, v = view (rw_wrapped w) !! k)); [done|by apply Ho].
  - intros k v t Hg. simpl. rewrite Hv. by eapply Hw.
Qed.

Lemma writes_exc v v' n guard f x : writes v v' n guard f (Exc x) → v' = v.
Proof. by intros [? _]. Qed.

Lemma register_coherent e w : rcoherent w → rcoherent (run rhandle (register e) w).2.
Proof. apply write_coherent. intros x st' H. by apply (register_law (view := view)) in H as [? _]. Qed.
Lemma reclaim_coherent n o e w : rcoherent w → rcoherent (run rhandle (reclaim n o e) w).2.
Proof. apply write_coherent. intros x st' H. by eapply writes_exc, (reclaim_law (view := view)). Qed.
Lemma touch_coherent now n w : rcoherent w → rcoherent (run rhandle (touch_verified now n) w).2.
Proof. apply write_coherent. intros x st' H. by eapply writes_exc, (touch_law (view := view)). Qed.
Lemma ready_coherent now n t w : rcoherent w → rcoherent (run rhandle (mark_ready now n t) w).2.
Proof. apply write_coherent. intros x st' H. by eapply writes_exc, (ready_law (view := view)). Qed.
Lemma failed_coherent n m t w : rcoherent w → rcoherent (run rhandle (mark_failed n m t) w).2.
Proof. apply write_coherent. intros x st' H. by eapply writes_exc, (failed_law (view := view)). Qed.
Lemma retired_coherent n w : rcoherent w → rcoherent (run rhandle (mark_retired n) w).2.
Proof. apply write_coherent. intros x st' H. by eapply writes_exc, (retired_law (view := view)). Qed.

(** A call on a decorator whose cache is coherent. *)
Definition on_coherent {A} (p : prog rcacheE A) (Hp : ∀ w, rcoherent w → rcoherent (run rhandle p w).2) (w : sig rcoherent)
    : result exn A * sig rcoherent :=
  ((run rhandle p (proj1_sig w)).1, exist _ (run rhandle p (proj1_sig w)).2 (Hp _ (proj2_sig w))).

(** The decorator, used by one caller at a time, as an [IndexRegistry]. *)
Definition cached_registry : IndexRegistry := {|
  reg_state := sig rcoherent;
  r_get n := on_coherent (get n) (get_coherent n);
  r_register e := on_coherent (register e) (register_coherent e);
  r_reclaim n o e := on_coherent (reclaim n o e) (reclaim_coherent n o e);
  r_touch_verified now n := on_coherent (touch_verified now n) (touch_coherent now n);
  r_mark_ready now n t := on_coherent (mark_ready now n t) (ready_coherent now n t);
  r_mark_failed n m t := on_coherent (mark_failed n m t) (failed_coherent n m t);
  r_mark_retired n := on_coherent (mark_retired n) (retired_coherent n);
|}.

(** The entries behind the cache. *)
Definition cached_view (w : sig rcoherent) : gmap string IndexRegistryEntry := view (rw_wrapped (proj1_sig w)).

(** A write of the decorator has the answer and the effect of the wrapped one. *)
Lemma on_coherent_write A (e : regE (result exn A)) Hp w r w' :
  on_coherent (write_through (RWrapped e) RClear) Hp w = (r, w') →
  ∃ st', rbhandle _ e (rw_wrapped (proj1_sig w)) = (r, st') ∧ cached_view w' = view st'.
Proof.
  unfold on_coherent, cached_view. intros Hon. pose proof (f_equal fst Hon) as Hr.
  pose proof (f_equal (λ p, rw_wrapped (proj1_sig p.2)) Hon) as Hw. cbn [fst snd proj1_sig] in Hr, Hw. rewrite run_write_through in Hr, Hw.
  simpl in Hr, Hw. rewrite <- Hr, <- Hw. destruct (rbhandle _ e (rw_wrapped (proj1_sig w))) as [[a|x] st']; by exists st'.
Qed.

Lemma on_coherent_get n Hp w r w' :
  on_coherent (get n) Hp w = (r, w') → cached_view w' = cached_view w ∧ ∀ o, r = Ok o → o = cached_view w !! n.
Proof.
  unfold on_coherent, cached_view. destruct w as [w Hw]. intros Hon. pose proof (f_equal fst Hon) as Hr.
  pose proof (f_equal (λ p, rw_wrapped (proj1_sig p.2)) Hon) as Hw'. cbn [fst snd proj1_sig] in Hr, Hw' |- *. clear Hon.
  unfold get in Hr, Hw'. rewrite run_read_through in Hr, Hw'. rewrite <- Hr, <- Hw'. clear Hr Hw' Hp. simpl.
  destruct (slot_lookup _ _ _ _) as [v|] eqn:Hl; simpl.
  - split; [done|]. intros o [= <-]. apply slot_lookup_some in Hl as (t & Ht & _). by eapply Hw.
  - destruct (r_get n (rw_wrapped w)) as [[v|x] st'] eqn:He; simpl; by apply (get_law (view := view)) in He.
Qed.

End registry.

(** C17: the cached registry, used by one caller at a time, is a lawful registry whenever the
    registry it wraps is one: a [get] answers what the wrapped registry holds, although most of
    them do not ask it, and every claim and every other write reaches it and has its outcome.
    So what is proved of the provisioner over any lawful registry holds over a cached one. *)
Theorem cached_registry_lawful {reg : IndexRegistry} r_list_by_vertical monotonic ttl_seconds view (laws : RegistryLaws view) :
  RegistryLaws (reg := cached_registry r_list_by_vertical monotonic ttl_seconds view (laws := laws))
    (cached_view view).
Proof.
  constructor; simpl.
  - intros n st r st'. apply on_coherent_get. exact laws.
  - intros e st r st' (st1 & He & ->)%on_coherent_write. by apply (register_law (view := view)) in He.
  - intros n o e st r st' (st1 & He & ->)%on_coherent_write. by apply (reclaim_law (view := view)) in He.
  - intros now n st r st' (st1 & He & ->)%on_coherent_write. by apply (touch_law (view := view)) in He.
  - intros now n t st r st' (st1 & He & ->)%on_coherent_write. by apply (ready_law (view := view)) in He.
  - intros n m t st r st' (st1 & He & ->)%on_coherent_write. by apply (failed_law (view := view)) in He.
  - intros n st r st' (st1 & He & ->)%on_coherent_write. by apply (retired_law (view := view)) in He.
Qed.

Definition in_memory_list (vertical : string) (es : @reg_state in_memory_registry) : result exn (list IndexRegistryEntry) * @reg_state in_memory_registry :=
  (Ok (Registry.list_by_vertical vertical es), es).

Definition example_cached : IndexRegistry :=
  cached_registry (reg := in_memory_registry) in_memory_list Z.of_nat 10 dict_map (laws := in_memory_registry_laws).

Lemma empty_coherent : rcoherent (reg := in_memory_registry) dict_map (@mkRW in_memory_registry [] [] [] 0).
Proof. done. Qed.

Definition example_entry : IndexRegistryEntry :=
  mkEntry "hr-index" "hr" "hr-1" "standard-v1" "1" 384 "cosine" "nomic" provisioning 0 None None (Some "t") (Some 0) None None.

(** An entry registered through the cache is what the next two reads, one of them cached, see. *)
Lemma cached_registry_lawful_witness :
  let st0 : @reg_state example_cached := exist _ _ empty_coherent in
  let st1 := (@r_register example_cached example_entry st0).2 in
  let st2 := (@r_get example_cached "hr-index" st1).2 in
  (@r_get example_cached "hr-index" st1).1 = Ok (Some example_entry) ∧
  (@r_get example_cached "hr-index" st2).1 = Ok (Some example_entry) ∧
  cached_view (reg := in_memory_registry) dict_map st2 = cached_view (reg := in_memory_registry) dict_map st1.
Proof.
  intros st0 st1 st2. split; [vm_compute; reflexivity|]. split; [vm_compute; reflexivity|].
  destruct (cached_registry_lawful (reg := in_memory_registry) in_memory_list Z.of_nat 10 dict_map in_memory_registry_laws) as [Hget _ _ _ _ _ _].
  exact (proj1 (Hget "hr-index" st1 _ _ (surjective_pairing (@r_get example_cached "hr-index" st1)))).
Defined.

End CachedIndexRegistry.
