(* ===== verification/Net.v ===== *)
(** * Calls over a network, with timeouts and retries

    The adapters for Azure make every call on the service the same way: [_call_with_timeout]
    submits it to a thread and waits for at most a timeout, and [_with_retry] repeats that with
    tenacity. A call that timed out is not undone: it may have been executed, may still be
    executed later, or never. [nhandle] gives a submitted call any of these fates, and [Deliver]
    is the step in which the network executes a call that was left in flight.

    Tenacity is an argument: [Tenacity] states the loop its documentation describes for
    [stop_after_attempt], [retry_if_exception] and [reraise=True], for any wait strategy. *)
From S2P Require Import Prelude Types Prog Rely Analyzer.
#[local] Open Scope Z_scope.
#[local] Open Scope py_scope.

(** ** Calls and their fates *)

(** [Q X] is a request to the service whose answer is an [X]. *)
Inductive netE (Q : Type → Type) : Type → Type :=
| Submit {X} (q : Q X) : netE Q (option (result exn X))
| Sleep (seconds : pyfloat) : netE Q (result exn unit)
| Utcnow : netE Q Z
| Deliver (i : nat) : netE Q unit.
Arguments Submit {Q X} q.
Arguments Sleep {Q} seconds.
Arguments Utcnow {Q}.
Arguments Deliver {Q} i.

Inductive fate :=
| Served
| Refused (x : exn)
| ServedThenFailed (x : exn)
| ServedSilently
| Dropped
| Delayed.

Section net.
Context {Q : Type → Type} {S : Type} (serve : ∀ X, Q X → S → result exn X * S).
Context (fates : nat → fate) (utc : nat → Z).

Record nworld := mkNW { nw_state : S; nw_inflight : list (sigT Q); nw_calls : nat; nw_ticks : nat }.

(** [time.sleep] refuses a negative or undefined length. *)
Definition sleep_error (d : pyfloat) : option exn :=
  match d with
  | S754_nan => Some (PyExc "ValueError" "Invalid value NaN (not a number)")
  | S754_infinity false => Some (PyExc "OverflowError" "timestamp out of range for platform time_t")
  | _ => if f_lt d (f_of_Z 0) then Some (PyExc "ValueError" "sleep length must be non-negative") else None
  end.

Definition nhandle (X : Type) (e : netE Q X) (w : nworld) : X * nworld :=
  match e in netE _ X return X * nworld with
  | Submit q =>
    let next st fl := mkNW st fl (1 + nw_calls w) (nw_ticks w) in
    match fates (nw_calls w) with
    | Served => let '(r, st) := serve _ q (nw_state w) in (Some r, next st (nw_inflight w))
    | Refused x => (Some (Exc x), next (nw_state w) (nw_inflight w))
    | ServedThenFailed x => (Some (Exc x), next (serve _ q (nw_state w)).2 (nw_inflight w))
    | ServedSilently => (None, next (serve _ q (nw_state w)).2 (nw_inflight w))
    | Dropped => (None, next (nw_state w) (nw_inflight w))
    | Delayed => (None, next (nw_state w) (nw_inflight w ++ [existT _ q]))
    end
  | Sleep d => (match sleep_error d with Some x => Exc x | None => Ok tt end, w)
  | Utcnow => (utc (nw_ticks w), mkNW (nw_state w) (nw_inflight w) (nw_calls w) (1 + nw_ticks w))
  | Deliver i =>
    match nw_inflight w !! i with
    | Some (existT X' q) => (tt, mkNW (serve X' q (nw_state w)).2 (delete i (nw_inflight w)) (nw_calls w) (nw_ticks w))
    | None => (tt, w)
    end
  end.
End net.
Arguments nworld : clear implicits.

(** ** [_call_with_timeout] and tenacity *)

Definition backend_timeout (message : string) : exn := PyExc "_BackendTimeout" message.
Definition is_backend_timeout (x : exn) : bool := match x with PyExc c _ => bool_decide (c = "_BackendTimeout") | _ => false end.

(** The shape of every [_call_with_timeout]: a [TimeoutError] of the call itself looks the same
    as a timeout of the wait. *)
Definition call_with_timeout {Q X} (timeout_repr : string) (q : Q X) : prog (netE Q) X :=
  let elapsed := Raise (backend_timeout ("backend call did not return within " +:+ timeout_repr +:+ "s")) in
  o ← perform (Submit q);
  match o with
  | None => elapsed
  | Some (Ok a) => Ret a
  | Some (Exc x) => if Analyzer.is_timeout x then elapsed else Raise x
  end.

(** [Retrying(stop=stop_after_attempt(max_attempts), wait=wait, retry=retry, reraise=True)(body)],
    from the [n]-th attempt on. *)
Class Tenacity := {
  retrying {Q : Type → Type} {A : Type} (max_attempts : Z) (wait : Z → exn → pyfloat) (retry : exn → bool) (n : Z) (body : prog (netE Q) A)
    : prog (netE Q) A;
  retrying_law {Q : Type → Type} {A : Type} max_attempts wait retry n (body : prog (netE Q) A) :
    retrying max_attempts wait retry n body =
    (r ← attempt body;
     match r with
     | Ok a => Ret a
     | Exc x =>
       if negb (retry x) then Raise x else
       if bool_decide (max_attempts ≤ n) then Raise x else
       call (Sleep (wait n x)) ;; retrying max_attempts wait retry (n + 1) body
     end);
}.

(** An implementation of the loop. *)
Fixpoint retry_loop {Q : Type → Type} {A : Type} (left : nat) (wait : Z → exn → pyfloat) (retry : exn → bool) (n : Z) (body : prog (netE Q) A)
    : prog (netE Q) A :=
  r ← attempt body;
  match r with
  | Ok a => Ret a
  | Exc x =>
    if negb (retry x) then Raise x else
    match left with
    | O => Raise x
    | S left' => call (Sleep (wait n x)) ;; retry_loop left' wait retry (n + 1) body
    end
  end.

Program Definition loop_tenacity : Tenacity :=
  {| retrying Q A max_attempts wait retry n body := retry_loop (Z.to_nat (max_attempts - n)) wait retry n body |}.
Next Obligation.
  intros Q A max wait retry n body. simpl. case_bool_decide as Hn.
  - by replace (Z.to_nat (max - n)) with O by lia.
  - by replace (Z.to_nat (max - n)) with (S (Z.to_nat (max - (n + 1)))) by lia.
Qed.

#[local] Arguments pbind : simpl never.
#[local] Arguments attempt : simpl never.
#[local] Arguments call : simpl never.
#[local] Arguments perform : simpl never.

(** ** A bound on the number of requests *)

(** Along no path does the program submit more than [n] requests. *)
Fixpoint submits_le {Q : Type → Type} {A} (n : nat) (p : prog (netE Q) A) : Prop :=
  match p with
  | Ret _ | Raise _ => True
  | Vis e k =>
    match e in netE _ X return (X → prog (netE Q) A) → (X → Prop) → Prop with
    | Submit _ => λ k _, match n with O => False | S n' => ∀ r, submits_le n' (k r) end
    | _ => λ _ rest, ∀ r, rest r
    end k (λ r, submits_le n (k r))
  end.

Lemma submits_le_mono {Q : Type → Type} {A} (p : prog (netE Q) A) n m : (n ≤ m)%nat → submits_le n p → submits_le m p.
Proof.
  revert n m. induction p as [a|x|X e k IH]; intros n m Hnm; [done..|]. destruct e as [X' q|d| |i]; simpl.
  - destruct n as [|n]; [done|]. destruct m as [|m]; [lia|]. intros H r. apply (IH r n); [lia|apply H].
  - intros H r. by apply (IH r n).
  - intros H r. by apply (IH r n).
  - intros H r. by apply (IH r n).
Qed.

Lemma submits_bind {Q : Type → Type} {A B} (p : prog (netE Q) A) (f : A → prog (netE Q) B) n m :
  submits_le n p → (∀ a, submits_le m (f a)) → submits_le (n + m) (pbind p f).
Proof.
  intros Hp Hf. revert n Hp. induction p as [a|x|X e k IH]; intros n Hp.
  - apply (submits_le_mono _ m); [lia|apply Hf].
  - done.
  - change (pbind (Vis e k) f) with (Vis e (λ r, pbind (k r) f)). destruct e as [X' q|d| |i]; simpl in *; [|intros r; by apply IH..].
    destruct n as [|n]; [done|]. intros r. by apply IH.
Qed.

Lemma submits_attempt {Q : Type → Type} {A} (p : prog (netE Q) A) n : submits_le n p → submits_le n (attempt p).
Proof.
  revert n. induction p as [a|x|X e k IH]; intros n Hp; [done..|].
  change (attempt (Vis e k)) with (Vis e (λ r, attempt (k r))). destruct e as [X' q|d| |i]; simpl in *; [|intros r; by apply IH..].
  destruct n as [|n]; [done|]. intros r. by apply IH.
Qed.

Lemma submits_call {Q : Type → Type} {X} t (q : Q X) : submits_le 1 (call_with_timeout t q).
Proof.
  unfold call_with_timeout. apply (submits_bind _ _ 1 0); [by intros o|]. intros [[a|x]|]; [done| |done]. by destruct (Analyzer.is_timeout x).
Qed.

(** Retrying a single call submits it at most [max_attempts] times, and at least once. *)
Lemma submits_retrying {tenacity : Tenacity} {Q : Type → Type} {A} max wait retry n (body : prog (netE Q) A) :
  submits_le 1 body → submits_le (S (Z.to_nat (max - n))) (retrying max wait retry n body).
Proof.
  intros Hb. remember (Z.to_nat (max - n)) as left eqn:Hl. revert n Hl.
  induction left as [|left IH]; intros n Hl; rewrite retrying_law.
  all: apply (submits_bind _ _ 1 _ (submits_attempt _ _ Hb)); intros [a|x]; [done|].
  all: destruct (negb (retry x)); [done|]; case_bool_decide; [done|].
  - lia.
  - apply (submits_bind _ _ 0 (S left)); [by intros [[]|?]|]. intros _. apply IH. lia.
Qed.

(** ** Safety of one client among many, whatever the network does *)
Section nsafe.
Context {Q : Type → Type} {S : Type} (serve : ∀ X, Q X → S → result exn X * S).
Context (fates : nat → fate) (utc : nat → Z).
Context (J : S → Prop) (R : S → S → Prop) `{!PreOrder R}.

(** A request that may be executed now, and from now on. *)
Context (ok : ∀ X, Q X → S → Prop).
Context (ok_later : ∀ X (q : Q X) s s', R s s' → ok X q s → ok X q s').
Context (ok_serve : ∀ X (q : Q X) s, J s → ok X q s → J (serve X q s).2 ∧ R s (serve X q s).2).

Notation nh := (nhandle serve fates utc).

(** The service is in order, and so are the requests that may still reach it. *)
Definition NI (w : nworld Q S) : Prop := J (nw_state w) ∧ ∀ X q, existT X q ∈ nw_inflight w → ok X q (nw_state w).
Definition NR (w w' : nworld Q S) : Prop := R (nw_state w) (nw_state w').

#[export] Instance NR_preorder : PreOrder NR.
Proof. unfold NR. split; [intros w; reflexivity|intros w1 w2 w3; by etrans]. Qed.

Lemma serve_NI X (q : Q X) w fl calls ticks :
  NI w → ok X q (nw_state w) → (∀ X' q', existT X' q' ∈ fl → existT X' q' ∈ nw_inflight w) →
  let w' := mkNW (serve X q (nw_state w)).2 fl calls ticks in NI w' ∧ NR w w'.
Proof.
  intros [HJ Hfl] Hq Hsub w'. destruct (ok_serve X q (nw_state w) HJ Hq) as [HJ' HR]. split; [|done]. split; [done|].
  intros X' q' Hin. eapply ok_later; [done|]. by apply Hfl, Hsub.
Qed.

(** One submission: the service's answer is passed on, or is lost, or replaced by an error. *)
Lemma submit_step X (q : Q X) w :
  NI w → ok X q (nw_state w) →
  let '(o, w') := nh _ (Submit q) w in NI w' ∧ NR w w' ∧
    ∀ a, o = Some (Ok a) → (serve X q (nw_state w)).1 = Ok a ∧ nw_state w' = (serve X q (nw_state w)).2.
Proof.
  intros Hw Hq. unfold nhandle. destruct (fates (nw_calls w)) as [|x|x| | |].
  - destruct (serve_NI X q w (nw_inflight w) (1 + nw_calls w) (nw_ticks w) Hw Hq ltac:(done)) as [H1 H2].
    destruct (serve X q (nw_state w)) as [r st]. split_and!; [done..|]. intros a [= ->]. done.
  - split_and!; [by split; apply Hw|unfold NR; reflexivity|done].
  - destruct (serve_NI X q w (nw_inflight w) (1 + nw_calls w) (nw_ticks w) Hw Hq ltac:(done)) as [H1 H2]. by split_and!.
  - destruct (serve_NI X q w (nw_inflight w) (1 + nw_calls w) (nw_ticks w) Hw Hq ltac:(done)) as [H1 H2]. by split_and!.
  - split_and!; [by split; apply Hw|unfold NR; reflexivity|done].
  - split_and!; [split; [apply Hw|]|unfold NR; reflexivity|done].
    intros X' q' [Hin|Hin]%elem_of_app; [by apply Hw|]. apply list_elem_of_singleton in Hin.
    change (ok (projT1 (existT X' q')) (projT2 (existT X' q')) (nw_state w)). by rewrite Hin.
Qed.

Lemma deliver_step i w : NI w → let w' := (nh _ (Deliver i) w).2 in NI w' ∧ NR w w'.
Proof.
  intros Hw. unfold nhandle. destruct (nw_inflight w !! i) as [[X q]|] eqn:Hi; [|by split].
  apply serve_NI; [done| |].
  - apply Hw. by eapply list_elem_of_lookup_2.
  - intros X' q'. apply list_elem_of_delete_inv.
Qed.

(** ** Rules *)

Definition npost {A} (Φ : A → S → Prop) (r : result exn A) (w : nworld Q S) : Prop := ∀ a, r = Ok a → Φ a (nw_state w).
Definition nsafe {A} (Φ : A → S → Prop) (p : prog (netE Q) A) (w : nworld Q S) : Prop := safe nh NI NR (npost Φ) p w.

Definition stable {A} (Φ : A → S → Prop) : Prop := ∀ a s s', R s s' → Φ a s → Φ a s'.

Lemma nsafe_ret {A} (Φ : A → S → Prop) a w : stable Φ → Φ a (nw_state w) → nsafe Φ (Ret a) w.
Proof. intros Hst Ha w' Hw' _ a' [= <-]. by eapply Hst. Qed.

Lemma nsafe_raise {A} (Φ : A → S → Prop) x w : nsafe Φ (Raise x) w.
Proof. by intros w' _ _ a. Qed.

Lemma nsafe_bind {A B} (Φ : A → S → Prop) (Ψ : B → S → Prop) p (f : A → prog (netE Q) B) w :
  NI w → nsafe Φ p w → (∀ a w', NR w w' → NI w' → Φ a (nw_state w') → nsafe Ψ (f a) w') → nsafe Ψ (pbind p f) w.
Proof.
  intros Hw Hp Hf. apply safe_bind; [apply _|done|]. eapply safe_weaken; [apply _| |exact Hp].
  intros [a|x] w' Hw' HI HQ; [|by intros a]. apply Hf; [done..|]. by apply HQ.
Qed.

Lemma nsafe_attempt {A} (Φ : A → S → Prop) (p : prog (netE Q) A) w :
  nsafe Φ p w → nsafe (λ r s, match r with Ok a => Φ a s | Exc _ => True end) (attempt p) w.
Proof.
  intros Hp. apply safe_attempt. eapply safe_weaken; [apply _| |exact Hp].
  intros [a|x] w' _ _ HQ r [= <-]; [by apply HQ|done].
Qed.

Lemma nsafe_lift {A} (Φ : A → S → Prop) (r : result exn A) w :
  stable Φ → (∀ a, r = Ok a → Φ a (nw_state w)) → nsafe Φ (lift r) w.
Proof. intros Hst Hr. destruct r as [a|x]; [by apply nsafe_ret; [|apply Hr]|apply nsafe_raise]. Qed.

Lemma nsafe_utcnow (w : nworld Q S) : nsafe (λ _ _, True) (perform Utcnow) w.
Proof. apply safe_perform. intros w' _ HI. split_and!; [exact HI|unfold NR; reflexivity|done]. Qed.

Lemma nsafe_sleep d (w : nworld Q S) : nsafe (λ _ _, True) (call (Sleep d)) w.
Proof. apply safe_call. intros w' _ HI. split_and!; [exact HI|unfold NR; reflexivity|done]. Qed.

(** A call is safe if its request may be executed; what it answers was the service's answer. *)
Lemma nsafe_call {X} (Φ : X → S → Prop) t (q : Q X) w :
  NI w → stable Φ → (∀ s, R (nw_state w) s → J s → ok X q s) →
  (∀ s a, R (nw_state w) s → J s → (serve X q s).1 = Ok a → Φ a (serve X q s).2) →
  nsafe Φ (call_with_timeout t q) w.
Proof.
  intros Hw Hst Hok HΦ. unfold call_with_timeout. apply safe_bind; [apply _|done|]. apply safe_perform. intros w' HR HI.
  pose proof (submit_step X q w' HI (Hok _ HR (proj1 HI))) as Hs. destruct (nh _ (Submit q) w') as [o w2]. destruct Hs as (HI2 & HR2 & Ha).
  split_and!; [done..|]. intros w3 HR3 HI3. cbn [fst]. destruct o as [[a|x]|].
  - apply nsafe_ret; [done|]. destruct (Ha a eq_refl) as [Hr Hstate]. eapply Hst; [exact HR3|]. simpl. rewrite Hstate.
    apply HΦ; [exact HR|apply HI|done].
  - destruct (Analyzer.is_timeout x); apply nsafe_raise.
  - apply nsafe_raise.
Qed.

Lemma nsafe_retrying {tenacity : Tenacity} {A} (Φ : A → S → Prop) max wait retry n (body : prog (netE Q) A) w :
  NI w → stable Φ → (∀ w', NR w w' → NI w' → nsafe Φ body w') → nsafe Φ (retrying max wait retry n body) w.
Proof.
  intros Hw Hst. remember (Z.to_nat (max - n)) as left eqn:Hl. revert n w Hw Hl.
  induction left as [|left IH]; intros n w Hw Hl Hbody; rewrite retrying_law.
  all: eapply nsafe_bind; [done|apply nsafe_attempt, Hbody; done|]; intros [a|x] w1 HR1 HI1 Ha; [by apply nsafe_ret|].
  all: destruct (negb (retry x)); [apply nsafe_raise|]; case_bool_decide; [apply nsafe_raise|].
  - lia.
  - eapply nsafe_bind; [done|apply nsafe_sleep|]. intros [] w2 HR2 HI2 _. apply IH; [done|lia|].
    intros w3 HR3 HI3. apply Hbody; [|done]. by do 2 (etrans; [eassumption|]).
Qed.

End nsafe.

(** ** What a retried call amounts to *)
Section outcome.
Context {Q : Type → Type} {S : Type} (serve : ∀ X, Q X → S → result exn X * S).
Context (fates : nat → fate) (utc : nat → Z).
Notation nh := (nhandle serve fates utc).

(** The service after it has executed the request [k] times. *)
Definition served {X} (q : Q X) (k : nat) (s : S) : S := Nat.iter k (λ s, (serve X q s).2) s.

Lemma served_S {X} (q : Q X) k s : served q (1 + k) s = served q k (serve X q s).2.
Proof. unfold served. simpl. induction k as [|k IH]; simpl; [done|]. by rewrite IH. Qed.

Lemma served_snoc {X} (q : Q X) k s : served q (1 + k) s = (serve X q (served q k s)).2.
Proof. done. Qed.

(** What the [i]-th request on the network is answered when it is [q] and the service is in
    state [s]; [None] is no answer in time. And how often the service executes it meanwhile. *)
Definition answer {X} (q : Q X) (i : nat) (s : S) : option (result exn X) :=
  match fates i with
  | Served => Some (serve X q s).1
  | Refused x | ServedThenFailed x => Some (Exc x)
  | ServedSilently | Dropped | Delayed => None
  end.

Definition executions (i : nat) : nat :=
  match fates i with Served | ServedThenFailed _ | ServedSilently => 1 | Refused _ | Dropped | Delayed => 0 end.

(** The exception the request ends with: [raised] is what the client makes of no answer and of
    an exception that was answered. *)
Definition failure {X} (raised : option exn → exn) (q : Q X) (i : nat) (s : S) : option exn :=
  match answer q i s with
  | Some (Ok _) => None
  | Some (Exc x) => Some (raised (Some x))
  | None => Some (raised None)
  end.

Lemma executions_le i : (executions i ≤ 1)%nat.
Proof. unfold executions. destruct (fates i); lia. Qed.

(** A program that submits [q] once: it returns the service's answer, or raises the failure of
    the request and leaves it executed or not. *)
Definition calls_once {X} (raised : option exn → exn) (q : Q X) (body : prog (netE Q) X) : Prop := ∀ w,
  let '(r, w') := run nh body w in
  nw_calls w' = (1 + nw_calls w)%nat ∧
  match r with
  | Ok a => (serve X q (nw_state w)).1 = Ok a ∧ nw_state w' = (serve X q (nw_state w)).2
  | Exc x => failure raised q (nw_calls w) (nw_state w) = Some x ∧ nw_state w' = served q (executions (nw_calls w)) (nw_state w)
  end.

(** [_call_with_timeout] shows a [TimeoutError] as it shows no answer. *)
Definition timeout_raised (t : string) (o : option exn) : exn :=
  let elapsed := backend_timeout ("backend call did not return within " +:+ t +:+ "s") in
  match o with Some x => if Analyzer.is_timeout x then elapsed else x | None => elapsed end.

Lemma run_call_with_timeout {X} t (q : Q X) : calls_once (timeout_raised t) q (call_with_timeout t q).
Proof.
  intros w. unfold call_with_timeout. rewrite run_bind, run_perform. cbn [fst snd]. unfold nhandle, failure, answer, executions, timeout_raised.
  destruct (fates (nw_calls w)) as [|x|x| | |].
  - simpl served. destruct (serve X q (nw_state w)) as [[a|x] st] eqn:Hs; cbn [fst snd]; [done|]. by destruct (Analyzer.is_timeout x).
  - cbn [fst snd]. by destruct (Analyzer.is_timeout x).
  - cbn [fst snd]. by destruct (Analyzer.is_timeout x).
  - by split_and!.
  - by split_and!.
  - by split_and!.
Qed.

(** How a retry loop gives up, counting its attempts from [first]: [x1] is the failure of the
    last request it submitted, in the state the service had then. When that failure is not worth
    a retry, or was the last permitted attempt, it is what is raised; otherwise the wait before
    the next attempt raised. *)
Definition gave_up {X} (raised : option exn → exn) (max : Z) (wait : Z → exn → pyfloat) (retry : exn → Prop) (first : Z)
    (q : Q X) (w w' : nworld Q S) (x : exn) : Prop :=
  ∃ k x1, let calls := (nw_calls w' - nw_calls w)%nat in let last := (nw_calls w' - 1)%nat in
    (nw_calls w < nw_calls w')%nat ∧
    failure raised q last (served q k (nw_state w)) = Some x1 ∧
    nw_state w' = served q (k + executions last) (nw_state w) ∧
    ((¬ retry x1 ∧ x = x1) ∨
     (retry x1 ∧ Z.of_nat calls = Z.max 1 (max - first + 1) ∧ x = x1) ∨
     (retry x1 ∧ Z.of_nat calls < max - first + 1 ∧ sleep_error (wait (first + Z.of_nat calls - 1) x1) = Some x)).

Lemma gave_up_iff {X} raised max wait (retry retry' : exn → Prop) first (q : Q X) w w' x :
  (∀ y, retry y ↔ retry' y) → gave_up raised max wait retry first q w w' x → gave_up raised max wait retry' first q w w' x.
Proof. intros Hiff (k & x1 & H1 & H2 & H3 & H4). exists k, x1. split_and!; [done..|]. by rewrite <- !Hiff. Qed.

Lemma sleep_error_class d x : sleep_error d = Some x → ∃ cls m, x = PyExc cls m ∧ cls ≠ "_BackendTimeout".
Proof. unfold sleep_error. destruct d as [[]|[]| |[] m e]; intros H; repeat case_match; simplify_eq/=; by eexists _, _. Qed.

(** Retrying returns the first answer the service gave, the request having been executed some
    number of times before, or it gives up. *)
Lemma run_retrying {tenacity : Tenacity} {X} raised (q : Q X) body max wait retry n w :
  calls_once raised q body →
  let '(r, w') := run nh (retrying max wait retry n body) w in
  ∃ k calls, (k ≤ calls)%nat ∧ (calls ≤ 1 + Z.to_nat (max - n))%nat ∧ nw_calls w' = (calls + nw_calls w)%nat ∧
  match r with
  | Ok a => (serve X q (served q k (nw_state w))).1 = Ok a ∧ nw_state w' = served q (1 + k) (nw_state w)
  | Exc x => nw_state w' = served q k (nw_state w) ∧ gave_up raised max wait (λ x, retry x = true) n q w w' x
  end.
Proof.
  intros Hbody. remember (Z.to_nat (max - n)) as left eqn:Hl. revert n w Hl. induction left as [|left IH]; intros n w Hl; rewrite retrying_law, run_bind, run_attempt.
  all: pose proof (Hbody w) as Hc; destruct (run nh body w) as [r w1]; destruct Hc as [Hcalls Hr]; cbn [fst snd].
  all: destruct r as [a|x]; [destruct Hr as [Hr1 Hr2]; exists 0%nat, 1%nat; split_and!; [lia|lia|exact Hcalls|exact Hr1|exact Hr2]|].
  all: destruct Hr as [Hx Hst1]; pose proof (executions_le (nw_calls w)) as Hle.
  all: assert (Hone : ∀ y, let calls := 1%nat in (retry x = false ∧ y = x) ∨ (retry x = true ∧ Z.of_nat calls = Z.max 1 (max - n + 1) ∧ y = x) ∨
         (retry x = true ∧ Z.of_nat calls < max - n + 1 ∧ sleep_error (wait (n + Z.of_nat calls - 1) x) = Some y) →
         gave_up raised max wait (λ x, retry x = true) n q w w1 y).
  1, 3: intros y calls Hy; exists 0%nat, x; cbv zeta; rewrite Hcalls; replace (1 + nw_calls w - 1)%nat with (nw_calls w) by lia;
    replace (1 + nw_calls w - nw_calls w)%nat with 1%nat by lia; split_and!; [lia|done|done|]; destruct (retry x); naive_solver.
  all: destruct (retry x) eqn:Hretry; cbn [negb]; [|exists (executions (nw_calls w)), 1%nat; split_and!; [lia|lia|lia|exact Hst1|apply Hone; by left]].
  - rewrite bool_decide_eq_true_2 by lia. exists (executions (nw_calls w)), 1%nat. split_and!; [lia|lia|lia|done|]. apply Hone. right. left. split_and!; [done|lia|done].
  - rewrite bool_decide_eq_false_2 by lia. rewrite run_bind, run_call. cbn [nhandle].
    destruct (sleep_error (wait n x)) as [x'|] eqn:Hsl.
    { exists (executions (nw_calls w)), 1%nat. split_and!; [lia|lia|lia|done|]. apply Hone. right. right. split_and!; [done|lia|].
      by replace (n + Z.of_nat 1 - 1) with n by lia. }
    clear Hone. specialize (IH (n + 1) w1 ltac:(lia)). destruct (run nh _ w1) as [r w2].
    destruct IH as (k & calls & Hk & Hcl & Hcalls2 & Hr). exists (executions (nw_calls w) + k)%nat, (1 + calls)%nat. split_and!; [lia|lia|lia|].
    assert (Hserved : ∀ j, served q j (nw_state w1) = served q (executions (nw_calls w) + j) (nw_state w)).
    { intros j. rewrite Hst1. destruct (executions (nw_calls w)) as [|[|]]; [done| |lia]. symmetry. apply served_S. }
    destruct r as [a|x'].
    + rewrite !Hserved in Hr. destruct Hr as [Ha Hst]. split; [done|]. rewrite Hst. f_equal. lia.
    + destruct Hr as [Hst Hx']. rewrite Hserved in Hst. split; [done|]. destruct Hx' as (k' & x1 & Hlt & Hf & Hst' & Hcase).
      rewrite Hserved in Hf, Hst'. exists (executions (nw_calls w) + k')%nat, x1. cbv zeta. split_and!; [lia|done|by rewrite <- Nat.add_assoc|].
      assert (Hn : Z.of_nat (nw_calls w2 - nw_calls w) = 1 + Z.of_nat (nw_calls w2 - nw_calls w1)) by lia.
      cbv zeta in Hcase. destruct Hcase as [?|[(? & ? & ?)|(? & ? & Hs)]]; [by left|right; left; split_and!; [done|lia|done]|].
      right. right. split_and!; [done|lia|]. rewrite Hn. by replace (n + (1 + Z.of_nat (nw_calls w2 - nw_calls w1)) - 1) with (n + 1 + Z.of_nat (nw_calls w2 - nw_calls w1) - 1) by lia.
Qed.
End outcome.

(** ** [_with_retry]

    The loop every adapter and store wraps around its calls; they differ in the waits, in what
    is worth a retry and in the errors they raise at its end. *)

Record RetrySettings := mkSettings { timeout_repr : string; max_attempts : Z; backoff : Z → exn → pyfloat }.

Definition with_retry {tenacity : Tenacity} (settings : RetrySettings) (is_retryable : exn → bool) (final_error : exn → exn)
    {Q : Type → Type} {X} (q : Q X) : prog (netE Q) X :=
  r ← attempt (retrying (max_attempts settings) (backoff settings) is_retryable 1 (call_with_timeout (timeout_repr settings) q));
  match r with Ok a => Ret a | Exc x => Raise (final_error x) end.

(** It submits its request at most [max_attempts] times, once at least. *)
Lemma with_retry_submits {tenacity : Tenacity} settings is_retryable final_error {Q : Type → Type} X (q : Q X) :
  submits_le (S (Z.to_nat (max_attempts settings - 1))) (with_retry settings is_retryable final_error q).
Proof.
  unfold with_retry. rewrite <- (Nat.add_0_r (S _)). apply submits_bind; [|by intros [a|x]].
  apply submits_attempt, submits_retrying, submits_call.
Qed.

(** What it amounts to. *)
Lemma run_with_retry {tenacity : Tenacity} {Q : Type → Type} {S : Type} (serve : ∀ X, Q X → S → result exn X * S) fates utc
    settings is_retryable final_error X (q : Q X) w :
  let '(r, w') := run (nhandle serve fates utc) (with_retry settings is_retryable final_error q) w in
  ∃ k calls, (k ≤ calls)%nat ∧ Z.of_nat calls ≤ Z.max 1 (max_attempts settings) ∧ nw_calls w' = (calls + nw_calls w)%nat ∧
  match r with
  | Ok a => (serve X q (served serve q k (nw_state w))).1 = Ok a ∧ nw_state w' = served serve q (1 + k) (nw_state w)
  | Exc x => nw_state w' = served serve q k (nw_state w) ∧ ∃ x0, x = final_error x0 ∧
             gave_up serve fates (timeout_raised (timeout_repr settings)) (max_attempts settings) (backoff settings) (λ x, is_retryable x = true) 1 q w w' x0
  end.
Proof.
  unfold with_retry. rewrite run_bind, run_attempt. cbn [fst snd].
  pose proof (run_retrying serve fates utc _ q _ (max_attempts settings) (backoff settings) is_retryable 1 w
    (run_call_with_timeout serve fates utc (timeout_repr settings) q)) as H.
  destruct (run _ (retrying _ _ _ _ _) w) as [r w']. destruct H as (k & calls & Hk & Hc & Hcalls & Hr). cbn [fst snd].
  destruct r as [a|x]; cbn [run]; exists k, calls; (split; [done|]; split; [lia|]; split; [done|]); [done|].
  destruct Hr as [Hst Hx]. split; [done|]. by exists x.
Qed.

(** ** Clients of one service *)
Section clients.
Context {Q : Type → Type} {S : Type} (serve : ∀ X, Q X → S → result exn X * S).
Context (fates : nat → fate) (utc : nat → Z).
Context (J : S → Prop) (R : S → S → Prop) `{!PreOrder R}.
Context (ok : ∀ X, Q X → S → Prop).
Context (ok_later : ∀ X (q : Q X) s s', R s s' → ok X q s → ok X q s').
Context (ok_serve : ∀ X (q : Q X) s, J s → ok X q s → J (serve X q s).2 ∧ R s (serve X q s).2).

Notation nh := (nhandle serve fates utc).
Notation safely := (nsafe serve fates utc J R ok).

(** A retried request, from what the service's answer to it tells. *)
Lemma nsafe_with_retry {tenacity : Tenacity} settings is_retryable final_error {X} (Φ : X → S → Prop) (q : Q X) w :
  NI J ok w → stable R Φ → (∀ s, R (nw_state w) s → J s → ok X q s) →
  (∀ s a, R (nw_state w) s → J s → (serve X q s).1 = Ok a → Φ a (serve X q s).2) →
  safely Φ (with_retry settings is_retryable final_error q) w.
Proof.
  intros Hw Hst Hok HΦ. unfold with_retry.
  eapply (nsafe_bind _ _ _ _ _ _ (λ r s, match r with Ok a => Φ a s | Exc _ => True end)); [done| |].
  - apply nsafe_attempt; [done|]. apply nsafe_retrying; [done..|]. intros w' Hw' HI'.
    apply nsafe_call; [done..| |].
    + intros s Hs. apply Hok. by etrans.
    + intros s a' Hs. apply HΦ. by etrans.
  - intros [a|x] w' _ _ Ha; [by apply nsafe_ret|apply nsafe_raise].
Qed.

(** The network executing delayed requests. *)
Lemma nsafe_network ds w : NI J ok w → safely (λ _ _, True) (pfold (λ _ i, perform (Deliver i)) tt ds) w.
Proof.
  revert w. induction ds as [|i ds IH]; intros w Hw; cbn [pfold]; [by apply nsafe_ret|].
  eapply (nsafe_bind _ _ _ _ _ _ (λ _ _, True)); [done| |intros [] w' _ HI' _; by apply IH].
  apply safe_perform. intros w' _ HI'. destruct (deliver_step serve fates utc J R ok ok_later ok_serve i w' HI') as [H1 H2]. by split_and!.
Qed.

(** From single calls to a pool of workers. *)
Lemma nsafe_pool {C A} (serve_call : C → prog (netE Q) A) (post : C → A → S → Prop) calls st pool w' :
  J st → (∀ c w, c ∈ calls → NI J ok w → safely (post c) (serve_call c) w) →
  rtc (sched_step nh) (map serve_call calls, mkNW st [] 0 0) (pool, w') →
  J (nw_state w') ∧ R st (nw_state w') ∧
  ∀ i c a, calls !! i = Some c → pool !! i = Some (Ret a) → post c a (nw_state w').
Proof.
  intros HJ Hcalls Hsteps. set (w := mkNW (Q := Q) st [] 0 0).
  assert (Hw : NI J ok w) by (split; [done|intros X q Hin; by apply elem_of_nil in Hin]).
  assert (Hall : ∀ i p, map serve_call calls !! i = Some p →
    safe nh (NI J ok) (NR R) (λ r v, match calls !! i with Some c => npost (post c) r v | None => True end) p w).
  { intros i p. rewrite list_lookup_fmap. destruct (calls !! i) as [c|] eqn:Hi; [|done]. intros [= <-].
    apply Hcalls; [|done]. by eapply list_elem_of_lookup_2. }
  destruct (safe_pool _ _ _ (PreOrder0 := NR_preorder R) _ _ _ _ _ Hw Hall Hsteps) as (HI' & HR & Hall'). split_and!; [apply HI'|exact HR|].
  intros i c a Hi Hp. pose proof (Hall' i _ Hp w' (reflexivity w') HI') as Hq. cbv beta in Hq. rewrite Hi in Hq. exact (Hq _ eq_refl).
Qed.
End clients.
