(* ===== verification/Tables.v ===== *)
(** * Azure Table Storage (src/vestibule/provisioning/stores/_azure_table_backend.py,
      src/vestibule/scenario/stores/_azure_table_backend.py)

    The two table-backed stores talk to the service through copies of the same thin backend.
    [TableClient] is the SDK's client, an argument; [TableLaws] states what its documentation
    guarantees: an entity per pair of keys, creation that fails with 409 when the entity exists,
    replacement that fails with 412 unless the given ETag is the current one, and a new ETag
    for every write. [serve] is the backend on top of it.

    The second half is about optimistic concurrency: a history of every version ever written
    makes "the entity has not changed since it was read" a fact a worker can rely on. *)
From S2P Require Import Prelude PyDict Types Prog Rely Net.
#[local] Open Scope Z_scope.
#[local] Open Scope py_scope.

(** ** Entities *)

Inductive tval := TStr (s : string) | TInt (z : Z) | TBool (b : bool).

#[export] Instance tval_eq_dec : EqDecision tval.
Proof. solve_decision. Defined.

(** [str(v)]. *)
Definition tval_str (v : tval) : string :=
  match v with TStr s => s | TInt z => pretty z | TBool b => if b then "True" else "False" end.

Notation props := (list (string * tval)).

(** The SDK's [TableEntity]: a dictionary of properties, the two keys included, and an ETag. *)
Record TableEntity := mkEntity { te_props : props; te_etag : string }.

Record _TableEntityRecord := mkRec { re_partition_key : string; re_row_key : string; re_data : props; re_etag : string }.

#[export] Instance record_eq_dec : EqDecision _TableEntityRecord.
Proof. solve_decision. Defined.

(** ** The SDK's client *)
Class TableClient := {
  tc_state : Type;
  tc_get_entity : string → string → tc_state → result exn TableEntity;
  tc_list_entities : tc_state → list TableEntity;
  tc_query_entities : string → list (string * string) → tc_state → list TableEntity;
  tc_create_entity : props → tc_state → result exn string * tc_state;
  (** [update_entity(entity, mode=UpdateMode.REPLACE, etag, MatchConditions.IfNotModified)]. *)
  tc_update_entity : props → string → tc_state → result exn string * tc_state;
  tc_delete_entity : string → string → tc_state → tc_state;
}.

(** ** The backend *)

(** The methods of [_TableBackend], as requests. *)
Inductive tableQ : Type → Type :=
| get_entity (partition_key row_key : string) : tableQ (option _TableEntityRecord)
| query (partition_key row_key : option string) : tableQ (list _TableEntityRecord)
| upsert_entity (partition_key row_key : string) (data : props) (etag : option string) : tableQ string
| delete_entity (partition_key row_key : string) : tableQ unit.

Definition reserved : list string := ["PartitionKey"; "RowKey"; "Timestamp"; "etag"].

Definition prop_str (k : string) (p : props) : string := match dict_get k p with Some v => tval_str v | None => "" end.

Definition _to_record (e : TableEntity) : _TableEntityRecord :=
  mkRec (prop_str "PartitionKey" (te_props e)) (prop_str "RowKey" (te_props e))
    (List.filter (λ kv, bool_decide (kv.1 ∉ reserved)) (te_props e)) (te_etag e).

(** [{"PartitionKey": partition_key, "RowKey": row_key, **data}]. *)
Definition entity_of (partition_key row_key : string) (data : props) : props :=
  fold_left (λ d kv, dict_set kv.1 kv.2 d) data [("PartitionKey", TStr partition_key); ("RowKey", TStr row_key)].

(** The clauses of the filter and its parameters. *)
Definition query_filter (partition_key row_key : option string) : list string * list (string * string) :=
  let pk := match partition_key with Some p => [("PartitionKey eq @pk", ("pk", p))] | None => [] end in
  let rk := match row_key with Some r => [("RowKey eq @rk", ("rk", r))] | None => [] end in
  ((pk ++ rk).*1, (pk ++ rk).*2).

Section backend.
Context {client : TableClient}.

Definition real_get_entity (partition_key row_key : string) (st : tc_state) : result exn (option _TableEntityRecord) :=
  match tc_get_entity partition_key row_key st with
  | Ok e => Ok (Some (_to_record e))
  | Exc (HttpResponseError (Some s) ra m) => if bool_decide (s = 404) then Ok None else Exc (HttpResponseError (Some s) ra m)
  | Exc x => Exc x
  end.

Definition real_query (partition_key row_key : option string) (st : tc_state) : list _TableEntityRecord :=
  let '(clauses, parameters) := query_filter partition_key row_key in
  map _to_record
    (match clauses with
     | [] => tc_list_entities st
     | _ => tc_query_entities (py_join " and " clauses) parameters st
     end).

Definition real_upsert_entity (partition_key row_key : string) (data : props) (etag : option string) (st : tc_state)
    : result exn string * tc_state :=
  let entity := entity_of partition_key row_key data in
  match etag with
  | None => tc_create_entity entity st
  | Some g => tc_update_entity entity g st
  end.

Definition serve (X : Type) (q : tableQ X) (st : tc_state) : result exn X * tc_state :=
  match q in tableQ X return result exn X * tc_state with
  | get_entity pk rk => (real_get_entity pk rk st, st)
  | query pk rk => (Ok (real_query pk rk st), st)
  | upsert_entity pk rk data etag => real_upsert_entity pk rk data etag st
  | delete_entity pk rk => (Ok tt, tc_delete_entity pk rk st)
  end.

(** ** What the service guarantees *)

Notation contents := (gmap (string * string) (props * string)).

Definition key_matches (partition_key row_key : option string) (k : string * string) : Prop :=
  (∀ p, partition_key = Some p → k.1 = p) ∧ (∀ r, row_key = Some r → k.2 = r).

Class TableLaws (stored : tc_state → contents) (issued : tc_state → gset string) : Prop := {
  keyed_law st k p g : stored st !! k = Some (p, g) →
    dict_get "PartitionKey" p = Some (TStr k.1) ∧ dict_get "RowKey" p = Some (TStr k.2) ∧ g ∈ issued st;
  get_entity_law pk rk st :
    match stored st !! (pk, rk) with
    | Some (p, g) => tc_get_entity pk rk st = Ok (mkEntity p g)
    | None => ∃ m, tc_get_entity pk rk st = Exc (HttpResponseError (Some 404) None m)
    end;
  list_law st e : e ∈ tc_list_entities st ↔ ∃ k, stored st !! k = Some (te_props e, te_etag e);
  query_partition_law p st e :
    e ∈ tc_query_entities "PartitionKey eq @pk" [("pk", p)] st ↔ ∃ k, stored st !! k = Some (te_props e, te_etag e) ∧ k.1 = p;
  query_row_law r st e :
    e ∈ tc_query_entities "RowKey eq @rk" [("rk", r)] st ↔ ∃ k, stored st !! k = Some (te_props e, te_etag e) ∧ k.2 = r;
  query_both_law p r st e :
    e ∈ tc_query_entities "PartitionKey eq @pk and RowKey eq @rk" [("pk", p); ("rk", r)] st ↔
    ∃ k, stored st !! k = Some (te_props e, te_etag e) ∧ k.1 = p ∧ k.2 = r;
  create_law p pk rk st : dict_get "PartitionKey" p = Some (TStr pk) → dict_get "RowKey" p = Some (TStr rk) →
    match stored st !! (pk, rk) with
    | Some _ => ∃ m, tc_create_entity p st = (Exc (HttpResponseError (Some 409) None m), st)
    | None => ∃ g st', tc_create_entity p st = (Ok g, st') ∧ g ∉ issued st ∧
                stored st' = <[(pk, rk) := (p, g)]> (stored st) ∧ issued st' = {[g]} ∪ issued st
    end;
  update_law p pk rk g st : dict_get "PartitionKey" p = Some (TStr pk) → dict_get "RowKey" p = Some (TStr rk) →
    if decide (snd <$> stored st !! (pk, rk) = Some g) then
      ∃ g' st', tc_update_entity p g st = (Ok g', st') ∧ g' ∉ issued st ∧
        stored st' = <[(pk, rk) := (p, g')]> (stored st) ∧ issued st' = {[g']} ∪ issued st
    else ∃ s m, tc_update_entity p g st = (Exc (HttpResponseError (Some s) None m), st) ∧ (s = 404 ∨ s = 412);
  delete_law pk rk st : stored (tc_delete_entity pk rk st) = delete (pk, rk) (stored st) ∧ issued (tc_delete_entity pk rk st) = issued st;
}.
End backend.

(** ** Data that survives the trip *)

(** Each property once, and none of the names the backend strips. *)
Definition clean (data : props) : Prop := NoDup data.*1 ∧ Forall (λ kv, kv.1 ∉ reserved) data.

Lemma set_clean k v data : k ∉ reserved → clean data → clean (dict_set k v data).
Proof.
  intros Hk [Hnd Hr]. split; [by apply dict_set_wf|]. clear Hnd.
  induction Hr as [|[j w] data Hj Hr IH]; simpl; [by repeat constructor|]. case_decide; by constructor.
Qed.

Lemma fold_set_app (data base : props) :
  NoDup data.*1 → Forall (λ kv, kv.1 ∉ base.*1) data → fold_left (λ d kv, dict_set kv.1 kv.2 d) data base = base ++ data.
Proof.
  revert base. induction data as [|[k v] data IH]; intros base Hnd Hf; simpl; [by rewrite app_nil_r|].
  inversion Hnd as [|? ? Hk Hnd']; subst. inversion Hf as [|? ? Hb Hf']; subst. simpl in *.
  assert (dict_set k v base = base ++ [(k, v)]) as ->.
  { clear -Hb. induction base as [|[k' v'] base IHb]; simpl; [done|]. simpl in Hb. rewrite decide_False by set_solver. f_equal. apply IHb. set_solver. }
  rewrite IH; [by rewrite <- app_assoc|done|].
  apply Forall_forall. intros [k2 v2] Hin. rewrite Forall_forall in Hf'. specialize (Hf' _ Hin). simpl in *.
  rewrite fmap_app. simpl. intros [?|Hk2]%elem_of_app; [done|]. apply list_elem_of_singleton in Hk2 as ->. apply Hk.
  by apply (list_elem_of_fmap_2 fst) in Hin.
Qed.

Lemma entity_of_eq pk rk data : clean data → entity_of pk rk data = ("PartitionKey", TStr pk) :: ("RowKey", TStr rk) :: data.
Proof.
  intros [Hnd Hr]. unfold entity_of. rewrite fold_set_app; [done..|]. eapply Forall_impl; [exact Hr|]. unfold reserved. simpl. set_solver.
Qed.

Lemma to_record_entity pk rk data g : clean data → _to_record (mkEntity (entity_of pk rk data) g) = mkRec pk rk data g.
Proof.
  intros Hc. rewrite entity_of_eq by done. unfold _to_record. simpl. f_equal. destruct Hc as [_ Hr].
  induction Hr as [|[k v] data Hk Hr IH]; [done|]. simpl. rewrite bool_decide_eq_true_2 by done. by f_equal.
Qed.

Lemma entity_of_keys pk rk data :
  clean data → dict_get "PartitionKey" (entity_of pk rk data) = Some (TStr pk) ∧ dict_get "RowKey" (entity_of pk rk data) = Some (TStr rk).
Proof. intros Hc. by rewrite entity_of_eq. Qed.

(** ** Optimistic concurrency *)
Section cas.
Context {client : TableClient} (stored : tc_state → gmap (string * string) (props * string)) (issued : tc_state → gset string).
Context {laws : TableLaws stored issued}.

(** [allowed k d d']: a client may replace the data [d] of the entity [k] by [d'] ([None] when
    there is no entity). *)
Context (allowed : string * string → option props → option props → Prop).

(** The service with the history of every version written: its ETag, its keys, its data. *)
Notation hstate := (tc_state * list (string * ((string * string) * props)))%type.

Definition hserve (X : Type) (q : tableQ X) (s : hstate) : result exn X * hstate :=
  let '(r, st) := serve X q s.1 in
  (r, (st, match q in tableQ X return result exn X → _ with
           | upsert_entity pk rk data _ => λ r, match r with Ok g => s.2 ++ [(g, ((pk, rk), data))] | Exc _ => s.2 end
           | _ => λ _, s.2
           end r)).

(** The entities' data. *)
Definition data_of (st : tc_state) : gmap (string * string) props :=
  (λ pg, List.filter (λ kv, bool_decide (kv.1 ∉ reserved)) pg.1) <$> stored st.

Definition tstep (m m' : gmap (string * string) props) : Prop :=
  ∃ k o, allowed k (m !! k) o ∧ m' = partial_alter (λ _, o) k m.

Record hist_ok (s : hstate) : Prop := {
  hist_stored k p g : stored s.1 !! k = Some (p, g) → ∃ d, p = entity_of k.1 k.2 d ∧ clean d ∧ (g, (k, d)) ∈ s.2;
  hist_unique g v v' : (g, v) ∈ s.2 → (g, v') ∈ s.2 → v = v';
  hist_issued g v : (g, v) ∈ s.2 → g ∈ issued s.1;
}.

Definition evolves (s s' : hstate) : Prop := s.2 ⊆ s'.2 ∧ rtc tstep (data_of s.1) (data_of s'.1).

#[export] Instance evolves_preorder : PreOrder evolves.
Proof. split; [by intros s; split|]. intros s1 s2 s3 [H1 H2] [H3 H4]. split; by etrans. Qed.

(** What makes a request harmless: a conditional write is an allowed change of the version its
    ETag names. *)
Definition justified (X : Type) (q : tableQ X) (s : hstate) : Prop :=
  match q with
  | get_entity _ _ | query _ _ => True
  | upsert_entity pk rk data None => clean data ∧ allowed (pk, rk) None (Some data)
  | upsert_entity pk rk data (Some g) =>
    clean data ∧ ∃ k d, (g, (k, d)) ∈ s.2 ∧ (k = (pk, rk) → allowed k (Some d) (Some data))
  | delete_entity pk rk => ∀ d, allowed (pk, rk) (Some d) None
  end.

Lemma justified_later X (q : tableQ X) s s' : evolves s s' → justified X q s → justified X q s'.
Proof. intros [Hsub _]. destruct q as [pk rk|pk rk|pk rk data [g|]|pk rk]; simpl; try done. intros (Hc & k & d & Hin & Ha). set_solver. Qed.

Lemma data_of_lookup s k :
  hist_ok s → data_of s.1 !! k = match stored s.1 !! k with Some (p, g) => Some (re_data (_to_record (mkEntity p g))) | None => None end.
Proof. intros _. unfold data_of. rewrite lookup_fmap. by destruct (stored s.1 !! k) as [[p g]|]. Qed.

Lemma clean_filter pk rk data : clean data → List.filter (λ kv, bool_decide (kv.1 ∉ reserved)) (entity_of pk rk data) = data.
Proof. intros Hc. pose proof (to_record_entity pk rk data "" Hc) as H. unfold _to_record in H. simpl in H. by injection H. Qed.

(** A write of [data] at [k] with the new ETag [g]. *)
Lemma write_hist_ok s st' k data g :
  hist_ok s → clean data → g ∉ issued s.1 →
  stored st' = <[k := (entity_of k.1 k.2 data, g)]> (stored s.1) → issued st' = {[g]} ∪ issued s.1 →
  allowed k (data_of s.1 !! k) (Some data) →
  hist_ok (st', s.2 ++ [(g, (k, data))]) ∧ evolves s (st', s.2 ++ [(g, (k, data))]).
Proof.
  intros Hs Hc Hg Hst Hi Ha. split; [split; simpl|split; simpl; [set_solver|]].
  - intros k' p g'. rewrite Hst. destruct (decide (k' = k)) as [->|Hne].
    + rewrite lookup_insert_eq. intros [= <- <-]. exists data. split_and!; [done..|set_solver].
    + rewrite lookup_insert_ne by done. intros (d & ? & ? & ?)%(hist_stored s Hs). exists d. split_and!; [done..|set_solver].
  - assert (∀ v, (g, v) ∉ s.2) by (intros v Hin; by apply (hist_issued s Hs) in Hin).
    intros g' v v' [H1|H1]%elem_of_app [H2|H2]%elem_of_app.
    + by eapply hist_unique.
    + apply list_elem_of_singleton in H2 as [= -> ->]. naive_solver.
    + apply list_elem_of_singleton in H1 as [= -> ->]. naive_solver.
    + apply list_elem_of_singleton in H1 as [= -> ->], H2 as [= ->]. done.
  - intros g' v [H1|H1]%elem_of_app; rewrite Hi; [apply (hist_issued s Hs) in H1; set_solver|].
    apply list_elem_of_singleton in H1 as [= -> ->]. set_solver.
  - apply rtc_once. exists k, (Some data). split; [done|]. unfold data_of. rewrite Hst, fmap_insert. simpl.
    rewrite clean_filter by done. done.
Qed.

(** The service keeps the history honest and only makes allowed changes. *)
Lemma hserve_ok X (q : tableQ X) s : hist_ok s → justified X q s → hist_ok (hserve X q s).2 ∧ evolves s (hserve X q s).2.
Proof.
  intros Hs. unfold hserve. destruct s as [st h]. destruct q as [pk rk|pk rk|pk rk data [g|]|pk rk]; simpl.
  - by intros _.
  - by intros _.
  - intros (Hc & k & d & Hin & Ha). destruct (entity_of_keys pk rk data Hc) as [Hpk Hrk].
    pose proof (update_law (entity_of pk rk data) pk rk g st Hpk Hrk) as Hl. case_decide as Hd.
    + destruct Hl as (g' & st' & -> & Hg & Hst & Hi). destruct (stored st !! (pk, rk)) as [[p g0]|] eqn:Hk; [|done].
      simpl in Hd. injection Hd as ->. destruct (hist_stored _ Hs _ _ _ Hk) as (d0 & -> & Hc0 & Hin0).
      pose proof (hist_unique _ Hs _ _ _ Hin Hin0) as [= -> ->].
      apply (write_hist_ok (st, h) st' (pk, rk)); [done..|]. rewrite data_of_lookup by done. cbn [fst snd] in *. rewrite Hk.
      rewrite to_record_entity by done. by apply Ha.
    + destruct Hl as (sc & m & -> & _). simpl. by split.
  - intros [Hc Ha]. destruct (entity_of_keys pk rk data Hc) as [Hpk Hrk].
    pose proof (create_law (entity_of pk rk data) pk rk st Hpk Hrk) as Hl. destruct (stored st !! (pk, rk)) as [pg|] eqn:Hk.
    + destruct Hl as (m & ->). simpl. by split.
    + destruct Hl as (g & st' & -> & Hg & Hst & Hi).
      apply (write_hist_ok (st, h) st' (pk, rk)); [done..|]. rewrite data_of_lookup by done. simpl. by rewrite Hk.
  - intros Ha. destruct (delete_law pk rk st) as [Hst Hi]. split; [split; simpl|split; simpl; [done|]].
    + intros k p g. rewrite Hst. intros [_ Hk]%lookup_delete_Some. by apply (hist_stored _ Hs).
    + apply (hist_unique _ Hs).
    + intros g v. rewrite Hi. apply (hist_issued _ Hs).
    + replace (data_of (tc_delete_entity pk rk st)) with (delete (pk, rk) (data_of st)) by (unfold data_of; by rewrite Hst, fmap_delete).
      destruct (data_of st !! (pk, rk)) as [d|] eqn:Hk.
      * apply rtc_once. exists (pk, rk), None. split; [|done]. rewrite Hk. apply Ha.
      * by rewrite delete_id.
Qed.

(** ** What the answers tell *)

Definition known (rec : _TableEntityRecord) (s : hstate) : Prop :=
  (re_etag rec, ((re_partition_key rec, re_row_key rec), re_data rec)) ∈ s.2.

Lemma stored_known s k p g :
  hist_ok s → stored s.1 !! k = Some (p, g) →
  let rec := _to_record (mkEntity p g) in re_partition_key rec = k.1 ∧ re_row_key rec = k.2 ∧ known rec s.
Proof.
  intros Hs (d & -> & Hc & Hin)%(hist_stored s Hs). rewrite to_record_entity by done. unfold known. simpl. by destruct k.
Qed.

Lemma get_entity_known pk rk s o :
  hist_ok s → (hserve _ (get_entity pk rk) s).1 = Ok o →
  match o with Some rec => re_partition_key rec = pk ∧ re_row_key rec = rk ∧ known rec s | None => True end.
Proof.
  intros Hs. unfold hserve. simpl. unfold real_get_entity. pose proof (get_entity_law pk rk s.1) as Hl.
  destruct (stored s.1 !! (pk, rk)) as [[p g]|] eqn:Hk.
  - rewrite Hl. intros [= <-]. by apply (stored_known s (pk, rk)).
  - destruct Hl as [m ->]. simpl. by intros [= <-].
Qed.

Lemma query_row_known rk s l :
  hist_ok s → (hserve _ (query None (Some rk)) s).1 = Ok l → Forall (λ rec, re_row_key rec = rk ∧ known rec s) l.
Proof.
  intros Hs. unfold hserve. simpl. intros [= <-]. apply Forall_forall. intros rec Hin.
  apply list_elem_of_fmap in Hin as ([p g] & -> & Hin). apply query_row_law in Hin as (k & Hk & <-).
  destruct (stored_known s k p g Hs Hk) as (_ & H1 & H2). by split.
Qed.

Lemma upsert_known pk rk data etag s g :
  (hserve _ (upsert_entity pk rk data etag) s).1 = Ok g → known (mkRec pk rk data g) (hserve _ (upsert_entity pk rk data etag) s).2.
Proof.
  unfold hserve, known. simpl. destruct (real_upsert_entity pk rk data etag s.1) as [[g'|x] st']; simpl; [|done].
  intros [= ->]. set_solver.
Qed.

(** A write that is answered is what the table then holds. *)
Lemma upsert_stored pk rk data etag s g :
  clean data → (hserve _ (upsert_entity pk rk data etag) s).1 = Ok g →
  data_of (hserve _ (upsert_entity pk rk data etag) s).2.1 !! (pk, rk) = Some data.
Proof.
  intros Hc. destruct (entity_of_keys pk rk data Hc) as [Hpk Hrk]. unfold hserve. simpl. unfold real_upsert_entity.
  assert (Hput : ∀ st g', stored st = <[(pk, rk) := (entity_of pk rk data, g')]> (stored s.1) → data_of st !! (pk, rk) = Some data).
  { intros st g' Hst. unfold data_of. rewrite lookup_fmap, Hst, lookup_insert_eq. simpl. by rewrite clean_filter. }
  destruct etag as [e|].
  - pose proof (update_law (entity_of pk rk data) pk rk e s.1 Hpk Hrk) as Hl. case_decide.
    + destruct Hl as (g' & st' & -> & _ & Hst & _). intros _. by eapply Hput.
    + by destruct Hl as (? & ? & -> & _).
  - pose proof (create_law (entity_of pk rk data) pk rk s.1 Hpk Hrk) as Hl. destruct (stored s.1 !! (pk, rk)).
    + by destruct Hl as (? & ->).
    + destruct Hl as (g' & st' & -> & _ & Hst & _). intros _. by eapply Hput.
Qed.

Lemma known_later rec s s' : evolves s s' → known rec s → known rec s'.
Proof. intros [Hsub _]. apply Hsub. Qed.
End cas.

(** ** The stores' calls

    Both stores retry with the same loop and differ in the errors they raise at its end. *)

Notation tprog A := (prog (netE tableQ) A).

Section calls.
Context {tenacity : Tenacity} (settings : RetrySettings) (is_retryable : exn → bool) (final_error : exn → exn).

Context {client : TableClient} (stored : tc_state → gmap (string * string) (props * string)) (issued : tc_state → gset string).
Context {laws : TableLaws stored issued} (fates : nat → fate) (utc : nat → Z).
Context (allowed : string * string → option props → option props → Prop).

Notation J := (hist_ok stored issued).
Notation R := (evolves stored allowed).
Notation OK := (justified allowed).
Notation tsafe := (nsafe hserve fates utc J R OK).

#[local] Instance R_preorder : PreOrder R := evolves_preorder stored allowed.

Lemma with_retry_safe {X} (Φ : X → _ → Prop) (q : tableQ X) w :
  NI J OK w → stable R Φ → (∀ s, R (nw_state w) s → J s → OK X q s) →
  (∀ s a, R (nw_state w) s → J s → (hserve X q s).1 = Ok a → Φ a (hserve X q s).2) →
  tsafe Φ (with_retry settings is_retryable final_error q) w.
Proof.
  apply nsafe_with_retry; [apply _|apply (justified_later stored issued)|intros ???; by apply hserve_ok].
Qed.

(** Reading by row key, and by both keys. *)
Lemma query_safe n w :
  NI J OK w → tsafe (λ l s, Forall (λ rec, re_row_key rec = n ∧ known rec s) l) (with_retry settings is_retryable final_error (query None (Some n))) w.
Proof.
  intros Hw. apply with_retry_safe; [done| |done|].
  - intros l s s' Hs Hl. eapply Forall_impl; [exact Hl|]. intros rec [Hn Hk]. split; [done|]. by eapply known_later.
  - intros [st h] l _ Hs Hl. by apply (query_row_known stored issued n (st, h)).
Qed.

Lemma get_entity_safe pk n w :
  NI J OK w → tsafe (λ o s, match o with Some rec => re_row_key rec = n ∧ re_partition_key rec = pk ∧ known rec s | None => True end)
    (with_retry settings is_retryable final_error (get_entity pk n)) w.
Proof.
  intros Hw. apply with_retry_safe; [done| |done|].
  - intros [rec|] s s' Hs; [|done]. intros (? & ? & Hk). split_and!; [done..|]. by eapply known_later.
  - intros [st h] o _ Hs Ho. pose proof (get_entity_known stored issued pk n (st, h) o Hs Ho) as H. destruct o as [rec|]; [|done]. naive_solver.
Qed.

Lemma const_stable {A} (P : A → Prop) : stable R (λ a _, P a).
Proof. by intros a s s' _. Qed.

Lemma known_stable (P : _TableEntityRecord → Prop) : stable R (λ rec s, P rec ∧ known rec s).
Proof. intros rec s s' Hs [HP Hk]. split; [done|]. by eapply known_later. Qed.

Lemma utcnow_safe {A} (f : Z → A) (P : A → Prop) w : NI J OK w → (∀ now, P (f now)) → tsafe (λ u _, P u) (now ← perform Utcnow; Ret (f now)) w.
Proof.
  intros Hw HP. eapply nsafe_bind; [apply _|done|apply nsafe_utcnow; apply _|]. intros now w' _ _ _.
  by apply nsafe_ret; [apply const_stable|].
Qed.

(** The network executing delayed requests. *)
Lemma network_safe ds w : NI J OK w → tsafe (λ _ _, True) (pfold (λ _ i, perform (Deliver i)) tt ds) w.
Proof.
  apply nsafe_network; [apply _|apply (justified_later stored issued)|intros ???; by apply hserve_ok].
Qed.

(** From single calls to a pool of workers. *)
Lemma pool_safe {C A} (serve_call : C → tprog A) (post : C → A → _ → Prop) calls st h pool w' :
  hist_ok stored issued (st, h) →
  (∀ c w, c ∈ calls → NI J OK w → tsafe (post c) (serve_call c) w) →
  rtc (sched_step (nhandle hserve fates utc)) (map serve_call calls, mkNW (st, h) [] 0 0) (pool, w') →
  rtc (tstep allowed) (data_of stored st) (data_of stored (nw_state w').1) ∧
  ∀ i c a, calls !! i = Some c → pool !! i = Some (Ret a) → post c a (nw_state w').
Proof.
  intros Hh Hcalls Hsteps. destruct (nsafe_pool hserve fates utc J R OK serve_call post calls (st, h) pool w' Hh Hcalls Hsteps) as (_ & HR & Hpost).
  split; [apply HR|exact Hpost].
Qed.
End calls.
