(* ===== verification/MemoryTable.v ===== *)
(** * A table service in memory

    An implementation of [TableClient] that keeps [TableLaws], for the examples of the
    table-backed stores. Entities whose keys or ETag are not in order are not shown. *)
From stdpp Require Import countable.
From S2P Require Import Prelude PyDict Types Prog Net Tables.
#[local] Open Scope Z_scope.

Module MemoryTable.

Record memory := mkMemory { me_entities : gmap (string * string) (props * string); me_issued : gset string }.

Definition in_order (issued : gset string) (x : (string * string) * (props * string)) : Prop :=
  dict_get "PartitionKey" x.2.1 = Some (TStr x.1.1) ∧ dict_get "RowKey" x.2.1 = Some (TStr x.1.2) ∧ x.2.2 ∈ issued.

#[export] Instance in_order_dec issued x : Decision (in_order issued x).
Proof. unfold in_order. apply _. Defined.

Definition stored (m : memory) : gmap (string * string) (props * string) := filter (in_order (me_issued m)) (me_entities m).

Definition new_etag (m : memory) : string :=
  fresh (me_issued m ∪ list_to_set (map (λ x, x.2.2) (map_to_list (me_entities m)))).

Definition put (k : string * string) (p : props) (m : memory) : result exn string * memory :=
  (Ok (new_etag m), mkMemory (<[k := (p, new_etag m)]> (me_entities m)) ({[new_etag m]} ∪ me_issued m)).

Definition entity_key (p : props) : option (string * string) :=
  match dict_get "PartitionKey" p, dict_get "RowKey" p with
  | Some (TStr pk), Some (TStr rk) => Some (pk, rk)
  | _, _ => None
  end.

Definition http {A} (status : Z) (message : string) (m : memory) : result exn A * memory :=
  (Exc (HttpResponseError (Some status) None message), m).

Definition all_entities (m : memory) : list TableEntity := map (λ x, mkEntity x.2.1 x.2.2) (map_to_list (stored m)).

(** The three filters the backend sends. *)
Definition selects (filter_text : string) (parameters : list (string * string)) (k : string * string) : bool :=
  let partition := bool_decide (dict_get "pk" parameters = Some k.1) in
  let row := bool_decide (dict_get "rk" parameters = Some k.2) in
  if decide (filter_text = "PartitionKey eq @pk") then partition
  else if decide (filter_text = "RowKey eq @rk") then row
  else if decide (filter_text = "PartitionKey eq @pk and RowKey eq @rk") then partition && row
  else false.

Definition select (filter_text : string) (parameters : list (string * string)) (m : memory) : list TableEntity :=
  map (λ x, mkEntity x.2.1 x.2.2) (List.filter (λ x, selects filter_text parameters x.1) (map_to_list (stored m))).

#[export] Instance memory_client : TableClient := {|
  tc_state := memory;
  tc_get_entity pk rk m :=
    match stored m !! (pk, rk) with
    | Some (p, g) => Ok (mkEntity p g)
    | None => Exc (HttpResponseError (Some 404) None "ResourceNotFound")
    end;
  tc_list_entities := all_entities;
  tc_query_entities := select;
  tc_create_entity p m :=
    match entity_key p with
    | None => http 400 "PropertiesNeedValue" m
    | Some k => if stored m !! k then http 409 "EntityAlreadyExists" m else put k p m
    end;
  tc_update_entity p g m :=
    match entity_key p with
    | None => http 400 "PropertiesNeedValue" m
    | Some k =>
      match stored m !! k with
      | None => http 404 "ResourceNotFound" m
      | Some (_, g') => if decide (g' = g) then put k p m else http 412 "UpdateConditionNotSatisfied" m
      end
    end;
  tc_delete_entity pk rk m := mkMemory (delete (pk, rk) (me_entities m)) (me_issued m);
|}.

Lemma stored_lookup m k p g : stored m !! k = Some (p, g) ↔ me_entities m !! k = Some (p, g) ∧ in_order (me_issued m) (k, (p, g)).
Proof. unfold stored. apply map_lookup_filter_Some. Qed.

Lemma new_etag_fresh m : new_etag m ∉ me_issued m ∧ ∀ k p, me_entities m !! k ≠ Some (p, new_etag m).
Proof.
  unfold new_etag. set (X := me_issued m ∪ _). pose proof (is_fresh X) as Hf. split; [set_solver|].
  intros k p Hk. apply Hf. unfold X. apply elem_of_union_r, elem_of_list_to_set, list_elem_of_fmap.
  exists (k, (p, fresh X)). split; [done|]. by apply elem_of_map_to_list.
Qed.

Lemma put_stored k p m :
  entity_key p = Some k →
  stored (put k p m).2 = <[k := (p, new_etag m)]> (stored m) ∧ new_etag m ∉ me_issued m.
Proof.
  intros Hk. destruct (new_etag_fresh m) as [Hf Hne]. split; [|done]. simpl. apply map_eq. intros k'.
  apply option_eq. intros [p' g']. rewrite stored_lookup. cbn [me_entities me_issued]. destruct (decide (k' = k)) as [->|Hkk].
  - rewrite !lookup_insert_eq. split; [naive_solver|]. intros [= <- <-]. split; [done|]. unfold entity_key in Hk.
    destruct (dict_get "PartitionKey" p) as [[pk| |]|] eqn:Hpk, (dict_get "RowKey" p) as [[rk| |]|] eqn:Hrk; try done. injection Hk as <-.
    split_and!; simpl; [done..|set_solver].
  - rewrite !lookup_insert_ne by done. rewrite stored_lookup. unfold in_order. simpl. split; [|set_solver].
    intros (He & H1 & H2 & H3). split_and!; [done..|]. apply elem_of_union in H3 as [H3|H3]; [|done].
    apply elem_of_singleton in H3 as ->. by apply Hne in He.
Qed.

Lemma elem_of_entities f m e :
  e ∈ map (λ x, mkEntity x.2.1 x.2.2) (List.filter (λ x : (string * string) * (props * string), f x.1) (map_to_list (stored m))) ↔
  ∃ k, stored m !! k = Some (te_props e, te_etag e) ∧ f k = true.
Proof.
  rewrite list_elem_of_fmap. split.
  - intros ([k [p g]] & -> & Hin). apply list_elem_of_In, filter_In in Hin as [Hin Hf]. apply list_elem_of_In, elem_of_map_to_list in Hin.
    by exists k.
  - intros (k & Hk & Hf). exists (k, (te_props e, te_etag e)). split; [by destruct e|].
    apply list_elem_of_In, filter_In. split; [|done]. by apply list_elem_of_In, elem_of_map_to_list.
Qed.

Lemma entity_key_of p pk rk : dict_get "PartitionKey" p = Some (TStr pk) → dict_get "RowKey" p = Some (TStr rk) → entity_key p = Some (pk, rk).
Proof. intros H1 H2. unfold entity_key. by rewrite H1, H2. Qed.

#[export] Instance memory_laws : TableLaws stored me_issued.
Proof.
  split.
  - intros m k p g [_ H]%stored_lookup. exact H.
  - intros pk rk m. simpl. destruct (stored m !! (pk, rk)) as [[p g]|]; eauto.
  - intros m e. simpl. unfold all_entities. pose proof (elem_of_entities (λ _, true) m e) as H.
    assert (∀ l : list ((string * string) * (props * string)), List.filter (λ _, true) l = l) as Hl by (intros l; induction l; simpl; congruence).
    rewrite Hl in H. rewrite H. naive_solver.
  - intros p m e. simpl. unfold select. rewrite elem_of_entities. apply exist_proper. intros k. unfold selects.
    rewrite decide_True by done. simpl. rewrite bool_decide_eq_true. naive_solver.
  - intros r m e. simpl. unfold select. rewrite elem_of_entities. apply exist_proper. intros k. unfold selects.
    rewrite decide_False, decide_True by done. simpl. rewrite bool_decide_eq_true. naive_solver.
  - intros p r m e. simpl. unfold select. rewrite elem_of_entities. apply exist_proper. intros k. unfold selects.
    rewrite !decide_False, decide_True by done. simpl. rewrite andb_true_iff, !bool_decide_eq_true. naive_solver.
  - intros p pk rk m H1 H2. simpl. rewrite (entity_key_of p pk rk) by done. destruct (stored m !! (pk, rk)) as [v|] eqn:Hs; [eauto|].
    destruct (put_stored (pk, rk) p m) as [Hp Hf]; [by apply entity_key_of|]. eexists _, _. split; [reflexivity|]. done.
  - intros p pk rk g m H1 H2. cbn [tc_update_entity memory_client]. rewrite (entity_key_of p pk rk) by done.
    destruct (put_stored (pk, rk) p m) as [Hp Hf]; [by apply entity_key_of|].
    case_decide as Hd; destruct (stored m !! (pk, rk)) as [[p' g']|] eqn:Hs; simplify_eq/=.
    + rewrite decide_True by done. eexists _, _. by split; [reflexivity|].
    + rewrite decide_False by congruence. eexists _, _. split; [reflexivity|auto].
    + eexists _, _. split; [reflexivity|auto].
  - intros pk rk m. simpl. split; [|done]. apply map_eq. intros k. apply option_eq. intros [p g]. rewrite stored_lookup. simpl.
    rewrite !lookup_delete_Some, stored_lookup. naive_solver.
Qed.

Definition empty_memory : memory := mkMemory ∅ ∅.

Lemma empty_hist_ok : hist_ok stored me_issued (empty_memory, []).
Proof.
  split; simpl.
  - intros k p g [H _]%stored_lookup. done.
  - set_solver.
  - set_solver.
Qed.
(** ** Any countable value as a string, for examples of the codecs' parameters *)

Fixpoint bits (p : positive) : string :=
  match p with xH => "" | xO p => String "0" (bits p) | xI p => String "1" (bits p) end.

Fixpoint of_bits (s : string) : option positive :=
  match s with
  | "" => Some xH
  | String c s' => p ← of_bits s'; if decide (c = "0"%char) then Some (xO p) else if decide (c = "1"%char) then Some (xI p) else None
  end.

Lemma of_bits_bits p : of_bits (bits p) = Some p.
Proof. induction p as [p IH|p IH|]; simpl; [by rewrite IH..|done]. Qed.

Definition dump {A} `{Countable A} (a : A) : string := bits (encode a).
Definition undump {A} `{Countable A} (s : string) : option A := p ← of_bits s; decode p.

Lemma undump_dump {A} `{Countable A} (a : A) : undump (dump a) = Some a.
Proof. unfold undump, dump. rewrite of_bits_bits. simpl. apply decode_encode. Qed.
End MemoryTable.
