(* ===== verification/TableRegistry.v ===== *)
(** * The table-backed index registry (src/vestibule/provisioning/stores/table_storage_registry.py,
      src/vestibule/provisioning/stores/_entity_codec.py)

    Entries as flat entities, and the registry's operations as programs over the table service:
    a read, a check, and a write conditional on the ETag that was read, each call with timeouts
    and retries. *)
From stdpp Require Import countable.
From S2P Require Import Prelude PyDict Types Prog Rely Registry Templates Net Tables MemoryTable.
#[local] Open Scope Z_scope.

Module TableRegistry.
Import Registry Templates.

(** ** The codec (_entity_codec.py) *)

(** [datetime.isoformat]/[fromisoformat] and pydantic's JSON of an [IndexTemplate]; [None] is a
    [ValueError] or a [ValidationError]. *)
Class EntryCodec := {
  isoformat : Z → string;
  fromisoformat : string → option Z;
  template_dump_json : IndexTemplate → string;
  template_validate_json : string → option IndexTemplate;
  (** [f"corrupt table entity: {exc}"] for the exception the data leads to. *)
  corrupt_message : props → string;
}.

Class EntryCodecLaws (codec : EntryCodec) : Prop := {
  isoformat_roundtrip t : fromisoformat (isoformat t) = Some t;
  template_roundtrip t : template_validate_json (template_dump_json t) = Some t;
}.

Definition status_value (s : EntryStatus) : string :=
  match s with provisioning => "provisioning" | ready => "ready" | failed => "failed" | retired => "retired" end.

Definition parse_status (s : string) : option EntryStatus :=
  if decide (s = "provisioning") then Some provisioning else if decide (s = "ready") then Some ready
  else if decide (s = "failed") then Some failed else if decide (s = "retired") then Some retired else None.

Definition _set_optional (data : props) (k : string) (v : option tval) : props :=
  match v with Some v => dict_set k v data | None => data end.

Section codec.
Context {codec : EntryCodec}.

Definition entry_to_entity_data (e : IndexRegistryEntry) : props :=
  let data :=
    [("index_name", TStr (en_index_name e)); ("vertical", TStr (en_vertical e)); ("scenario_id", TStr (en_scenario_id e));
     ("template_id", TStr (en_template_id e)); ("template_version", TStr (en_template_version e));
     ("dimensions", TInt (en_dimensions e)); ("metric", TStr (en_metric e)); ("embedding_model", TStr (en_embedding_model e));
     ("status", TStr (status_value (en_status e))); ("created_at", TStr (isoformat (en_created_at e)))] in
  let data := _set_optional data "last_verified_at" ((λ t, TStr (isoformat t)) <$> en_last_verified_at e) in
  let data := _set_optional data "document_count" (TInt <$> en_document_count e) in
  let data := _set_optional data "claim_token" (TStr <$> en_claim_token e) in
  let data := _set_optional data "claimed_at" ((λ t, TStr (isoformat t)) <$> en_claimed_at e) in
  let data := _set_optional data "last_error_message" (TStr <$> en_last_error_message e) in
  _set_optional data "resolved_template_json" ((λ t, TStr (template_dump_json t)) <$> en_resolved_template e).

(** A required string property: absent is a [KeyError], another type a [ValidationError]. *)
Definition str_prop (k : string) (data : props) : option string :=
  match dict_get k data with Some (TStr s) => Some s | _ => None end.

(** An optional one: [Some None] when absent. *)
Definition opt_str_prop (k : string) (data : props) : option (option string) :=
  match dict_get k data with Some (TStr s) => Some (Some s) | Some _ => None | None => Some None end.

(** [int(v)]. *)
Definition tval_int (v : tval) : option Z :=
  match v with TInt z => Some z | TStr s => py_int s | TBool b => Some (Z.b2z b) end.

Definition _parse_datetime (v : tval) : option Z := fromisoformat (tval_str v).

(** [parse(v) if v is not None else None]. *)
Definition parse_optional {A} (parse : tval → option A) (o : option tval) : option (option A) :=
  match o with Some v => Some <$> parse v | None => Some None end.

Definition _parse_optional_datetime : option tval → option (option Z) := parse_optional _parse_datetime.
Definition _parse_optional_int : option tval → option (option Z) := parse_optional tval_int.
Definition _parse_optional_template : option tval → option (option IndexTemplate) := parse_optional (λ v, template_validate_json (tval_str v)).

Definition entity_to_entry (record : _TableEntityRecord) : result exn IndexRegistryEntry :=
  let data := re_data record in
  let decoded :=
    index_name ← str_prop "index_name" data;
    vertical ← str_prop "vertical" data;
    scenario_id ← str_prop "scenario_id" data;
    template_id ← str_prop "template_id" data;
    template_version ← str_prop "template_version" data;
    dimensions ← dict_get "dimensions" data ≫= tval_int;
    metric ← str_prop "metric" data;
    embedding_model ← str_prop "embedding_model" data;
    status ← str_prop "status" data ≫= parse_status;
    created_at ← dict_get "created_at" data ≫= _parse_datetime;
    last_verified_at ← _parse_optional_datetime (dict_get "last_verified_at" data);
    document_count ← _parse_optional_int (dict_get "document_count" data);
    claim_token ← opt_str_prop "claim_token" data;
    claimed_at ← _parse_optional_datetime (dict_get "claimed_at" data);
    last_error_message ← opt_str_prop "last_error_message" data;
    resolved_template ← _parse_optional_template (dict_get "resolved_template_json" data);
    Some (mkEntry index_name vertical scenario_id template_id template_version dimensions metric embedding_model status created_at
            last_verified_at document_count claim_token claimed_at last_error_message resolved_template) in
  match decoded with
  | Some e => Ok e
  | None => Exc (ProvisioningError (prop_str "index_name" data) (corrupt_message data) INDEX_REGISTRY_UNAVAILABLE)
  end.

Lemma set_optional_get k v data : dict_get k (_set_optional data k v) = match v with Some v => Some v | None => dict_get k data end.
Proof. unfold _set_optional. destruct v; [by rewrite dict_get_set_eq|done]. Qed.

Lemma set_optional_get_ne k k' v data : k' ≠ k → dict_get k' (_set_optional data k v) = dict_get k' data.
Proof. intros Hk. unfold _set_optional. destruct v; [by rewrite dict_get_set_ne|done]. Qed.

(** Looks a literal key up in the data of an entry. *)
Ltac lookup_data :=
  unfold entry_to_entity_data; cbv zeta;
  repeat rewrite set_optional_get_ne by discriminate; rewrite ?set_optional_get; repeat rewrite set_optional_get_ne by discriminate.

(** The ten required properties of an encoded entry, and the six optional ones. *)
Lemma required_props e :
  dict_get "index_name" (entry_to_entity_data e) = Some (TStr (en_index_name e)) ∧
  dict_get "vertical" (entry_to_entity_data e) = Some (TStr (en_vertical e)) ∧
  dict_get "scenario_id" (entry_to_entity_data e) = Some (TStr (en_scenario_id e)) ∧
  dict_get "template_id" (entry_to_entity_data e) = Some (TStr (en_template_id e)) ∧
  dict_get "template_version" (entry_to_entity_data e) = Some (TStr (en_template_version e)) ∧
  dict_get "dimensions" (entry_to_entity_data e) = Some (TInt (en_dimensions e)) ∧
  dict_get "metric" (entry_to_entity_data e) = Some (TStr (en_metric e)) ∧
  dict_get "embedding_model" (entry_to_entity_data e) = Some (TStr (en_embedding_model e)) ∧
  dict_get "status" (entry_to_entity_data e) = Some (TStr (status_value (en_status e))) ∧
  dict_get "created_at" (entry_to_entity_data e) = Some (TStr (isoformat (en_created_at e))).
Proof. split_and!; lookup_data; reflexivity. Qed.

Lemma optional_props e :
  dict_get "last_verified_at" (entry_to_entity_data e) = ((λ t, TStr (isoformat t)) <$> en_last_verified_at e) ∧
  dict_get "document_count" (entry_to_entity_data e) = (TInt <$> en_document_count e) ∧
  dict_get "claim_token" (entry_to_entity_data e) = (TStr <$> en_claim_token e) ∧
  dict_get "claimed_at" (entry_to_entity_data e) = ((λ t, TStr (isoformat t)) <$> en_claimed_at e) ∧
  dict_get "last_error_message" (entry_to_entity_data e) = (TStr <$> en_last_error_message e) ∧
  dict_get "resolved_template_json" (entry_to_entity_data e) = ((λ t, TStr (template_dump_json t)) <$> en_resolved_template e).
Proof.
  split_and!; lookup_data;
    [destruct (en_last_verified_at e)|destruct (en_document_count e)|destruct (en_claim_token e)|destruct (en_claimed_at e)
    |destruct (en_last_error_message e)|destruct (en_resolved_template e)]; reflexivity.
Qed.

Lemma parse_optional_fmap {A} (f : A → tval) (parse : tval → option A) o :
  (∀ a, parse (f a) = Some a) → parse_optional parse (f <$> o) = Some o.
Proof. intros H. destruct o as [a|]; simpl; [by rewrite H|done]. Qed.

Lemma entry_roundtrip {laws : EntryCodecLaws codec} e pk rk g :
  entity_to_entry (mkRec pk rk (entry_to_entity_data e) g) = Ok e.
Proof.
  unfold entity_to_entry. cbn [re_data].
  destruct (required_props e) as (H1 & H2 & H3 & H4 & H5 & H6 & H7 & H8 & H9 & H10).
  destruct (optional_props e) as (H11 & H12 & H13 & H14 & H15 & H16). revert H1 H2 H3 H4 H5 H6 H7 H8 H9 H10 H11 H12 H13 H14 H15 H16.
  generalize (entry_to_entity_data e). intros data H1 H2 H3 H4 H5 H6 H7 H8 H9 H10 H11 H12 H13 H14 H15 H16.
  unfold str_prop, opt_str_prop, _parse_optional_datetime, _parse_optional_int, _parse_optional_template, _parse_datetime.
  rewrite H1, H2, H3, H4, H5, H6, H7, H8, H9, H10, H11, H12, H13, H14, H15, H16. cbn [mbind option_bind tval_int tval_str].
  assert (parse_status (status_value (en_status e)) = Some (en_status e)) as -> by by destruct (en_status e).
  rewrite isoformat_roundtrip. cbn [mbind option_bind].
  rewrite !(parse_optional_fmap (λ t, TStr (isoformat t))) by (intros; apply isoformat_roundtrip).
  rewrite (parse_optional_fmap TInt) by done.
  rewrite (parse_optional_fmap (λ t, TStr (template_dump_json t))) by (intros; apply template_roundtrip).
  destruct e as [n v s ti tv d m em st ca lv dc ct cl le rt]. by destruct ct, le.
Qed.

Lemma set_optional_clean k v data : k ∉ reserved → clean data → clean (_set_optional data k v).
Proof. intros. destruct v; [by apply set_clean|done]. Qed.

Lemma entry_data_clean e : clean (entry_to_entity_data e).
Proof.
  unfold entry_to_entity_data. cbv zeta. do 6 (apply set_optional_clean; [by eapply bool_decide_unpack|]).
  split; [by eapply bool_decide_unpack|]. repeat constructor; by eapply bool_decide_unpack.
Qed.
End codec.

#[local] Open Scope py_scope.

(** ** The registry (table_storage_registry.py) *)

Definition _CONFLICT_STATUS_CODES : list Z := [409; 412].
Definition _HTTP_TOO_MANY_REQUESTS : Z := 429.
Definition _HTTP_SERVER_ERROR_FLOOR : Z := 500.

Definition _is_retryable (x : exn) : bool :=
  if is_backend_timeout x then true else
  match x with
  | HttpResponseError None _ _ => false
  | HttpResponseError (Some code) _ _ =>
    if bool_decide (code ∈ _CONFLICT_STATUS_CODES) then false
    else bool_decide (code = _HTTP_TOO_MANY_REQUESTS) || bool_decide (_HTTP_SERVER_ERROR_FLOOR ≤ code)
  | _ => false
  end.

Definition _map_status (status_code : option Z) : string :=
  match status_code with
  | Some code => if bool_decide (code ∈ _CONFLICT_STATUS_CODES) then INDEX_PROVISION_CONFLICT else INDEX_REGISTRY_UNAVAILABLE
  | None => INDEX_REGISTRY_UNAVAILABLE
  end.

(** What [_with_retry] makes of the exception that ends the retries. *)
Definition retry_error (x : exn) : exn :=
  if is_backend_timeout x then ProvisioningError "" (exn_str x) INDEX_REGISTRY_UNAVAILABLE else
  match x with
  | HttpResponseError code _ _ => ProvisioningError "" (exn_str x) (_map_status code)
  | _ => x
  end.

Section registry.
Context {codec : EntryCodec} {tenacity : Tenacity} (settings : RetrySettings).

Definition _with_retry {X} (q : tableQ X) : tprog X := with_retry settings _is_retryable retry_error q.

Definition get (index_name : string) : tprog (option IndexRegistryEntry) :=
  matches ← _with_retry (query None (Some index_name));
  match matches with
  | [] => Ret None
  | m :: _ => e ← lift (entity_to_entry m); Ret (Some e)
  end.

Definition list_by_vertical (vertical : string) : tprog (list IndexRegistryEntry) :=
  matches ← _with_retry (query (Some vertical) None); lift (rmap entity_to_entry matches).

Definition is_conflict (x : exn) : bool :=
  match x with ProvisioningError _ _ c => bool_decide (c = INDEX_PROVISION_CONFLICT) | _ => false end.

Definition register (entry : IndexRegistryEntry) : tprog IndexRegistryEntry :=
  r ← attempt (_with_retry (upsert_entity (en_vertical entry) (en_index_name entry) (entry_to_entity_data entry) None));
  match r with
  | Ok _ => Ret entry
  | Exc x =>
    if is_conflict x then
      record ← _with_retry (get_entity (en_vertical entry) (en_index_name entry));
      match record with
      | None => Raise x
      | Some rec => lift (entity_to_entry rec)
      end
    else Raise x
  end.

Definition stale_snapshot (index_name : string) : exn :=
  ProvisioningError index_name "reclaim observed a stale snapshot; the stored entry has since changed" INDEX_PROVISION_CONFLICT.

Definition reclaim (index_name : string) (observed new_entry : IndexRegistryEntry) : tprog IndexRegistryEntry :=
  record ← _with_retry (get_entity (en_vertical observed) index_name);
  match record with
  | None => Raise (stale_snapshot index_name)
  | Some rec =>
    e ← lift (entity_to_entry rec);
    if decide (e ≠ observed) then Raise (stale_snapshot index_name) else
    _with_retry (upsert_entity (en_vertical new_entry) index_name (entry_to_entity_data new_entry) (Some (re_etag rec))) ;;
    Ret new_entry
  end.

Definition _require_record (index_name : string) : tprog _TableEntityRecord :=
  matches ← _with_retry (query None (Some index_name));
  match matches with
  | [] => Raise (ProvisioningError index_name "no registry entry exists for index_name" INDEX_PROVISION_CONFLICT)
  | m :: _ => Ret m
  end.

(** The four conditional updates: read, decode, check, store a copy under the ETag read. *)
Definition rewrite_entry (index_name : string) (check : IndexRegistryEntry → result exn unit)
    (updated : IndexRegistryEntry → tprog IndexRegistryEntry) : tprog IndexRegistryEntry :=
  record ← _require_record index_name;
  entry ← lift (entity_to_entry record);
  lift (check entry) ;;
  u ← updated entry;
  _with_retry (upsert_entity (en_vertical entry) index_name (entry_to_entity_data u) (Some (re_etag record))) ;;
  Ret u.

Definition touch_verified (index_name : string) : tprog IndexRegistryEntry :=
  rewrite_entry index_name (λ _, Ok tt) (λ entry, now ← perform Utcnow; Ret (touched now entry)).

Definition mark_ready (index_name : string) (expected_claim_token : option string) : tprog IndexRegistryEntry :=
  rewrite_entry index_name (λ entry, _check_claim_token entry expected_claim_token) (λ entry, now ← perform Utcnow; Ret (made_ready now entry)).

Definition mark_failed (index_name reason : string) (expected_claim_token : option string) : tprog IndexRegistryEntry :=
  rewrite_entry index_name (λ entry, _check_claim_token entry expected_claim_token) (λ entry, Ret (made_failed reason entry)).

Definition mark_retired (index_name : string) : tprog IndexRegistryEntry :=
  rewrite_entry index_name (λ _, Ok tt) (λ entry, Ret (made_retired entry)).

(** ** The calls of the workers, and what they may do to an entry *)

Inductive rcall :=
| CGet (index_name : string)
| CRegister (entry : IndexRegistryEntry)
| CReclaim (index_name : string) (observed new_entry : IndexRegistryEntry)
| CTouch (index_name : string)
| CReady (index_name : string) (expected_claim_token : option string)
| CFailed (index_name reason : string) (expected_claim_token : option string)
| CRetired (index_name : string)
(** The network executes delayed requests. *)
| CNetwork (deliveries : list nat).

Definition serve_call (c : rcall) : tprog (option IndexRegistryEntry) :=
  match c with
  | CGet n => get n
  | CRegister e => e' ← register e; Ret (Some e')
  | CReclaim n o e => e' ← reclaim n o e; Ret (Some e')
  | CTouch n => e' ← touch_verified n; Ret (Some e')
  | CReady n t => e' ← mark_ready n t; Ret (Some e')
  | CFailed n m t => e' ← mark_failed n m t; Ret (Some e')
  | CRetired n => e' ← mark_retired n; Ret (Some e')
  | CNetwork ds => pfold (λ _ i, perform (Deliver i)) tt ds ;; Ret None
  end.

(** One call's effect on the entry [n]: the in-memory registry's, in one step. *)
Definition call_step (c : rcall) (n : string) (e e' : IndexRegistryEntry) : Prop :=
  match c with
  | CReclaim n' o new => n = n' ∧ e = o ∧ e' = new
  | CTouch n' => n = n' ∧ ∃ now, e' = touched now e
  | CReady n' t => n = n' ∧ token_ok t e ∧ ∃ now, e' = made_ready now e
  | CFailed n' m t => n = n' ∧ token_ok t e ∧ e' = made_failed m e
  | CRetired n' => n = n' ∧ e' = made_retired e
  | _ => False
  end.

Context (calls : list rcall).

(** A change of one entity: a claim of a free key, or one call's step from the entry that is
    there. *)
Definition reg_allowed (k : string * string) (d d' : option props) : Prop :=
  match d, d' with
  | None, Some data => ∃ e, CRegister e ∈ calls ∧ k = (en_vertical e, en_index_name e) ∧ data = entry_to_entity_data e
  | Some data, Some data' => ∃ c e e', c ∈ calls ∧ call_step c k.2 e e' ∧
      (∀ pk rk g, entity_to_entry (mkRec pk rk data g) = Ok e) ∧ data' = entry_to_entity_data e'
  | _, None => False
  end.

(** ** Safety *)

Context {client : TableClient} (stored : tc_state → gmap (string * string) (props * string)) (issued : tc_state → gset string).
Context {laws : TableLaws stored issued} (fates : nat → fate) (utc : nat → Z).

Notation J := (hist_ok stored issued).
Notation R := (evolves stored reg_allowed).
Notation OK := (justified reg_allowed).
Notation rsafe := (nsafe hserve fates utc J R OK).
Notation NI' := (NI J OK).
Notation NR' := (NR R).

#[local] Instance R_preorder : PreOrder R := evolves_preorder stored reg_allowed.

Context {codec_laws : EntryCodecLaws codec}.

(** [e] has been the entry of [n] at some moment. *)
Definition held (n : string) (e : IndexRegistryEntry) (s : tc_state * list (string * ((string * string) * props))) : Prop :=
  ∃ rec, re_row_key rec = n ∧ known rec s ∧ entity_to_entry rec = Ok e.

Lemma held_stable n : stable R (held n).
Proof. intros e s s' Hs (rec & Hn & Hk & He). exists rec. split_and!; [done| |done]. by eapply known_later. Qed.

(** Storing an entry that the history justifies. *)
Lemma upsert_safe pk n e etag w :
  NI' w → (∀ s, R (nw_state w) s → J s → OK _ (upsert_entity pk n (entry_to_entity_data e) etag) s) →
  rsafe (λ _, held n e) (_with_retry (upsert_entity pk n (entry_to_entity_data e) etag)) w.
Proof.
  intros Hw Hok. apply with_retry_safe; [done|done|intros ????; by apply held_stable|done|].
  intros s g _ Hs Hg. exists (mkRec pk n (entry_to_entity_data e) g). split; [done|]. split; [|apply entry_roundtrip].
  by apply (upsert_known stored issued).
Qed.

Lemma get_safe n w : NI' w → rsafe (λ o s, ∀ e, o = Some e → held n e s) (get n) w.
Proof.
  intros Hw. unfold get. eapply nsafe_bind; [apply _|done|by apply query_safe|]. intros l w1 _ HI1 Hl.
  assert (Hst : stable R (λ (o : option IndexRegistryEntry) s, ∀ e, o = Some e → held n e s)).
  { intros o s s' Hs Ho e He. eapply held_stable; [done|]. by apply Ho. }
  destruct l as [|m l]; [by apply nsafe_ret|]. inversion Hl as [|? ? [Hn Hk] _]; subst.
  eapply (nsafe_bind _ _ _ _ _ _ (held (re_row_key m))); [done|apply nsafe_lift; [apply held_stable|]|].
  - intros e He. by exists m.
  - intros e w2 _ _ He. apply nsafe_ret; [done|]. by intros e' [= <-].
Qed.

Lemma register_safe e w : CRegister e ∈ calls → NI' w → rsafe (held (en_index_name e)) (register e) w.
Proof.
  intros Hc Hw. unfold register. eapply nsafe_bind; [apply _|done|apply nsafe_attempt; [apply _|apply upsert_safe; [done|]]|].
  - intros s _ _. split; [apply entry_data_clean|]. by exists e.
  - intros [g|x] w1 _ HI1 Ha; [by apply nsafe_ret; [apply held_stable|]|]. destruct (is_conflict x); [|apply nsafe_raise].
    eapply nsafe_bind; [apply _|done|by apply get_entity_safe|]. intros [rec|] w2 _ HI2 Hrec; [|apply nsafe_raise].
    destruct Hrec as (Hn & _ & Hk). apply nsafe_lift; [apply held_stable|]. intros e' He'. by exists rec.
Qed.

Lemma justified_update rec pk n c e e' s :
  known rec s → re_row_key rec = n → entity_to_entry rec = Ok e → c ∈ calls → call_step c n e e' →
  OK _ (upsert_entity pk n (entry_to_entity_data e') (Some (re_etag rec))) s.
Proof.
  intros Hk Hn He Hc Hstep. split; [apply entry_data_clean|]. exists (re_partition_key rec, re_row_key rec), (re_data rec).
  split; [done|]. intros _. exists c, e, e'. simpl. rewrite Hn. by split_and!.
Qed.

Lemma reclaim_safe n o e w : CReclaim n o e ∈ calls → NI' w → rsafe (held n) (reclaim n o e) w.
Proof.
  intros Hc Hw. unfold reclaim. eapply nsafe_bind; [apply _|done|by apply get_entity_safe|].
  intros [rec|] w1 _ HI1 Hrec; [|apply nsafe_raise]. destruct Hrec as (Hn & _ & Hk).
  eapply (nsafe_bind _ _ _ _ _ _ (λ x _, entity_to_entry rec = Ok x)); [done|apply nsafe_lift; [by apply const_stable|done]|].
  intros x w2 HR2 HI2 Hx. case_decide as Ho; [apply nsafe_raise|]. subst x.
  eapply (nsafe_bind _ _ _ _ _ _ (λ _, held n e)); [done|apply upsert_safe; [done|]|].
  - intros s Hs _. eapply justified_update; [|done|done|exact Hc|done]. eapply known_later; [exact Hs|]. by eapply known_later.
  - intros _ w3 _ _ He. by apply nsafe_ret; [apply held_stable|].
Qed.

Lemma rewrite_safe c n check updated w :
  c ∈ calls → (∀ e w, check e = Ok tt → NI' w → rsafe (λ u _, call_step c n e u) (updated e) w) → NI' w →
  rsafe (held n) (rewrite_entry n check updated) w.
Proof.
  intros Hc Hupd Hw. unfold rewrite_entry, _require_record.
  eapply (nsafe_bind _ _ _ _ _ _ (λ rec s, re_row_key rec = n ∧ known rec s)); [done| |].
  { eapply nsafe_bind; [apply _|done|by apply query_safe|]. intros [|m l] w1 _ HI1 Hl; [apply nsafe_raise|].
    apply nsafe_ret; [apply known_stable|]. by inversion Hl. }
  intros rec w1 _ HI1 [Hn Hk].
  eapply (nsafe_bind _ _ _ _ _ _ (λ x _, entity_to_entry rec = Ok x)); [done|apply nsafe_lift; [by apply const_stable|done]|].
  intros e w2 HR2 HI2 He.
  eapply (nsafe_bind _ _ _ _ _ _ (λ _ _, check e = Ok tt)); [done|apply nsafe_lift; [by apply const_stable|by intros []]|].
  intros [] w3 HR3 HI3 Hchk.
  eapply (nsafe_bind _ _ _ _ _ _ (λ u _, call_step c n e u)); [done|by apply Hupd|]. intros u w4 HR4 HI4 Hu.
  eapply (nsafe_bind _ _ _ _ _ _ (λ _, held n u)); [done|apply upsert_safe; [done|]|].
  - intros s Hs _. eapply justified_update; [|done|done|exact Hc|done].
    eapply known_later; [exact Hs|]. eapply known_later; [exact HR4|]. eapply known_later; [exact HR3|]. by eapply known_later.
  - intros _ w5 _ _ Hh. by apply nsafe_ret; [apply held_stable|].
Qed.

Definition call_name (c : rcall) : string :=
  match c with
  | CGet n | CReclaim n _ _ | CTouch n | CReady n _ | CFailed n _ _ | CRetired n => n
  | CRegister e => en_index_name e
  | CNetwork _ => ""
  end.

Lemma serve_call_safe c w : c ∈ calls → NI' w → rsafe (λ o s, ∀ e, o = Some e → held (call_name c) e s) (serve_call c) w.
Proof.
  intros Hc Hw.
  assert (Hst : stable R (λ (o : option IndexRegistryEntry) s, ∀ e, o = Some e → held (call_name c) e s)).
  { intros o s s' Hs Ho e He. eapply held_stable; [done|]. by apply Ho. }
  assert (Hsome : ∀ p, rsafe (held (call_name c)) p w → rsafe (λ o s, ∀ e, o = Some e → held (call_name c) e s) (e' ← p; Ret (Some e')) w).
  { intros p Hp. eapply nsafe_bind; [apply _|done|exact Hp|]. intros e w' _ _ He. apply nsafe_ret; [done|by intros ? [= <-]]. }
  destruct c as [n|e|n o e|n|n t|n m t|n|ds]; cbn [serve_call].
  - by apply get_safe.
  - apply Hsome. by apply register_safe.
  - apply Hsome. by apply reclaim_safe.
  - apply Hsome. eapply rewrite_safe; [exact Hc| |done]. intros e w' _ HI'. apply utcnow_safe; [done|]. intros now. simpl. eauto.
  - apply Hsome. eapply rewrite_safe; [exact Hc| |done]. intros e w' Hchk HI'. apply utcnow_safe; [done|]. intros now. simpl.
    pose proof (check_claim_token_ok e t) as Ht. rewrite Hchk in Ht. eauto.
  - apply Hsome. eapply rewrite_safe; [exact Hc| |done]. intros e w' Hchk HI'. apply nsafe_ret; [by apply const_stable|]. simpl.
    pose proof (check_claim_token_ok e t) as Ht. rewrite Hchk in Ht. done.
  - apply Hsome. eapply rewrite_safe; [exact Hc| |done]. intros e w' _ HI'. by apply nsafe_ret; [apply const_stable|].
  - eapply nsafe_bind; [apply _|done|by apply network_safe|]. intros _ w' _ _ _. by apply nsafe_ret; [done|].
Qed.
End registry.

(** ** Properties *)

(** An entry survives the trip through a table entity: what is read back from the stored
    properties is the entry that was stored, optional fields and the resolved template
    included, and the stored properties have distinct names that the backend does not strip. *)
Theorem entry_codec_roundtrip {codec : EntryCodec} (laws : EntryCodecLaws codec) e pk rk g :
  entity_to_entry (_to_record (mkEntity (entity_of pk rk (entry_to_entity_data e)) g)) = Ok e ∧ clean (entry_to_entity_data e).
Proof. rewrite to_record_entity by apply entry_data_clean. split; [by apply entry_roundtrip|apply entry_data_clean]. Qed.

(** C6: no lost updates. Under any interleaving of any number of registry calls, any timeouts,
    lost answers, service errors and retries, and with timed-out requests executed at any later
    moment or never, the table only ever changes by a [register] of a free key or by one call's
    step from the entry that is there at that moment: never from an older one it read before.
    And every entry a call returned has been the stored entry of its index. *)
Theorem table_registry_no_lost_update {codec : EntryCodec} {tenacity : Tenacity} settings calls {client : TableClient} stored issued
    (laws : TableLaws stored issued) (codec_laws : EntryCodecLaws codec) fates utc st h pool w' :
  hist_ok stored issued (st, h) →
  rtc (sched_step (nhandle hserve fates utc)) (map (serve_call settings) calls, mkNW (st, h) [] 0 0) (pool, w') →
  rtc (tstep (reg_allowed calls)) (data_of stored st) (data_of stored (nw_state w').1) ∧
  ∀ i c e, calls !! i = Some c → pool !! i = Some (Ret (Some e)) → held (call_name c) e (nw_state w').
Proof.
  intros Hh Hsteps.
  destruct (pool_safe stored issued fates utc (reg_allowed calls) (serve_call settings)
    (λ c o s, ∀ e, o = Some e → held (call_name c) e s) calls st h pool w' Hh) as [H1 H2]; [|exact Hsteps|].
  - intros c w Hc Hw. by apply serve_call_safe.
  - split; [done|]. intros i c e Hi Hp. exact (H2 i c _ Hi Hp e eq_refl).
Qed.

(** ** Examples *)

#[export] Instance field_type_countable : Countable FieldType.
Proof.
  refine (inj_countable' (λ t, match t with key => 0%nat | text => 1%nat | vector => 2%nat | filterable_string => 3%nat
    | filterable_string_collection => 4%nat | filterable_datetime => 5%nat | retrievable_only => 6%nat end)
    (λ n, match n with 0%nat => key | 1%nat => text | 2%nat => vector | 3%nat => filterable_string
    | 4%nat => filterable_string_collection | 5%nat => filterable_datetime | _ => retrievable_only end) _). by intros [].
Defined.

#[export] Instance field_spec_countable : Countable FieldSpec.
Proof. refine (inj_countable' (λ f, (fs_name f, fs_type f, fs_searchable f)) (λ '(n, t, b), mkField n t b) _). by intros []. Defined.

#[export] Instance metric_countable : Countable Metric.
Proof.
  refine (inj_countable' (λ m, match m with cosine => 0%nat | dotProduct => 1%nat | euclidean => 2%nat end)
    (λ n, match n with 0%nat => cosine | 1%nat => dotProduct | _ => euclidean end) _). by intros [].
Defined.

#[export] Instance template_countable : Countable IndexTemplate.
Proof.
  refine (inj_countable' (λ t, (tp_template_id t, tp_template_version t, tp_dimensions t, tp_metric t,
      (hn_m (tp_hnsw t), hn_ef_construction (tp_hnsw t), hn_ef_search (tp_hnsw t)), tp_fields t, tp_semantic_ranker_enabled t, tp_hybrid_enabled t))
    (λ '(i, v, d, m, (a, b, c), f, s, h), mkTemplate i v d m (mkHnsw a b c) f s h) _). by intros [????[]].
Defined.

Definition example_codec : EntryCodec := {|
  isoformat := MemoryTable.dump;
  fromisoformat := MemoryTable.undump;
  template_dump_json := MemoryTable.dump;
  template_validate_json := MemoryTable.undump;
  corrupt_message _ := "corrupt table entity";
|}.

Lemma example_codec_laws : EntryCodecLaws example_codec.
Proof. split; intros t; apply MemoryTable.undump_dump. Qed.

Definition claim (vertical token : string) : IndexRegistryEntry :=
  mkEntry "shared-index" vertical "s-1" "standard-v1" "1" 384 "cosine" "nomic" provisioning 0 None None (Some token) (Some 0) None None.

Lemma entry_codec_roundtrip_witness :
  entity_to_entry (codec := example_codec)
    (_to_record (mkEntity (entity_of "hr" "shared-index" (entry_to_entity_data (codec := example_codec) (claim "hr" "t"))) "1")) = Ok (claim "hr" "t").
Proof. apply (entry_codec_roundtrip example_codec_laws). Defined.

Definition example_settings : RetrySettings := mkSettings "30.0" 5 (λ _ _, f_of_Z 2).

Notation example_call := (serve_call (codec := example_codec) (tenacity := loop_tenacity) example_settings).

Notation mhandle fates := (nhandle (hserve (client := MemoryTable.memory_client)) fates Z.of_nat).

Definition example_world : nworld tableQ (MemoryTable.memory * list (string * ((string * string) * props))) :=
  mkNW (MemoryTable.empty_memory, []) [] 0 0.

(** The second attempt to create the entity finds the first one's entity: its answer was lost. *)
Definition lossy (n : nat) : fate := if decide (n = 0%nat) then ServedSilently else Served.

Lemma table_registry_no_lost_update_witness :
  ∃ pool w', rtc (sched_step (mhandle lossy)) (map example_call [CRegister (claim "hr" "t")], example_world) (pool, w') ∧
    pool = [Ret (Some (claim "hr" "t"))] ∧ held (codec := example_codec) (client := MemoryTable.memory_client) "shared-index" (claim "hr" "t") (nw_state w').
Proof.
  set (final := sched_exec (mhandle lossy) [0; 0; 0; 0]%nat (map example_call [CRegister (claim "hr" "t")], example_world)).
  pose proof (sched_exec_rtc (mhandle lossy) [0; 0; 0; 0]%nat (map example_call [CRegister (claim "hr" "t")], example_world)) as Hrtc.
  assert (Hpool : final.1 = [Ret (Some (claim "hr" "t"))]) by (vm_compute; reflexivity).
  exists final.1, final.2. split; [rewrite <- surjective_pairing; exact Hrtc|]. split; [exact Hpool|].
  destruct (table_registry_no_lost_update (codec := example_codec) (tenacity := loop_tenacity) (client := MemoryTable.memory_client) example_settings [CRegister (claim "hr" "t")]
    MemoryTable.stored MemoryTable.me_issued MemoryTable.memory_laws example_codec_laws lossy Z.of_nat MemoryTable.empty_memory []
    final.1 final.2 MemoryTable.empty_hist_ok) as [_ H].
  - rewrite <- surjective_pairing. exact Hrtc.
  - apply (H 0%nat (CRegister (claim "hr" "t"))); [reflexivity|]. rewrite Hpool. reflexivity.
Defined.

Notation example_run fates p w := (run (mhandle fates) p w).

(** Two ways in which the table-backed registry departs from the interface. The entities
    are keyed by vertical and index name, so two verticals that use the same index name both
    win [register], which the interface documents as one insert per index name. And
    [INDEX_PROVISION_CONFLICT] does not mean that nothing changed: when the answer to a
    successful conditional write is lost, the retry fails on the ETag, and [reclaim] raises the
    conflict although its own entry is stored. *)
Theorem table_registry_departures :
  (let '(r1, w1) := example_run (λ _, Served) (register (codec := example_codec) (tenacity := loop_tenacity) example_settings (claim "hr" "a")) example_world in
   let '(r2, w2) := example_run (λ _, Served) (register (codec := example_codec) (tenacity := loop_tenacity) example_settings (claim "legal" "b")) w1 in
   r1 = Ok (claim "hr" "a") ∧ r2 = Ok (claim "legal" "b")) ∧
  (let fates n := if decide (n = 2%nat) then ServedSilently else Served in
   let '(r1, w1) := example_run fates (register (codec := example_codec) (tenacity := loop_tenacity) example_settings (claim "hr" "old")) example_world in
   let '(r2, w2) := example_run fates (reclaim (codec := example_codec) (tenacity := loop_tenacity) example_settings "shared-index" (claim "hr" "old") (claim "hr" "new")) w1 in
   let '(r3, _) := example_run fates (get (codec := example_codec) (tenacity := loop_tenacity) example_settings "shared-index") w2 in
   r1 = Ok (claim "hr" "old") ∧ (∃ m, r2 = Exc (ProvisioningError "" m INDEX_PROVISION_CONFLICT)) ∧ r3 = Ok (Some (claim "hr" "new"))).
Proof.
  split.
  - vm_compute. split; reflexivity.
  - vm_compute. split; [reflexivity|]. split; [eexists; reflexivity|reflexivity].
Qed.

End TableRegistry.
