(* ===== verification/TableScenarios.v ===== *)
(** * The table-backed scenario store (src/vestibule/scenario/stores/table_storage_store.py,
      src/vestibule/scenario/stores/_entity_codec.py)

    The writable scenario store: scenarios as flat entities, keyed by vertical and scenario id,
    with a version counter that every edit bumps. *)
From stdpp Require Import countable.
From S2P Require Import Prelude PyDict Types Prog Rely Templates Scenarios ScenarioStores Net Tables MemoryTable TableRegistry.
#[local] Open Scope Z_scope.

Module TableScenarios.
Import Templates Scenarios ScenarioStores.

(** ** The codec (_entity_codec.py) *)

(** [datetime.isoformat]/[fromisoformat] and pydantic's JSON of the three settings; [None] is a
    [ValueError] or a [ValidationError]. *)
Class ScenarioCodec := {
  s_isoformat : Z → string;
  s_fromisoformat : string → option Z;
  chunker_dump_json : ChunkerSettings → string;
  chunker_validate_json : string → option ChunkerSettings;
  embedder_dump_json : EmbedderSettings → string;
  embedder_validate_json : string → option EmbedderSettings;
  indexer_dump_json : IndexerSettings → string;
  indexer_validate_json : string → option IndexerSettings;
  s_repr : string → string;
  (** [f"corrupt table entity: {exc}"] for the exception the data leads to. *)
  s_corrupt_message : props → string;
}.

Definition _ADAPTERS : list string := ["azure_openai"; "fastembed"].
Definition _ACL_SOURCES : list string := ["envelope"; "blob_metadata"; "source_system"].

Class ScenarioCodecLaws (codec : ScenarioCodec) : Prop := {
  s_isoformat_roundtrip t : s_fromisoformat (s_isoformat t) = Some t;
  chunker_roundtrip c : chunker_validate_json (chunker_dump_json c) = Some c;
  embedder_roundtrip e : es_adapter e ∈ _ADAPTERS → embedder_validate_json (embedder_dump_json e) = Some e;
  indexer_roundtrip i : indexer_validate_json (indexer_dump_json i) = Some i;
}.

(** [bool(v)]. *)
Definition tval_bool (v : tval) : bool :=
  match v with TStr s => bool_decide (s ≠ "") | TInt z => bool_decide (z ≠ 0) | TBool b => b end.

Definition is_enabled (record : _TableEntityRecord) : bool :=
  match dict_get "enabled" (re_data record) with Some v => tval_bool v | None => false end.

Section codec.
Context {codec : ScenarioCodec}.

Definition parse_datetime (v : tval) : option Z := s_fromisoformat (tval_str v).

Definition scenario_to_entity_data (s : Scenario) : props :=
  let data :=
    [("scenario_id", TStr (sc_scenario_id s)); ("vertical", TStr (sc_vertical s)); ("config_version", TStr (sc_config_version s));
     ("index_name", TStr (sc_index_name s)); ("acl_source", TStr (sc_acl_source s)); ("default_trust_tier", TStr (sc_default_trust_tier s));
     ("enabled", TBool (sc_enabled s)); ("created_at", TStr (s_isoformat (sc_created_at s))); ("updated_at", TStr (s_isoformat (sc_updated_at s)));
     ("chunker_json", TStr (chunker_dump_json (sc_chunker s))); ("embedder_json", TStr (embedder_dump_json (sc_embedder s)));
     ("indexer_json", TStr (indexer_dump_json (sc_indexer s)))] in
  match sc_index_template_id s with
  | Some i => dict_set "index_template_id" (TStr i) data
  | None => data
  end.

(** A string property, its absence or another type being an error. *)
Definition text_prop (k : string) (data : props) : option string :=
  match dict_get k data with Some (TStr s) => Some s | _ => None end.

Definition optional_text_prop (k : string) (data : props) : option (option string) :=
  match dict_get k data with Some (TStr s) => Some (Some s) | Some _ => None | None => Some None end.

Definition guard_that (b : bool) : option unit := if b then Some tt else None.

Definition entity_to_scenario (record : _TableEntityRecord) : result exn Scenario :=
  let data := re_data record in
  let decoded :=
    scenario_id ← text_prop "scenario_id" data;
    vertical ← text_prop "vertical" data;
    config_version ← text_prop "config_version" data;
    index_name ← text_prop "index_name" data;
    chunker ← text_prop "chunker_json" data ≫= chunker_validate_json;
    embedder ← text_prop "embedder_json" data ≫= embedder_validate_json;
    indexer ← text_prop "indexer_json" data ≫= indexer_validate_json;
    acl_source ← text_prop "acl_source" data;
    guard_that (bool_decide (acl_source ∈ _ACL_SOURCES)) ≫= λ _,
    default_trust_tier ← text_prop "default_trust_tier" data;
    enabled ← dict_get "enabled" data;
    created_at ← dict_get "created_at" data ≫= parse_datetime;
    updated_at ← dict_get "updated_at" data ≫= parse_datetime;
    index_template_id ← optional_text_prop "index_template_id" data;
    let s := mkScenario scenario_id vertical config_version index_name chunker embedder indexer acl_source default_trust_tier
               (tval_bool enabled) created_at updated_at index_template_id in
    guard_that (bool_decide (scenario_errors s_repr s = [])) ≫= λ _, Some s in
  match decoded with
  | Some s => Ok s
  | None => Exc (ScenarioError (prop_str "scenario_id" data) (s_corrupt_message data) SCENARIO_INVALID)
  end.

(** What pydantic lets a [Scenario] be. *)
Definition scenario_valid (s : Scenario) : Prop := scenario_ok s ∧ sc_acl_source s ∈ _ACL_SOURCES.

Lemma scenario_adapter s : scenario_ok s → es_adapter (sc_embedder s) ∈ _ADAPTERS.
Proof.
  intros (_ & _ & _ & _ & _ & native & Hn & _). unfold _NATIVE_DIMENSIONS in Hn. cbn [dict_get] in Hn. unfold _ADAPTERS.
  repeat case_decide; simplify_eq/=; set_solver.
Qed.

Lemma scenario_props s :
  dict_get "scenario_id" (scenario_to_entity_data s) = Some (TStr (sc_scenario_id s)) ∧
  dict_get "vertical" (scenario_to_entity_data s) = Some (TStr (sc_vertical s)) ∧
  dict_get "config_version" (scenario_to_entity_data s) = Some (TStr (sc_config_version s)) ∧
  dict_get "index_name" (scenario_to_entity_data s) = Some (TStr (sc_index_name s)) ∧
  dict_get "chunker_json" (scenario_to_entity_data s) = Some (TStr (chunker_dump_json (sc_chunker s))) ∧
  dict_get "embedder_json" (scenario_to_entity_data s) = Some (TStr (embedder_dump_json (sc_embedder s))) ∧
  dict_get "indexer_json" (scenario_to_entity_data s) = Some (TStr (indexer_dump_json (sc_indexer s))) ∧
  dict_get "acl_source" (scenario_to_entity_data s) = Some (TStr (sc_acl_source s)) ∧
  dict_get "default_trust_tier" (scenario_to_entity_data s) = Some (TStr (sc_default_trust_tier s)) ∧
  dict_get "enabled" (scenario_to_entity_data s) = Some (TBool (sc_enabled s)) ∧
  dict_get "created_at" (scenario_to_entity_data s) = Some (TStr (s_isoformat (sc_created_at s))) ∧
  dict_get "updated_at" (scenario_to_entity_data s) = Some (TStr (s_isoformat (sc_updated_at s))) ∧
  dict_get "index_template_id" (scenario_to_entity_data s) = (TStr <$> sc_index_template_id s).
Proof.
  unfold scenario_to_entity_data. cbv zeta. destruct (sc_index_template_id s) as [i|]; split_and!; try reflexivity.
  all: rewrite dict_get_set_ne by discriminate; reflexivity.
Qed.

Lemma scenario_roundtrip {laws : ScenarioCodecLaws codec} s pk rk g :
  scenario_valid s → entity_to_scenario (mkRec pk rk (scenario_to_entity_data s) g) = Ok s.
Proof.
  intros [Hok Hacl]. unfold entity_to_scenario. cbn [re_data].
  destruct (scenario_props s) as (H1 & H2 & H3 & H4 & H5 & H6 & H7 & H8 & H9 & H10 & H11 & H12 & H13).
  revert H1 H2 H3 H4 H5 H6 H7 H8 H9 H10 H11 H12 H13. generalize (scenario_to_entity_data s).
  intros data H1 H2 H3 H4 H5 H6 H7 H8 H9 H10 H11 H12 H13. unfold text_prop, optional_text_prop, parse_datetime.
  rewrite H1, H2, H3, H4, H5, H6, H7, H8, H9, H10, H11, H12, H13. cbn [mbind option_bind tval_str].
  rewrite chunker_roundtrip, embedder_roundtrip, indexer_roundtrip by by apply scenario_adapter.
  rewrite !s_isoformat_roundtrip. cbn [mbind option_bind]. rewrite (bool_decide_eq_true_2 _ Hacl). cbn [guard_that mbind option_bind].
  destruct s as [i v cv n c e ix acl tt en ca ua it]. simpl in *.
  assert (scenario_errors s_repr (mkScenario i v cv n c e ix acl tt en ca ua it) = []) as Hne by by apply scenario_errors_nil.
  destruct it as [t|]; cbn [fmap option_fmap option_map mbind option_bind]; by rewrite (bool_decide_eq_true_2 _ Hne).
Qed.

Lemma scenario_data_clean s : clean (scenario_to_entity_data s).
Proof.
  unfold scenario_to_entity_data. cbv zeta.
  match goal with |- context [dict_set _ _ ?d] => assert (clean d) as Hc end.
  { split; [by eapply bool_decide_unpack|]. repeat constructor; by eapply bool_decide_unpack. }
  destruct (sc_index_template_id s); [|done]. apply set_clean; [by eapply bool_decide_unpack|done].
Qed.
End codec.

#[local] Open Scope py_scope.

(** ** The store (table_storage_store.py) *)

Definition _CONFLICT_STATUS_CODES : list Z := [409; 412].
Definition _HTTP_TOO_MANY_REQUESTS : Z := 429.
Definition _HTTP_SERVER_ERROR_FLOOR : Z := 500.

Definition _is_retryable (x : exn) : bool :=
  if is_backend_timeout x then true else
  match x with
  | HttpResponseError None _ _ => false
  | HttpResponseError (Some code) _ _ =>
    if bool_decide (code ∈ _CONFLICT_STATUS_CODES) then false
    else bool_decide (code = _HTTP_TOO_MANY_REQUESTS) || bool_decide (_HTTP_SERVER_ERROR_FLOOR ≤ code)
  | _ => false
  end.

Definition _map_status (status_code : option Z) : string :=
  match status_code with
  | Some code => if bool_decide (code ∈ _CONFLICT_STATUS_CODES) then SCENARIO_CONFLICT else SCENARIO_STORE_UNAVAILABLE
  | None => SCENARIO_STORE_UNAVAILABLE
  end.

(** What [_with_retry] makes of the exception that ends the retries. *)
Definition retry_error (x : exn) : exn :=
  if is_backend_timeout x then ScenarioError "" (exn_str x) SCENARIO_STORE_UNAVAILABLE else
  match x with
  | HttpResponseError code _ _ => ScenarioError "" (exn_str x) (_map_status code)
  | _ => x
  end.

Definition _bump_config_version (existing : option tval) : string :=
  match existing with
  | None => "1"
  | Some v => match TableRegistry.tval_int v with Some n => pretty (n + 1) | None => "1" end
  end.

(** [scenario.model_copy(update={...})]. *)
Definition edited (s : Scenario) (config_version : string) (created_at updated_at : Z) : Scenario :=
  mkScenario (sc_scenario_id s) (sc_vertical s) config_version (sc_index_name s) (sc_chunker s) (sc_embedder s) (sc_indexer s)
    (sc_acl_source s) (sc_default_trust_tier s) (sc_enabled s) created_at updated_at (sc_index_template_id s).

Section store.
Context {codec : ScenarioCodec} {tenacity : Tenacity} (settings : RetrySettings).

Definition _with_retry {X} (q : tableQ X) : tprog X := with_retry settings _is_retryable retry_error q.

Definition _revalidate (s : Scenario) : result exn unit :=
  let invalid m := Exc (ScenarioError (sc_scenario_id s) m SCENARIO_INVALID) in
  match validate_index_name s_repr (sc_index_name s) with
  | Some m => invalid m
  | None =>
    match validate_chunker_bounds (sc_chunker s) with
    | Some m => invalid m
    | None => match validate_dimension_consistency s_repr (sc_embedder s) (sc_indexer s) with Some m => invalid m | None => Ok tt end
    end
  end.

Definition get (scenario_id : string) : tprog (option Scenario) :=
  matches ← _with_retry (query None (Some scenario_id));
  match matches with
  | [] => Ret None
  | m :: _ => s ← lift (entity_to_scenario m); Ret (Some s)
  end.

Definition get_by_vertical (vertical : string) : tprog (option Scenario) :=
  matches ← _with_retry (query (Some vertical) None);
  candidates ← lift (rmap entity_to_scenario (List.filter is_enabled matches));
  Ret (select_enabled_for_vertical vertical candidates).

Definition list_all (include_disabled : bool) : tprog (list Scenario) :=
  matches ← _with_retry (query None None);
  scenarios ← lift (rmap entity_to_scenario matches);
  Ret (if include_disabled then scenarios else List.filter sc_enabled scenarios).

(** [parse_datetime(existing.data["created_at"])]. *)
Definition existing_created_at (data : props) : result exn Z :=
  match dict_get "created_at" data with
  | None => Exc (PyExc "KeyError" "'created_at'")
  | Some v => match parse_datetime v with Some t => Ok t | None => Exc (PyExc "ValueError" ("Invalid isoformat string: " +:+ s_repr (tval_str v))) end
  end.

Definition upsert (scenario : Scenario) : tprog Scenario :=
  lift (_revalidate scenario) ;;
  existing ← _with_retry (get_entity (sc_vertical scenario) (sc_scenario_id scenario));
  let config_version := _bump_config_version (existing ≫= λ rec, dict_get "config_version" (re_data rec)) in
  created_at ← lift (match existing with Some rec => existing_created_at (re_data rec) | None => Ok (sc_created_at scenario) end);
  updated_at ← perform Utcnow;
  let updated := edited scenario config_version created_at updated_at in
  _with_retry (upsert_entity (sc_vertical updated) (sc_scenario_id updated) (scenario_to_entity_data updated) (re_etag <$> existing)) ;;
  Ret updated.

Definition delete (scenario_id : string) : tprog bool :=
  matches ← _with_retry (query None (Some scenario_id));
  match matches with
  | [] => Ret false
  | record :: _ => _with_retry (delete_entity (re_partition_key record) (re_row_key record)) ;; Ret true
  end.

(** ** The calls of the workers, and what they may do to a scenario *)

Inductive scall :=
| CGet (scenario_id : string)
| CUpsert (scenario : Scenario)
| CDelete (scenario_id : string)
| CNetwork (deliveries : list nat).

Definition serve_call (c : scall) : tprog (option Scenario) :=
  match c with
  | CGet i => get i
  | CUpsert s => u ← upsert s; Ret (Some u)
  | CDelete i => delete i ;; Ret None
  | CNetwork ds => pfold (λ _ i, perform (Deliver i)) tt ds ;; Ret None
  end.

Context (calls : list scall).

(** The version after the stored one: the next number, and 1 when there is none. *)
Definition next_version (data : props) : string :=
  default "1" ((λ n, pretty (n + 1)) <$> (dict_get "config_version" data ≫= TableRegistry.tval_int)).

Lemma bump_next data : _bump_config_version (dict_get "config_version" data) = next_version data.
Proof. unfold next_version. destruct (dict_get "config_version" data) as [v|]; [|done]. simpl. by destruct (TableRegistry.tval_int v). Qed.

(** A new scenario starts at version 1; an edit keeps the creation time of the version it
    replaces and bumps its version; only a delete call removes a scenario. *)
Definition sc_allowed (k : string * string) (d d' : option props) : Prop :=
  match d, d' with
  | None, Some data => ∃ s now, CUpsert s ∈ calls ∧ k = (sc_vertical s, sc_scenario_id s) ∧
      data = scenario_to_entity_data (edited s "1" (sc_created_at s) now)
  | Some data, Some data' => ∃ s created now, CUpsert s ∈ calls ∧ k = (sc_vertical s, sc_scenario_id s) ∧
      existing_created_at data = Ok created ∧
      data' = scenario_to_entity_data (edited s (next_version data) created now)
  | Some _, None => CDelete k.2 ∈ calls
  | None, None => False
  end.

(** ** Safety *)

Context {client : TableClient} (stored : tc_state → gmap (string * string) (props * string)) (issued : tc_state → gset string).
Context {laws : TableLaws stored issued} (fates : nat → fate) (utc : nat → Z).

Notation J := (hist_ok stored issued).
Notation R := (evolves stored sc_allowed).
Notation OK := (justified sc_allowed).
Notation ssafe := (nsafe hserve fates utc J R OK).

#[local] Instance S_preorder : PreOrder R := evolves_preorder stored sc_allowed.

(** What was read, or written, has been a stored version. *)
Definition read_version (i : string) (sc : Scenario) (s : tc_state * list (string * ((string * string) * props))) : Prop :=
  ∃ rec, re_row_key rec = i ∧ known rec s ∧ entity_to_scenario rec = Ok sc.
Definition written_version (sc : Scenario) (s : tc_state * list (string * ((string * string) * props))) : Prop :=
  ∃ g, known (mkRec (sc_vertical sc) (sc_scenario_id sc) (scenario_to_entity_data sc) g) s.

Definition call_post (c : scall) (o : option Scenario) (s : tc_state * list (string * ((string * string) * props))) : Prop :=
  match c, o with
  | CGet i, Some sc => read_version i sc s
  | CUpsert _, Some sc => written_version sc s
  | _, _ => True
  end.

Lemma call_post_stable c : stable R (call_post c).
Proof.
  intros o s s' Hs. destruct c, o; simpl; try done.
  - intros (rec & ? & Hk & ?). exists rec. split_and!; [done| |done]. by eapply known_later.
  - intros (g & Hk). exists g. by eapply known_later.
Qed.

Lemma scenario_get_safe i w : NI J OK w → ssafe (call_post (CGet i)) (get i) w.
Proof.
  intros Hw. unfold get. eapply nsafe_bind; [apply _|done|by apply query_safe|]. intros l w1 _ HI1 Hl.
  destruct l as [|m l]; [by apply nsafe_ret; [apply call_post_stable|]|]. inversion Hl as [|? ? [Hn Hk] _]; subst.
  eapply (nsafe_bind _ _ _ _ _ _ (λ sc s, call_post (CGet (re_row_key m)) (Some sc) s)); [done|apply nsafe_lift|].
  - intros sc s s' Hs. by apply (call_post_stable (CGet (re_row_key m)) (Some sc)).
  - intros sc Hsc. by exists m.
  - intros sc w2 _ _ Hsc. by apply nsafe_ret; [apply call_post_stable|].
Qed.

Lemma scenario_upsert_safe sc w : CUpsert sc ∈ calls → NI J OK w → ssafe (λ u, written_version u) (upsert sc) w.
Proof.
  intros Hc Hw. unfold upsert.
  assert (Hst : stable R (λ u, written_version u)) by (intros u s s'; apply (call_post_stable (CUpsert sc) (Some u))).
  eapply (nsafe_bind _ _ _ _ _ _ (λ _ _, True)); [done|by apply nsafe_lift; [apply const_stable|]|]. intros _ w1 _ HI1 _.
  eapply nsafe_bind; [apply _|done|by apply get_entity_safe|]. intros existing w2 _ HI2 Hex.
  eapply (nsafe_bind _ _ _ _ _ _ (λ t _, match existing with Some rec => existing_created_at (re_data rec) | None => Ok (sc_created_at sc) end = Ok t));
    [done|apply nsafe_lift; [by apply const_stable|done]|]. intros created w3 HR3 HI3 Hcr.
  eapply (nsafe_bind _ _ _ _ _ _ (λ _ _, True)); [done|apply nsafe_utcnow; apply _|]. intros now w4 HR4 HI4 _. cbv zeta.
  set (u := edited sc _ created now).
  eapply (nsafe_bind _ _ _ _ _ _ (λ _, written_version u)); [done|apply with_retry_safe; [done|done| | |]|].
  - intros g s s' Hs. by apply Hst.
  - intros s Hs _. destruct existing as [rec|]; cbn [fmap option_fmap option_map justified]; (split; [apply scenario_data_clean|]).
    + destruct Hex as (Hrow & Hpk & Hk). exists (re_partition_key rec, re_row_key rec), (re_data rec). split.
      * eapply known_later; [exact Hs|]. eapply known_later; [exact HR4|]. by eapply known_later.
      * intros _. exists sc, created, now. rewrite Hrow, Hpk, <- bump_next. by split_and!.
    + exists sc, now. injection Hcr as <-. by split_and!.
  - intros s g _ _ Hg. exists g. by apply (upsert_known stored issued).
  - intros _ w5 _ _ Hu. by apply nsafe_ret.
Qed.

Lemma delete_safe i w : CDelete i ∈ calls → NI J OK w → ssafe (λ _ _, True) (delete i) w.
Proof.
  intros Hc Hw. unfold delete. eapply nsafe_bind; [apply _|done|by apply query_safe|]. intros l w1 _ HI1 Hl.
  destruct l as [|m l]; [by apply nsafe_ret|]. inversion Hl as [|? ? [Hn Hk] _]; subst.
  eapply (nsafe_bind _ _ _ _ _ _ (λ _ _, True)); [done|apply with_retry_safe; [done|done|done|by intros s _ _ d|done]|]. intros _ w2 _ _ _. by apply nsafe_ret.
Qed.

Lemma scenario_serve_call_safe c w : c ∈ calls → NI J OK w → ssafe (call_post c) (serve_call c) w.
Proof.
  intros Hc Hw. destruct c as [i|sc|i|ds]; cbn [serve_call].
  - by apply scenario_get_safe.
  - eapply nsafe_bind; [apply _|done|by apply scenario_upsert_safe|]. intros u w' _ _ Hu. by apply nsafe_ret; [apply call_post_stable|].
  - eapply nsafe_bind; [apply _|done|by apply delete_safe|]. intros _ w' _ _ _. by apply nsafe_ret.
  - eapply nsafe_bind; [apply _|done|by apply network_safe|]. intros _ w' _ _ _. by apply nsafe_ret.
Qed.
End store.

(** ** Properties *)

(** A valid scenario survives the trip through a table entity, and the stored properties
    have distinct names that the backend does not strip. *)
Theorem scenario_codec_roundtrip {codec : ScenarioCodec} (laws : ScenarioCodecLaws codec) s pk rk g :
  scenario_valid s →
  entity_to_scenario (_to_record (mkEntity (entity_of pk rk (scenario_to_entity_data s)) g)) = Ok s ∧ clean (scenario_to_entity_data s).
Proof.
  intros Hs. rewrite to_record_entity by apply scenario_data_clean. split; [by apply scenario_roundtrip|apply scenario_data_clean].
Qed.

(** C21: no lost edits. Under any interleaving of any number of reads, upserts and deletes of
    scenarios, any timeouts, lost answers, service errors and retries, and with timed-out
    requests executed at any later moment or never: a scenario appears with version 1; every
    other write replaces the version that is there at that moment, keeps its creation time and
    stores exactly the next version number, so two editors never overwrite each other; and only
    a delete call removes a scenario, whatever version it then has: deletions are unconditional,
    and one that is executed late removes a newer edit too. Whatever an upsert returned has been stored, and whatever
    a read returned has been a stored version. *)
Theorem table_scenarios_no_lost_edit {codec : ScenarioCodec} {tenacity : Tenacity} settings calls {client : TableClient} stored issued
    (laws : TableLaws stored issued) fates utc st h pool w' :
  hist_ok stored issued (st, h) →
  rtc (sched_step (nhandle hserve fates utc)) (map (serve_call settings) calls, mkNW (st, h) [] 0 0) (pool, w') →
  rtc (tstep (sc_allowed calls)) (data_of stored st) (data_of stored (nw_state w').1) ∧
  ∀ i c o, calls !! i = Some c → pool !! i = Some (Ret o) → call_post c o (nw_state w').
Proof.
  intros Hh Hsteps.
  apply (pool_safe stored issued fates utc (sc_allowed calls) (serve_call settings) call_post calls st h pool w' Hh); [|done].
  intros c w Hc Hw. by apply scenario_serve_call_safe.
Qed.

(** ** Examples *)

#[export] Instance chunker_settings_countable : Countable ChunkerSettings.
Proof.
  refine (inj_countable' (λ c, (cs_target_chunk_tokens c, cs_overlap_tokens c, cs_min_chunk_tokens c, cs_max_chunk_tokens c))
    (λ '(a, b, c, d), mkChunkerSettings a b c d) _). by intros [].
Defined.

#[export] Instance embedder_settings_countable : Countable EmbedderSettings.
Proof.
  refine (inj_countable' (λ e, (es_adapter e, es_model e, es_target_dimensions e)) (λ '(a, b, c), mkEmbedderSettings a b c) _). by intros [].
Defined.

#[export] Instance indexer_settings_countable : Countable IndexerSettings.
Proof.
  refine (inj_countable' (λ i, (is_metric i, is_dimensions i, is_hnsw_m i, is_hnsw_ef_construction i, is_hnsw_ef_search i))
    (λ '(a, b, c, d, e), mkIndexerSettings a b c d e) _). by intros [].
Defined.

Definition example_codec : ScenarioCodec := {|
  s_isoformat := MemoryTable.dump; s_fromisoformat := MemoryTable.undump;
  chunker_dump_json := MemoryTable.dump; chunker_validate_json := MemoryTable.undump;
  embedder_dump_json := MemoryTable.dump; embedder_validate_json := MemoryTable.undump;
  indexer_dump_json := MemoryTable.dump; indexer_validate_json := MemoryTable.undump;
  s_repr s := s; s_corrupt_message _ := "corrupt table entity";
|}.

Lemma scenario_example_codec_laws : ScenarioCodecLaws example_codec.
Proof. split; intros; apply MemoryTable.undump_dump. Qed.

Definition example_scenario (vertical version : string) : Scenario :=
  mkScenario "policies" vertical version "hr-index" (mkChunkerSettings 512 64 32 1024)
    (mkEmbedderSettings "fastembed" "nomic-ai/nomic-embed-text-v1.5" None) (mkIndexerSettings "cosine" 768 16 200 100)
    "envelope" "internal" true 0 0 None.

Lemma example_scenario_valid : scenario_valid (example_scenario "hr" "1").
Proof. split; [|set_solver]. apply (scenario_errors_nil (λ s, s)). vm_compute. reflexivity. Qed.

Lemma scenario_codec_roundtrip_witness :
  entity_to_scenario (codec := example_codec)
    (_to_record (mkEntity (entity_of "hr" "policies" (scenario_to_entity_data (codec := example_codec) (example_scenario "hr" "1"))) "1"))
  = Ok (example_scenario "hr" "1").
Proof. apply (scenario_codec_roundtrip scenario_example_codec_laws), example_scenario_valid. Defined.

Definition example_settings : RetrySettings := mkSettings "30.0" 5 (λ _ _, f_of_Z 2).

Notation example_call := (serve_call (codec := example_codec) (tenacity := loop_tenacity) example_settings).
Notation mhandle fates := (nhandle (hserve (client := MemoryTable.memory_client)) fates Z.of_nat).

Definition example_world : nworld tableQ (MemoryTable.memory * list (string * ((string * string) * props))) :=
  mkNW (MemoryTable.empty_memory, []) [] 0 0.

(** Two editors create the same scenario at once: the second one to write loses. *)
Definition two_editors : list scall := [CUpsert (example_scenario "hr" "0"); CUpsert (example_scenario "hr" "0")].

Lemma table_scenarios_no_lost_edit_witness :
  let final := sched_exec (mhandle (λ _, Served)) [0; 1; 0; 1; 0; 1]%nat (map example_call two_editors, example_world) in
  (∃ u, final.1 !! 0%nat = Some (Ret (Some u)) ∧ sc_config_version u = "1" ∧
        written_version (codec := example_codec) (client := MemoryTable.memory_client) u (nw_state final.2)) ∧
  final.1 !! 1%nat = Some (Raise (ScenarioError "" "EntityAlreadyExists" SCENARIO_CONFLICT)).
Proof.
  set (final := sched_exec (mhandle (λ _, Served)) [0; 1; 0; 1; 0; 1]%nat (map example_call two_editors, example_world)). cbv zeta.
  pose proof (sched_exec_rtc (mhandle (λ _, Served)) [0; 1; 0; 1; 0; 1]%nat (map example_call two_editors, example_world)) as Hrtc.
  split; [|vm_compute; reflexivity].
  assert (Hret : final.1 !! 0%nat = Some (Ret (Some (edited (example_scenario "hr" "0") "1" 0 0)))) by (vm_compute; reflexivity).
  exists (edited (example_scenario "hr" "0") "1" 0 0). split; [exact Hret|]. split; [reflexivity|].
  destruct (table_scenarios_no_lost_edit (codec := example_codec) (tenacity := loop_tenacity) (client := MemoryTable.memory_client)
    example_settings two_editors MemoryTable.stored MemoryTable.me_issued MemoryTable.memory_laws (λ _, Served) Z.of_nat
    MemoryTable.empty_memory [] final.1 final.2 MemoryTable.empty_hist_ok) as [_ H].
  - rewrite <- surjective_pairing. exact Hrtc.
  - exact (H 0%nat _ _ eq_refl Hret).
Defined.

Notation example_run p w := (run (mhandle (λ _, Served)) p w).

(** Moving a scenario to another vertical with [upsert] does not move it: the entity of
    the old vertical stays, the store then lists two scenarios with one id, and the old vertical
    still resolves to the scenario that was moved away. *)
Theorem upsert_to_other_vertical_duplicates :
  let '(r1, w1) := example_run (upsert (codec := example_codec) (tenacity := loop_tenacity) example_settings (example_scenario "hr" "0")) example_world in
  let '(r2, w2) := example_run (upsert (codec := example_codec) (tenacity := loop_tenacity) example_settings (example_scenario "legal" "1")) w1 in
  let '(r3, w3) := example_run (list_all (codec := example_codec) (tenacity := loop_tenacity) example_settings true) w2 in
  let '(r4, _) := example_run (get_by_vertical (codec := example_codec) (tenacity := loop_tenacity) example_settings "hr") w3 in
  (∃ u, r2 = Ok u ∧ sc_vertical u = "legal") ∧
  (∃ l, r3 = Ok l ∧ map sc_scenario_id l = ["policies"; "policies"]) ∧
  (∃ s, r4 = Ok (Some s) ∧ sc_scenario_id s = "policies" ∧ sc_vertical s = "hr").
Proof. vm_compute. split_and!; eexists; split_and!; reflexivity. Qed.

End TableScenarios.
