(* ===== verification/AzureSearch.v ===== *)
(** * Azure AI Search: what its two adapters share

    The SDK is an argument ([SearchSDK]); the translation layers
    (src/vestibule/indexer/adapters/_azure_search_backend.py and
    src/vestibule/provisioning/adapters/_azure_search_backend.py) and the wait strategy both
    adapters have a copy of are modelled here and in [AzureIndexer] and [AzureProvisioner]. *)
From S2P Require Import Prelude PyDict Types Prog Templates Net.
#[local] Open Scope Z_scope.

(** ** [float(s)] on an ASCII string

    White space, a sign, [inf], [infinity] or [nan] in any case, or a decimal number whose
    digits single underscores may separate; correctly rounded. *)

(** The digits at the front: their value, their number, and what follows. *)
Fixpoint digits_from (acc : Z) (n : nat) (l : list ascii) {struct l} : Z * nat * list ascii :=
  match l with
  | [] => (acc, n, [])
  | c :: l' =>
    match Templates.digit_value c with
    | Some d => digits_from (10 * acc + d) (S n) l'
    | None =>
      match l' with
      | c2 :: l'' =>
        match Templates.digit_value c2 with
        | Some d => if bool_decide (c = "_"%char ∧ n ≠ O) then digits_from (10 * acc + d) (S n) l'' else (acc, n, l)
        | None => (acc, n, l)
        end
      | [] => (acc, n, l)
      end
    end
  end.

Definition decimal_value (negative : bool) (m e10 : Z) : pyfloat :=
  match m with
  | Zpos p =>
    if bool_decide (0 ≤ e10) then binary_normalize 53 1024 ((if negative then -1 else 1) * (m * 10 ^ e10)) 0 negative
    else match 10 ^ (- e10) with
         | Zpos q => f_div (S754_finite negative p 0) (S754_finite false q 0)
         | _ => S754_nan
         end
  | _ => S754_zero negative
  end.

(** The exponent part, if any, up to the end of the string. *)
Definition exponent (l : list ascii) : option Z :=
  match l with
  | [] => Some 0
  | c :: l' =>
    if bool_decide (c = "e"%char ∨ c = "E"%char) then
      let '(negative, ds) := match l' with
        | s :: l'' => if decide (s = "-"%char) then (true, l'') else if decide (s = "+"%char) then (false, l'') else (false, l')
        | [] => (false, [])
        end in
      match digits_from 0 0 ds with
      | (e, S _, []) => Some (if negative : bool then - e else e)
      | _ => None
      end
    else None
  end.

Definition decimal (negative : bool) (l : list ascii) : option pyfloat :=
  let '(m, n, rest) := digits_from 0 0 l in
  match rest with
  | c :: l' =>
    if decide (c = "."%char) then
      let '(m', n', rest') := digits_from m 0 l' in
      if bool_decide (n = O ∧ n' = O) then None
      else (λ e, decimal_value negative m' (e - Z.of_nat n')) <$> exponent rest'
    else if bool_decide (n = O) then None else (λ e, decimal_value negative m e) <$> exponent rest
  | [] => if bool_decide (n = O) then None else Some (decimal_value negative m 0)
  end.

Definition lower (c : ascii) : ascii :=
  let n := nat_of_ascii c in if ((65 <=? n) && (n <=? 90))%nat then ascii_of_nat (n + 32) else c.

Definition unsigned_float (negative : bool) (l : list ascii) : option pyfloat :=
  let word := String.string_of_list_ascii (map lower l) in
  if decide (word = "inf" ∨ word = "infinity") then Some (S754_infinity negative)
  else if decide (word = "nan") then Some S754_nan
  else decimal negative l.

Definition py_float (s : string) : option pyfloat :=
  let body := reverse (Templates.lstrip (reverse (Templates.lstrip (String.list_ascii_of_string s)))) in
  match body with
  | c :: l => if decide (c = "-"%char) then unsigned_float true l
              else if decide (c = "+"%char) then unsigned_float false l else unsigned_float false body
  | [] => None
  end.

Example py_float_examples :
  py_float " 2.5 " = Some (f_div (f_of_Z 5) (f_of_Z 2)) ∧ py_float "1e1" = Some (f_of_Z 10) ∧ py_float "1_0" = Some (f_of_Z 10) ∧
  py_float "-3" = Some (f_of_Z (-3)) ∧ py_float "0.1" = Some (f_div (f_of_Z 1) (f_of_Z 10)) ∧ py_float "Infinity" = Some (S754_infinity false) ∧
  py_float "Wed, 21 Oct 2015 07:28:00 GMT" = None ∧ py_float "1__0" = None ∧ py_float "." = None ∧ py_float "" = None.
Proof. vm_compute. split_and!; reflexivity. Qed.

(** ** [_RetryAfterAwareWait]

    The Retry-After header of the failed response when it is a number, and otherwise the
    fallback, tenacity's [wait_random_exponential]. *)

Definition _parse_retry_after (retry_after : option string) : option pyfloat := retry_after ≫= py_float.

Definition retry_after_aware_wait (fallback : Z → exn → pyfloat) (n : Z) (x : exn) : pyfloat :=
  match x with
  | HttpResponseError _ retry_after _ => default (fallback n x) (_parse_retry_after retry_after)
  | _ => fallback n x
  end.

(** The settings of a retry loop with that strategy; [backoff] of the argument is the fallback. *)
Definition retry_after_aware (s : RetrySettings) : RetrySettings :=
  mkSettings (timeout_repr s) (max_attempts s) (retry_after_aware_wait (backoff s)).

(** ** The SDK *)

Inductive SearchFieldDataType := EdmString | EdmStringCollection | EdmSingleCollection | EdmDateTimeOffset.

Record SearchField := mkSearchField {
  sf_name : string; sf_type : SearchFieldDataType; sf_key : bool; sf_searchable : bool; sf_filterable : bool;
  sf_vector_search_dimensions : option Z; sf_vector_search_profile_name : option string }.

Record HnswAlgorithm := mkAlgorithm { al_name : string; al_m : Z; al_ef_construction : Z; al_ef_search : Z; al_metric : option string }.

(** The two kinds of [SimpleField] and of [SearchField] the adapters build. *)
Definition SimpleField (name : string) (type : SearchFieldDataType) (key filterable : bool) : SearchField :=
  mkSearchField name type key false filterable None None.

(** A profile pairs its name with the name of its algorithm; a semantic configuration its name
    with the content fields. *)
Record VectorSearch := mkVectorSearch { vs_algorithms : list HnswAlgorithm; vs_profiles : list (string * string) }.

Record SearchIndex := mkSearchIndex {
  si_name : string; si_fields : list SearchField; si_vector_search : option VectorSearch; si_semantic_search : option (string * list string) }.

(** JSON values of a document's properties. *)
Inductive jval := JNull | JStr (s : string) | JInt (z : Z) | JFloats (l : list pyfloat) | JStrs (l : list string).

Notation document := (list (string * jval)).

#[export] Instance jval_eq_dec : EqDecision jval.
Proof. solve_decision. Defined.

Class SearchSDK := {
  sd_state : Type;
  (** [VectorSearchAlgorithmMetric(value)], as the string the SDK later gives back for it;
      [None] is the [ValueError] of an unknown metric. *)
  sd_metric : string → option string;
  sd_get_index : string → sd_state → result exn SearchIndex;
  sd_create_or_update_index : SearchIndex → sd_state → result exn unit * sd_state;
  sd_delete_index : string → sd_state → result exn unit * sd_state;
  sd_merge_or_upload_documents : string → list document → sd_state → result exn (list (string * bool * option string)) * sd_state;
  sd_delete_documents : string → list document → sd_state → result exn (list (string * bool * option string)) * sd_state;
  sd_search : string → string → list string → sd_state → result exn (list document);
}.

(** ** [get_index_schema] *)

Definition first_metric (algorithms : list HnswAlgorithm) : string := default "cosine" (head (omap al_metric algorithms)).

Definition _extract_metric (index : SearchIndex) : string :=
  first_metric (match si_vector_search index with Some v => vs_algorithms v | None => [] end).

(** [getattr(f, "vector_search_dimensions", None)] is truthy. *)
Definition has_dimensions (f : SearchField) : bool :=
  match sf_vector_search_dimensions f with Some d => bool_decide (d ≠ 0) | None => false end.

Definition schema_of (index : SearchIndex) : option (Z * string) :=
  match List.find has_dimensions (si_fields index) with
  | Some f => (λ d, (d, _extract_metric index)) <$> sf_vector_search_dimensions f
  | None => None
  end.

Definition real_get_index_schema {sdk : SearchSDK} (index_name : string) (st : sd_state) : result exn (option (Z * string)) :=
  match sd_get_index index_name st with
  | Ok index => Ok (schema_of index)
  | Exc (HttpResponseError (Some s) ra m) => if bool_decide (s = 404) then Ok None else Exc (HttpResponseError (Some s) ra m)
  | Exc x => Exc x
  end.

(** [create_or_update_index] of both backends: [None] is the [ValueError] of an unknown metric. *)
Definition create_or_update {sdk : SearchSDK} (index : option SearchIndex) (metric : string) (st : sd_state) : result exn unit * sd_state :=
  match index with
  | Some index => sd_create_or_update_index index st
  | None => (Exc (PyExc "ValueError" (metric +:+ " is not a valid VectorSearchAlgorithmMetric")), st)
  end.

(** The name of the vector profile and of the algorithm of an index. *)
Definition profile_name (index_name : string) : string := index_name +:+ "-vector-profile".
Definition algorithm_name (index_name : string) : string := index_name +:+ "-hnsw".

(** ** What the service guarantees *)

(** A missing index answers 404; creating or replacing an index stores exactly what was sent,
    touches no other index, and is refused when it would change the vector schema of an
    existing one; deleting one removes it. *)
Class SearchLaws {sdk : SearchSDK} (indexes : sd_state → gmap string SearchIndex) : Prop := {
  get_index_law n st :
    match indexes st !! n with
    | Some i => sd_get_index n st = Ok i
    | None => ∃ m, sd_get_index n st = Exc (HttpResponseError (Some 404) None m)
    end;
  create_or_update_law i st :
    match sd_create_or_update_index i st with
    | (Ok _, st') => indexes st' = <[si_name i := i]> (indexes st) ∧
                     ∀ old, indexes st !! si_name i = Some old → schema_of old = None ∨ schema_of old = schema_of i
    | (Exc _, st') => indexes st' = indexes st
    end;
  delete_index_law n st :
    match sd_delete_index n st with
    | (Ok _, st') => indexes st' = delete n (indexes st)
    | (Exc _, st') => indexes st' = indexes st
    end;
}.

(** The key of a document, of an index whose key field is [chunk_id]. *)
Definition doc_key (d : document) : option string := match dict_get "chunk_id" d with Some (JStr c) => Some c | _ => None end.

(** A property that is sent replaces the stored one, the others stay. *)
Definition merged (d : document) (old : option (gmap string jval)) : gmap string jval := list_to_map d ∪ default ∅ old.

Definition project (select : list string) (m : gmap string jval) : document := omap (λ k, (k,.) <$> m !! k) select.

(** The text of an OData string literal whose opening quote has been read: a doubled quote is a
    quote, a single one ends the literal and the filter. *)
Fixpoint odata_literal (l : list ascii) : option (list ascii) :=
  match l with
  | [] => None
  | c :: l' =>
    if decide (c = "'"%char) then
      match l' with
      | [] => Some []
      | c' :: l'' => if decide (c' = "'"%char) then cons c <$> odata_literal l'' else None
      end
    else cons c <$> odata_literal l'
  end.

Definition doc_id_eq : list ascii := String.list_ascii_of_string "doc_id eq '".

(** The filters [doc_id eq '...'] of OData: the value they compare with. *)
Definition odata_doc_id_filter (filter : string) : option string :=
  let l := String.list_ascii_of_string filter in
  if decide (take (length doc_id_eq) l = doc_id_eq) then String.string_of_list_ascii <$> odata_literal (drop (length doc_id_eq) l) else None.

(** The documents of an index, each the properties last written to it. A request that names
    each document once merges some of them; when it is answered there is a result per document,
    and a document whose result is a success was merged. A filter on [doc_id] finds the documents
    with that value, and a deletion removes some of the documents it names, those at least it
    reports as removed. *)
Class DocumentLaws {sdk : SearchSDK} (docs : sd_state → string → gmap string (gmap string jval)) : Prop := {
  upload_law n ds cs st : map doc_key ds = map Some cs → NoDup cs →
    let '(r, st') := sd_merge_or_upload_documents n ds st in
    (∀ c, docs st' n !! c = docs st n !! c ∨ ∃ d, d ∈ ds ∧ doc_key d = Some c ∧ docs st' n !! c = Some (merged d (docs st n !! c))) ∧
    ∀ rs, r = Ok rs → map (λ x, x.1.1) rs = cs ∧
      ∀ c d msg, (c, true, msg) ∈ rs → d ∈ ds → doc_key d = Some c → docs st' n !! c = Some (merged d (docs st n !! c));
  search_law n filter v select st l : odata_doc_id_filter filter = Some v → sd_search n filter select st = Ok l →
    ∃ found, found ≡ₚ base.filter (λ cm, cm.2 !! "doc_id" = Some (JStr v)) (map_to_list (docs st n)) ∧ l = map (λ cm, project select cm.2) found;
  delete_documents_law n ds cs st : map doc_key ds = map Some cs →
    let '(r, st') := sd_delete_documents n ds st in
    (∀ c, docs st' n !! c = docs st n !! c ∨ c ∈ cs ∧ docs st' n !! c = None) ∧
    ∀ rs, r = Ok rs → map (λ x, x.1.1) rs = cs ∧ ∀ c msg, (c, true, msg) ∈ rs → docs st' n !! c = None;
}.

(** A condition under which a deletion is all or nothing: the service never answers one with a
    failed result. It need not hold: the adapters' base class says that a store may fail per
    document within a batch. *)
Definition deletes_complete {sdk : SearchSDK} : Prop :=
  ∀ n ds st rs st', sd_delete_documents n ds st = (Ok rs, st') → Forall (λ x, x.1.2 = true) rs.

Lemma real_get_index_schema_ok {sdk : SearchSDK} indexes `{!SearchLaws indexes} n st :
  real_get_index_schema n st = Ok (indexes st !! n ≫= schema_of).
Proof.
  unfold real_get_index_schema. pose proof (get_index_law n st) as Hl. destruct (indexes st !! n) as [i|]; [by rewrite Hl|].
  destruct Hl as [m ->]. done.
Qed.

(** Creating an index, executed any number of times: the index becomes what was sent when one of
    the calls is answered, and at most that otherwise. *)
Lemma create_repeated {sdk : SearchSDK} indexes `{!SearchLaws indexes} index metric k st :
  let once := create_or_update (Some index) metric in
  let st' := Nat.iter k (λ s, (once s).2) st in
  (indexes st' = indexes st ∨ indexes st' = <[si_name index := index]> (indexes st)) ∧
  ∀ u st2, once st' = (Ok u, st2) → indexes st2 = <[si_name index := index]> (indexes st).
Proof.
  cbv zeta. cbn [create_or_update].
  assert (Hk : ∀ k, let st' := Nat.iter k (λ s, (sd_create_or_update_index index s).2) st in
    indexes st' = indexes st ∨ indexes st' = <[si_name index := index]> (indexes st)).
  { clear k. intros k. cbv zeta. induction k as [|k IH]; [by left|]. simpl. set (s := Nat.iter k _ st) in *. pose proof (create_or_update_law index s) as Hl.
    destruct (sd_create_or_update_index index s) as [[u|x] s']; simpl; [destruct Hl as [-> _]; right|by rewrite Hl].
    destruct IH as [->| ->]; [done|]. by rewrite insert_insert_eq. }
  split; [apply Hk|]. intros u st2 Hst2. specialize (Hk k). cbv zeta in Hk. set (s := Nat.iter k _ st) in *.
  pose proof (create_or_update_law index s) as Hl. rewrite Hst2 in Hl. destruct Hl as [-> _]. destruct Hk as [->| ->]; [done|]. by rewrite insert_insert_eq.
Qed.

(** An index that has a vector schema keeps it through every such call. *)
Lemma create_keeps_schema {sdk : SearchSDK} indexes `{!SearchLaws indexes} index metric k st n s :
  indexes st !! n ≫= schema_of = Some s →
  indexes (Nat.iter k (λ s, (create_or_update (Some index) metric s).2) st) !! n ≫= schema_of = Some s.
Proof.
  intros Hs. induction k as [|k IH]; [done|]. simpl. set (s0 := Nat.iter k _ st) in *. pose proof (create_or_update_law index s0) as Hl.
  destruct (sd_create_or_update_index index s0) as [[u|x] s']; simpl; [|by rewrite Hl]. destruct Hl as [-> Hold].
  destruct (decide (si_name index = n)) as [<-|]; [|by rewrite lookup_insert_ne]. rewrite lookup_insert_eq. simpl.
  destruct (indexes s0 !! si_name index) as [old|] eqn:Ho; [|done]. simpl in IH. destruct (Hold old eq_refl) as [Hn|Hn]; congruence.
Qed.
