(* ===== verification/MemorySearch.v ===== *)
(** * A search service in memory

    An executable instance of [SearchSDK] that keeps the laws assumed of Azure AI Search, for
    the concrete runs of the two adapters: documents with properties the index does not have are
    refused with 400, and the documents named in [stubborn] cannot be deleted. *)
From S2P Require Import Prelude PyDict Types Prog Net AzureSearch.
#[local] Open Scope Z_scope.

Record search_state := mkSearch { ms_indexes : gmap string SearchIndex; ms_docs : string → gmap string (gmap string jval) }.

Definition set_docs (n : string) (D : gmap string (gmap string jval)) (st : search_state) : search_state :=
  mkSearch (ms_indexes st) (λ n', if decide (n' = n) then D else ms_docs st n').

Definition memory_metric (m : string) : option string :=
  if decide (m ∈ ["cosine"; "euclidean"; "dotProduct"; "hamming"]) then Some m else None.

Definition memory_get_index (n : string) (st : search_state) : result exn SearchIndex :=
  match ms_indexes st !! n with Some i => Ok i | None => Exc (HttpResponseError (Some 404) None "not found") end.

Definition memory_create (i : SearchIndex) (st : search_state) : result exn unit * search_state :=
  match ms_indexes st !! si_name i ≫= schema_of with
  | Some s => if decide (Some s = schema_of i) then (Ok tt, mkSearch (<[si_name i := i]> (ms_indexes st)) (ms_docs st))
              else (Exc (HttpResponseError (Some 400) None "cannot change a vector field"), st)
  | None => (Ok tt, mkSearch (<[si_name i := i]> (ms_indexes st)) (ms_docs st))
  end.

Definition accepts (i : SearchIndex) (d : document) : bool :=
  bool_decide (is_Some (doc_key d)) && forallb (λ kv, bool_decide (kv.1 ∈ map sf_name (si_fields i))) d.

Definition store_doc (D : gmap string (gmap string jval)) (d : document) : gmap string (gmap string jval) :=
  match doc_key d with Some c => <[c := merged d (D !! c)]> D | None => D end.

Definition memory_upload (n : string) (ds : list document) (st : search_state) : result exn (list (string * bool * option string)) * search_state :=
  match ms_indexes st !! n with
  | None => (Exc (HttpResponseError (Some 404) None "not found"), st)
  | Some i => if forallb (accepts i) ds then (Ok (map (λ c, (c, true, None)) (omap doc_key ds)), set_docs n (fold_left store_doc ds (ms_docs st n)) st)
              else (Exc (HttpResponseError (Some 400) None "unknown property"), st)
  end.

Definition memory_delete_documents (stubborn : list string) (n : string) (ds : list document) (st : search_state)
    : result exn (list (string * bool * option string)) * search_state :=
  let cs := omap doc_key ds in
  (Ok (map (λ c, (c, bool_decide (c ∉ stubborn), None)) cs),
   set_docs n (base.filter (λ cm, cm.1 ∉ cs ∨ cm.1 ∈ stubborn) (ms_docs st n)) st).

Definition memory_find (n filter : string) (select : list string) (st : search_state) : result exn (list document) :=
  match odata_doc_id_filter filter with
  | Some v => Ok (map (λ cm, project select cm.2) (base.filter (λ cm, cm.2 !! "doc_id" = Some (JStr v)) (map_to_list (ms_docs st n))))
  | None => Exc (HttpResponseError (Some 400) None "invalid filter")
  end.

Definition memory_search (stubborn : list string) : SearchSDK := {|
  sd_state := search_state;
  sd_metric := memory_metric;
  sd_get_index := memory_get_index;
  sd_create_or_update_index := memory_create;
  sd_delete_index n st := (Ok tt, mkSearch (delete n (ms_indexes st)) (λ n', if decide (n' = n) then ∅ else ms_docs st n'));
  sd_merge_or_upload_documents := memory_upload;
  sd_delete_documents := memory_delete_documents stubborn;
  sd_search := memory_find;
|}.

Lemma memory_search_laws stubborn : SearchLaws (sdk := memory_search stubborn) ms_indexes.
Proof.
  constructor.
  - intros n st. simpl. unfold memory_get_index. destruct (ms_indexes st !! n); [done|]. eauto.
  - intros i st. simpl. unfold memory_create. destruct (ms_indexes st !! si_name i) as [old|] eqn:Hold; simpl.
    + destruct (schema_of old) as [s|] eqn:Hs; [case_decide as Hd|].
      * split; [done|]. intros ? [= <-]. right. by rewrite Hs.
      * done.
      * split; [done|]. intros ? [= <-]. by left.
    + done.
  - by intros n st.
Qed.

Lemma omap_doc_key ds cs : map doc_key ds = map Some cs → omap doc_key ds = cs.
Proof. revert cs. induction ds as [|d ds IH]; intros [|c cs] H; simplify_eq/=; [done|]. rewrite H. f_equal. by apply IH. Qed.

Lemma store_docs_lookup ds cs D c : map doc_key ds = map Some cs → NoDup cs →
  (c ∉ cs → fold_left store_doc ds D !! c = D !! c) ∧
  ∀ d, d ∈ ds → doc_key d = Some c → fold_left store_doc ds D !! c = Some (merged d (D !! c)).
Proof.
  revert cs D. induction ds as [|d ds IH]; intros [|c0 cs] D Hk Hnd; simplify_eq/=; [split; [done|set_solver]|].
  apply NoDup_cons in Hnd as [Hc0 Hnd]. unfold store_doc at 2 4. rewrite H.
  destruct (IH cs (<[c0:=merged d (D !! c0)]> D) H0 Hnd) as [IH1 IH2]. split.
  - intros [Hne Hni]%not_elem_of_cons. rewrite IH1 by done. by rewrite lookup_insert_ne.
  - intros e [->|He]%elem_of_cons Hkey.
    + assert (c0 = c) as -> by congruence. rewrite IH1 by done. by rewrite lookup_insert_eq.
    + rewrite (IH2 e He Hkey). rewrite lookup_insert_ne; [done|]. intros ->. apply Hc0.
      assert (Hin : Some c ∈ map Some cs) by (rewrite <- H0, <- Hkey; by apply (list_elem_of_fmap_2 doc_key)).
      apply list_elem_of_fmap in Hin as (c' & [= <-] & ?). done.
Qed.

Lemma elem_of_keys ds (cs : list string) c : map doc_key ds = map Some cs → c ∈ cs → ∃ d, d ∈ ds ∧ doc_key d = Some c.
Proof.
  intros Hk Hc. apply (list_elem_of_fmap_2 Some) in Hc. change (Some <$> cs) with (map Some cs) in Hc. rewrite <- Hk in Hc.
  apply list_elem_of_fmap in Hc as (d & ? & ?). eauto.
Qed.

Lemma memory_document_laws stubborn : DocumentLaws (sdk := memory_search stubborn) ms_docs.
Proof.
  constructor.
  - intros n ds cs st Hk Hnd. simpl. unfold memory_upload. destruct (ms_indexes st !! n) as [i|]; [|split; [by left|done]].
    destruct (forallb (accepts i) ds); [|split; [by left|done]].
    rewrite (omap_doc_key ds cs Hk). unfold set_docs. simpl. rewrite decide_True by done. split.
    + intros c. destruct (store_docs_lookup ds cs (ms_docs st n) c Hk Hnd) as [H1 H2].
      destruct (decide (c ∈ cs)) as [Hc|Hc]; [|left; by apply H1]. right. destruct (elem_of_keys ds cs c Hk Hc) as (d & ? & ?). eauto.
    + intros rs [= <-]. rewrite map_map. simpl. split; [apply map_id|]. intros c d msg _ Hd Hkey.
      by apply (store_docs_lookup ds cs (ms_docs st n) c Hk Hnd).
  - intros n filter v select st l Hf. simpl. unfold memory_find. rewrite Hf. intros [= <-]. by eexists.
  - intros n ds cs st Hk. simpl. rewrite (omap_doc_key ds cs Hk). rewrite decide_True by done. split.
    + intros c. rewrite map_lookup_filter. destruct (ms_docs st n !! c) as [m|]; simpl; [|by left].
      case_guard as Hg; simpl; [by left|]. right. split; [|done]. destruct (decide (c ∈ cs)); [done|]. exfalso. apply Hg. by left.
    + intros rs [= <-]. rewrite map_map. simpl. split; [apply map_id|]. intros c msg (c' & [= -> Hs ->] & Hc)%list_elem_of_fmap.
      symmetry in Hs. apply bool_decide_eq_true in Hs. rewrite map_lookup_filter. destruct (ms_docs st n !! c') as [m|]; simpl; [|done].
      case_guard as Hg; [|done]. exfalso. destruct Hg as [?|?]; done.
Qed.

Lemma memory_deletes_complete : deletes_complete (sdk := memory_search []).
Proof.
  intros n ds st rs st' [= <- <-]. apply Forall_forall. intros x (c & -> & _)%list_elem_of_fmap. done.
Qed.
