(* ===== verification/AzureIndexer.v ===== *)
(** * The Azure AI Search index adapter (src/vestibule/indexer/adapters/azure_ai_search.py,
      src/vestibule/indexer/adapters/_azure_search_backend.py)

    The adapter's methods are programs over requests to its backend, made with timeouts and
    retries; [serve] is the backend that translates them to the SDK. Under the service's laws
    the adapter's operations are those of a store of records, whatever the network does; a
    deletion removes what the service reports as removed. *)
From S2P Require Import Prelude PyDict Errors Types Prog System Net Indexer AzureSearch MemoryTable MemorySearch.
#[local] Open Scope Z_scope.
#[local] Open Scope py_scope.

Module AzureIndexer.
Import Indexer.

Definition _MAX_BATCH_SIZE : Z := 100.
Definition _MAX_RECORD_BYTES : Z := 16 * 1024 * 1024.
Definition _HTTP_TOO_MANY_REQUESTS : Z := 429.
Definition _HTTP_SERVER_ERROR_FLOOR : Z := 500.

Record _IndexDefinition := mkDefinition {
  df_index_name : string; df_dimensions : Z; df_metric : string; df_hnsw_m : Z; df_hnsw_ef_construction : Z; df_hnsw_ef_search : Z }.

(** ** The backend *)

(** The methods of [_SearchBackend], as requests. *)
Inductive searchQ : Type → Type :=
| get_index_schema (index_name : string) : searchQ (option (Z * string))
| create_or_update_index (definition : _IndexDefinition) : searchQ unit
| upload_documents (index_name : string) (documents : list document) : searchQ (list (string * bool * option string))
| delete_documents (index_name : string) (chunk_ids : list string) : searchQ unit
| documents_for_doc_id (index_name doc_id : string) : searchQ (list document).

Definition _build_fields (d : _IndexDefinition) : list SearchField :=
  [SimpleField "chunk_id" EdmString true false;
   mkSearchField "content" EdmString false true false None None;
   mkSearchField "content_vector" EdmSingleCollection false true false (Some (df_dimensions d)) (Some (profile_name (df_index_name d)));
   SimpleField "doc_id" EdmString false true;
   SimpleField "doc_version" EdmString false true;
   SimpleField "allowed_groups" EdmStringCollection false true;
   SimpleField "trust_tier" EdmString false true;
   SimpleField "config_version" EdmString false true].

(** [doc_id.replace("'", "''")]. *)
Fixpoint double_quotes (l : list ascii) : list ascii :=
  match l with
  | [] => []
  | c :: l' => if decide (c = "'"%char) then c :: c :: double_quotes l' else c :: double_quotes l'
  end.

Definition doc_id_filter (doc_id : string) : string :=
  "doc_id eq '" +:+ String.string_of_list_ascii (double_quotes (String.list_ascii_of_string doc_id)) +:+ "'".

Section backend.
Context {sdk : SearchSDK}.

(** [None] is the [ValueError] of an unknown metric. *)
Definition _build_vector_search (d : _IndexDefinition) : option VectorSearch :=
  (λ metric, mkVectorSearch
     [mkAlgorithm (algorithm_name (df_index_name d)) (df_hnsw_m d) (df_hnsw_ef_construction d) (df_hnsw_ef_search d) (Some metric)]
     [(profile_name (df_index_name d), algorithm_name (df_index_name d))]) <$> sd_metric (df_metric d).

Definition _build_search_index (d : _IndexDefinition) : option SearchIndex :=
  (λ v, mkSearchIndex (df_index_name d) (_build_fields d) (Some v) None) <$> _build_vector_search d.

Definition real_create_or_update_index (d : _IndexDefinition) (st : sd_state) : result exn unit * sd_state :=
  create_or_update (_build_search_index d) (df_metric d) st.

Definition real_delete_documents (index_name : string) (chunk_ids : list string) (st : sd_state) : result exn unit * sd_state :=
  match sd_delete_documents index_name (map (λ cid, [("chunk_id", JStr cid)]) chunk_ids) st with
  | (Ok _, st') => (Ok tt, st')
  | (Exc x, st') => (Exc x, st')
  end.

Definition real_documents_for_doc_id (index_name doc_id : string) (st : sd_state) : result exn (list document) :=
  sd_search index_name (doc_id_filter doc_id) ["chunk_id"; "doc_version"] st.

Definition serve (X : Type) (q : searchQ X) (st : sd_state) : result exn X * sd_state :=
  match q in searchQ X return result exn X * sd_state with
  | get_index_schema n => (real_get_index_schema n st, st)
  | create_or_update_index d => real_create_or_update_index d st
  | upload_documents n ds => sd_merge_or_upload_documents n ds st
  | delete_documents n cs => real_delete_documents n cs st
  | documents_for_doc_id n d => (real_documents_for_doc_id n d st, st)
  end.
End backend.

(** ** The adapter *)

Definition _map_status_to_error_code (status_code : option Z) : option string :=
  match status_code with
  | Some code =>
    if bool_decide (code = _HTTP_TOO_MANY_REQUESTS) then Some INDEXER_RATE_LIMITED
    else if bool_decide (_HTTP_SERVER_ERROR_FLOOR ≤ code) then Some INDEXER_UPSTREAM_ERROR else None
  | None => None
  end.

Definition _is_retryable (x : exn) : bool :=
  if is_backend_timeout x then true else
  match x with HttpResponseError code _ _ => bool_decide (is_Some (_map_status_to_error_code code)) | _ => false end.

(** What [_with_retry] makes of the exception that ends the retries. *)
Definition retry_error (x : exn) : exn :=
  if is_backend_timeout x then IndexerError "" (exn_str x) INDEXER_TIMEOUT else
  match x with
  | HttpResponseError code _ _ =>
    match _map_status_to_error_code code with Some c => IndexerError "" (exn_str x) c | None => x end
  | _ => x
  end.

(** [datetime.isoformat], [len(json.dumps(document).encode("utf-8"))], and [str] and [repr] of
    the values that only messages and impossible branches show. *)
Class DocumentCodec := {
  isoformat : Z → string;
  json_size : document → Z;
  jval_repr : jval → string;
  name_repr : string → string;
}.

(** The constructor's arguments. *)
Record AzureAISearchIndexer := mkAzure {
  az_index_name : string; az_hnsw_m : Z; az_hnsw_ef_construction : Z; az_hnsw_ef_search : Z; az_settings : RetrySettings }.

Notation sprog A := (prog (netE searchQ) A).

Section adapter.
Context {codec : DocumentCodec} {tenacity : Tenacity} (self : AzureAISearchIndexer).

Definition _record_to_document (r : IndexRecord) : document :=
  [("chunk_id", JStr (ir_chunk_id r)); ("doc_id", JStr (ir_doc_id r)); ("doc_version", JStr (ir_doc_version r));
   ("content", JStr (ir_text r)); ("content_vector", JFloats (ir_vector r)); ("position", JInt (ir_position r));
   ("section_path", match ir_section_path r with Some s => JStr s | None => JNull end);
   ("element_types", JStrs (ir_element_types r)); ("strategy", JStr (ir_strategy r));
   ("allowed_groups", JStrs (ir_allowed_groups r)); ("trust_tier", JStr (ir_trust_tier r));
   ("embedding_model", JStr (ir_embedding_model r)); ("embedding_dimensions", JInt (ir_embedding_dimensions r));
   ("config_version", JStr (ir_config_version r)); ("indexed_at", JStr (isoformat (ir_indexed_at r)))].

Definition too_large (r : IndexRecord) (size : Z) : exn :=
  IndexerError (ir_doc_id r)
    ("record chunk_id=" +:+ ir_chunk_id r +:+ " serialized size=" +:+ pretty size +:+ " bytes exceeds the store's "
     +:+ pretty _MAX_RECORD_BYTES +:+ "-byte limit") INDEXER_RECORD_TOO_LARGE.

Fixpoint check_sizes (pairs : list (IndexRecord * document)) : result exn unit :=
  match pairs with
  | [] => Ok tt
  | (r, d) :: rest => if bool_decide (_MAX_RECORD_BYTES < json_size d) then Exc (too_large r (json_size d)) else check_sizes rest
  end.

Definition _check_record_sizes (records : list IndexRecord) (documents : list document) : result exn unit :=
  rbind (zip_strict records documents) check_sizes.

Definition _with_retry {X} (q : searchQ X) : sprog X := with_retry (retry_after_aware (az_settings self)) _is_retryable retry_error q.

Definition schema_conflict (existing_dimensions : Z) (existing_metric : string) (dimensions : Z) (metric : string) : exn :=
  IndexerError ""
    ("index " +:+ name_repr (az_index_name self) +:+ " exists with dimensions=" +:+ pretty existing_dimensions +:+ " metric=" +:+ name_repr existing_metric
     +:+ "; requested dimensions=" +:+ pretty dimensions +:+ " metric=" +:+ name_repr metric) INDEXER_SCHEMA_CONFLICT.

Definition ensure_schema (dimensions : Z) (metric : string) : sprog unit :=
  existing ← _with_retry (get_index_schema (az_index_name self));
  match existing with
  | None =>
    _with_retry (create_or_update_index
      (mkDefinition (az_index_name self) dimensions metric (az_hnsw_m self) (az_hnsw_ef_construction self) (az_hnsw_ef_search self)))
  | Some (existing_dimensions, existing_metric) =>
    if bool_decide (existing_dimensions ≠ dimensions ∨ existing_metric ≠ metric)
    then Raise (schema_conflict existing_dimensions existing_metric dimensions metric) else Ret tt
  end.

(** The outcome read off the results; [msg or "upload failed"]. *)
Definition outcome_of (results : list (string * bool * option string)) : UpsertOutcome :=
  mkOutcome (map (λ x, x.1.1) (List.filter (λ x, x.1.2) results))
            (map (λ x, (x.1.1, py_or x.2 "upload failed")) (List.filter (λ x, negb x.1.2) results)).

Definition upsert (records : list IndexRecord) : sprog UpsertOutcome :=
  let documents := map _record_to_document records in
  lift (_check_record_sizes records documents) ;;
  results ← _with_retry (upload_documents (az_index_name self) documents);
  Ret (outcome_of results).

(** [str(v)]. *)
Definition jval_str (v : jval) : string :=
  match v with JStr s => s | JInt z => pretty z | JNull => "None" | _ => jval_repr v end.

(** [str(doc["chunk_id"])]. *)
Definition chunk_id_of (d : document) : result exn string :=
  match dict_get "chunk_id" d with Some v => Ok (jval_str v) | None => Exc (PyExc "KeyError" "'chunk_id'") end.

Definition delete_by_doc_id (doc_id : string) : sprog Z :=
  documents ← _with_retry (documents_for_doc_id (az_index_name self) doc_id);
  match documents with
  | [] => Ret 0
  | _ =>
    chunk_ids ← lift (rmap chunk_id_of documents);
    _with_retry (delete_documents (az_index_name self) chunk_ids) ;;
    Ret (Z.of_nat (length chunk_ids))
  end.

Definition count_by_doc_id (doc_id : string) : sprog Z :=
  documents ← _with_retry (documents_for_doc_id (az_index_name self) doc_id);
  Ret (Z.of_nat (length documents)).

Definition get_doc_version (doc_id : string) : sprog (option string) :=
  documents ← _with_retry (documents_for_doc_id (az_index_name self) doc_id);
  match documents with
  | [] => Ret None
  | d :: _ => Ret (Some (match dict_get "doc_version" d with Some v => jval_str v | None => "None" end))
  end.

(** The environment of the pipeline with this adapter. *)
Definition azure_env {sdk : SearchSDK} (fates : nat → fate) (utc : nat → Z) (base : Env) : Env := {|
  clock := @clock base; str_repr := @str_repr base; meta_repr := @meta_repr base;
  index_state := nworld searchQ sd_state;
  ix_upsert rs w := run (nhandle serve fates utc) (upsert rs) w;
  ix_delete_by_doc_id d w := run (nhandle serve fates utc) (delete_by_doc_id d) w;
  ix_get_doc_version d w := run (nhandle serve fates utc) (get_doc_version d) w;
  ix_index_name := az_index_name self;
  ix_max_batch_size := _MAX_BATCH_SIZE;
  embed_state := @embed_state base; ea_embed_batch := @ea_embed_batch base; ea_model_name := @ea_model_name base;
  ea_max_batch_size := @ea_max_batch_size base; ea_max_input_tokens := @ea_max_input_tokens base;
  ea_supports_mrl := @ea_supports_mrl base; ea_document_prefix := @ea_document_prefix base;
  scenario_state := @scenario_state base; ss_get := @ss_get base; ss_get_by_vertical := @ss_get_by_vertical base;
|}.
End adapter.

(** ** The filter *)

Lemma list_ascii_app s1 s2 : String.list_ascii_of_string (s1 +:+ s2) = String.list_ascii_of_string s1 ++ String.list_ascii_of_string s2.
Proof. induction s1 as [|c s1 IH]; [done|]. simpl. by rewrite IH. Qed.

Lemma odata_literal_double l : odata_literal (double_quotes l ++ ["'"%char]) = Some l.
Proof.
  induction l as [|c l IH]; [done|]. simpl. case_decide as Hc; simpl.
  - subst c. rewrite !decide_True by done. by rewrite IH.
  - rewrite decide_False by done. by rewrite IH.
Qed.

(** The filter for a document id compares with exactly that id, whatever quotes it has. *)
Lemma doc_id_filter_exact d : odata_doc_id_filter (doc_id_filter d) = Some d.
Proof.
  unfold odata_doc_id_filter, doc_id_filter. cbv zeta. rewrite !list_ascii_app, String.list_ascii_of_string_of_list_ascii.
  fold doc_id_eq. rewrite take_app_length, decide_True by done. rewrite drop_app_length. simpl (String.list_ascii_of_string "'").
  rewrite odata_literal_double. simpl. by rewrite String.string_of_list_ascii_of_string.
Qed.

(** ** The stored records *)

Section laws.
Context {sdk : SearchSDK} (docs : sd_state → string → gmap string (gmap string jval)) {doc_laws : DocumentLaws docs}.
Context {codec : DocumentCodec} (fromisoformat : string → option Z) (iso_roundtrip : ∀ t, fromisoformat (isoformat t) = Some t).
Context {tenacity : Tenacity} (self : AzureAISearchIndexer) (fates : nat → fate) (utc : nat → Z) (base : Env).

Notation name := (az_index_name self).
Notation nh := (nhandle serve fates utc).

Definition str_of (o : option jval) : option string := match o with Some (JStr s) => Some s | _ => None end.
Definition int_of (o : option jval) : option Z := match o with Some (JInt z) => Some z | _ => None end.
Definition strs_of (o : option jval) : option (list string) := match o with Some (JStrs l) => Some l | _ => None end.
Definition floats_of (o : option jval) : option (list pyfloat) := match o with Some (JFloats l) => Some l | _ => None end.
Definition opt_str_of (o : option jval) : option (option string) := match o with Some (JStr s) => Some (Some s) | Some JNull => Some None | _ => None end.

(** The record a document stands for. *)
Definition doc_record (m : gmap string jval) : option IndexRecord :=
  str_of (m !! "chunk_id") ≫= λ chunk_id, str_of (m !! "doc_id") ≫= λ doc_id, str_of (m !! "doc_version") ≫= λ doc_version,
  floats_of (m !! "content_vector") ≫= λ vector, str_of (m !! "content") ≫= λ text, int_of (m !! "position") ≫= λ position,
  opt_str_of (m !! "section_path") ≫= λ section_path, strs_of (m !! "element_types") ≫= λ element_types,
  str_of (m !! "strategy") ≫= λ strategy, strs_of (m !! "allowed_groups") ≫= λ allowed_groups, str_of (m !! "trust_tier") ≫= λ trust_tier,
  str_of (m !! "embedding_model") ≫= λ embedding_model, int_of (m !! "embedding_dimensions") ≫= λ embedding_dimensions,
  str_of (m !! "config_version") ≫= λ config_version, (str_of (m !! "indexed_at") ≫= fromisoformat) ≫= λ indexed_at,
  Some (mkRecord chunk_id doc_id doc_version vector text position section_path element_types strategy allowed_groups trust_tier
          embedding_model embedding_dimensions config_version indexed_at).

Definition record_map (r : IndexRecord) : gmap string jval := list_to_map (_record_to_document r).

Lemma doc_record_map r : doc_record (record_map r) = Some r.
Proof.
  unfold doc_record, record_map, _record_to_document. simplify_map_eq. cbn [str_of floats_of int_of strs_of opt_str_of mbind option_bind].
  rewrite iso_roundtrip. destruct r as [? ? ? ? ? ? [sp|] ? ? ? ? ? ? ? ?]; done.
Qed.

Lemma record_map_dom r r0 : dom (record_map r) = dom (record_map r0).
Proof. unfold record_map. rewrite !dom_list_to_map_L. done. Qed.

(** A record's document replaces whatever record was there. *)
Lemma merged_record r (o : option (gmap string jval)) : (∀ m, o = Some m → ∃ r0, m = record_map r0) → merged (_record_to_document r) o = record_map r.
Proof.
  intros Ho. unfold merged. fold (record_map r). destruct o as [m|]; simpl; [|apply (right_id_L ∅ (∪))].
  destruct (Ho m eq_refl) as [r0 ->]. apply map_eq. intros k. rewrite lookup_union.
  pose proof (record_map_dom r r0) as Hdom. destruct (record_map r !! k) eqn:Hr; [by destruct (record_map r0 !! k)|].
  apply not_elem_of_dom in Hr. rewrite Hdom in Hr. apply not_elem_of_dom in Hr. by rewrite Hr.
Qed.

Lemma record_map_lookup r :
  record_map r !! "chunk_id" = Some (JStr (ir_chunk_id r)) ∧ record_map r !! "doc_id" = Some (JStr (ir_doc_id r)) ∧
  record_map r !! "doc_version" = Some (JStr (ir_doc_version r)).
Proof. unfold record_map, _record_to_document. by simplify_map_eq. Qed.

#[local] Opaque record_map.

(** Every document of the index is a record's. *)
Definition docs_ok (w : nworld searchQ sd_state) : Prop :=
  ∀ c m, docs (nw_state w) name !! c = Some m → ∃ r, m = record_map r ∧ ir_chunk_id r = c.

Definition azure_stored (w : nworld searchQ sd_state) (c : string) : option IndexRecord := docs (nw_state w) name !! c ≫= doc_record.

(** ** Requests executed several times *)

(** Some of the documents [ds] have been merged. *)
Definition uploaded (ds : list document) (st st' : sd_state) : Prop :=
  ∀ c, docs st' name !! c = docs st name !! c ∨ ∃ d, d ∈ ds ∧ doc_key d = Some c ∧ docs st' name !! c = Some (merged d (docs st name !! c)).

Lemma merged_twice d o : merged d (Some (merged d o)) = merged d o.
Proof. unfold merged. simpl. by rewrite (assoc_L (∪)), (idemp_L (∪)). Qed.

Lemma doc_key_inj ds cs d d' c : map doc_key ds = map Some cs → NoDup cs → d ∈ ds → d' ∈ ds → doc_key d = Some c → doc_key d' = Some c → d = d'.
Proof.
  intros Hk Hnd [i Hi]%list_elem_of_lookup [j Hj]%list_elem_of_lookup Hd Hd'.
  assert (∀ i d, ds !! i = Some d → doc_key d = Some c → cs !! i = Some c) as Hl.
  { intros i' e He Hc. change (doc_key <$> ds = Some <$> cs) in Hk. apply (f_equal (.!! i')) in Hk.
    rewrite !list_lookup_fmap, He in Hk. simpl in Hk. destruct (cs !! i'); simplify_eq/=; congruence. }
  assert (i = j) as ->; [|congruence]. eapply NoDup_lookup; [exact Hnd|by eapply Hl|by eapply Hl].
Qed.

Lemma uploaded_trans ds cs st1 st2 st3 :
  map doc_key ds = map Some cs → NoDup cs → uploaded ds st1 st2 → uploaded ds st2 st3 → uploaded ds st1 st3.
Proof.
  intros Hk Hnd H12 H23 c. destruct (H23 c) as [->|(d & Hd & Hc & ->)]; [apply H12|]. right. exists d. split_and!; [done..|].
  destruct (H12 c) as [->|(d' & Hd' & Hc' & ->)]; [done|].
  assert (d' = d) as -> by by eapply doc_key_inj. by rewrite merged_twice.
Qed.

Lemma upload_served ds cs k st :
  map doc_key ds = map Some cs → NoDup cs → uploaded ds st (served serve (upload_documents name ds) k st).
Proof.
  intros Hk Hnd. revert st. induction k as [|k IH]; intros st; [by intros c; left|]. rewrite (served_S serve _ k).
  eapply uploaded_trans; [done|done| |apply IH]. simpl. pose proof (upload_law name ds cs st Hk Hnd) as H.
  destruct (sd_merge_or_upload_documents name ds st). exact (proj1 H).
Qed.

(** Some of the documents [cs] have been removed. *)
Lemma delete_served cs k st c :
  let st' := served serve (delete_documents name cs) k st in docs st' name !! c = docs st name !! c ∨ c ∈ cs ∧ docs st' name !! c = None.
Proof.
  revert st. induction k as [|k IH]; intros st; [by left|]. cbv zeta. rewrite (served_S serve _ k). simpl.
  assert (Hkeys : map doc_key (map (λ cid, [("chunk_id", JStr cid)]) cs) = map Some cs) by by rewrite map_map.
  pose proof (delete_documents_law name _ cs st Hkeys) as H. unfold real_delete_documents.
  destruct (sd_delete_documents name _ st) as [[rs|x] st1]; simpl; destruct H as [H _].
  all: destruct (IH st1) as [->|[? ?]]; [apply H|by right].
Qed.

Lemma search_served d k st : served serve (documents_for_doc_id name d) k st = st.
Proof. induction k as [|k IH]; [done|]. rewrite (served_snoc serve). simpl. apply IH. Qed.

(** ** The operations of the laws *)

Lemma check_sizes_ok rs : check_sizes (zip rs (map _record_to_document rs)) = Ok tt ↔ Forall (λ r, json_size (_record_to_document r) ≤ _MAX_RECORD_BYTES) rs.
Proof.
  induction rs as [|r rs IH]; [done|]. simpl. rewrite Forall_cons. case_bool_decide; [|rewrite IH; naive_solver lia]. split; [done|lia].
Qed.

Lemma check_record_sizes_eq rs : _check_record_sizes rs (map _record_to_document rs) = check_sizes (zip rs (map _record_to_document rs)).
Proof. unfold _check_record_sizes, zip_strict. by rewrite bool_decide_eq_true_2 by (by rewrite length_map). Qed.

Lemma upsert_run rs w o w' :
  run nh (upsert self rs) w = (Ok o, w') →
  ∃ k results, o = outcome_of results ∧
    (serve _ (upload_documents name (map _record_to_document rs)) (served serve (upload_documents name (map _record_to_document rs)) k (nw_state w)))
    = (Ok results, nw_state w').
Proof.
  unfold upsert. cbv zeta. rewrite run_bind, run_lift. destruct (_check_record_sizes _ _) as [[]|x]; [|done].
  rewrite run_bind. pose proof (run_with_retry serve fates utc (retry_after_aware (az_settings self)) _is_retryable retry_error _
    (upload_documents name (map _record_to_document rs)) w) as H.
  fold (_with_retry self (upload_documents name (map _record_to_document rs))) in H.
  destruct (run nh (_with_retry self _) w) as [[results|x] w1]; [|done]. destruct H as (k & calls & _ & _ & _ & Hok & Hst).
  intros Heq. assert (o = outcome_of results) as -> by (apply (f_equal fst) in Heq; cbn [run fst] in Heq; congruence).
  assert (w' = w1) as -> by (apply (f_equal snd) in Heq; cbn [run snd] in Heq; congruence).
  exists k, results. split; [done|]. rewrite Hst, served_snoc. destruct (serve _ _ _) as [r st]. simpl in *. by rewrite Hok.
Qed.

Lemma outcome_success (results : list (string * bool * option string)) c : c ∈ map (λ x, x.1.1) results → c ∉ map fst (up_failed (outcome_of results)) → ∃ msg, (c, true, msg) ∈ results.
Proof.
  intros ([[c' b] msg] & -> & Hin)%list_elem_of_fmap Hnf. simpl in *. destruct b; [by exists msg|]. exfalso. apply Hnf.
  rewrite map_map. simpl. apply list_elem_of_fmap. exists (c', false, msg). split; [done|]. apply list_elem_of_In, filter_In. by rewrite <- list_elem_of_In.
Qed.

Definition of_doc (d : string) (cm : string * gmap string jval) : Prop := cm.2 !! "doc_id" = Some (JStr d).

#[local] Instance of_doc_dec d cm : Decision (of_doc d cm).
Proof. unfold of_doc. apply _. Defined.

Lemma search_run d w r w' :
  run nh (_with_retry self (documents_for_doc_id name d)) w = (r, w') →
  nw_state w' = nw_state w ∧ ∀ l, r = Ok l →
  ∃ found, found ≡ₚ filter (of_doc d) (map_to_list (docs (nw_state w) name)) ∧ l = map (λ cm, project ["chunk_id"; "doc_version"] cm.2) found.
Proof.
  intros Hrun. pose proof (run_with_retry serve fates utc (retry_after_aware (az_settings self)) _is_retryable retry_error _ (documents_for_doc_id name d) w) as H.
  unfold _with_retry in Hrun. rewrite Hrun in H. destruct H as (k & calls & _ & _ & _ & H). destruct r as [l|x].
  - destruct H as [Hok Hst]. rewrite search_served in Hok, Hst. split; [done|]. intros ? [= <-].
    apply (search_law name (doc_id_filter d) d _ _ _ (doc_id_filter_exact d) Hok).
  - destruct H as [Hst _]. rewrite search_served in Hst. done.
Qed.

Lemma found_iff d (w : nworld searchQ sd_state) found c m :
  found ≡ₚ filter (of_doc d) (map_to_list (docs (nw_state w) name)) →
  (c, m) ∈ found ↔ docs (nw_state w) name !! c = Some m ∧ m !! "doc_id" = Some (JStr d).
Proof. intros ->. rewrite list_elem_of_filter, elem_of_map_to_list. unfold of_doc. simpl. tauto. Qed.

Lemma found_chunk_ids d w found :
  docs_ok w → found ≡ₚ filter (of_doc d) (map_to_list (docs (nw_state w) name)) →
  rmap chunk_id_of (map (λ cm, project ["chunk_id"; "doc_version"] cm.2) found) = Ok (map fst found).
Proof.
  intros Hok Hf. assert (Hall : ∀ c m, (c, m) ∈ found → m !! "chunk_id" = Some (JStr c)).
  { intros c m Hin. apply (found_iff d w found c m Hf) in Hin as [Hin _]. destruct (Hok c m Hin) as (r & -> & <-). apply record_map_lookup. }
  clear Hf. induction found as [|[c m] found IH]; [done|]. cbn [map rmap snd fst].
  assert (chunk_id_of (project ["chunk_id"; "doc_version"] m) = Ok c) as ->.
  { unfold project. simpl. by rewrite (Hall c m) by set_solver. }
  cbn [rbind]. by rewrite IH by set_solver.
Qed.

(** A stored record's document. *)
Lemma stored_iff w c r : docs_ok w → azure_stored w c = Some r ↔ docs (nw_state w) name !! c = Some (record_map r) ∧ ir_chunk_id r = c.
Proof.
  intros Hok. unfold azure_stored. destruct (docs (nw_state w) name !! c) as [m|] eqn:Hm; simpl; [|naive_solver].
  destruct (Hok c m Hm) as (r0 & -> & <-). rewrite doc_record_map. split.
  - intros Heq. assert (r0 = r) as -> by congruence. split; reflexivity.
  - intros [Heq _]. apply (f_equal (mbind doc_record)) in Heq. cbn [mbind option_bind] in Heq. by rewrite !doc_record_map in Heq.
Qed.

Lemma azure_upsert_law w rs o w' :
  docs_ok w → NoDup (map ir_chunk_id rs) → run nh (upsert self rs) w = (Ok o, w') →
  docs_ok w' ∧
  (∀ r, r ∈ rs → ir_chunk_id r ∉ map fst (up_failed o) → azure_stored w' (ir_chunk_id r) = Some r) ∧
  (∀ r, r ∈ rs → azure_stored w' (ir_chunk_id r) = Some r ∨ azure_stored w' (ir_chunk_id r) = azure_stored w (ir_chunk_id r)) ∧
  (∀ c, c ∉ map ir_chunk_id rs → azure_stored w' c = azure_stored w c).
Proof.
  intros Hok Hnd Hrun. destruct (upsert_run rs w o w' Hrun) as (k & results & -> & Hserve). simpl in Hserve.
  set (ds := map _record_to_document rs) in *. set (cs := map ir_chunk_id rs) in *.
  assert (Hk : map doc_key ds = map Some cs) by (unfold ds, cs; by rewrite !map_map).
  pose proof (upload_served ds cs k (nw_state w) Hk Hnd) as H0. pose proof (upload_law name ds cs (served serve (upload_documents name ds) k (nw_state w)) Hk Hnd) as H1.
  rewrite Hserve in H1. destruct H1 as [H1 H2]. destruct (H2 results eq_refl) as [Hcs Hsucc]. clear H2.
  pose proof (uploaded_trans ds cs _ _ _ Hk Hnd H0 H1) as Hup.
  assert (Hmerge : ∀ d c, d ∈ ds → doc_key d = Some c → ∃ r, r ∈ rs ∧ ir_chunk_id r = c ∧ merged d (docs (nw_state w) name !! c) = record_map r).
  { intros d c (r & -> & Hr)%list_elem_of_fmap [= <-]. exists r. split_and!; [done..|]. apply merged_record.
    intros m Hm. destruct (Hok _ _ Hm) as (r0 & ? & _). eauto. }
  assert (Hst : ∀ c, docs (nw_state w') name !! c = docs (nw_state w) name !! c ∨
                     ∃ r, r ∈ rs ∧ ir_chunk_id r = c ∧ docs (nw_state w') name !! c = Some (record_map r)).
  { intros c. destruct (Hup c) as [?|(d & Hd & Hc & Heq)]; [by left|]. destruct (Hmerge d c Hd Hc) as (r & ? & ? & Hr). rewrite Hr in Heq. eauto. }
  assert (Huniq : ∀ r r', r ∈ rs → r' ∈ rs → ir_chunk_id r = ir_chunk_id r' → r = r') by (intros ?????; by eapply NoDup_map_inj).
  split_and!.
  - intros c m Hm. destruct (Hst c) as [Heq|(r & _ & Hc & Heq)]; rewrite Heq in Hm; [by apply Hok|]. simplify_eq. eauto.
  - intros r Hr Hnf. destruct (outcome_success results (ir_chunk_id r)) as [msg Hmsg]; [rewrite Hcs; by apply (list_elem_of_fmap_2 ir_chunk_id)|done|].
    assert (Hd : _record_to_document r ∈ ds) by by apply (list_elem_of_fmap_2 _record_to_document).
    pose proof (Hsucc _ _ _ Hmsg Hd eq_refl) as Heq. unfold azure_stored. rewrite Heq. simpl.
    rewrite merged_record; [apply doc_record_map|]. intros m Hm. destruct (H0 (ir_chunk_id r)) as [He|(d & Hd' & Hc & He)]; rewrite He in Hm.
    + destruct (Hok _ _ Hm) as (r0 & ? & _). eauto.
    + destruct (Hmerge d _ Hd' Hc) as (r0 & _ & _ & Hr0). simplify_eq. eauto.
  - intros r Hr. unfold azure_stored. destruct (Hst (ir_chunk_id r)) as [->|(r' & Hr' & Hc & ->)]; [by right|]. left.
    simpl. rewrite doc_record_map. f_equal. by apply Huniq.
  - intros c Hc. unfold azure_stored. destruct (Hst c) as [->|(r & Hr & <- & _)]; [done|]. exfalso. apply Hc. by apply (list_elem_of_fmap_2 ir_chunk_id).
Qed.

Lemma azure_version_law w d v w' :
  docs_ok w → run nh (get_doc_version self d) w = (Ok v, w') →
  nw_state w' = nw_state w ∧
  match v with
  | None => ∀ c r, azure_stored w c = Some r → ir_doc_id r ≠ d
  | Some x => ∃ c r, azure_stored w c = Some r ∧ ir_doc_id r = d ∧ ir_doc_version r = x
  end.
Proof.
  intros Hok. unfold get_doc_version. rewrite run_bind. destruct (run nh (_with_retry self _) w) as [r w1] eqn:Hrun.
  destruct (search_run d w r w1 Hrun) as [Hst Hfound]. destruct r as [l|x]; [|done]. destruct (Hfound l eq_refl) as (found & Hf & ->).
  destruct found as [|[c m] found]; cbn [map run]; intros Heq.
  - assert (v = None ∧ w' = w1) as [-> ->] by (split; congruence). split; [done|]. intros c r Hr Hd.
    apply stored_iff in Hr as [Hr _]; [|done]. apply (not_elem_of_nil (c, record_map r)), (found_iff d w _ _ _ Hf). split; [done|].
    rewrite <- Hd. apply record_map_lookup.
  - assert (Hin : (c, m) ∈ (c, m) :: found) by set_solver. apply (found_iff d w _ _ _ Hf) in Hin as [Hc Hd].
    destruct (Hok c m Hc) as (r & -> & Hrc). destruct (record_map_lookup r) as (H1 & H2 & H3).
    assert (v = Some (ir_doc_version r) ∧ w' = w1) as [-> ->].
    { split; [|congruence]. apply (f_equal fst) in Heq. cbn [fst] in Heq. unfold project in Heq. simpl in Heq. rewrite H1, H3 in Heq. simpl in Heq. congruence. }
    split; [done|]. exists c, r. split_and!; [by apply stored_iff|congruence|done].
Qed.

(** A deletion that is answered, after any number of executions: what the service reports as
    removed is gone, and nothing changes but documents it names. *)
Lemma delete_answered cs w u w' :
  run nh (_with_retry self (delete_documents name cs)) w = (Ok u, w') →
  ∃ executed results,
    sd_delete_documents name (map (λ c, [("chunk_id", JStr c)]) cs) (served serve (delete_documents name cs) executed (nw_state w)) = (Ok results, nw_state w') ∧
    map (λ x, x.1.1) results = cs ∧ (∀ c msg, (c, true, msg) ∈ results → docs (nw_state w') name !! c = None) ∧
    ∀ c, docs (nw_state w') name !! c = docs (nw_state w) name !! c ∨ c ∈ cs ∧ docs (nw_state w') name !! c = None.
Proof.
  intros Hrun. pose proof (run_with_retry serve fates utc (retry_after_aware (az_settings self)) _is_retryable retry_error _ (delete_documents name cs) w) as H.
  unfold _with_retry in Hrun. rewrite Hrun in H. destruct H as (k & calls & _ & _ & _ & Hans & Hst). exists k.
  pose proof (delete_served cs k (nw_state w)) as Hk. cbv zeta in Hk. rewrite served_snoc in Hst.
  set (st := served serve (delete_documents name cs) k (nw_state w)) in *.
  assert (Hkeys : map doc_key (map (λ cid, [("chunk_id", JStr cid)]) cs) = map Some cs) by by rewrite !map_map.
  pose proof (delete_documents_law name _ _ st Hkeys) as Hl. cbn [serve] in *. unfold real_delete_documents in *.
  destruct (sd_delete_documents name _ st) as [[rs|x] st'] eqn:Hdel; [|done]. cbn [snd] in Hst. rewrite Hst. exists rs. destruct Hl as [Hsome Hrs].
  destruct (Hrs rs eq_refl) as [Hids Hgone]. split_and!; [done..|]. intros c.
  destruct (Hsome c) as [->|[? ->]]; [|by right]. apply Hk.
Qed.

Lemma delete_run cs w u w' :
  deletes_complete → run nh (_with_retry self (delete_documents name cs)) w = (Ok u, w') →
  ∀ c, docs (nw_state w') name !! c = if decide (c ∈ cs) then None else docs (nw_state w) name !! c.
Proof.
  intros Hcomplete (k & rs & Hdel & <- & Hgone & Hsome)%delete_answered c. case_decide as Hin.
  - apply list_elem_of_fmap in Hin as ([[c' b] msg] & -> & Hin). pose proof (Hcomplete _ _ _ _ _ Hdel) as Hall.
    rewrite Forall_forall in Hall. specialize (Hall _ Hin). simpl in *. subst b. by eapply Hgone.
  - by destruct (Hsome c) as [->|[? ?]].
Qed.

(** Removing the documents found for [d] removes the records of [d]. *)
Lemma delete_view d (w w' : nworld searchQ sd_state) found :
  docs_ok w → found ≡ₚ filter (of_doc d) (map_to_list (docs (nw_state w) name)) →
  (∀ c, docs (nw_state w') name !! c = if decide (c ∈ map fst found) then None else docs (nw_state w) name !! c) →
  docs_ok w' ∧ ∀ c, azure_stored w' c = match azure_stored w c with Some r => if decide (ir_doc_id r = d) then None else Some r | None => None end.
Proof.
  intros Hok Hf Hdocs. split.
  - intros c m. rewrite Hdocs. case_decide; [done|]. apply Hok.
  - intros c. unfold azure_stored at 1. rewrite Hdocs. destruct (azure_stored w c) as [r|] eqn:Hr; [|case_decide; [done|exact Hr]].
    pose proof Hr as Hr'. apply stored_iff in Hr' as [Hm _]; [|done]. assert (Hiff : ir_doc_id r = d ↔ c ∈ map fst found).
    { rewrite list_elem_of_fmap. destruct (record_map_lookup r) as (_ & H2 & _). split.
      - intros <-. exists (c, record_map r). split; [done|]. by apply (found_iff (ir_doc_id r) w _ _ _ Hf).
      - intros ([c' m] & -> & Hin). apply (found_iff d w _ _ _ Hf) in Hin as [H3 H4]. simpl in *. congruence. }
    destruct (decide (ir_doc_id r = d)); [rewrite decide_True by tauto; done|]. rewrite decide_False by tauto. exact Hr.
Qed.

Lemma azure_delete_law w d n w' :
  deletes_complete → docs_ok w → run nh (delete_by_doc_id self d) w = (Ok n, w') →
  docs_ok w' ∧ ∀ c, azure_stored w' c = match azure_stored w c with Some r => if decide (ir_doc_id r = d) then None else Some r | None => None end.
Proof.
  intros Hcomplete Hok. unfold delete_by_doc_id. rewrite run_bind. destruct (run nh (_with_retry self _) w) as [r w1] eqn:Hrun.
  destruct (search_run d w r w1 Hrun) as [Hst Hfound]. destruct r as [l|x]; [|done]. destruct (Hfound l eq_refl) as (found & Hf & ->).
  pose proof (found_chunk_ids d w found Hok Hf) as Hids. destruct found as [|cm found].
  - cbn [map run]. intros Heq. assert (w' = w1) as -> by congruence. apply (delete_view d w w1 [] Hok Hf). intros c. by rewrite Hst.
  - cbn [map] in Hids |- *. rewrite run_bind, run_lift, Hids, run_bind.
    destruct (run nh (_with_retry self (delete_documents _ _)) w1) as [[u|x] w2] eqn:Hdel; [|done]. intros Heq.
    assert (w' = w2) as -> by (apply (f_equal snd) in Heq; cbn [run snd] in Heq; congruence). apply (delete_view d w w2 _ Hok Hf).
    rewrite <- Hst. by apply (delete_run _ w1 u).
Qed.

(** The chunk ids of the records of a document, each once. *)
Definition records_of (w : nworld searchQ sd_state) (d : string) (ids : list string) : Prop :=
  NoDup ids ∧ ∀ c, c ∈ ids ↔ ∃ r, azure_stored w c = Some r ∧ ir_doc_id r = d.

Lemma found_records_of d w found :
  docs_ok w → found ≡ₚ filter (of_doc d) (map_to_list (docs (nw_state w) name)) → records_of w d (map fst found).
Proof.
  intros Hok Hf. split.
  - change (NoDup found.*1). rewrite Hf. eapply NoDup_submseteq_of; [apply fmap_submseteq, sublist_submseteq, sublist_filter|apply NoDup_fst_map_to_list].
  - intros c. rewrite list_elem_of_fmap. split.
    + intros ([c' m] & -> & Hin). apply (found_iff d w _ _ _ Hf) in Hin as [Hm Hd]. destruct (Hok _ _ Hm) as (r & -> & Hc).
      exists r. destruct (record_map_lookup r) as (_ & H2 & _). split; [by apply stored_iff|congruence].
    + intros (r & Hr & <-). apply stored_iff in Hr as [Hm _]; [|done]. exists (c, record_map r). split; [done|].
      apply (found_iff _ w _ _ _ Hf). split; [done|]. apply record_map_lookup.
Qed.

(** Counting: the number of the document's records. *)
Lemma azure_count w d n w' :
  docs_ok w → run nh (count_by_doc_id self d) w = (Ok n, w') →
  nw_state w' = nw_state w ∧ ∃ ids, records_of w d ids ∧ n = Z.of_nat (length ids).
Proof.
  intros Hok. unfold count_by_doc_id. rewrite run_bind. destruct (run nh (_with_retry self _) w) as [r w1] eqn:Hrun.
  destruct (search_run d w r w1 Hrun) as [Hst Hfound]. destruct r as [l|x]; [|done]. destruct (Hfound l eq_refl) as (found & Hf & ->).
  cbn [run]. intros Heq. assert (n = Z.of_nat (length found) ∧ w' = w1) as [-> ->] by (rewrite length_map in Heq; split; congruence).
  split; [done|]. exists (map fst found). split; [by apply found_records_of|by rewrite length_map].
Qed.

(** What a returned deletion has done: it has asked the service to delete exactly the document's
    records, and returns their number. A record whose result the service reports as a success is
    gone; one reported as a failure may still be there, unchanged; no other record changes. *)
Definition deleted_as_reported (d : string) (n : Z) (w w' : nworld searchQ sd_state) : Prop :=
  ∃ ids results, records_of w d ids ∧ n = Z.of_nat (length ids) ∧ map (λ x, x.1.1) results = ids ∧
    (ids ≠ [] → ∃ executed, sd_delete_documents name (map (λ c, [("chunk_id", JStr c)]) ids)
                              (served serve (delete_documents name ids) executed (nw_state w)) = (Ok results, nw_state w')) ∧
    (∀ c msg, (c, true, msg) ∈ results → azure_stored w' c = None) ∧
    (∀ c, c ∈ ids → azure_stored w' c = None ∨ azure_stored w' c = azure_stored w c) ∧
    (∀ c, c ∉ ids → azure_stored w' c = azure_stored w c).

Lemma azure_delete_reported w d n w' :
  docs_ok w → run nh (delete_by_doc_id self d) w = (Ok n, w') → docs_ok w' ∧ deleted_as_reported d n w w'.
Proof.
  intros Hok. unfold delete_by_doc_id. rewrite run_bind. destruct (run nh (_with_retry self _) w) as [r w1] eqn:Hrun.
  destruct (search_run d w r w1 Hrun) as [Hst Hfound]. destruct r as [l|x]; [|done]. destruct (Hfound l eq_refl) as (found & Hf & ->).
  pose proof (found_chunk_ids d w found Hok Hf) as Hids. pose proof (found_records_of d w found Hok Hf) as Hrec. destruct found as [|cm found].
  - cbn [map run]. intros Heq. assert (n = 0 ∧ w' = w1) as [-> ->] by (split; congruence). unfold docs_ok, azure_stored. rewrite Hst. split; [done|].
    exists [], []. split_and!; try done; [intros c msg []%elem_of_nil|intros c []%elem_of_nil|intros c _; unfold azure_stored; by rewrite Hst].
  - cbn [map] in Hids |- *. rewrite run_bind, run_lift, Hids, run_bind. change (cm.1 :: map fst found) with (map fst (cm :: found)).
    destruct (run nh (_with_retry self (delete_documents _ _)) w1) as [[u|x] w2] eqn:Hdel; [|done]. intros Heq.
    assert (n = Z.of_nat (length (map fst (cm :: found))) ∧ w' = w2) as [-> ->] by (cbn [run] in Heq; split; congruence).
    apply delete_answered in Hdel as (k & rs & Hd & Hmap & Hgone & Hsome). rewrite Hst in Hd, Hsome. split.
    + intros c m Hm. destruct (Hsome c) as [Heq'|[_ Heq']]; rewrite Heq' in Hm; [by apply Hok|done].
    + exists (map fst (cm :: found)), rs. unfold azure_stored. split_and!; [done..|by exists k| | |].
      * intros c msg Hc. by rewrite (Hgone c msg Hc).
      * intros c _. destruct (Hsome c) as [->|[_ ->]]; [by right|by left].
      * intros c Hc. by destruct (Hsome c) as [->|[? _]].
Qed.

(** With a service that never reports a failed deletion, these are the laws the indexing stage
    is proved against. *)
Lemma azure_laws : deletes_complete → IndexLaws (env := azure_env self fates utc base) docs_ok azure_stored.
Proof.
  intros Hcomplete. constructor.
  - intros w rs o w' Hok Hnd _ Hrun. by apply azure_upsert_law.
  - intros w d n w' Hok Hrun. by apply (azure_delete_law w d n w').
  - intros w d v w' Hok Hrun. destruct (azure_version_law w d v w' Hok Hrun) as [Hst Hv]. unfold docs_ok, azure_stored. by rewrite Hst.
Qed.
End laws.

(** ** The outcome of an upsert *)

Lemma find_too_large {codec : DocumentCodec} rs :
  check_sizes (zip rs (map _record_to_document rs)) =
  match List.find (λ r, bool_decide (_MAX_RECORD_BYTES < json_size (_record_to_document r))) rs with
  | Some r => Exc (too_large r (json_size (_record_to_document r)))
  | None => Ok tt
  end.
Proof. induction rs as [|r rs IH]; [done|]. simpl. by case_bool_decide. Qed.

(** The failures worth a retry and the code each ends as: no answer in time, status 429, and
    the statuses from 500 on. *)
Inductive transient_code : exn → string → Prop :=
| code_timeout m : transient_code (PyExc "_BackendTimeout" m) INDEXER_TIMEOUT
| code_throttled retry_after m : transient_code (HttpResponseError (Some 429) retry_after m) INDEXER_RATE_LIMITED
| code_upstream status retry_after m : 500 ≤ status → transient_code (HttpResponseError (Some status) retry_after m) INDEXER_UPSTREAM_ERROR.

Lemma map_status_iff status ra m c : _map_status_to_error_code status = Some c ↔ transient_code (HttpResponseError status ra m) c.
Proof.
  unfold _map_status_to_error_code, _HTTP_TOO_MANY_REQUESTS, _HTTP_SERVER_ERROR_FLOOR. split.
  - destruct status as [z|]; [|done]. repeat case_bool_decide; intros; simplify_eq; by constructor.
  - inversion 1; simplify_eq; [done|]. rewrite bool_decide_eq_false_2, bool_decide_eq_true_2 by lia. done.
Qed.

Lemma retryable_iff x : _is_retryable x = true ↔ ∃ c, transient_code x c.
Proof.
  unfold _is_retryable, is_backend_timeout. destruct x as [| | | | | | | | | | |code ra msg| |cls m]; try by split; [|intros [? H]; inversion H].
  - rewrite bool_decide_eq_true. unfold is_Some. by setoid_rewrite (map_status_iff code ra msg).
  - case_bool_decide as Hc; split; try done; [subst; intros _; eexists; constructor|intros [? H]; by inversion H].
Qed.

Lemma retry_error_code x c : transient_code x c → retry_error x = IndexerError "" (exn_str x) c ∧ exn_severity (retry_error x) = Some Errors.TRANSIENT.
Proof.
  intros H. assert (He : retry_error x = IndexerError "" (exn_str x) c).
  { unfold retry_error. inversion H as [m|ra m|status ra m Hs]; subst; [done|done|]. cbn [is_backend_timeout].
    by rewrite (proj2 (map_status_iff (Some status) ra m INDEXER_UPSTREAM_ERROR) H). }
  rewrite He. split; [done|]. by inversion H; vm_compute.
Qed.

Lemma retry_error_other x : (∀ c, ¬ transient_code x c) → retry_error x = x.
Proof.
  intros H. unfold retry_error, is_backend_timeout. destruct x as [| | | | | | | | | | |code ra msg| |cls m]; try done.
  - destruct (_map_status_to_error_code code) as [c|] eqn:Hc; [|done]. by apply (map_status_iff _ ra msg), H in Hc.
  - case_bool_decide; [subst; by destruct (H INDEXER_TIMEOUT); constructor|done].
Qed.

Lemma outcome_partition results :
  up_succeeded (outcome_of results) ++ map fst (up_failed (outcome_of results)) ≡ₚ map (λ x, x.1.1) results.
Proof.
  induction results as [|[[c b] msg] results IH]; [done|]. unfold outcome_of in *. simpl in *. destruct b; simpl.
  - by rewrite IH.
  - by rewrite <- Permutation_middle, IH.
Qed.

(** What a retried request raises: [x0] is what ended the attempts, that is the failure of the
    last request when it was not worth a retry or was the last attempt permitted. *)
Definition request_error {sdk : SearchSDK} (self : AzureAISearchIndexer) (fates : nat → fate) {X} (q : searchQ X) (w w' : nworld searchQ sd_state) (x : exn) : Prop :=
  ∃ x0, gave_up serve fates (timeout_raised (timeout_repr (az_settings self))) (max_attempts (az_settings self))
          (backoff (retry_after_aware (az_settings self))) (λ y, ∃ c, transient_code y c) 1 q w w' x0 ∧
    ((∃ c, transient_code x0 c ∧ x = IndexerError "" (exn_str x0) c ∧ exn_severity x = Some Errors.TRANSIENT) ∨
     ((∀ c, ¬ transient_code x0 c) ∧ x = x0)).

(** C34: an upsert with an oversized record sends nothing and names the first one; otherwise the
    request is submitted at most [max(1, max_attempts)] times, a returned outcome splits the
    keys of the service's last answer into stored and failed ones. What is raised follows from
    what the last request submitted met with: no answer in time is raised as [INDEXER_TIMEOUT],
    status 429 as [INDEXER_RATE_LIMITED] and a status from 500 on as [INDEXER_UPSTREAM_ERROR],
    each with the message and only after the last attempt, and any other failure at once and
    unchanged; only a wait that [time.sleep] refuses raises anything else. *)
Theorem azure_upsert_outcomes {sdk : SearchSDK} {codec : DocumentCodec} {tenacity : Tenacity} self fates utc records w :
  let request := upload_documents (az_index_name self) (map _record_to_document records) in
  let '(r, w') := run (nhandle serve fates utc) (upsert self records) w in
  match List.find (λ r, bool_decide (_MAX_RECORD_BYTES < json_size (_record_to_document r))) records with
  | Some big => r = Exc (too_large big (json_size (_record_to_document big))) ∧ w' = w
  | None => ∃ executed calls : nat,
      (executed ≤ calls)%nat ∧ Z.of_nat calls ≤ Z.max 1 (max_attempts (az_settings self)) ∧ nw_calls w' = (calls + nw_calls w)%nat ∧
      match r with
      | Ok o => ∃ results, serve _ request (served serve request executed (nw_state w)) = (Ok results, nw_state w') ∧
          up_succeeded o ++ map fst (up_failed o) ≡ₚ map (λ x, x.1.1) results ∧
          ∀ c, c ∈ up_succeeded o ↔ ∃ msg, (c, true, msg) ∈ results
      | Exc x => nw_state w' = served serve request executed (nw_state w) ∧ request_error self fates request w w' x
      end
  end.
Proof.
  intros request. unfold upsert. cbv zeta. fold request. rewrite run_bind, run_lift, check_record_sizes_eq, find_too_large.
  destruct (List.find _ records) as [big|]; [done|]. rewrite run_bind.
  pose proof (run_with_retry serve fates utc (retry_after_aware (az_settings self)) _is_retryable retry_error _ request w) as H.
  unfold _with_retry. destruct (run _ (with_retry _ _ _ request) w) as [[results|x] w1]; cbn [run].
  - destruct H as (k & calls & Hk & Hc & Hcalls & Hok & Hst). exists k, calls. do 3 (split; [done|]). exists results. split_and!.
    + rewrite Hst, served_snoc. destruct (serve _ request _) as [r st]. simpl in *. by rewrite Hok.
    + apply outcome_partition.
    + intros c. unfold outcome_of. simpl. rewrite list_elem_of_fmap. split.
      * intros ([[c' b] msg] & -> & Hin). apply list_elem_of_In, filter_In in Hin as [Hin Hb]. simpl in *. subst b. exists msg. by apply list_elem_of_In.
      * intros [msg Hin]. exists (c, true, msg). split; [done|]. apply list_elem_of_In, filter_In. split; [by apply list_elem_of_In|done].
  - destruct H as (k & calls & Hk & Hc & Hcalls & Hst & x0 & -> & Hx). exists k, calls. do 3 (split; [done|]). split; [done|].
    exists x0. split; [exact (gave_up_iff _ _ _ _ _ _ _ _ _ _ _ _ retryable_iff Hx)|].
    destruct (_is_retryable x0) eqn:Hr.
    + apply retryable_iff in Hr as [c Hc']. left. exists c. split; [done|]. by apply retry_error_code.
    + right. assert (Hn : ∀ c, ¬ transient_code x0 c) by (intros c Hc'; assert (_is_retryable x0 = true) by (apply retryable_iff; eauto); congruence).
      split; [done|]. by apply retry_error_other.
Qed.

(** C13: what the adapter's operations do to the stored records, over any network and with a
    service that keeps the document laws. An upsert stores every record it does not report as
    failed, leaves each of the others stored or as it was, and changes no other; the version
    reported is that of one of the document's records, and none only if it has none; counting
    counts the document's records; neither changes anything. A returned deletion has named
    exactly the document's records to the service and returns their number: those the service
    reports as removed are gone, those it reports as failed may remain as they were, and no
    other record changes. *)
Theorem azure_index_laws {sdk : SearchSDK} docs {laws : DocumentLaws docs} {codec : DocumentCodec} fromisoformat {tenacity : Tenacity} self fates utc w w' :
  (∀ t, fromisoformat (isoformat t) = Some t) → docs_ok docs self w →
  let stored := azure_stored docs fromisoformat self in let h := nhandle serve fates utc in
  (∀ rs o, NoDup (map ir_chunk_id rs) → run h (upsert self rs) w = (Ok o, w') →
     docs_ok docs self w' ∧
     (∀ r, r ∈ rs → ir_chunk_id r ∉ map fst (up_failed o) → stored w' (ir_chunk_id r) = Some r) ∧
     (∀ r, r ∈ rs → stored w' (ir_chunk_id r) = Some r ∨ stored w' (ir_chunk_id r) = stored w (ir_chunk_id r)) ∧
     (∀ c, c ∉ map ir_chunk_id rs → stored w' c = stored w c)) ∧
  (∀ d v, run h (get_doc_version self d) w = (Ok v, w') →
     nw_state w' = nw_state w ∧
     match v with
     | None => ∀ c r, stored w c = Some r → ir_doc_id r ≠ d
     | Some x => ∃ c r, stored w c = Some r ∧ ir_doc_id r = d ∧ ir_doc_version r = x
     end) ∧
  (∀ d n, run h (count_by_doc_id self d) w = (Ok n, w') →
     nw_state w' = nw_state w ∧ ∃ ids, records_of docs fromisoformat self w d ids ∧ n = Z.of_nat (length ids)) ∧
  (∀ d n, run h (delete_by_doc_id self d) w = (Ok n, w') →
     docs_ok docs self w' ∧ deleted_as_reported docs fromisoformat self d n w w').
Proof.
  intros Hiso Hok. cbv zeta. split_and!.
  - intros rs o. by apply (azure_upsert_law docs fromisoformat Hiso).
  - intros d v. by apply (azure_version_law docs fromisoformat Hiso).
  - intros d n. by apply (azure_count docs fromisoformat Hiso).
  - intros d n. by apply (azure_delete_reported docs fromisoformat Hiso).
Qed.

(** ** Schemas *)
Section schemas.
Context {sdk : SearchSDK} (indexes : sd_state → gmap string SearchIndex) {search_laws : SearchLaws indexes}.
Context {codec : DocumentCodec} {tenacity : Tenacity} (self : AzureAISearchIndexer) (fates : nat → fate) (utc : nat → Z).

Notation name := (az_index_name self).
Notation nh := (nhandle serve fates utc).

Lemma schema_run n w r w' :
  run nh (_with_retry self (get_index_schema n)) w = (r, w') → nw_state w' = nw_state w ∧ ∀ o, r = Ok o → o = indexes (nw_state w) !! n ≫= schema_of.
Proof.
  intros Hrun. pose proof (run_with_retry serve fates utc (retry_after_aware (az_settings self)) _is_retryable retry_error _ (get_index_schema n) w) as H.
  unfold _with_retry in Hrun. rewrite Hrun in H. destruct H as (k & calls & _ & _ & _ & H).
  assert (Hid : ∀ k, served serve (get_index_schema n) k (nw_state w) = nw_state w).
  { clear. induction k as [|k IH]; [done|]. rewrite served_snoc. simpl. apply IH. }
  destruct r as [o|x]; [|rewrite Hid in H; naive_solver]. rewrite !Hid in H. destruct H as [Hok Hst]. split; [done|]. intros ? [= <-].
  simpl in Hok. rewrite (real_get_index_schema_ok indexes) in Hok. congruence.
Qed.

Lemma build_schema d index : _build_search_index d = Some index → df_dimensions d ≠ 0 → sd_metric (df_metric d) = Some (df_metric d) →
  si_name index = df_index_name d ∧ schema_of index = Some (df_dimensions d, df_metric d).
Proof.
  unfold _build_search_index, _build_vector_search. intros Hb Hd Hm. rewrite Hm in Hb. simplify_eq/=. split; [done|].
  unfold schema_of, has_dimensions. simpl. by rewrite bool_decide_eq_true_2.
Qed.

(** An answered creation leaves the index as requested. *)
Lemma create_run d index w u w' :
  _build_search_index d = Some index → si_name index = df_index_name d →
  run nh (_with_retry self (create_or_update_index d)) w = (Ok u, w') →
  indexes (nw_state w') = <[df_index_name d := index]> (indexes (nw_state w)).
Proof.
  intros Hb Hn Hrun. pose proof (run_with_retry serve fates utc (retry_after_aware (az_settings self)) _is_retryable retry_error _ (create_or_update_index d) w) as H.
  unfold _with_retry in Hrun. rewrite Hrun in H. destruct H as (k & calls & _ & _ & _ & Hok & Hst).
  rewrite <- Hn. destruct (create_repeated indexes index (df_metric d) k (nw_state w)) as [_ Hans]. apply (Hans u).
  rewrite Hst, served_snoc. revert Hok. unfold served. cbn [serve]. unfold real_create_or_update_index. rewrite Hb.
  destruct (create_or_update (Some index) (df_metric d) _) as [r st']. simpl. congruence.
Qed.
End schemas.

(** A returned [ensure_schema] leaves an index with exactly the requested dimensions and
    metric, whatever requests were lost or repeated on the way; an index that already had a
    vector schema is untouched, and had the requested one; every other index is untouched. *)
Theorem azure_ensure_schema {sdk : SearchSDK} indexes {laws : SearchLaws indexes} {codec : DocumentCodec} {tenacity : Tenacity} self fates utc
    dimensions metric w w' :
  dimensions ≠ 0 → sd_metric metric = Some metric →
  run (nhandle serve fates utc) (ensure_schema self dimensions metric) w = (Ok tt, w') →
  let before := indexes (nw_state w) in let after := indexes (nw_state w') in
  after !! az_index_name self ≫= schema_of = Some (dimensions, metric) ∧
  (∀ s, before !! az_index_name self ≫= schema_of = Some s → s = (dimensions, metric) ∧ after = before) ∧
  (∀ n, n ≠ az_index_name self → after !! n = before !! n).
Proof.
  intros Hd Hm. unfold ensure_schema. rewrite run_bind. destruct (run _ (_with_retry self (get_index_schema _)) w) as [r w1] eqn:Hget.
  destruct (schema_run indexes self fates utc _ w r w1 Hget) as [Hst Hr]. destruct r as [o|x]; [|done]. specialize (Hr o eq_refl) as ->.
  destruct (indexes (nw_state w) !! az_index_name self ≫= schema_of) as [[d0 m0]|] eqn:Hs.
  - case_bool_decide as Hne; [done|]. intros Heq. assert (w' = w1) as -> by (apply (f_equal snd) in Heq; cbn [run snd] in Heq; congruence).
    assert (d0 = dimensions ∧ m0 = metric) as [-> ->].
    { split; [destruct (decide (d0 = dimensions))|destruct (decide (m0 = metric))]; tauto. }
    cbv zeta. rewrite Hst, Hs. split_and!; [done| |done]. by intros s [= <-].
  - set (def := mkDefinition _ _ _ _ _ _). intros Hrun.
    destruct (_build_search_index def) as [index|] eqn:Hb.
    2:{ unfold _build_search_index, _build_vector_search in Hb. simpl in Hb. by rewrite Hm in Hb. }
    destruct (build_schema def index Hb Hd Hm) as [Hn Hsch]. pose proof (create_run indexes self fates utc def index w1 tt w' Hb Hn Hrun) as Hidx.
    rewrite Hst in Hidx. cbv zeta. rewrite Hidx. simpl. rewrite lookup_insert_eq. split_and!; [done|by intros s [=]|].
    intros n Hn'. by rewrite lookup_insert_ne.
Qed.

(** ** The created schema and the uploaded documents *)

(** A document with a property that is not a field of the index is refused, with its request. *)
Definition refuses_unknown_properties {sdk : SearchSDK} (indexes : sd_state → gmap string SearchIndex) : Prop :=
  ∀ n ds st i d kv, indexes st !! n = Some i → d ∈ ds → kv ∈ d → kv.1 ∉ map sf_name (si_fields i) →
  ∃ m, sd_merge_or_upload_documents n ds st = (Exc (HttpResponseError (Some 400) None m), st).

Definition missing_fields : list string :=
  ["position"; "section_path"; "element_types"; "strategy"; "embedding_model"; "embedding_dimensions"; "indexed_at"].

Lemma document_exceeds_schema {codec : DocumentCodec} r d :
  List.filter (λ k, bool_decide (k ∉ map sf_name (_build_fields d))) (map fst (_record_to_document r)) = missing_fields.
Proof. reflexivity. Qed.

(** Every document the adapter uploads has seven properties that the index it creates does
    not have. So against a service that refuses unknown properties, no upsert into an index that
    [ensure_schema] has created ever returns. *)
Theorem created_index_refuses_documents {sdk : SearchSDK} indexes {laws : SearchLaws indexes} {codec : DocumentCodec} {tenacity : Tenacity}
    self fates utc dimensions metric records w o w' :
  refuses_unknown_properties indexes → indexes (nw_state w) !! az_index_name self = None → records ≠ [] →
  run (nhandle serve fates utc) (ensure_schema self dimensions metric ;; upsert self records) w ≠ (Ok o, w').
Proof.
  intros Hstrict Hnone Hne. rewrite run_bind. unfold ensure_schema. rewrite run_bind.
  destruct (run _ (_with_retry self (get_index_schema _)) w) as [r w1] eqn:Hget.
  destruct (schema_run indexes self fates utc _ w r w1 Hget) as [Hst Hr]. destruct r as [e|x]; [|done]. specialize (Hr e eq_refl) as ->.
  rewrite Hnone. cbn [mbind option_bind]. set (def := mkDefinition _ _ _ _ _ _).
  destruct (run _ (_with_retry self (create_or_update_index def)) w1) as [[u|x] w2] eqn:Hcreate; [|done].
  destruct (_build_search_index def) as [index|] eqn:Hb.
  2:{ exfalso. pose proof (run_with_retry serve fates utc (retry_after_aware (az_settings self)) _is_retryable retry_error _ (create_or_update_index def) w1) as H.
      unfold _with_retry in Hcreate. rewrite Hcreate in H. destruct H as (k & calls & _ & _ & _ & Hok & _).
      cbn [serve] in Hok. unfold real_create_or_update_index in Hok. by rewrite Hb in Hok. }
  assert (Hi : si_name index = az_index_name self ∧ si_fields index = _build_fields def).
  { unfold _build_search_index, _build_vector_search in Hb. destruct (sd_metric (df_metric def)); simplify_eq/=. done. }
  pose proof (create_run indexes self fates utc def index w1 u w2 Hb (proj1 Hi) Hcreate) as Hidx.
  intros Hrun. destruct (upsert_run self fates utc records w2 o w' Hrun) as (k & results & _ & Hserve).
  destruct records as [|r0 rs]; [done|]. set (ds := map _record_to_document (r0 :: rs)) in *.
  assert (Hrefuse : ∀ st, indexes st !! az_index_name self = Some index →
    ∃ m, sd_merge_or_upload_documents (az_index_name self) ds st = (Exc (HttpResponseError (Some 400) None m), st)).
  { intros st Hst'. apply (Hstrict (az_index_name self) ds st index (_record_to_document r0) ("position", JInt (ir_position r0)) Hst').
    - unfold ds. simpl. set_solver.
    - unfold _record_to_document. set_solver.
    - rewrite (proj2 Hi). by apply (bool_decide_unpack _). }
  assert (Hinit : indexes (nw_state w2) !! az_index_name self = Some index) by (rewrite Hidx; apply lookup_insert_eq).
  assert (Hsame : served serve (upload_documents (az_index_name self) ds) k (nw_state w2) = nw_state w2).
  { clear Hserve. induction k as [|k IH]; [done|]. rewrite served_snoc, IH. cbn [serve]. destruct (Hrefuse _ Hinit) as [m ->]. done. }
  rewrite Hsame in Hserve. cbn [serve] in Hserve. destruct (Hrefuse _ Hinit) as [m Hm]. by rewrite Hm in Hserve.
Qed.

(** ** Concrete runs *)

Definition example_size (d : document) : Z :=
  fold_right (λ kv n, match kv.2 with JStr s => Z.of_nat (String.length s) | _ => 0 end + n) 0 d.

Definition example_codec : DocumentCodec :=
  {| isoformat := MemoryTable.dump; json_size := example_size; jval_repr _ := "?"; name_repr s := "'" +:+ s +:+ "'" |}.

Definition example_adapter : AzureAISearchIndexer := mkAzure "idx" 4 400 500 (mkSettings "30.0" 3 (λ _ _, f_of_Z 1)).

Definition example_azure_record (c d v : string) : IndexRecord := mkRecord c d v [f_of_Z 1] "text" 0 None ["text"] "s" ["hr"] "internal" "m" 1 "1" 0.

(** An index with a field for every property of a document. *)
Definition wide_index : SearchIndex :=
  mkSearchIndex "idx" (map (λ kv, SimpleField kv.1 EdmString (bool_decide (kv.1 = "chunk_id")) true)
    (@_record_to_document example_codec (example_azure_record "c" "d" "v"))) None None.

Definition wide_world : nworld searchQ search_state := mkNW (mkSearch {["idx" := wide_index]} (λ _, ∅)) [] 0 0.

(** The first call times out after it has been executed, the second is throttled. *)
Definition shaky (i : nat) : fate :=
  match i with O => ServedSilently | 1%nat => Refused (HttpResponseError (Some 429) (Some "0.5") "throttled") | _ => Served end.

(** A shaky upload of two records, then a deletion of which the service refuses one. *)
Lemma azure_index_laws_witness :
  let h := nhandle (@serve (memory_search ["c1"])) shaky (λ _, 0) in
  let rs := [example_azure_record "c1" "d'1" "v1"; example_azure_record "c2" "d'1" "v1"] in
  let w1 := (run h (@upsert example_codec loop_tenacity example_adapter rs) wide_world).2 in
  let w2 := (run h (@delete_by_doc_id example_codec loop_tenacity example_adapter "d'1") w1).2 in
  let stored := @azure_stored (memory_search ["c1"]) ms_docs MemoryTable.undump example_adapter in
  stored w1 "c1" = Some (example_azure_record "c1" "d'1" "v1") ∧ nw_calls w1 = 3%nat ∧
  @deleted_as_reported (memory_search ["c1"]) ms_docs MemoryTable.undump example_adapter "d'1" 2 w1 w2 ∧ stored w2 "c2" = None.
Proof.
  cbv zeta. set (h := nhandle _ _ _). set (rs := [_; _]). set (p1 := run h (@upsert _ _ _ rs) wide_world).
  set (p2 := run h (delete_by_doc_id example_adapter "d'1") p1.2).
  assert (H0 : @docs_ok (memory_search ["c1"]) ms_docs example_codec example_adapter wide_world) by (intros c m Hm; vm_compute in Hm; discriminate).
  assert (H1 : p1 = (Ok (mkOutcome ["c1"; "c2"] []), p1.2)) by (apply injective_projections; [vm_compute; reflexivity|reflexivity]).
  assert (H2 : p2 = (Ok 2, p2.2)) by (apply injective_projections; [vm_compute; reflexivity|reflexivity]).
  destruct (@azure_index_laws (memory_search ["c1"]) ms_docs (memory_document_laws ["c1"]) example_codec MemoryTable.undump loop_tenacity example_adapter shaky (λ _, 0)
    wide_world p1.2 MemoryTable.undump_dump H0) as [Hu _].
  destruct (Hu rs _ ltac:(by apply (bool_decide_unpack _)) H1) as (Hok1 & Hst & _).
  destruct (@azure_index_laws (memory_search ["c1"]) ms_docs (memory_document_laws ["c1"]) example_codec MemoryTable.undump loop_tenacity example_adapter shaky (λ _, 0)
    p1.2 p2.2 MemoryTable.undump_dump Hok1) as (_ & _ & _ & Hd).
  split_and!.
  - exact (Hst (example_azure_record "c1" "d'1" "v1") (list_elem_of_here _ _) (not_elem_of_nil _)).
  - vm_compute. reflexivity.
  - exact (proj2 (Hd "d'1" 2 H2)).
  - vm_compute. reflexivity.
Defined.

(** A network that never answers: after the third request the upsert fails as timed out. *)
Lemma azure_upsert_outcomes_witness :
  let rs := [example_azure_record "c1" "d" "v1"] in
  let r := run (nhandle (@serve (memory_search [])) (λ _, Dropped) (λ _, 0)) (@upsert example_codec loop_tenacity example_adapter rs) wide_world in
  r.1 = Exc (IndexerError "" "backend call did not return within 30.0s" INDEXER_TIMEOUT) ∧ nw_calls r.2 = 3%nat ∧
  ∃ x, @request_error (memory_search []) example_adapter (λ _, Dropped) _ (upload_documents "idx" (map (@_record_to_document example_codec) rs)) wide_world r.2 x.
Proof.
  cbv zeta. pose proof (@azure_upsert_outcomes (memory_search []) example_codec loop_tenacity example_adapter (λ _, Dropped) (λ _, 0)
    [example_azure_record "c1" "d" "v1"] wide_world) as H. cbv zeta in H.
  set (p := run _ _ _). match type of H with context [run ?a ?b ?c] => change (run a b c) with p in H end.
  assert (H1 : p.1 = Exc (IndexerError "" "backend call did not return within 30.0s" INDEXER_TIMEOUT)) by (vm_compute; reflexivity).
  split; [exact H1|]. split; [vm_compute; reflexivity|].
  assert (H2 : List.find (λ r, bool_decide (_MAX_RECORD_BYTES < @json_size example_codec (@_record_to_document example_codec r))) [example_azure_record "c1" "d" "v1"] = None)
    by (vm_compute; reflexivity).
  destruct p as [r w']. cbn [fst snd] in *. subst r. rewrite H2 in H. destruct H as (k & calls & _ & _ & _ & _ & Hx).
  eexists. exact Hx.
Defined.

Definition bare_world : nworld searchQ search_state := mkNW (mkSearch ∅ (λ _, ∅)) [] 0 0.

Lemma azure_ensure_schema_witness :
  let r := run (nhandle (@serve (memory_search [])) shaky (λ _, 0)) (@ensure_schema example_codec loop_tenacity example_adapter 768 "cosine") bare_world in
  r.1 = Ok tt ∧ ms_indexes (nw_state r.2) !! "idx" ≫= schema_of = Some (768, "cosine").
Proof.
  cbv zeta. set (r := run _ _ _). assert (Hr : r = (Ok tt, r.2)) by (vm_compute; reflexivity). split; [by rewrite Hr|].
  exact (proj1 (@azure_ensure_schema (memory_search []) ms_indexes (memory_search_laws []) example_codec loop_tenacity example_adapter shaky (λ _, 0)
    768 "cosine" bare_world r.2 ltac:(lia) eq_refl Hr)).
Defined.

Lemma memory_refuses stubborn : refuses_unknown_properties (sdk := memory_search stubborn) ms_indexes.
Proof.
  intros n ds st i d kv Hi Hd Hkv Hnot. simpl. unfold memory_upload. rewrite Hi. destruct (forallb (accepts i) ds) eqn:Hall; [|eauto]. exfalso.
  rewrite forallb_forall in Hall. specialize (Hall d (proj1 (list_elem_of_In _ _) Hd)). apply andb_true_iff in Hall as [_ Hall].
  rewrite forallb_forall in Hall. specialize (Hall kv (proj1 (list_elem_of_In _ _) Hkv)). by apply bool_decide_eq_true in Hall.
Qed.

Lemma created_index_refuses_documents_witness :
  let p := @ensure_schema example_codec loop_tenacity example_adapter 768 "cosine" ;;
           @upsert example_codec loop_tenacity example_adapter [example_azure_record "c1" "d" "v"] in
  (∀ o w', run (nhandle (@serve (memory_search [])) (λ _, Served) (λ _, 0)) p bare_world ≠ (Ok o, w')) ∧
  (run (nhandle (@serve (memory_search [])) (λ _, Served) (λ _, 0)) p bare_world).1 = Exc (HttpResponseError (Some 400) None "unknown property").
Proof.
  split.
  - intros o w'. apply (@created_index_refuses_documents (memory_search []) ms_indexes (memory_search_laws [])); [apply memory_refuses|reflexivity|done].
  - vm_compute. reflexivity.
Defined.

(** The adapter does not look at the results of a deletion. When the service reports that
    one of two documents could not be deleted, [delete_by_doc_id] returns 2, and the document of
    the old version is still in the index. *)
Theorem partial_delete_unreported :
  let h := nhandle (@serve (memory_search ["c1"])) (λ _, Served) (λ _, 0) in
  let w := (run h (@upsert example_codec loop_tenacity example_adapter [example_azure_record "c1" "d" "v"; example_azure_record "c2" "d" "v"]) wide_world).2 in
  let r := run h (@delete_by_doc_id example_codec loop_tenacity example_adapter "d") w in
  r.1 = Ok 2 ∧ @azure_stored (memory_search ["c1"]) ms_docs MemoryTable.undump example_adapter r.2 "c1" = Some (example_azure_record "c1" "d" "v").
Proof. vm_compute. split; reflexivity. Qed.
End AzureIndexer.
