(* ===== verification/AzureProvisioner.v ===== *)
(** * The Azure AI Search provisioner adapter (src/vestibule/provisioning/adapters/azure_ai_search.py,
      src/vestibule/provisioning/adapters/_azure_search_backend.py)

    The translation of an index template to the SDK's index, the adapter's four operations as
    programs over requests with timeouts and retries, and what the provisioner may rely on. *)
From S2P Require Import Prelude PyDict Errors Types Prog Registry Templates Provisioner ProvisionerSafety Net AzureSearch MemorySearch.
#[local] Open Scope Z_scope.
#[local] Open Scope py_scope.

Module AzureProvisioner.
Import Registry Templates Provisioner ProvisionerSafety.

Definition _HTTP_TOO_MANY_REQUESTS : Z := 429.
Definition _HTTP_SERVER_ERROR_FLOOR : Z := 500.

Record _IndexDefinition := mkDefinition {
  df_index_name : string; df_dimensions : Z; df_metric : string; df_hnsw_m : Z; df_hnsw_ef_construction : Z; df_hnsw_ef_search : Z;
  df_fields : list FieldSpec; df_semantic_ranker_enabled : bool }.

(** ** The backend *)

Inductive provisionQ : Type → Type :=
| get_index_schema (index_name : string) : provisionQ (option (Z * string))
| create_or_update_index (definition : _IndexDefinition) : provisionQ unit
| delete_index_request (index_name : string) : provisionQ unit.

(** [builders[field.type](field)]. *)
Definition build_field (d : _IndexDefinition) (f : FieldSpec) : SearchField :=
  match fs_type f with
  | key => SimpleField (fs_name f) EdmString true false
  | text => mkSearchField (fs_name f) EdmString false (fs_searchable f) false None None
  | vector => mkSearchField (fs_name f) EdmSingleCollection false (fs_searchable f) false
                (Some (df_dimensions d)) (Some (profile_name (df_index_name d)))
  | filterable_string => SimpleField (fs_name f) EdmString false true
  | filterable_string_collection => SimpleField (fs_name f) EdmStringCollection false true
  | filterable_datetime => SimpleField (fs_name f) EdmDateTimeOffset false true
  | retrievable_only => SimpleField (fs_name f) EdmString false false
  end.

Definition _build_fields (d : _IndexDefinition) : list SearchField := map (build_field d) (df_fields d).

Definition _build_semantic_search (d : _IndexDefinition) : option (string * list string) :=
  if df_semantic_ranker_enabled d
  then Some (df_index_name d +:+ "-semantic-config", map fs_name (List.filter (λ f, bool_decide (fs_type f = text)) (df_fields d)))
  else None.

Section backend.
Context {sdk : SearchSDK}.

Definition _build_vector_search (d : _IndexDefinition) : option VectorSearch :=
  (λ metric, mkVectorSearch
     [mkAlgorithm (algorithm_name (df_index_name d)) (df_hnsw_m d) (df_hnsw_ef_construction d) (df_hnsw_ef_search d) (Some metric)]
     [(profile_name (df_index_name d), algorithm_name (df_index_name d))]) <$> sd_metric (df_metric d).

Definition _build_search_index (d : _IndexDefinition) : option SearchIndex :=
  (λ v, mkSearchIndex (df_index_name d) (_build_fields d) (Some v) (_build_semantic_search d)) <$> _build_vector_search d.

Definition serve (X : Type) (q : provisionQ X) (st : sd_state) : result exn X * sd_state :=
  match q in provisionQ X return result exn X * sd_state with
  | get_index_schema n => (real_get_index_schema n st, st)
  | create_or_update_index d => create_or_update (_build_search_index d) (df_metric d) st
  | delete_index_request n => sd_delete_index n st
  end.
End backend.

(** ** The adapter *)

Definition _is_transient_status (status_code : option Z) : bool :=
  match status_code with
  | Some code => bool_decide (code = _HTTP_TOO_MANY_REQUESTS) || bool_decide (_HTTP_SERVER_ERROR_FLOOR ≤ code)
  | None => false
  end.

Definition _is_retryable (x : exn) : bool :=
  if is_backend_timeout x then true else
  match x with HttpResponseError code _ _ => _is_transient_status code | _ => false end.

(** What [_with_retry] makes of the exception that ends the retries. *)
Definition retry_error (x : exn) : exn :=
  if is_backend_timeout x then ProvisioningError "" (exn_str x) INDEX_PROVISIONER_UNAVAILABLE else
  match x with
  | HttpResponseError code _ _ => if _is_transient_status code then ProvisioningError "" (exn_str x) INDEX_PROVISIONER_UNAVAILABLE else x
  | _ => x
  end.

Notation pprog A := (prog (netE provisionQ) A).

Section adapter.
Context {tenacity : Tenacity} (settings : RetrySettings).

Definition _with_retry {X} (q : provisionQ X) : pprog X := with_retry (retry_after_aware settings) _is_retryable retry_error q.

Definition index_exists (index_name : string) : pprog bool :=
  schema ← _with_retry (get_index_schema index_name); Ret (bool_decide (is_Some schema)).

Definition definition_of (index_name : string) (template : IndexTemplate) (dimensions : Z) (metric : string) : _IndexDefinition :=
  mkDefinition index_name dimensions metric (hn_m (tp_hnsw template)) (hn_ef_construction (tp_hnsw template)) (hn_ef_search (tp_hnsw template))
    (tp_fields template) (tp_semantic_ranker_enabled template).

Definition create_index (index_name : string) (template : IndexTemplate) (dimensions : Z) (metric : string) : pprog unit :=
  _with_retry (create_or_update_index (definition_of index_name template dimensions metric)).

Definition describe_index (index_name : string) : pprog (option IndexDescription) :=
  schema ← _with_retry (get_index_schema index_name);
  Ret (match schema with Some (dimensions, metric) => Some (mkDescription dimensions metric) | None => None end).

Definition delete_index (index_name : string) : pprog unit := _with_retry (delete_index_request index_name).

(** The provisioner's environment with this adapter, and any registry. *)
Definition azure_prov_env {sdk : SearchSDK} (fates : nat → fate) (utc : nat → Z) (registry : IndexRegistry)
    (drift_ : nat → Z) (tokens : nat → string) (repr : string → string) : ProvisionerEnv := {|
  pr_registry := registry;
  adapter_state := nworld provisionQ sd_state;
  pa_index_exists n w := run (nhandle serve fates utc) (index_exists n) w;
  pa_create_index n t d m w := run (nhandle serve fates utc) (create_index n t d m) w;
  pa_describe_index n w := run (nhandle serve fates utc) (describe_index n) w;
  drift := drift_;
  new_claim_token := tokens;
  p_repr := repr;
|}.
End adapter.

(** ** What the operations amount to *)

(** The failures worth a retry: no answer in time, status 429, and the statuses from 500 on. *)
Inductive unavailable : exn → Prop :=
| no_answer m : unavailable (PyExc "_BackendTimeout" m)
| throttled retry_after m : unavailable (HttpResponseError (Some 429) retry_after m)
| server_error status retry_after m : 500 ≤ status → unavailable (HttpResponseError (Some status) retry_after m).

Lemma transient_status_iff status ra m : _is_transient_status status = true ↔ unavailable (HttpResponseError status ra m).
Proof.
  unfold _is_transient_status, _HTTP_TOO_MANY_REQUESTS, _HTTP_SERVER_ERROR_FLOOR. destruct status as [z|]; [|by split; [|inversion 1]].
  rewrite orb_true_iff, !bool_decide_eq_true. split; [intros [->|?]; by constructor|inversion 1; lia].
Qed.

Lemma prov_retryable_iff x : _is_retryable x = true ↔ unavailable x.
Proof.
  unfold _is_retryable, is_backend_timeout. destruct x as [| | | | | | | | | | |status ra msg| |cls m]; try by split; [|inversion 1].
  - apply transient_status_iff.
  - case_bool_decide; split; try done; [subst; by constructor|by inversion 1].
Qed.

Lemma prov_retry_error x :
  (unavailable x → retry_error x = ProvisioningError "" (exn_str x) INDEX_PROVISIONER_UNAVAILABLE) ∧ (¬ unavailable x → retry_error x = x).
Proof.
  split.
  - unfold retry_error. intros H. inversion H as [m|ra m|status ra m Hs]; subst; [done|done|]. cbn [is_backend_timeout].
    by rewrite (proj2 (transient_status_iff (Some status) ra m) H).
  - rewrite <- prov_retryable_iff. unfold retry_error, _is_retryable. destruct (is_backend_timeout x); [done|].
    destruct x as [| | | | | | | | | | |status ra msg| |]; try done. by destruct (_is_transient_status status).
Qed.

Section operations.
Context {sdk : SearchSDK} (indexes : sd_state → gmap string SearchIndex) {search_laws : SearchLaws indexes}.
Context {tenacity : Tenacity} (settings : RetrySettings) (fates : nat → fate) (utc : nat → Z).

Notation nh := (nhandle serve fates utc).

(** The vector schema of a live index. *)
Definition described (w : nworld provisionQ sd_state) (n : string) : option IndexDescription :=
  (λ s, mkDescription s.1 s.2) <$> (indexes (nw_state w) !! n ≫= schema_of).

(** An operation's error, from what the last request it submitted met with: [x0] is that failure
    when it was not worth a retry or was the last attempt permitted (and otherwise the error of a
    wait that [time.sleep] refuses). Unavailability is raised under its code, with the message;
    anything else unchanged. *)
Definition adapter_error {X} (q : provisionQ X) (x : exn) (w w' : nworld provisionQ sd_state) : Prop :=
  ∃ x0, gave_up serve fates (timeout_raised (timeout_repr settings)) (max_attempts settings) (backoff (retry_after_aware settings))
          unavailable 1 q w w' x0 ∧
    ((unavailable x0 ∧ x = ProvisioningError "" (exn_str x0) INDEX_PROVISIONER_UNAVAILABLE) ∨ (¬ unavailable x0 ∧ x = x0)).

Lemma op_error {X} (q : provisionQ X) w x w' : run nh (_with_retry settings q) w = (Exc x, w') → adapter_error q x w w'.
Proof.
  intros Hrun. pose proof (run_with_retry serve fates utc (retry_after_aware settings) _is_retryable retry_error _ q w) as H.
  unfold _with_retry in Hrun. rewrite Hrun in H. destruct H as (k & calls & _ & _ & _ & _ & x0 & -> & Hx).
  exists x0. split; [exact (gave_up_iff _ _ _ _ _ _ _ _ _ _ _ _ prov_retryable_iff Hx)|].
  destruct (prov_retry_error x0) as [H1 H2]. destruct (_is_retryable x0) eqn:Hr.
  - apply prov_retryable_iff in Hr. left. split; [done|by apply H1].
  - assert (Hn : ¬ unavailable x0) by (rewrite <- prov_retryable_iff; congruence). right. split; [done|by apply H2].
Qed.

Lemma prov_schema_run n w r w' :
  run nh (_with_retry settings (get_index_schema n)) w = (r, w') → nw_state w' = nw_state w ∧ ∀ o, r = Ok o → o = indexes (nw_state w) !! n ≫= schema_of.
Proof.
  intros Hrun. pose proof (run_with_retry serve fates utc (retry_after_aware settings) _is_retryable retry_error _ (get_index_schema n) w) as H.
  unfold _with_retry in Hrun. rewrite Hrun in H. destruct H as (k & calls & _ & _ & _ & H).
  assert (Hid : ∀ k, served serve (get_index_schema n) k (nw_state w) = nw_state w).
  { clear. induction k as [|k IH]; [done|]. rewrite served_snoc. simpl. apply IH. }
  destruct r as [o|x]; [|rewrite Hid in H; naive_solver]. rewrite !Hid in H. destruct H as [Hok Hst]. split; [done|]. intros ? [= <-].
  simpl in Hok. rewrite (real_get_index_schema_ok indexes) in Hok. congruence.
Qed.

(** The first vector field of a valid template carries the requested dimensions. *)
Lemma build_fields_vector d : df_dimensions d ≠ 0 → (∃ f, f ∈ df_fields d ∧ fs_type f = vector) →
  ∃ f, List.find has_dimensions (_build_fields d) = Some f ∧ sf_vector_search_dimensions f = Some (df_dimensions d).
Proof.
  intros Hd (f & Hf & Hv). unfold _build_fields. induction (df_fields d) as [|f0 fs IH]; [set_solver|]. simpl.
  destruct (fs_type f0) eqn:Ht.
  3:{ unfold build_field, has_dimensions. rewrite Ht. simpl. rewrite bool_decide_eq_true_2 by done. by eexists. }
  all: unfold build_field at 1, has_dimensions at 1; rewrite Ht; simpl; apply IH; apply elem_of_cons in Hf as [->|?]; [congruence|done].
Qed.

Lemma prov_build_schema d index : _build_search_index d = Some index → df_dimensions d ≠ 0 → sd_metric (df_metric d) = Some (df_metric d) →
  (∃ f, f ∈ df_fields d ∧ fs_type f = vector) → si_name index = df_index_name d ∧ schema_of index = Some (df_dimensions d, df_metric d).
Proof.
  unfold _build_search_index, _build_vector_search. intros Hb Hd Hm Hv. rewrite Hm in Hb. simplify_eq/=. split; [done|].
  unfold schema_of. simpl. destruct (build_fields_vector d Hd Hv) as (f & -> & ->). done.
Qed.

(** A creation only ever adds to the live schemas; an answered one made the index it names. *)
Lemma prov_create_run d w r w' :
  run nh (_with_retry settings (create_or_update_index d)) w = (r, w') →
  (∀ n s, indexes (nw_state w) !! n ≫= schema_of = Some s → indexes (nw_state w') !! n ≫= schema_of = Some s) ∧
  ∀ u, r = Ok u → ∃ index, _build_search_index d = Some index ∧ indexes (nw_state w') = <[si_name index := index]> (indexes (nw_state w)).
Proof.
  intros Hrun. pose proof (run_with_retry serve fates utc (retry_after_aware settings) _is_retryable retry_error _ (create_or_update_index d) w) as H.
  unfold _with_retry in Hrun. rewrite Hrun in H. destruct H as (k & calls & _ & _ & _ & H).
  unfold served in H. cbn [serve] in H. destruct (_build_search_index d) as [index|].
  - assert (Hst : ∃ j, nw_state w' = Nat.iter j (λ s, (create_or_update (Some index) (df_metric d) s).2) (nw_state w)).
    { destruct r as [u|x]; [exists (1 + k)%nat; apply H|exists k; apply H]. }
    split; [intros n s Hs; destruct Hst as [j ->]; by apply create_keeps_schema|].
    intros u ->. exists index. split; [done|]. destruct H as [Hok Hw]. destruct (create_repeated indexes index (df_metric d) k (nw_state w)) as [_ Hans].
    apply (Hans u). rewrite Hw. by apply injective_projections.
  - assert (Hid : ∀ j, Nat.iter j (λ s, (create_or_update None (df_metric d) s).2) (nw_state w) = nw_state w) by (intros j; induction j; done).
    split; [|intros u ->; by destruct H]. intros n s Hs. destruct r as [u|x]; [by destruct H|]. destruct H as [Hw _]. by rewrite Hw, Hid.
Qed.

Lemma prov_delete_run n w r w' :
  run nh (_with_retry settings (delete_index_request n)) w = (r, w') →
  (indexes (nw_state w') = indexes (nw_state w) ∨ indexes (nw_state w') = delete n (indexes (nw_state w))) ∧
  ∀ u, r = Ok u → indexes (nw_state w') = delete n (indexes (nw_state w)).
Proof.
  intros Hrun. pose proof (run_with_retry serve fates utc (retry_after_aware settings) _is_retryable retry_error _ (delete_index_request n) w) as H.
  unfold _with_retry in Hrun. rewrite Hrun in H. destruct H as (k & calls & _ & _ & _ & H).
  assert (Hk : ∀ j, let st := served serve (delete_index_request n) j (nw_state w) in
    indexes st = indexes (nw_state w) ∨ indexes st = delete n (indexes (nw_state w))).
  { intros j. cbv zeta. induction j as [|j IH]; [by left|]. rewrite served_snoc. cbn [serve]. set (st := served _ _ j _) in *.
    pose proof (delete_index_law n st) as Hl. destruct (sd_delete_index n st) as [[u|x] st']; simpl; rewrite Hl; [|done].
    right. destruct IH as [->| ->]; [done|]. by rewrite delete_delete_eq. }
  destruct r as [u|x]; destruct H as [H1 H2].
  - rewrite H2. split; [apply Hk|]. intros _ _. rewrite served_snoc. specialize (Hk k). cbn [serve] in *. set (st := served _ _ k _) in *.
    pose proof (delete_index_law n st) as Hl. destruct (sd_delete_index n st) as [r st']. simpl in *. subst r. rewrite Hl.
    destruct Hk as [->| ->]; [done|]. by rewrite delete_delete_eq.
  - rewrite H1. split; [apply Hk|done].
Qed.
End operations.

(** The two questions. *)
Lemma exists_run {sdk : SearchSDK} indexes {laws : SearchLaws indexes} {tenacity : Tenacity} settings fates utc n w r w' :
  run (nhandle serve fates utc) (index_exists settings n) w = (r, w') → nw_state w' = nw_state w ∧
  match r with Ok b => b = bool_decide (is_Some (described indexes w n)) | Exc x => adapter_error settings fates (get_index_schema n) x w w' end.
Proof.
  unfold index_exists. rewrite run_bind. destruct (run _ (_with_retry settings _) w) as [o w1] eqn:Hrun.
  destruct (prov_schema_run indexes settings fates utc n w o w1 Hrun) as [Hst Ho]. destruct o as [o|x]; cbn [run]; intros Heq.
  - assert (w' = w1 ∧ r = Ok (bool_decide (is_Some o))) as [-> ->] by (split; congruence). split; [done|].
    rewrite (Ho o eq_refl). unfold described. by destruct (_ ≫= _).
  - assert (w' = w1 ∧ r = Exc x) as [-> ->] by (split; congruence). split; [done|]. by eapply op_error.
Qed.

Lemma describe_run {sdk : SearchSDK} indexes {laws : SearchLaws indexes} {tenacity : Tenacity} settings fates utc n w r w' :
  run (nhandle serve fates utc) (describe_index settings n) w = (r, w') → nw_state w' = nw_state w ∧
  match r with Ok o => o = described indexes w n | Exc x => adapter_error settings fates (get_index_schema n) x w w' end.
Proof.
  unfold describe_index. rewrite run_bind. destruct (run _ (_with_retry settings _) w) as [o w1] eqn:Hrun.
  destruct (prov_schema_run indexes settings fates utc n w o w1 Hrun) as [Hst Ho]. destruct o as [o|x]; cbn [run]; intros Heq.
  - assert (w' = w1) as -> by congruence. apply (f_equal fst) in Heq. cbn [fst] in Heq. subst r. split; [done|].
    rewrite (Ho o eq_refl). unfold described. by destruct (_ ≫= _) as [[]|].
  - assert (w' = w1 ∧ r = Exc x) as [-> ->] by (split; congruence). split; [done|]. by eapply op_error.
Qed.

(** Creation. *)
Lemma create_index_run {sdk : SearchSDK} indexes {laws : SearchLaws indexes} {tenacity : Tenacity} settings fates utc n t d m w r w' :
  run (nhandle serve fates utc) (create_index settings n t d m) w = (r, w') →
  (∀ k x, described indexes w k = Some x → described indexes w' k = Some x) ∧
  match r with
  | Ok _ => (∀ k, k ≠ n → described indexes w' k = described indexes w k) ∧
            (d ≠ 0 → sd_metric m = Some m → (∃ f, f ∈ tp_fields t ∧ fs_type f = vector) → described indexes w' n = Some (mkDescription d m))
  | Exc x => adapter_error settings fates (create_or_update_index (definition_of n t d m)) x w w'
  end.
Proof.
  unfold create_index. intros Hrun. destruct (prov_create_run indexes settings fates utc _ w r w' Hrun) as [Hkeep Hok]. split.
  { intros k x. unfold described. destruct (indexes (nw_state w) !! k ≫= schema_of) as [s|] eqn:Hs; [|done]. by rewrite (Hkeep k s Hs). }
  destruct r as [u|x]; [|by eapply op_error]. destruct (Hok u eq_refl) as (index & Hb & Hidx). set (def := definition_of n t d m) in *.
  assert (Hn : si_name index = n) by (unfold _build_search_index, _build_vector_search in Hb; destruct (sd_metric _); by simplify_eq/=).
  unfold described. rewrite Hidx, Hn. split; [intros k Hk; by rewrite lookup_insert_ne|].
  intros Hd Hm Hv. rewrite lookup_insert_eq. simpl. by destruct (prov_build_schema indexes def index Hb Hd Hm Hv) as [_ ->].
Qed.

(** C22: over any network the adapter keeps the laws under which the provisioner is safe: its
    questions are answered with the live schema and no operation of the provisioner changes the
    schema of a live index. Moreover a returned creation from a template with a vector field and
    non-zero dimensions leaves exactly the requested schema and touches no other index, a
    returned deletion removes exactly the index it names. An operation that raises does so for
    what its last request met with: no answer in time, status 429 or a status from 500 on is
    raised as [INDEX_PROVISIONER_UNAVAILABLE], with the message, and only after the last of
    [max(1, max_attempts)] requests; any other failure is raised at once and unchanged; only a
    wait that [time.sleep] refuses raises anything else. *)
Theorem azure_provisioner_contract {sdk : SearchSDK} indexes {laws : SearchLaws indexes} {tenacity : Tenacity} settings fates utc registry drift_ tokens repr :
  AdapterLaws (env := azure_prov_env settings fates utc registry drift_ tokens repr) (described indexes) ∧
  ∀ n w, let h := nhandle serve fates utc in
  (∀ t d m, let '(r, w') := run h (create_index settings n t d m) w in
     match r with
     | Ok _ => (∀ k, k ≠ n → described indexes w' k = described indexes w k) ∧
               (d ≠ 0 → sd_metric m = Some m → (∃ f, f ∈ tp_fields t ∧ fs_type f = vector) → described indexes w' n = Some (mkDescription d m))
     | Exc x => adapter_error settings fates (create_or_update_index (definition_of n t d m)) x w w'
     end) ∧
  (let '(r, w') := run h (delete_index settings n) w in
     (∀ k, k ≠ n → described indexes w' k = described indexes w k) ∧
     match r with Ok _ => described indexes w' n = None | Exc x => adapter_error settings fates (delete_index_request n) x w w' end) ∧
  (∀ x w', (run h (index_exists settings n) w = (Exc x, w') ∨ run h (describe_index settings n) w = (Exc x, w')) → adapter_error settings fates (get_index_schema n) x w w').
Proof.
  split; [|intros n w h; unfold h; split_and!].
  - constructor.
    + intros n w r w' [Hst Hr]%(exists_run indexes). unfold described. rewrite Hst. split; [done|]. by intros b ->.
    + intros n w r w' [Hst Hr]%(describe_run indexes). unfold described. rewrite Hst. split; [done|]. by intros o ->.
    + intros n t d m w r w' Hrun. by apply (create_index_run indexes) in Hrun as [? _].
  - intros t d m. destruct (run _ (create_index _ _ _ _ _) w) as [r w'] eqn:Hrun. by apply (create_index_run indexes) in Hrun as [_ ?].
  - unfold delete_index. destruct (run _ (_with_retry settings _) w) as [r w'] eqn:Hrun.
    destruct (prov_delete_run indexes settings fates utc n w r w' Hrun) as [Heither Hok]. unfold described. split.
    + intros k Hk. destruct Heither as [->| ->]; [done|]. by rewrite lookup_delete_ne.
    + destruct r as [u|x]; [|by eapply op_error]. rewrite (Hok u eq_refl). by rewrite lookup_delete_eq.
  - intros x w' [Hrun|Hrun]; [by apply (exists_run indexes) in Hrun as [_ ?]|by apply (describe_run indexes) in Hrun as [_ ?]].
Qed.

(** ** A concrete run *)

Definition example_settings : RetrySettings := mkSettings "30.0" 3 (λ _ _, f_of_Z 1).

Definition example_azure_template : IndexTemplate :=
  mkTemplate "t" "1" None cosine (mkHnsw 4 400 500)
    [mkField "chunk_id" key false; mkField "content" text true; mkField "content_vector" vector true; mkField "doc_id" filterable_string false] true true.

Definition empty_world : nworld provisionQ search_state := mkNW (mkSearch ∅ (λ _, ∅)) [] 0 0.

(** The first call times out after it has been executed. *)
Definition first_reply_lost (i : nat) : fate := match i with O => ServedSilently | _ => Served end.

Lemma azure_provisioner_contract_witness :
  let h := nhandle (@serve (memory_search [])) first_reply_lost (λ _, 0) in
  let r := run h (@create_index loop_tenacity example_settings "idx" example_azure_template 768 "cosine") empty_world in
  AdapterLaws (env := @azure_prov_env loop_tenacity example_settings (memory_search []) first_reply_lost (λ _, 0) in_memory_registry (λ _, 1) pretty id)
    (@described (memory_search []) ms_indexes) ∧
  r.1 = Ok tt ∧ nw_calls r.2 = 2%nat ∧ @described (memory_search []) ms_indexes r.2 "idx" = Some (mkDescription 768 "cosine").
Proof.
  cbv zeta. set (h := nhandle _ _ _). set (r := run h _ empty_world). assert (Hr : r = (Ok tt, r.2)) by (vm_compute; reflexivity).
  destruct (@azure_provisioner_contract (memory_search []) ms_indexes (memory_search_laws []) loop_tenacity example_settings first_reply_lost (λ _, 0)
    in_memory_registry (λ _, 1) pretty id) as [Hlaws Hops]. split; [exact Hlaws|]. split; [by rewrite Hr|]. split; [vm_compute; reflexivity|].
  destruct (Hops "idx" empty_world) as [Hc _]. specialize (Hc example_azure_template 768 "cosine"). cbv zeta in Hc. fold h in Hc. fold r in Hc.
  rewrite Hr in Hc. apply Hc; [done|reflexivity|]. exists (mkField "content_vector" vector true). split; [|reflexivity]. by apply (bool_decide_unpack _).
Defined.
End AzureProvisioner.
