(* ===== verification/EmbedderAdapters.v ===== *)
(** * The embedder adapters (src/vestibule/embedder/adapters/azure_openai.py,
      src/vestibule/embedder/adapters/fastembed.py)

    Azure OpenAI's embeddings endpoint behind a retry loop, and the local [fastembed] model with
    its bounded loading. Both packages are arguments. *)
From S2P Require Import Prelude PyDict Errors Types Prog System Analyzer Net Embedder AzureSearch.
#[local] Open Scope Z_scope.
#[local] Open Scope py_scope.

Module EmbedderAdapters.
Import Embedder.

(** ** Azure OpenAI *)

Definition openai_NATIVE_DIMENSIONS : Z := 3072.
Definition openai_MAX_BATCH_SIZE : Z := 96.
Definition openai_MAX_INPUT_TOKENS : Z := 8191.
Definition openai_DOCUMENT_PREFIX : option string := None.

(** [embeddings.create(model, input)], as the embeddings of [response.data]. *)
Class OpenAIClient := {
  oa_state : Type;
  oa_embeddings_create : string → list string → oa_state → result exn (list (list pyfloat)) * oa_state;
}.

Inductive openaiQ : Type → Type :=
| embeddings_create (model : string) (input : list string) : openaiQ (list (list pyfloat)).

Definition openai_serve {client : OpenAIClient} (X : Type) (q : openaiQ X) (st : oa_state) : result exn X * oa_state :=
  match q in openaiQ X return result exn X * oa_state with embeddings_create m i => oa_embeddings_create m i st end.

Definition _RETRYABLE_EXCEPTIONS : list string := ["RateLimitError"; "InternalServerError"; "APITimeoutError"].

Definition is_retryable (x : exn) : bool := match x with OpenAIError cls _ _ => bool_decide (cls ∈ _RETRYABLE_EXCEPTIONS) | _ => false end.

Definition openai_wait (fallback : Z → exn → pyfloat) (n : Z) (x : exn) : pyfloat :=
  match x with
  | OpenAIError cls retry_after _ => if decide (cls = "RateLimitError") then default (fallback n x) (_parse_retry_after retry_after) else fallback n x
  | _ => fallback n x
  end.

(** The constructor's arguments; [oe_fallback] is tenacity's [wait_random_exponential]. *)
Record AzureOpenAIEmbedder := mkOpenAI { oe_model : string; oe_max_attempts : Z; oe_fallback : Z → exn → pyfloat }.

Section openai.
Context {tenacity : Tenacity} (self : AzureOpenAIEmbedder).

(** The client raises when the call exceeds its timeout. *)
Definition _call_api (texts : list string) : prog (netE openaiQ) (list (list pyfloat)) :=
  o ← perform (Submit (embeddings_create (oe_model self) texts));
  match o with
  | None => Raise (OpenAIError "APITimeoutError" None "Request timed out.")
  | Some r => lift r
  end.

(** The [except] clauses of [embed_batch]. *)
Definition mapped_error (x : exn) : exn :=
  match x with
  | OpenAIError cls _ _ =>
    if decide (cls = "RateLimitError") then EmbedderError "" (exn_str x) EMBEDDER_RATE_LIMITED
    else if decide (cls = "InternalServerError") then EmbedderError "" (exn_str x) EMBEDDER_UPSTREAM_ERROR
    else if decide (cls = "APITimeoutError") then EmbedderError "" (exn_str x) EMBEDDER_TIMEOUT else x
  | _ => x
  end.

Definition openai_embed_batch (texts : list string) : prog (netE openaiQ) (list (list pyfloat)) :=
  r ← attempt (retrying (oe_max_attempts self) (openai_wait (oe_fallback self)) is_retryable 1 (_call_api texts));
  match r with Ok vectors => Ret vectors | Exc x => Raise (mapped_error x) end.

(** The pipeline's environment with this adapter. *)
Definition openai_env {client : OpenAIClient} (fates : nat → fate) (utc : nat → Z) (base : Env) : Env := {|
  clock := @clock base; str_repr := @str_repr base; meta_repr := @meta_repr base;
  index_state := @index_state base; ix_upsert := @ix_upsert base; ix_delete_by_doc_id := @ix_delete_by_doc_id base;
  ix_get_doc_version := @ix_get_doc_version base; ix_index_name := @ix_index_name base; ix_max_batch_size := @ix_max_batch_size base;
  embed_state := nworld openaiQ oa_state;
  ea_embed_batch texts w := run (nhandle openai_serve fates utc) (openai_embed_batch texts) w;
  ea_model_name := oe_model self; ea_max_batch_size := openai_MAX_BATCH_SIZE; ea_max_input_tokens := openai_MAX_INPUT_TOKENS;
  ea_supports_mrl := true; ea_document_prefix := openai_DOCUMENT_PREFIX;
  scenario_state := @scenario_state base; ss_get := @ss_get base; ss_get_by_vertical := @ss_get_by_vertical base;
|}.
End openai.

(** ** FastEmbed *)

Definition fastembed_MAX_BATCH_SIZE : Z := 32.
Definition fastembed_NATIVE_DIMENSIONS : Z := 768.
Definition fastembed_MAX_INPUT_TOKENS : Z := 8192.
Definition fastembed_DOCUMENT_PREFIX : option string := Some "search_document: ".
Definition EMBEDDER_DEPENDENCY_MISSING : string := "EMBEDDER_DEPENDENCY_MISSING".

(** [TextEmbedding] when the package is installed: loading a model, which may not return in
    time ([None]), and the loaded model's [embed]. *)
Definition TextEmbedding : Type := string → option string → option (result exn (list string → result exn (list (list pyfloat)))).

Definition _load_text_embedding (package : option TextEmbedding) (name_repr timeout_repr : string) (model : string) (cache_dir : option string)
    : result exn (list string → result exn (list (list pyfloat))) :=
  match package with
  | None =>
    Exc (EmbedderError "" "fastembed is not installed; install the 'local' extra (pip install vestibule[local]) to use FastEmbedEmbedder"
           EMBEDDER_DEPENDENCY_MISSING)
  | Some load =>
    let stalled := Exc (EmbedderError ""
      ("loading fastembed model " +:+ name_repr +:+ " did not finish within " +:+ timeout_repr +:+ "s (likely a stalled model-weight download)")
      EMBEDDER_TIMEOUT) in
    match load model cache_dir with
    | None => stalled
    | Some (Exc x) => if Analyzer.is_timeout x then stalled else Exc x
    | Some (Ok impl) => Ok impl
    end
  end.

(** [float] of a number the model returns is that number. *)
Definition fastembed_embed_batch (impl : list string → result exn (list (list pyfloat))) (texts : list string) : result exn (list (list pyfloat)) :=
  rbind (impl texts) (λ vectors, Ok (map (map id) vectors)).

(** The pipeline's environment with this adapter and a loaded model. *)
Definition fastembed_env (model : string) (impl : list string → result exn (list (list pyfloat))) (base : Env) : Env := {|
  clock := @clock base; str_repr := @str_repr base; meta_repr := @meta_repr base;
  index_state := @index_state base; ix_upsert := @ix_upsert base; ix_delete_by_doc_id := @ix_delete_by_doc_id base;
  ix_get_doc_version := @ix_get_doc_version base; ix_index_name := @ix_index_name base; ix_max_batch_size := @ix_max_batch_size base;
  embed_state := unit;
  ea_embed_batch texts st := (fastembed_embed_batch impl texts, st);
  ea_model_name := model; ea_max_batch_size := fastembed_MAX_BATCH_SIZE; ea_max_input_tokens := fastembed_MAX_INPUT_TOKENS;
  ea_supports_mrl := true; ea_document_prefix := fastembed_DOCUMENT_PREFIX;
  scenario_state := @scenario_state base; ss_get := @ss_get base; ss_get_by_vertical := @ss_get_by_vertical base;
|}.

(** ** Properties *)

(** With a local model that embeds each text on its own, the stage embeds exactly the prefixed
    text of every chunk. *)
Lemma fastembed_embeds model impl (f : string → list pyfloat) base config chunks w :
  (∀ texts, impl texts = Ok (map f texts)) → 0 < _effective_batch_size (env := fastembed_env model impl base) config →
  ∃ st, run (@handle (fastembed_env model impl base)) (_embed_all (env := fastembed_env model impl base) config chunks) w =
    (Ok (map (λ c, _build_embedded_chunk (env := fastembed_env model impl base) config c (f ("search_document: " +:+ ck_text c))) chunks),
     set_embed (env := fastembed_env model impl base) st w).
Proof.
  intros Himpl Hsize. apply (embed_all_pointwise (env := fastembed_env model impl base) config chunks w f); [|done].
  intros ts st. exists st. simpl. unfold fastembed_embed_batch. rewrite Himpl. simpl. do 2 f_equal.
  rewrite <- (map_id (map f ts)) at 2. apply map_ext. intros v. apply map_id.
Qed.

(** What the client raises for a request that was not answered, or was answered with an exception. *)
Definition client_raised (o : option exn) : exn :=
  match o with Some x => x | None => OpenAIError "APITimeoutError" None "Request timed out." end.

Lemma call_api_once {client : OpenAIClient} self fates utc texts :
  calls_once openai_serve fates utc client_raised (embeddings_create (oe_model self) texts) (_call_api self texts).
Proof.
  intros w. unfold _call_api. rewrite run_bind, run_perform. cbn [fst snd]. unfold nhandle, failure, answer, executions, client_raised.
  destruct (fates (nw_calls w)) as [|x|x| | |]; cbn [fst snd run lift]; [|by split_and!..].
  unfold served. cbn [Nat.iter nat_rect]. destruct (openai_serve _ _ (nw_state w)) as [[a|x] st]; cbn [fst snd run lift nw_calls nw_state]; by split_and!.
Qed.

(** The exceptions worth a retry and the code each ends as. *)
Inductive openai_code : exn → string → Prop :=
| code_rate_limit retry_after m : openai_code (OpenAIError "RateLimitError" retry_after m) EMBEDDER_RATE_LIMITED
| code_internal retry_after m : openai_code (OpenAIError "InternalServerError" retry_after m) EMBEDDER_UPSTREAM_ERROR
| code_api_timeout retry_after m : openai_code (OpenAIError "APITimeoutError" retry_after m) EMBEDDER_TIMEOUT.

Lemma openai_retryable_iff x : is_retryable x = true ↔ ∃ c, openai_code x c.
Proof.
  unfold is_retryable, _RETRYABLE_EXCEPTIONS. destruct x as [| | | | | | | | | | | |cls ra m|]; try by split; [|intros [? H]; inversion H].
  rewrite bool_decide_eq_true, !elem_of_cons, elem_of_nil. split.
  - intros [->|[->|[->|[]]]]; eexists; constructor.
  - intros [c H]. inversion H; tauto.
Qed.

(** Such an exception is mapped to its code, with its message; the embedding stage keeps the
    code and the message, and the severity is transient. Any other is left alone. *)
Lemma mapped_error_code x c : openai_code x c →
  mapped_error x = EmbedderError "" (exn_str x) c ∧ exn_severity (mapped_error x) = Some Errors.TRANSIENT ∧ embed_failure (mapped_error x) = (c, exn_str x).
Proof. by inversion 1. Qed.

Lemma mapped_error_other x : (∀ c, ¬ openai_code x c) → mapped_error x = x.
Proof.
  unfold mapped_error. intros H. destruct x as [| | | | | | | | | | | |cls ra m|]; try done.
  repeat case_decide; subst; [by destruct (H EMBEDDER_RATE_LIMITED); constructor|by destruct (H EMBEDDER_UPSTREAM_ERROR); constructor|
    by destruct (H EMBEDDER_TIMEOUT); constructor|done].
Qed.

(** C35: [embed_batch] sends its texts at most [max(1, max_attempts)] times and returns the
    vectors of one of the service's answers to exactly that request. What it raises follows from
    what the last request met with: [RateLimitError] is raised as [EMBEDDER_RATE_LIMITED],
    [InternalServerError] as [EMBEDDER_UPSTREAM_ERROR], [APITimeoutError] and no answer at all as
    [EMBEDDER_TIMEOUT], only after the last attempt, each transient and with the message, and
    the embedding stage reports that code and message; any other failure is raised at once and
    unchanged; only a wait that [time.sleep] refuses raises anything else. *)
Theorem openai_embed_outcomes {client : OpenAIClient} {tenacity : Tenacity} self fates utc texts w :
  let request := embeddings_create (oe_model self) texts in
  let '(r, w') := run (nhandle openai_serve fates utc) (openai_embed_batch self texts) w in
  ∃ executed calls : nat,
    (executed ≤ calls)%nat ∧ Z.of_nat calls ≤ Z.max 1 (oe_max_attempts self) ∧ nw_calls w' = (calls + nw_calls w)%nat ∧
    match r with
    | Ok vectors => oa_embeddings_create (oe_model self) texts (served openai_serve request executed (nw_state w)) = (Ok vectors, nw_state w')
    | Exc x => nw_state w' = served openai_serve request executed (nw_state w) ∧ ∃ x0,
        gave_up openai_serve fates client_raised (oe_max_attempts self) (openai_wait (oe_fallback self)) (λ y, ∃ c, openai_code y c) 1 request w w' x0 ∧
        ((∃ c, openai_code x0 c ∧ x = EmbedderError "" (exn_str x0) c ∧ exn_severity x = Some Errors.TRANSIENT ∧ embed_failure x = (c, exn_str x0)) ∨
         ((∀ c, ¬ openai_code x0 c) ∧ x = x0))
    end.
Proof.
  intros request. unfold openai_embed_batch. rewrite run_bind, run_attempt. cbn [fst snd].
  pose proof (run_retrying openai_serve fates utc client_raised request (_call_api self texts) (oe_max_attempts self) (openai_wait (oe_fallback self)) is_retryable 1 w
    (call_api_once self fates utc texts)) as H.
  destruct (run _ (retrying _ _ _ _ _) w) as [r w']. destruct H as (k & calls & Hk & Hc & Hcalls & Hr). cbn [fst snd].
  destruct r as [vectors|x]; cbn [run]; exists k, calls; (split; [done|]; split; [lia|]; split; [done|]).
  - destruct Hr as [Hok Hst]. rewrite served_snoc in Hst. rewrite Hst. by apply injective_projections.
  - destruct Hr as [Hst Hx]. split; [done|]. exists x. split; [exact (gave_up_iff _ _ _ _ _ _ _ _ _ _ _ _ openai_retryable_iff Hx)|].
    destruct (is_retryable x) eqn:Hretry.
    + apply openai_retryable_iff in Hretry as [c Hc']. left. exists c. split; [done|]. by apply mapped_error_code.
    + right. assert (Hn : ∀ c, ¬ openai_code x c) by (intros c Hc'; assert (is_retryable x = true) by (apply openai_retryable_iff; eauto); congruence).
      split; [done|]. by apply mapped_error_other.
Qed.

(** A service that would answer, behind a network that drops the first request and throttles
    the others: the batch fails as rate limited after the third attempt, with the message. *)
Definition constant_client : OpenAIClient :=
  {| oa_state := unit; oa_embeddings_create _ texts st := (Ok (map (λ _, [f_of_Z 1]) texts), st) |}.
Definition example_embedder : AzureOpenAIEmbedder := mkOpenAI "text-embedding-3-large" 3 (λ _ _, f_of_Z 1).
Definition overloaded (i : nat) : fate := match i with O => Dropped | _ => Refused (OpenAIError "RateLimitError" (Some "2") "slow down") end.

Lemma openai_embed_outcomes_witness :
  let request := embeddings_create (oe_model example_embedder) ["a"] in
  let '(r, w') := run (nhandle (@openai_serve constant_client) overloaded (λ _, 0)) (@openai_embed_batch loop_tenacity example_embedder ["a"]) (mkNW tt [] 0 0) in
  r = Exc (EmbedderError "" "slow down" EMBEDDER_RATE_LIMITED) ∧ nw_calls w' = 3%nat ∧
  ∃ x0, gave_up (@openai_serve constant_client) overloaded client_raised 3 (openai_wait (oe_fallback example_embedder)) (λ y, ∃ c, openai_code y c) 1 request (mkNW tt [] 0 0) w' x0.
Proof.
  cbv zeta. pose proof (@openai_embed_outcomes constant_client loop_tenacity example_embedder overloaded (λ _, 0) ["a"] (mkNW tt [] 0 0)) as H. cbv zeta in H.
  set (p := run _ _ _) in *. assert (Hp : p = (Exc (EmbedderError "" "slow down" EMBEDDER_RATE_LIMITED), mkNW tt [] 3 0)) by (vm_compute; reflexivity).
  rewrite Hp in *. split; [reflexivity|]. split; [reflexivity|]. destruct H as (k & calls & _ & _ & _ & _ & x0 & Hx & _). by exists x0.
Defined.
End EmbedderAdapters.
