(* ===== verification/Json.v ===== *)
(** * Reading JSON (the standard library's json.loads)

    What [envelope_from_json] uses of Python's [json]: [loads] on text and on bytes, an
    executable reader that follows the scanner of CPython (Modules/_json.c) and json/decoder.py,
    with the exceptions it raises. Text is the string of its UTF-8 bytes (lone surrogates are
    encoded like other code points), so every character with a meaning in JSON is one byte.
    The texts of the errors are those of Python 3.11 and 3.12.

    The scanner recurses once per nested array or object and raises [RecursionError] beyond the
    interpreter's limit, the argument [limit]. The [fuel] of the mutually recursive scanners
    counts calls; [loads] gives two per byte and one more, which is always enough
    ([scan_never_out_of_fuel]). A float keeps its literal. At the end is a compact printer for
    values without numbers, which the reader inverts. *)
From S2P Require Import Prelude PyDict Types.
#[local] Open Scope string_scope.
#[local] Open Scope N_scope.

Module Json.

Inductive json :=
| JNull
| JBool (b : bool)
| JInt (z : Z)
| JFloat (literal : string)
| JStr (s : string)
| JList (items : list json)
| JDict (entries : list (string * json)).

(** ** Characters *)

Definition quote : ascii := "034"%char.
Definition backslash : ascii := "\"%char.

(** The UTF-8 bytes of a code point (a surrogate included). *)
Definition utf8 (cp : N) : string :=
  let cont n := ascii_of_N (128 + N.land n 63) in
  if cp <? 128 then String (ascii_of_N cp) ""
  else if cp <? 2048 then String (ascii_of_N (192 + N.shiftr cp 6)) (String (cont cp) "")
  else if cp <? 65536 then String (ascii_of_N (224 + N.shiftr cp 12)) (String (cont (N.shiftr cp 6)) (String (cont cp) ""))
  else String (ascii_of_N (240 + N.shiftr cp 18))
         (String (cont (N.shiftr cp 12)) (String (cont (N.shiftr cp 6)) (String (cont cp) ""))).

Definition is_high (u : N) : bool := (55296 <=? u) && (u <=? 56319).
Definition is_low (u : N) : bool := (56320 <=? u) && (u <=? 57343).
Definition join_surrogates (hi lo : N) : N := 65536 + 1024 * (hi - 55296) + (lo - 56320).

Definition between (lo hi : N) (c : ascii) : bool := (lo <=? N_of_ascii c) && (N_of_ascii c <=? hi).
Definition is_digit (c : ascii) : bool := between 48 57 c.

Definition hex_value (c : ascii) : option N :=
  if is_digit c then Some (N_of_ascii c - 48)
  else if between 97 102 c then Some (N_of_ascii c - 87)
  else if between 65 70 c then Some (N_of_ascii c - 55)
  else None.

Definition hex4 (a b c d : ascii) : option N :=
  match hex_value a, hex_value b, hex_value c, hex_value d with
  | Some a, Some b, Some c, Some d => Some (4096 * a + 256 * b + 16 * c + d)
  | _, _, _, _ => None
  end.

Definition is_space (c : ascii) : bool :=
  (c =? " ")%char || (c =? "009")%char || (c =? "010")%char || (c =? "013")%char.

Fixpoint skip_space (s : string) : string :=
  match s with String c s' => if is_space c then skip_space s' else s | "" => "" end.

(** The longest prefix of digits, and the rest. *)
Fixpoint span_digits (s : string) : string * string :=
  match s with
  | String c s' => if is_digit c then let '(ds, r) := span_digits s' in (String c ds, r) else ("", s)
  | "" => ("", "")
  end.

(** What follows the prefix [p] of [s], if [s] starts with it. *)
Fixpoint after_prefix (p s : string) : option string :=
  match p, s with
  | "", _ => Some s
  | String a p', String b s' => if (a =? b)%char then after_prefix p' s' else None
  | _, "" => None
  end.

(** ** The scanner *)

(** [Decode msg at_]: a [JSONDecodeError] at the start of the suffix [at_] of the document.
    [TooDeep what]: [RecursionError]. [TooManyDigits n]: the [ValueError] of [int] for a literal of
    [n] digits. [NoFuel] does not happen. *)
Inductive scan_error :=
| Decode (msg at_ : string)
| TooDeep (what : string)
| TooManyDigits (n : nat)
| NoFuel.

#[local] Notation scanned A := (result scan_error (A * string)).

Definition simple_escape (e : ascii) : option ascii :=
  if (e =? quote)%char || (e =? backslash)%char || (e =? "/")%char then Some e
  else if (e =? "b")%char then Some "008"%char
  else if (e =? "f")%char then Some "012"%char
  else if (e =? "n")%char then Some "010"%char
  else if (e =? "r")%char then Some "013"%char
  else if (e =? "t")%char then Some "009"%char
  else None.

Definition prepend (t : string) (m : scanned string) : scanned string := rbind m (λ '(t', r), Ok (t +:+ t', r)).

(** [scanstring]: the text up to the closing quote; [begin] is the document from the opening one. *)
Fixpoint scanstring (begin s : string) {struct s} : scanned string :=
  match s with
  | "" => Exc (Decode "Unterminated string starting at" begin)
  | String c s1 =>
    if (c =? quote)%char then Ok ("", s1)
    else if (c =? backslash)%char then
      match s1 with
      | "" => Exc (Decode "Unterminated string starting at" begin)
      | String e s2 =>
        if (e =? "u")%char then
          match s2 with
          | String a (String b (String c (String d (String _ _ as s3)))) =>
            match hex4 a b c d with
            | None => Exc (Decode "Invalid \uXXXX escape" s1)
            | Some u =>
              match s3 with
              | String x (String y (String a' (String b' (String c' (String d' (String _ _ as s4)))))) =>
                if is_high u && (x =? backslash)%char && (y =? "u")%char then
                  match hex4 a' b' c' d' with
                  | None => Exc (Decode "Invalid \uXXXX escape" (String y (String a' (String b' (String c' (String d' s4))))))
                  | Some v =>
                    if is_low v then prepend (utf8 (join_surrogates u v)) (scanstring begin s4)
                    else prepend (utf8 u) (scanstring begin s3)
                  end
                else prepend (utf8 u) (scanstring begin s3)
              | _ => prepend (utf8 u) (scanstring begin s3)
              end
            end
          | _ => Exc (Decode "Invalid \uXXXX escape" s1)
          end
        else match simple_escape e with
          | Some c' => prepend (String c' "") (scanstring begin s2)
          | None => Exc (Decode "Invalid \escape" s)
          end
      end
    else if N_of_ascii c <=? 31 then Exc (Decode "Invalid control character at" s)
    else prepend (String c "") (scanstring begin s1)
  end.

Definition INT_MAX_STR_DIGITS : nat := 4300.

Fixpoint decimal (acc : Z) (s : string) : Z :=
  match s with String c s' => decimal (10 * acc + Z.of_N (N_of_ascii c - 48)) s' | "" => acc end.

(** The fraction and the exponent that may follow the digits of a number. *)
Definition fraction (s : string) : string * string :=
  match s with
  | String p (String d r) =>
    if (p =? ".")%char && is_digit d then let '(ds, r') := span_digits r in (String p (String d ds), r') else ("", s)
  | _ => ("", s)
  end.

Definition exponent (s : string) : string * string :=
  match s with
  | String e r =>
    if (e =? "e")%char || (e =? "E")%char then
      let '(sign, r1) := match r with
        | String c r' => if (c =? "-")%char || (c =? "+")%char then (String c "", r') else ("", r)
        | "" => ("", r) end in
      match span_digits r1 with
      | ("", _) => ("", s)
      | (ds, r2) => (String e (sign +:+ ds), r2)
      end
    else ("", s)
  | "" => ("", "")
  end.

(** The number after its sign; [s] is the document from the sign on. *)
Definition match_digits (s : string) (neg : bool) (s1 : string) : scanned json :=
  match s1 with
  | String c r =>
    if is_digit c then
      let '(ds, r1) := if (c =? "0")%char then ("", r) else span_digits r in
      let ds := String c ds in
      let '(fr, r2) := fraction r1 in
      let '(ex, r3) := exponent r2 in
      if decide (fr +:+ ex = "") then
        if decide (INT_MAX_STR_DIGITS < String.length ds)%nat then Exc (TooManyDigits (String.length ds))
        else Ok (JInt (if neg then - decimal 0 ds else decimal 0 ds)%Z, r3)
      else Ok (JFloat ((if neg then "-" else "") +:+ ds +:+ fr +:+ ex), r3)
    else Exc (Decode "Expecting value" s)
  | "" => Exc (Decode "Expecting value" s)
  end.

(** [_match_number]. *)
Definition match_number (s : string) : scanned json :=
  match s with
  | String c r => if (c =? "-")%char then match_digits s true r else match_digits s false s
  | "" => match_digits s false s
  end.

Definition constants : list (string * json) :=
  [("null", JNull); ("true", JBool true); ("false", JBool false);
   ("NaN", JFloat "NaN"); ("Infinity", JFloat "Infinity"); ("-Infinity", JFloat "-Infinity")].

Fixpoint match_constant (cs : list (string * json)) (s : string) : option (json * string) :=
  match cs with
  | [] => None
  | (p, v) :: cs' => match after_prefix p s with Some r => Some (v, r) | None => match_constant cs' s end
  end.

(** [scan_once], and the loops of [_parse_object] and [_parse_array] after the opening bracket. *)
Fixpoint scan_once (fuel depth : nat) (s : string) {struct fuel} : scanned json :=
  match fuel with
  | O => Exc NoFuel
  | S fuel =>
    match s with
    | "" => Exc (Decode "Expecting value" s)
    | String c r =>
      if (c =? quote)%char then rbind (scanstring s r) (λ '(t, r'), Ok (JStr t, r'))
      else if (c =? "{")%char then
        match depth with
        | O => Exc (TooDeep "object")
        | S depth =>
          match skip_space r with
          | String c' r' as s' => if (c' =? "}")%char then Ok (JDict [], r') else scan_object fuel depth [] s'
          | "" => scan_object fuel depth [] ""
          end
        end
      else if (c =? "[")%char then
        match depth with
        | O => Exc (TooDeep "array")
        | S depth =>
          match skip_space r with
          | String c' r' as s' => if (c' =? "]")%char then Ok (JList [], r') else scan_array fuel depth [] s'
          | "" => scan_array fuel depth [] ""
          end
        end
      else match match_constant constants s with Some vr => Ok vr | None => match_number s end
    end
  end
with scan_object (fuel depth : nat) (acc : list (string * json)) (s : string) {struct fuel} : scanned json :=
  match fuel with
  | O => Exc NoFuel
  | S fuel =>
    match s with
    | String c r =>
      if (c =? quote)%char then
        rbind (scanstring s r) (λ '(key, r1),
        match skip_space r1 with
        | String c1 r2 as s2 =>
          if (c1 =? ":")%char then
            rbind (scan_once fuel depth (skip_space r2)) (λ '(v, r3),
            match skip_space r3 with
            | String c2 r4 as s4 =>
              if (c2 =? "}")%char then Ok (JDict (dict_set key v acc), r4)
              else if (c2 =? ",")%char then scan_object fuel depth (dict_set key v acc) (skip_space r4)
              else Exc (Decode "Expecting ',' delimiter" s4)
            | "" => Exc (Decode "Expecting ',' delimiter" "")
            end)
          else Exc (Decode "Expecting ':' delimiter" s2)
        | "" => Exc (Decode "Expecting ':' delimiter" "")
        end)
      else Exc (Decode "Expecting property name enclosed in double quotes" s)
    | "" => Exc (Decode "Expecting property name enclosed in double quotes" s)
    end
  end
with scan_array (fuel depth : nat) (acc : list json) (s : string) {struct fuel} : scanned json :=
  match fuel with
  | O => Exc NoFuel
  | S fuel =>
    rbind (scan_once fuel depth s) (λ '(v, r),
    match skip_space r with
    | String c r1 as s1 =>
      if (c =? "]")%char then Ok (JList (acc ++ [v]), r1)
      else if (c =? ",")%char then scan_array fuel depth (acc ++ [v]) (skip_space r1)
      else Exc (Decode "Expecting ',' delimiter" s1)
    | "" => Exc (Decode "Expecting ',' delimiter" "")
    end)
  end.

(** [JSONDecoder.decode]. *)
Definition decode (limit : nat) (doc : string) : result scan_error json :=
  rbind (scan_once (S (2 * String.length doc)) limit (skip_space doc)) (λ '(v, r),
  match skip_space r with "" => Ok v | s => Exc (Decode "Extra data" s) end).
(** ** Documents *)

(** Characters of a text: every byte but the continuation bytes of UTF-8. *)
Fixpoint chars (s : string) : nat :=
  match s with String c s' => (if between 128 191 c then 0 else 1) + chars s' | "" => 0 end.

(** The line and the column of the position [n] (in bytes) of a document, both from 1. *)
Fixpoint line_col (n : nat) (doc : string) (line col : nat) : nat * nat :=
  match n, doc with
  | S n', String c doc' =>
    if (c =? "010")%char then line_col n' doc' (S line) 1
    else line_col n' doc' line (if between 128 191 c then col else S col)
  | _, _ => (line, col)
  end.

(** [str] of [JSONDecodeError(msg, doc, pos)], the position given by the suffix [at_]. *)
Definition decode_error_str (doc msg at_ : string) : string :=
  let '(line, col) := line_col (String.length doc - String.length at_) doc 1 1 in
  msg +:+ ": line " +:+ pretty line +:+ " column " +:+ pretty col +:+ " (char " +:+ pretty (chars doc - chars at_)%nat +:+ ")".

Definition scan_exn (doc : string) (e : scan_error) : exn :=
  match e with
  | Decode msg at_ => PyExc "JSONDecodeError" (decode_error_str doc msg at_)
  | TooDeep what => PyExc "RecursionError"
      ("maximum recursion depth exceeded while decoding a JSON " +:+ what +:+ " from a unicode string")
  | TooManyDigits n => PyExc "ValueError"
      ("Exceeds the limit (" +:+ pretty INT_MAX_STR_DIGITS +:+ " digits) for integer string conversion: value has " +:+
       pretty n +:+ " digits; use sys.set_int_max_str_digits() to increase the limit")
  | NoFuel => PyExc "NoFuel" ""
  end.

Definition decode_text (limit : nat) (doc : string) : result exn json :=
  match decode limit doc with Ok v => Ok v | Exc e => Exc (scan_exn doc e) end.

(** ** Bytes *)

Inductive encoding := Utf8 | Utf8Sig | Utf16 | Utf16BE | Utf16LE | Utf32 | Utf32BE | Utf32LE.

Definition bytes (ns : list N) : string := foldr (λ n s, String (ascii_of_N n) s) "" ns.
Definition starts_with (p s : string) : bool := bool_decide (is_Some (after_prefix p s)).

(** [json.detect_encoding]. *)
Definition detect_encoding (b : string) : encoding :=
  let zero c := (c =? "000")%char in
  if starts_with (bytes [0; 0; 254; 255]) b || starts_with (bytes [255; 254; 0; 0]) b then Utf32
  else if starts_with (bytes [254; 255]) b || starts_with (bytes [255; 254]) b then Utf16
  else if starts_with (bytes [239; 187; 191]) b then Utf8Sig
  else match b with
  | String b0 (String b1 (String b2 (String b3 _))) =>
    if zero b0 then (if zero b1 then Utf32BE else Utf16BE)
    else if zero b1 then (if zero b2 && zero b3 then Utf32LE else Utf16LE)
    else Utf8
  | String b0 (String b1 "") => if zero b0 then Utf16BE else if zero b1 then Utf16LE else Utf8
  | _ => Utf8
  end.

(** Well-formed UTF-8; [pass] also admits encoded surrogates, as the handler [surrogatepass] does. *)
Fixpoint utf8_wf (pass : bool) (s : string) {struct s} : bool :=
  let cont := between 128 191 in
  match s with
  | "" => true
  | String a s1 =>
    if between 0 127 a then utf8_wf pass s1
    else match s1 with
    | "" => false
    | String b s2 =>
      if between 194 223 a then cont b && utf8_wf pass s2
      else match s2 with
      | "" => false
      | String c s3 =>
        if between 224 239 a then
          (if (a =? "224")%char then between 160 191 b
           else if (a =? "237")%char then between 128 (if pass then 191 else 159) b else cont b)
          && cont c && utf8_wf pass s3
        else match s3 with
        | "" => false
        | String d s4 =>
          between 240 244 a &&
          (if (a =? "240")%char then between 144 191 b else if (a =? "244")%char then between 128 143 b else cont b)
          && cont c && cont d && utf8_wf pass s4
        end
      end
    end
  end.

(** The code units of two or four bytes; [None] if some bytes are left over. *)
Fixpoint units16 (big : bool) (s : string) {struct s} : option (list N) :=
  match s with
  | "" => Some []
  | String a (String b r) =>
    (cons (if big then 256 * N_of_ascii a + N_of_ascii b else 256 * N_of_ascii b + N_of_ascii a)) <$> units16 big r
  | _ => None
  end.

Fixpoint units32 (big : bool) (s : string) {struct s} : option (list N) :=
  match s with
  | "" => Some []
  | String a (String b (String c (String d r))) =>
    let word w x y z := 16777216 * N_of_ascii w + 65536 * N_of_ascii x + 256 * N_of_ascii y + N_of_ascii z in
    (cons (if big then word a b c d else word d c b a)) <$> units32 big r
  | _ => None
  end.

Fixpoint text16 (us : list N) {struct us} : string :=
  match us with
  | [] => ""
  | u :: us1 =>
    match us1 with
    | v :: us2 => if is_high u && is_low v then utf8 (join_surrogates u v) +:+ text16 us2 else utf8 u +:+ text16 us1
    | [] => utf8 u
    end
  end.

Fixpoint text32 (us : list N) : option string :=
  match us with
  | [] => Some ""
  | u :: us' => if u <=? 1114111 then (String.app (utf8 u)) <$> text32 us' else None
  end.

Fixpoint drop_bom (n : nat) (s : string) : string :=
  match n, s with S n', String _ s' => drop_bom n' s' | _, _ => s end.

(** [b.decode(enc, "surrogatepass")]; [None] stands for a [UnicodeDecodeError]. *)
Definition decode_bytes (enc : encoding) (b : string) : option string :=
  match enc with
  | Utf8 => if utf8_wf true b then Some b else None
  | Utf8Sig => let b' := drop_bom 3 b in if utf8_wf true b' then Some b' else None
  | Utf16BE => text16 <$> units16 true b
  | Utf16LE => text16 <$> units16 false b
  | Utf16 => text16 <$> units16 (starts_with (bytes [254]) b) (drop_bom 2 b)
  | Utf32BE => units32 true b ≫= text32
  | Utf32LE => units32 false b ≫= text32
  | Utf32 => units32 (starts_with (bytes [0]) b) (drop_bom 4 b) ≫= text32
  end.

(** The argument of [loads]: text, bytes, or another object, known by the name of its class. *)
Inductive raw := RawStr (s : string) | RawBytes (b : string) | RawOther (cls : string).

(** [json.loads]; [unicode_error] is the text of the exception of a decoder. *)
Definition loads (limit : nat) (unicode_error : string → string) (r : raw) : result exn json :=
  match r with
  | RawStr s =>
    if starts_with (bytes [239; 187; 191]) s then
      Exc (PyExc "JSONDecodeError" (decode_error_str s "Unexpected UTF-8 BOM (decode using utf-8-sig)" s))
    else decode_text limit s
  | RawBytes b =>
    match decode_bytes (detect_encoding b) b with
    | Some s => decode_text limit s
    | None => Exc (PyExc "UnicodeDecodeError" (unicode_error b))
    end
  | RawOther cls => Exc (PyExc "TypeError" ("the JSON object must be str, bytes or bytearray, not " +:+ cls))
  end.

(** ** The fuel is enough *)

#[local] Notation len := String.length.
#[local] Open Scope nat_scope.

(** A scanner that consumes: no fuel is missed, and what is left is shorter than [n]. *)
Definition consumes {A} (n : nat) (m : result scan_error (A * string)) : Prop :=
  m ≠ Exc NoFuel ∧ ∀ a r, m = Ok (a, r) → len r < n.

Lemma consumes_ok {A} n (a : A) r : len r < n → consumes n (Ok (a, r)).
Proof. intros ?. split; [done|]. by intros ?? [= <- <-]. Qed.

Lemma consumes_exc {A} n e : e ≠ NoFuel → consumes n (Exc e : result scan_error (A * string)).
Proof. intros ?. split; [congruence|done]. Qed.

Lemma consumes_mono {A} n m (x : result scan_error (A * string)) : consumes n x → n ≤ m → consumes m x.
Proof. intros [? H] ?. split; [done|]. intros a r E. specialize (H a r E). lia. Qed.

Lemma consumes_bind {A B} n k (m : result scan_error (A * string)) (f : A * string → result scan_error (B * string)) :
  consumes n m → (∀ a r, len r < n → consumes k (f (a, r))) → consumes k (rbind m f).
Proof.
  intros [Hm Hl] Hf. destruct m as [[a r]|e]; simpl; [apply Hf; eauto|]. apply consumes_exc. congruence.
Qed.

#[local] Hint Resolve consumes_ok : py.
#[local] Hint Extern 2 (consumes _ (Exc _)) => apply consumes_exc; discriminate : py.

Lemma skip_space_len s : len (skip_space s) ≤ len s.
Proof. induction s as [|c s IH]; simpl; [done|]. destruct (is_space c); simpl; lia. Qed.

Lemma span_digits_len s : len (span_digits s).2 ≤ len s.
Proof. induction s as [|c s IH]; simpl; [done|]. destruct (is_digit c); [|done]. destruct (span_digits s); simpl in *. lia. Qed.

Lemma prepend_consumes n t m : consumes n m → consumes n (prepend t m).
Proof. intros H. eapply consumes_bind; [exact H|]. intros a r Hr. by apply consumes_ok. Qed.

(** Induction over strings that gives the hypothesis for every shorter one. *)
Lemma string_len_ind (P : string → Prop) : (∀ s, (∀ t, len t < len s → P t) → P s) → ∀ s, P s.
Proof. intros H s. remember (len s) as n eqn:E. revert s E. induction (lt_wf n) as [n _ IH]. intros s ->. eauto. Qed.

Lemma scanstring_consumes begin s : consumes (len s) (scanstring begin s).
Proof.
  induction s as [[|c s] IH] using string_len_ind; [simpl; auto with py|].
  assert (Hp : ∀ t s', len s' ≤ len s → consumes (S (len s)) (prepend t (scanstring begin s'))).
  { intros t s' Hs. apply prepend_consumes. eapply consumes_mono; [apply IH; simpl; lia|lia]. }
  cbn [scanstring String.length].
  repeat (match goal with
  | |- consumes _ (if ?b then _ else _) => destruct b
  | |- consumes _ (match ?x with _ => _ end) => destruct x
  end; cbn [String.length] in *); 
    first [apply Hp; cbn [String.length]; lia | apply consumes_ok; lia | apply consumes_exc; discriminate].
Qed.

Lemma fraction_len s : len (fraction s).2 ≤ len s.
Proof.
  destruct s as [|p [|d r]]; simpl; try done. destruct (_ && _); [|done].
  pose proof (span_digits_len r). destruct (span_digits r); simpl in *; lia.
Qed.

Lemma exponent_len s : len (exponent s).2 ≤ len s.
Proof.
  destruct s as [|e r]; [done|]. cbn [exponent]. destruct (_ || _); [|done].
  assert (H : ∀ sg r1, len r1 ≤ len r →
    len (match span_digits r1 with ("", _) => ("", String e r) | (ds, r2) => (String e (sg +:+ ds), r2) end).2 ≤ len (String e r)).
  { intros sg r1 Hr. pose proof (span_digits_len r1). destruct (span_digits r1) as [[|]]; simpl in *; lia. }
  destruct r as [|c r]; [by apply H|]. destruct (_ || _); apply H; simpl; lia.
Qed.

Lemma match_digits_consumes s neg s1 : len s1 ≤ len s → consumes (len s) (match_digits s neg s1).
Proof.
  intros Hl. unfold match_digits. destruct s1 as [|c r]; [auto with py|]. destruct (is_digit c); [|auto with py]. simpl in Hl.
  assert (Hr : len (if (c =? "0")%char then ("", r) else span_digits r).2 ≤ len r) by (destruct (c =? "0")%char; [done|apply span_digits_len]).
  destruct (if (c =? "0")%char then _ else _) as [ds r1]. simpl in Hr.
  pose proof (fraction_len r1). destruct (fraction r1) as [fr r2]. pose proof (exponent_len r2). destruct (exponent r2) as [ex r3].
  simpl in *. repeat case_decide; first [apply consumes_ok; lia | auto with py].
Qed.

Lemma match_number_consumes s : consumes (len s) (match_number s).
Proof.
  destruct s as [|c r]; [by apply match_digits_consumes|]. cbn [match_number].
  destruct (c =? "-")%char; apply match_digits_consumes; simpl; lia.
Qed.

Lemma after_prefix_len p s r : after_prefix p s = Some r → len s = len p + len r.
Proof.
  revert s. induction p as [|a p IH]; intros [|b s]; simpl; try done; [by intros [= <-]..|].
  destruct (a =? b)%char; [|done]. intros ->%IH. done.
Qed.

Lemma match_constant_len s v r : match_constant constants s = Some (v, r) → len r < len s.
Proof.
  unfold constants. cbn [match_constant].
  repeat (match goal with |- context [after_prefix ?p s] => destruct (after_prefix p s) eqn:? end;
    [intros [= <- <-]; repeat match goal with H : after_prefix _ _ = Some _ |- _ => apply after_prefix_len in H end; simpl in *; lia|]).
  done.
Qed.

Lemma scan_consumes fuel :
  (∀ d s, 2 * len s < fuel → consumes (len s) (scan_once fuel d s)) ∧
  (∀ d acc s, 2 * len s < fuel → consumes (len s) (scan_object fuel d acc s)) ∧
  (∀ d acc s, 2 * len s + 1 < fuel → consumes (len s) (scan_array fuel d acc s)).
Proof.
  induction fuel as [|fuel (IHv & IHo & IHa)]; [split_and!; lia|]. split_and!.
  - intros d s Hs. cbn [scan_once]. destruct s as [|c r]; [auto with py|]. simpl in Hs. pose proof (skip_space_len r) as Hr.
    destruct (c =? quote)%char; [|destruct (c =? "{")%char; [|destruct (c =? "[")%char]].
    + eapply consumes_bind; [apply scanstring_consumes|]. intros t r' Ht. apply consumes_ok. simpl. lia.
    + destruct d as [|d]; [auto with py|]. destruct (skip_space r) as [|c' r'] eqn:E; [eapply consumes_mono; [apply IHo; simpl|simpl]; lia|].
      simpl in Hr. destruct (c' =? "}")%char; [apply consumes_ok; simpl; lia|eapply consumes_mono; [apply IHo; simpl|simpl]; lia].
    + destruct d as [|d]; [auto with py|]. destruct (skip_space r) as [|c' r'] eqn:E; [eapply consumes_mono; [apply IHa; simpl|simpl]; lia|].
      simpl in Hr. destruct (c' =? "]")%char; [apply consumes_ok; simpl; lia|eapply consumes_mono; [apply IHa; simpl|simpl]; lia].
    + destruct (match_constant constants (String c r)) as [[v r']|] eqn:E; [|apply match_number_consumes].
      apply consumes_ok. by eapply match_constant_len.
  - intros d acc s Hs. cbn [scan_object]. destruct s as [|c r]; [auto with py|]. simpl in Hs. destruct (c =? quote)%char; [|auto with py].
    eapply consumes_bind; [apply scanstring_consumes|]. intros key r1 H1. pose proof (skip_space_len r1).
    destruct (skip_space r1) as [|c1 r2]; [auto with py|]. destruct (c1 =? ":")%char; [|auto with py]. simpl in *.
    pose proof (skip_space_len r2). eapply consumes_bind; [apply IHv; lia|]. intros v r3 H3. pose proof (skip_space_len r3).
    destruct (skip_space r3) as [|c2 r4]; [auto with py|]. simpl in *. pose proof (skip_space_len r4).
    destruct (c2 =? "}")%char; [apply consumes_ok; lia|]. destruct (c2 =? ",")%char; [|auto with py].
    eapply consumes_mono; [apply IHo|]; lia.
  - intros d acc s Hs. cbn [scan_array]. eapply consumes_bind; [apply IHv; lia|]. intros v r Hr. pose proof (skip_space_len r).
    destruct (skip_space r) as [|c r1]; [auto with py|]. simpl in *. pose proof (skip_space_len r1).
    destruct (c =? "]")%char; [apply consumes_ok; lia|]. destruct (c =? ",")%char; [|auto with py].
    eapply consumes_mono; [apply IHa|]; lia.
Qed.

(** The reader always ends with an answer of its own. *)
Lemma scan_never_out_of_fuel limit doc : decode limit doc ≠ Exc NoFuel.
Proof.
  unfold decode. pose proof (skip_space_len doc).
  destruct (scan_consumes (S (2 * len doc))) as [Hv _]. destruct (Hv limit (skip_space doc)) as [Hn _]; [lia|].
  destruct (scan_once _ limit _) as [[v r]|e]; simpl; [|congruence]. by destruct (skip_space r).
Qed.
(** A document that opens more arrays than the limit allows is refused. *)
Lemma decode_too_deep limit : decode limit (foldr String.append "" (repeat "[" (S limit))) = Exc (TooDeep "array").
Proof.
  unfold decode. set (doc n := foldr String.append "" (repeat "[" n)). fold (doc (S limit)).
  assert (Hl : ∀ n, len (doc n) = n) by (intros n; induction n as [|n IH]; simpl; [done|by f_equal]).
  assert (Hs : ∀ n, skip_space (doc n) = doc n) by (by intros [|n]).
  assert (H : ∀ n fuel, 2 * S n < fuel → scan_once fuel n (doc (S n)) = Exc (TooDeep "array")).
  { intros n. induction n as [|n IH]; intros fuel Hf; (destruct fuel as [|[|fuel]]; [lia|lia|]); [done|].
    change (scan_once (S (S fuel)) (S n) (doc (S (S n)))) with
      (match skip_space (doc (S n)) with
       | String c' r' as s' => if (c' =? "]")%char then Ok (JList [], r') else scan_array (S fuel) n [] s'
       | "" => scan_array (S fuel) n [] "" end).
    rewrite Hs. change (doc (S n)) with (String "[" (doc n)). cbn [scan_array Ascii.eqb Bool.eqb]. change (String "[" (doc n)) with (doc (S n)).
    rewrite IH by lia. done. }
  rewrite Hs, H by (rewrite Hl; lia). done.
Qed.

(** An integer literal with too many digits is refused. *)
Lemma decode_too_long limit n :
  INT_MAX_STR_DIGITS < n → decode limit (foldr String.append "" (repeat "1" n)) = Exc (TooManyDigits n).
Proof.
  set (doc m := foldr String.append "" (repeat "1" m)). fold (doc n). intros Hn.
  assert (Hl : ∀ m, len (doc m) = m) by (intros m; induction m as [|m IH]; simpl; [done|by f_equal]).
  assert (Hd : ∀ m, span_digits (doc m) = (doc m, "")).
  { intros m. induction m as [|m IH]; [done|]. change (doc (S m)) with (String "1" (doc m)).
    cbn [span_digits]. change (is_digit "1") with true. cbv iota. by rewrite IH. }
  destruct n as [|n]; [lia|]. unfold decode. change (doc (S n)) with (String "1" (doc n)).
  assert (E : match_number (String "1" (doc n)) = Exc (TooManyDigits (S n))).
  { cbn [match_number Ascii.eqb Bool.eqb match_digits]. change (is_digit "1") with true. cbv iota. rewrite Hd.
    cbn [fraction exponent]. rewrite decide_True by done. cbn [String.length]. rewrite Hl. by rewrite decide_True. }
  cbn [skip_space]. change (is_space "1") with false. cbv iota.
  change (scan_once (S ?f) limit (String "1" (doc n))) with (match_number (String "1" (doc n))). by rewrite E.
Qed.

(** ** A printer *)

Definition hex_digit (n : N) : ascii := ascii_of_N (if (n <? 10)%N then 48 + n else 87 + n)%N.

Definition escape (c : ascii) : string :=
  if (c =? quote)%char || (c =? backslash)%char then String backslash (String c "")
  else if (N_of_ascii c <=? 31)%N then
    String backslash (String "u" (String "0" (String "0"
      (String (hex_digit (N.shiftr (N_of_ascii c) 4)) (String (hex_digit (N.land (N_of_ascii c) 15)) "")))))
  else String c "".

Fixpoint escaped (s : string) : string := match s with "" => "" | String c s' => escape c +:+ escaped s' end.

Definition print_string (s : string) : string := String quote (escaped s +:+ String quote "").

Fixpoint print (v : json) : string :=
  match v with
  | JNull => "null"
  | JBool b => if b then "true" else "false"
  | JInt z => pretty z
  | JFloat t => t
  | JStr s => print_string s
  | JList l => "[" +:+ py_join "," (map print l) +:+ "]"
  | JDict d => "{" +:+ py_join "," (map (λ kv, print_string kv.1 +:+ ":" +:+ print kv.2) d) +:+ "}"
  end.

(** Values without numbers, whose objects have distinct keys and that nest at most [d] deep. *)
Inductive plain : nat → json → Prop :=
| plain_null d : plain d JNull
| plain_bool d b : plain d (JBool b)
| plain_str d s : plain d (JStr s)
| plain_list d l : Forall (plain d) l → plain (S d) (JList l)
| plain_dict d kvs : NoDup kvs.*1 → Forall (plain d) kvs.*2 → plain (S d) (JDict kvs).

Lemma scanstring_escape begin c x r : scanstring begin (escape c +:+ String x r) = prepend (String c "") (scanstring begin (String x r)).
Proof.
  destruct c as [[] [] [] [] [] [] [] []]; try reflexivity; destruct r as [|? [|? [|? [|? [|? [|? ?]]]]]]; reflexivity.
Qed.

Lemma prepend_ok t t' r : prepend t (Ok (t', r)) = Ok (t +:+ t', r).
Proof. done. Qed.

Lemma scanstring_print begin s r : scanstring begin (escaped s +:+ String quote r) = Ok (s, r).
Proof.
  induction s as [|c s IH]; [done|]. cbn [escaped]. rewrite string_app_assoc.
  destruct (escaped s +:+ String quote r) as [|x r'] eqn:E; [by destruct (escaped s)|].
  by rewrite scanstring_escape, IH.
Qed.

(** The first character of a printed value. *)
Lemma print_head d v : plain d v → ∃ c t, print v = String c t ∧ is_space c = false ∧ (c =? "]")%char = false ∧ (c =? "}")%char = false.
Proof. intros []; try destruct b; simpl; by do 2 eexists. Qed.

Lemma skip_print d v r : plain d v → skip_space (print v +:+ r) = print v +:+ r.
Proof. intros (c & t & -> & Hc & _)%print_head. simpl. by rewrite Hc. Qed.

Lemma len_app a b : len (a +:+ b) = len a + len b.
Proof. induction a as [|c a IH]; [done|]. simpl. by rewrite <-IH. Qed.

Lemma join_cons sep a l : py_join sep (a :: l) = a +:+ match l with [] => "" | _ => sep +:+ py_join sep l end.
Proof. destruct l; [|done]. simpl. induction a as [|c a IH]; [done|]. unfold String.app in *. simpl. by f_equal. Qed.

(** A scanner reads the value at the front of a text: it returns it and leaves what follows. *)
Definition reads (d : nat) (v : json) : Prop :=
  ∀ fuel r, 2 * len (print v +:+ r) < fuel → scan_once fuel d (print v +:+ r) = Ok (v, r).

Lemma scan_array_print d l acc fuel r :
  l ≠ [] → Forall (plain d) l → Forall (reads d) l → 2 * len (py_join "," (map print l) +:+ "]" +:+ r) + 1 < fuel →
  scan_array fuel d acc (py_join "," (map print l) +:+ "]" +:+ r) = Ok (JList (acc ++ l), r).
Proof.
  intros Hn Hp Hr. revert acc fuel Hn. induction l as [|v l IH]; intros acc fuel Hn Hf; [done|]. clear Hn.
  apply Forall_cons in Hp as [Hv Hp]. apply Forall_cons in Hr as [Hrv Hr]. destruct fuel as [|fuel]; [lia|].
  revert Hf. cbn [map scan_array]. rewrite join_cons, !string_app_assoc. intros Hf. rewrite Hrv by lia. cbn [rbind].
  destruct l as [|w l]; [done|]. revert Hf. cbn [map]. fold (map print). rewrite string_app_assoc. intros Hf.
  set (rest := py_join "," (print w :: map print l) +:+ "]" +:+ r) in *.
  change (scan_array fuel d (acc ++ [v]) (skip_space rest) = Ok (JList (acc ++ v :: w :: l), r)). unfold rest in *.
  rewrite join_cons, string_app_assoc. inversion Hp; subst. erewrite skip_print by done.
  rewrite <-string_app_assoc, <-join_cons. change (print w :: map print l) with (map print (w :: l)).
  rewrite IH; [by rewrite <-app_assoc|done..|]. rewrite !len_app in *. simpl in *. lia.
Qed.

#[local] Notation entry := (λ kv : string * json, print_string kv.1 +:+ ":" +:+ print kv.2).

Lemma scan_object_print d (kvs acc : list (string * json)) fuel r :
  kvs ≠ [] → NoDup (acc ++ kvs)%list.*1 → Forall (plain d) kvs.*2 → Forall (reads d) kvs.*2 →
  2 * len (py_join "," (map entry kvs) +:+ "}" +:+ r) < fuel →
  scan_object fuel d acc (py_join "," (map entry kvs) +:+ "}" +:+ r) = Ok (JDict (acc ++ kvs), r).
Proof.
  intros Hn Hd Hp Hr. revert acc fuel Hn Hd. induction kvs as [|[k v] kvs IH]; intros acc fuel Hn Hd Hf; [done|]. clear Hn.
  apply Forall_cons in Hp as [Hv Hp]. apply Forall_cons in Hr as [Hrv Hr]. destruct fuel as [|fuel]; [lia|].
  assert (Hset : dict_set k v acc = (acc ++ [(k, v)])%list).
  { apply dict_set_new, dict_get_None. rewrite fmap_app in Hd. apply NoDup_app in Hd as (_ & Hd & _). intros Hk.
    apply (Hd k Hk). simpl. set_solver. }
  revert Hf. cbn [map fst snd]. rewrite join_cons. rewrite !string_app_assoc.
  set (tl := match map _ kvs with [] => "" | _ => _ end). intros Hf.
  set (rest := ":" +:+ print v +:+ tl +:+ "}" +:+ r) in *.
  assert (E : print_string k +:+ rest = String quote (escaped k +:+ String quote rest)).
  { unfold print_string. change (String quote ?x +:+ ?y) with (String quote (x +:+ y)). by rewrite string_app_assoc. }
  rewrite E. cbn [scan_object]. rewrite Ascii.eqb_refl, scanstring_print. cbn [rbind].
  change (skip_space rest) with rest. unfold rest at 1.
  change (":" +:+ ?x) with (String ":" x). cbn [Ascii.eqb Bool.eqb]. erewrite skip_print by done.
  rewrite Hrv. 2: { revert Hf. unfold rest. rewrite !len_app. simpl. lia. }
  cbn [rbind]. destruct kvs as [|[k' v'] kvs]; [rewrite <-Hset; done|]. subst tl. cbn [map]. rewrite string_app_assoc.
  set (rest' := py_join "," _ +:+ "}" +:+ r).
  change (scan_object fuel d (dict_set k v acc) (skip_space rest') = Ok (JDict (acc ++ (k, v) :: (k', v') :: kvs), r)).
  assert (Hs : skip_space rest' = rest') by (unfold rest'; by rewrite join_cons).
  rewrite Hs, Hset. unfold rest'. specialize (IH Hp Hr (acc ++ [(k, v)])%list fuel). rewrite <-app_assoc in IH. apply IH; [done..|].
  revert Hf. unfold rest. cbn [map]. rewrite !len_app. cbn [String.length]. lia.
Qed.

Lemma open_array fuel d c s :
  is_space c = false → (c =? "]")%char = false → scan_once (S fuel) (S d) (String "[" (String c s)) = scan_array fuel d [] (String c s).
Proof. intros Hs Hc. cbn [scan_once skip_space Ascii.eqb Bool.eqb quote]. by rewrite Hs, Hc. Qed.

Lemma open_object fuel d c s :
  is_space c = false → (c =? "}")%char = false → scan_once (S fuel) (S d) (String "{" (String c s)) = scan_object fuel d [] (String c s).
Proof. intros Hs Hc. cbn [scan_once skip_space Ascii.eqb Bool.eqb quote]. by rewrite Hs, Hc. Qed.

Lemma scan_list_print d l : Forall (plain d) l → Forall (reads d) l → reads (S d) (JList l).
Proof.
  intros Hp Hr [|fuel] r; [lia|]. cbn [print]. rewrite !string_app_assoc. change ("[" +:+ ?x) with (String "[" x). intros Hf.
  destruct l as [|w l]; [done|]. inversion Hp as [|?? Hw]; subst. destruct (print_head d w Hw) as (c & t & Ew & Hc & Hc' & _).
  etrans; [|apply (scan_array_print d (w :: l) [] fuel r); first [done | revert Hf; cbn [String.length]; lia]].
  cbn [map]. rewrite join_cons, Ew. by apply open_array.
Qed.

Lemma scan_dict_print d kvs : NoDup kvs.*1 → Forall (plain d) kvs.*2 → Forall (reads d) kvs.*2 → reads (S d) (JDict kvs).
Proof.
  intros Hd Hp Hr [|fuel] r; [lia|]. cbn [print]. rewrite !string_app_assoc. change ("{" +:+ ?x) with (String "{" x). intros Hf.
  destruct kvs as [|kv kvs]; [done|].
  etrans; [|apply (scan_object_print d (kv :: kvs) [] fuel r); first [done | revert Hf; cbn [String.length]; lia]].
  cbn [map]. rewrite join_cons. by apply open_object.
Qed.

(** The reader inverts the printer. *)
Lemma scan_print d v : plain d v → reads d v.
Proof.
  revert d v. fix IH 3. intros d v [d'|d' b|d' s|d' l Hl|d' kvs Hd Hl].
  - by intros [|fuel] r; [lia|].
  - by destruct b; intros [|fuel] r; [lia| |lia|].
  - intros [|fuel] r; [lia|]. intros _.
    change (print (JStr s) +:+ r) with (String quote ((escaped s +:+ String quote "") +:+ r)). rewrite string_app_assoc.
    change (String quote "" +:+ r) with (String quote r). cbn [scan_once]. by rewrite Ascii.eqb_refl, scanstring_print.
  - apply scan_list_print; [done|]. clear -IH Hl. induction Hl; constructor; auto.
  - apply scan_dict_print; [done..|]. clear -IH Hl. induction Hl; constructor; auto.
Qed.

Lemma app_empty (s : string) : s +:+ "" = s.
Proof. induction s as [|c s IH]; [done|]. change (String c (s +:+ "") = String c s). by rewrite IH. Qed.

Lemma decode_print limit v : plain limit v → decode limit (print v) = Ok v.
Proof.
  intros Hp. unfold decode. pose proof (scan_print limit v Hp (S (2 * len (print v))) "") as H. rewrite app_empty in H.
  pose proof (skip_print limit v "" Hp) as Hs. rewrite app_empty in Hs. rewrite Hs, H by lia. done.
Qed.

(** ** Printed text is UTF-8 *)

Definition high (c : ascii) : bool := between 128 255 c.

Fixpoint all_high (s : string) : bool := match s with "" => true | String c s' => high c && all_high s' end.

#[local] Arguments between : simpl never.
#[local] Arguments high : simpl never.

Lemma high_between lo hi c : between lo hi c = true → (128 <=? lo)%N = true → high c = true.
Proof. unfold high, between. rewrite !andb_true_iff, !N.leb_le. pose proof (N_ascii_bounded c). lia. Qed.

Lemma between_weaken lo hi hi' c : (hi <=? hi')%N = true → between lo hi c = true → between lo hi' c = true.
Proof. unfold between. rewrite !andb_true_iff, !N.leb_le. lia. Qed.

#[local] Ltac high_solve := eapply high_between; [eassumption|reflexivity].

(** A well-formed text is its first character, one ASCII byte or several high ones, and a well-formed rest. *)
Lemma utf8_split pass s :
  utf8_wf pass s = true → s ≠ "" →
  ∃ b r, s = b +:+ r ∧ len r < len s ∧ utf8_wf pass r = true ∧
    ((∃ c, b = String c "" ∧ between 0 127 c = true) ∨ all_high b = true) ∧
    (∀ p x, p = pass ∨ p = true → utf8_wf p (b +:+ x) = utf8_wf p x).
Proof.
  destruct s as [|a s1]; [done|]. intros H _. cbn [utf8_wf] in H. destruct (between 0 127 a) eqn:E0.
  { exists (String a ""), s1. split_and!; [done|simpl; lia|done|eauto|]. intros p x _.
    change (String a "" +:+ x) with (String a x). cbn [utf8_wf]. by rewrite E0. }
  destruct s1 as [|b s2]; [done|]. destruct (between 194 223 a) eqn:E1.
  { apply andb_prop in H as [Hb H]. exists (String a (String b "")), s2. split_and!; [done|simpl; lia|done| |].
    - right. cbn [all_high]. by rewrite (high_between _ _ _ E1 eq_refl), (high_between _ _ _ Hb eq_refl).
    - intros p x _. change (String a (String b "") +:+ x) with (String a (String b x)). cbn [utf8_wf]. by rewrite E0, E1, Hb. }
  destruct s2 as [|c s3]; [done|]. destruct (between 224 239 a) eqn:E2.
  { apply andb_prop in H as [[Hb Hc]%andb_prop H]. exists (String a (String b (String c ""))), s3. split_and!; [done|simpl; lia|done| |].
    - right. cbn [all_high]. rewrite (high_between _ _ _ E2 eq_refl), (high_between _ _ _ Hc eq_refl).
      assert (high b = true) as ->; [|done].
      destruct (a =? "224")%char; [high_solve|]. destruct (a =? "237")%char; high_solve.
    - intros p x Hp. change (String a (String b (String c "")) +:+ x) with (String a (String b (String c x))). cbn [utf8_wf].
      rewrite E0, E1, E2, Hc. destruct (a =? "224")%char; [by rewrite Hb|]. destruct (a =? "237")%char; [|by rewrite Hb].
      destruct Hp as [->| ->]; [by rewrite Hb|]. by rewrite (between_weaken _ (if pass then 191 else 159) 191) by (done || by destruct pass). }
  destruct s3 as [|d s4]; [done|]. apply andb_prop in H as [[[[Ha Hb]%andb_prop Hc]%andb_prop Hd]%andb_prop H].
  exists (String a (String b (String c (String d "")))), s4. split_and!; [done|simpl; lia|done| |].
  - right. cbn [all_high]. rewrite (high_between _ _ _ Ha eq_refl), (high_between _ _ _ Hc eq_refl), (high_between _ _ _ Hd eq_refl).
    assert (high b = true) as ->; [|done].
    destruct (a =? "240")%char; [high_solve|]. destruct (a =? "244")%char; high_solve.
  - intros p x Hp. change (String a (String b (String c (String d ""))) +:+ x) with (String a (String b (String c (String d x)))).
    cbn [utf8_wf]. by rewrite E0, E1, E2, Ha, Hb, Hc, Hd.
Qed.

Lemma utf8_wf_app a b : utf8_wf true a = true → utf8_wf true (a +:+ b) = utf8_wf true b.
Proof.
  induction a as [[|c a] IH] using string_len_ind; [done|]. intros H.
  destruct (utf8_split true _ H) as (x & r & E & Hl & Hr & _ & Hx); [done|]. rewrite E, string_app_assoc, Hx by auto. by apply IH.
Qed.

Lemma utf8_wf_pass s : utf8_wf false s = true → utf8_wf true s = true.
Proof.
  induction s as [[|c a] IH] using string_len_ind; [done|]. intros H.
  destruct (utf8_split false _ H) as (x & r & E & Hl & Hr & _ & Hx); [done|]. rewrite E, Hx by auto. by apply IH.
Qed.

Lemma escaped_app a b : escaped (a +:+ b) = escaped a +:+ escaped b.
Proof. induction a as [|c a IH]; [done|]. change (String c a +:+ b) with (String c (a +:+ b)). cbn [escaped]. by rewrite IH, string_app_assoc. Qed.

Lemma escaped_high b : all_high b = true → escaped b = b.
Proof.
  induction b as [|c b IH]; [done|]. cbn [all_high escaped]. intros [Hc Hb]%andb_prop. rewrite IH by done.
  assert (escape c = String c "") as ->; [|done]. by destruct c as [[] [] [] [] [] [] [] []].
Qed.

Lemma escape_ascii c : between 0 127 c = true → utf8_wf true (escape c) = true.
Proof. by destruct c as [[] [] [] [] [] [] [] []]. Qed.

Lemma escaped_wf s : utf8_wf true s = true → utf8_wf true (escaped s) = true.
Proof.
  induction s as [[|c a] IH] using string_len_ind; [done|]. intros H.
  destruct (utf8_split true _ H) as (b & r & E & Hl & Hr & Hb & Hx); [done|]. rewrite E, escaped_app.
  destruct Hb as [(c' & -> & Hc)|Hb].
  - cbn [escaped]. rewrite app_empty, utf8_wf_app by (by apply escape_ascii). by apply IH.
  - rewrite escaped_high, Hx by auto. by apply IH.
Qed.

Lemma print_string_wf s : utf8_wf true s = true → utf8_wf true (print_string s) = true.
Proof.
  intros H. unfold print_string. change (utf8_wf true (escaped s +:+ String quote "") = true).
  by rewrite utf8_wf_app by (by apply escaped_wf).
Qed.

Lemma join_wf l : Forall (λ s, utf8_wf true s = true) l → utf8_wf true (py_join "," l) = true.
Proof.
  induction 1 as [|a l Ha Hl IH]; [done|]. rewrite join_cons, utf8_wf_app by done. destruct l; [done|]. by rewrite utf8_wf_app.
Qed.

(** The text of a printed object is read back from its bytes as well. *)
Lemma loads_print limit ue kvs :
  plain limit (JDict kvs) → utf8_wf true (print (JDict kvs)) = true → kvs ≠ [] →
  loads limit ue (RawStr (print (JDict kvs))) = Ok (JDict kvs) ∧ loads limit ue (RawBytes (print (JDict kvs))) = Ok (JDict kvs).
Proof.
  intros Hp Hu Hn. assert (Hd : decode_text limit (print (JDict kvs)) = Ok (JDict kvs)) by (unfold decode_text; by rewrite decode_print).
  assert (Hh : ∃ t, print (JDict kvs) = String "{" (String quote t)).
  { destruct kvs as [|kv kvs]; [done|]. cbn [print map]. rewrite join_cons. by eexists. }
  destruct Hh as [t Ht]. unfold loads. split.
  - by rewrite Ht at 1.
  - assert (detect_encoding (print (JDict kvs)) = Utf8) as -> by (rewrite Ht; by destruct t as [|? []]).
    cbn [decode_bytes]. by rewrite Hu.
Qed.
End Json.
