(* ===== verification/EnvelopeJson.v ===== *)
(** * Envelopes as queue messages (src/vestibule/envelope/model.py)

    [envelope_to_json] and [envelope_from_json]. Reading is modelled in full: [json.loads]
    ([Json]), then [ArrivalEnvelope.model_validate] on the parsed value, which types every field
    as its annotation says, runs the field validators, refuses unknown keys, collects the errors
    and finally cross-checks [doc_id]. Writing is pydantic's [model_dump_json], an argument
    ([Pydantic]), of which only that the reader gets the dumped values back is assumed
    ([DumpLaws]); so are the formats of instants. *)
From S2P Require Import Prelude PyDict Types Sha256 Identity Envelope Json.
#[local] Open Scope Z_scope.

Module EnvelopeJson.
Import Identity Envelope Json.

(** What is not in the repository: the interpreter's recursion limit and the texts of its
    decoding errors, and pydantic's writer, its typing of an instant ([Exc] gives the text of
    the error) and the error for a key that is not valid Unicode. *)
Class Pydantic := {
  recursion_limit : nat;
  unicode_error : string → string;
  model_dump_json : ArrivalEnvelope → string;
  datetime_json : Z → string;
  type_datetime : json → result string Z;
  invalid_key : string → list string * string;
}.

Section json.
Context {pyd : Pydantic}.

#[local] Notation checked A := (result (list (list string * string)) A).

(** ** Typing a field *)

Definition type_str (v : json) : checked string :=
  match v with
  | JStr s => if utf8_wf false s then Ok s
              else Exc [([], "Input should be a valid string, unable to parse raw data as a unicode string")]
  | _ => Exc [([], "Input should be a valid string")]
  end.

(** [str | None]. *)
Definition type_opt_str (v : json) : checked (option string) :=
  match v with JNull => Ok None | _ => rbind (type_str v) (λ s, Ok (Some s)) end.

(** Two results, the errors of both. *)
Definition both {A B} (a : checked A) (b : checked B) : checked (A * B) :=
  match a, b with
  | Ok a, Ok b => Ok (a, b)
  | Exc e, Ok _ | Ok _, Exc e => Exc e
  | Exc e, Exc e' => Exc (e ++ e')
  end.

(** The errors of a part of the input, located in it. *)
Definition at_loc {A} (loc : string) (m : checked A) : checked A :=
  match m with Ok a => Ok a | Exc es => Exc (map (λ e, (loc :: e.1, e.2)) es) end.

(** [list[str]]; an item is located by its index. *)
Fixpoint type_items (i : nat) (l : list json) : checked (list string) :=
  match l with
  | [] => Ok []
  | v :: l' => rbind (both (at_loc (pretty i) (type_str v)) (type_items (S i) l')) (λ '(s, ss), Ok (s :: ss))
  end.

Definition type_str_list (v : json) : checked (list string) :=
  match v with JList l => type_items 0 l | _ => Exc [([], "Input should be a valid list")] end.

(** [TrustTier]: a member by its value. *)
Definition type_tier (v : json) : checked TrustTier :=
  match v with
  | JStr s =>
    match filter (λ t, trust_tier_value t = s) [PUBLIC; INTERNAL; CONFIDENTIAL; RESTRICTED] with
    | t :: _ => Ok t
    | [] => Exc [([], "Input should be 'public', 'internal', 'confidential' or 'restricted'")]
    end
  | _ => Exc [([], "Input should be 'public', 'internal', 'confidential' or 'restricted'")]
  end.

Definition type_received_at (v : json) : checked Z :=
  match type_datetime v with Ok t => Ok t | Exc msg => Exc [([], msg)] end.

(** A [field_validator] (after the typing): [Some reason] is the [ValueError] it raises. *)
Definition validated (validator : string → option string) (m : checked string) : checked string :=
  rbind m (λ s, match validator s with Some reason => Exc [([], "Value error, " +:+ reason)] | None => Ok s end).

(** A field of the model, with its default if it has one. *)
Definition field {A} (name : string) (dflt : option A) (typed : json → checked A) (data : list (string * json)) : checked A :=
  match dict_get name data with
  | Some v => at_loc name (typed v)
  | None => match dflt with Some a => Ok a | None => Exc [([name], "Field required")] end
  end.

Definition field_names : list string :=
  ["doc_id"; "source"; "blob_path"; "vertical"; "scenario_id"; "allowed_groups"; "trust_tier"; "content_hash"; "received_at"].

(** [extra="forbid"]: one error per unknown key, in the order of the input. *)
Definition extra_errors (data : list (string * json)) : list (list string * string) :=
  flat_map (λ kv, if negb (utf8_wf false kv.1) then [invalid_key kv.1]
                  else if decide (kv.1 ∈ field_names) then [] else [([kv.1], "Extra inputs are not permitted")]) data.

Definition no_extra (data : list (string * json)) : checked unit :=
  match extra_errors data with [] => Ok () | es => Exc es end.

(** The fields in the order of the class, then the unknown keys. *)
Definition model_fields (data : list (string * json)) : checked ArrivalEnvelope :=
  rbind
    (both (field "doc_id" None type_str data)
    (both (field "source" None (λ v, validated _non_empty (type_str v)) data)
    (both (field "blob_path" None (λ v, validated _non_empty (type_str v)) data)
    (both (field "vertical" (Some None) type_opt_str data)
    (both (field "scenario_id" (Some None) type_opt_str data)
    (both (field "allowed_groups" (Some []) type_str_list data)
    (both (field "trust_tier" None type_tier data)
    (both (field "content_hash" None (λ v, validated _content_hash_is_sha256_hex (type_str v)) data)
    (both (field "received_at" None type_received_at data)
          (no_extra data))))))))))
    (λ '(doc_id, (source, (blob_path, (vertical, (scenario_id, (allowed_groups, (trust_tier, (content_hash, (received_at, _))))))))),
     Ok (mkEnvelope doc_id source blob_path vertical scenario_id allowed_groups trust_tier content_hash received_at)).

(** [ArrivalEnvelope.model_validate(data)], its [ValidationError] wrapped. *)
Definition model_validate (data : json) : result exn ArrivalEnvelope :=
  match data with
  | JDict entries =>
    match model_fields entries with
    | Ok e => _verify_doc_id e
    | Exc errors => Exc (_wrap_validation_error errors)
    end
  | _ => Exc (_wrap_validation_error [([], "Input should be a valid dictionary or instance of ArrivalEnvelope")])
  end.

Definition envelope_to_json (envelope : ArrivalEnvelope) : string := model_dump_json envelope.

(** The classes [envelope_from_json] catches around [json.loads]. *)
Definition malformed : list string := ["JSONDecodeError"; "TypeError"; "UnicodeDecodeError"].

Definition envelope_from_json (r : raw) : result exn ArrivalEnvelope :=
  match loads recursion_limit unicode_error r with
  | Ok data => model_validate data
  | Exc (PyExc cls msg) =>
    if decide (cls ∈ malformed) then Exc (EnvelopeValidationError [("__root__", "malformed JSON: " +:+ msg)])
    else Exc (PyExc cls msg)
  | Exc x => Exc x
  end.

(** ** The format of a message *)

Definition opt_json (o : option string) : json := match o with Some s => JStr s | None => JNull end.

(** The values [model_dump_json] writes, instants by [instant]. *)
Definition dump_values (instant : Z → string) (e : ArrivalEnvelope) : list (string * json) :=
  [("doc_id", JStr (env_doc_id e)); ("source", JStr (env_source e)); ("blob_path", JStr (env_blob_path e));
   ("vertical", opt_json (env_vertical e)); ("scenario_id", opt_json (env_scenario_id e));
   ("allowed_groups", JList (map JStr (env_allowed_groups e))); ("trust_tier", JStr (trust_tier_value (env_trust_tier e)));
   ("content_hash", JStr (env_content_hash e)); ("received_at", JStr (instant (env_received_at e)))].

Definition dumped (e : ArrivalEnvelope) : json := JDict (dump_values datetime_json e).

(** All strings of an envelope are Unicode text (a Python [str] may hold lone surrogates). *)
Definition text_ok (e : ArrivalEnvelope) : Prop :=
  Forall (λ s, utf8_wf false s = true)
    (env_doc_id e :: env_source e :: env_blob_path e :: env_content_hash e ::
     option_list (env_vertical e) ++ option_list (env_scenario_id e) ++ env_allowed_groups e).

(** A parsed message stands for an envelope: no other keys than the fields, and every field the
    value of its key; the optional ones may be missing. *)
Definition describes (data : list (string * json)) (e : ArrivalEnvelope) : Prop :=
  data.*1 ⊆ field_names ∧
  dict_get "doc_id" data = Some (JStr (env_doc_id e)) ∧
  dict_get "source" data = Some (JStr (env_source e)) ∧
  dict_get "blob_path" data = Some (JStr (env_blob_path e)) ∧
  default JNull (dict_get "vertical" data) = opt_json (env_vertical e) ∧
  default JNull (dict_get "scenario_id" data) = opt_json (env_scenario_id e) ∧
  default (JList []) (dict_get "allowed_groups" data) = JList (map JStr (env_allowed_groups e)) ∧
  dict_get "trust_tier" data = Some (JStr (trust_tier_value (env_trust_tier e))) ∧
  dict_get "content_hash" data = Some (JStr (env_content_hash e)) ∧
  ∃ v, dict_get "received_at" data = Some v ∧ type_datetime v = Ok (env_received_at e).

(** What is relied on of pydantic's writer: a parser of JSON, given the text or its bytes, finds
    the dumped values, and an instant is read as it was written. *)
Class DumpLaws := {
  dump_reads e : text_ok e →
    loads recursion_limit unicode_error (RawStr (model_dump_json e)) = Ok (dumped e) ∧
    loads recursion_limit unicode_error (RawBytes (model_dump_json e)) = Ok (dumped e);
  datetime_reads t : type_datetime (JStr (datetime_json t)) = Ok t;
}.

(** ** Lemmas *)

Lemma type_str_ok v s : type_str v = Ok s ↔ v = JStr s ∧ utf8_wf false s = true.
Proof. destruct v; simpl; try naive_solver. destruct (utf8_wf false s0) eqn:E; naive_solver congruence. Qed.

Lemma type_opt_str_ok v o : type_opt_str v = Ok o ↔ v = opt_json o ∧ Forall (λ s, utf8_wf false s = true) (option_list o).
Proof.
  split.
  - intros Ho. assert (Hc : (v = JNull ∧ o = None) ∨ ∃ s, type_str v = Ok s ∧ o = Some s).
    { destruct v; [by left; injection Ho as <-|..]; right; apply rbind_ok in Ho as (t & Ht & [= <-]); eauto. }
    destruct Hc as [[-> ->]|(s & [-> Hs]%type_str_ok & ->)]; simpl; split; auto.
  - intros [-> Hs]. destruct o as [s|]; [|done]. simpl. inversion Hs as [|?? Hu]; subst. by rewrite Hu.
Qed.

Lemma both_ok {A B} (a : checked A) (b : checked B) x y : both a b = Ok (x, y) ↔ a = Ok x ∧ b = Ok y.
Proof. destruct a, b; simpl; naive_solver. Qed.

Lemma at_loc_ok {A} loc (m : checked A) a : at_loc loc m = Ok a ↔ m = Ok a.
Proof. destruct m; simpl; naive_solver. Qed.

Lemma type_items_ok i l ss : type_items i l = Ok ss ↔ l = map JStr ss ∧ Forall (λ s, utf8_wf false s = true) ss.
Proof.
  revert i ss. induction l as [|v l IH]; intros i ss; simpl.
  - split; [by intros [= <-]|]. intros [Hl _]. by destruct ss.
  - split.
    + intros ([s ss'] & [Hs%at_loc_ok%type_str_ok Hl%IH]%both_ok & [= <-])%rbind_ok. destruct Hs as [-> ?], Hl as [-> ?]. split; [done|by constructor].
    + intros [Hl Hf]. destruct ss as [|s ss]; [done|]. simpl in Hl. injection Hl as -> ->. inversion Hf; subst.
      rewrite (proj2 (both_ok _ _ s ss)); [done|]. rewrite at_loc_ok, type_str_ok. split; [done|]. by apply IH.
Qed.

Lemma type_str_list_ok v ss : type_str_list v = Ok ss ↔ v = JList (map JStr ss) ∧ Forall (λ s, utf8_wf false s = true) ss.
Proof. destruct v; simpl; try naive_solver. rewrite type_items_ok. naive_solver. Qed.

Lemma type_tier_ok v t : type_tier v = Ok t ↔ v = JStr (trust_tier_value t).
Proof.
  destruct v as [| | | |s| |]; cbn [type_tier]; try naive_solver. split.
  - rewrite !filter_cons. repeat case_decide; intros [= <-]; by subst.
  - intros [= ->]. by destruct t.
Qed.

Lemma validated_ok f m s : validated f m = Ok s ↔ m = Ok s ∧ f s = None.
Proof. unfold validated. destruct m as [s'|]; simpl; [|naive_solver]. destruct (f s') eqn:E; naive_solver. Qed.

Lemma field_ok {A} name dflt (typed : json → checked A) data a :
  field name dflt typed data = Ok a ↔
  (∃ v, dict_get name data = Some v ∧ typed v = Ok a) ∨ (dict_get name data = None ∧ dflt = Some a).
Proof.
  unfold field. destruct (dict_get name data) as [v|]; [rewrite at_loc_ok; naive_solver|]. destruct dflt; naive_solver.
Qed.

(** A field without default, and one whose default is the typing of a value. *)
Lemma required_ok {A} name (typed : json → checked A) data a :
  field name None typed data = Ok a ↔ ∃ v, dict_get name data = Some v ∧ typed v = Ok a.
Proof. rewrite field_ok. naive_solver. Qed.

Lemma defaulted_ok {A} name d v0 (typed : json → checked A) data a :
  typed v0 = Ok d → field name (Some d) typed data = Ok a ↔ typed (default v0 (dict_get name data)) = Ok a.
Proof. intros Hd. rewrite field_ok. destruct (dict_get name data); simpl; rewrite ?Hd; naive_solver. Qed.

Lemma no_extra_ok data : no_extra data = Ok () ↔ data.*1 ⊆ field_names.
Proof.
  assert (H : extra_errors data = [] ↔ data.*1 ⊆ field_names).
  { unfold extra_errors. induction data as [|[k v] data IH]; simpl; [set_solver|].
    rewrite app_nil, IH. destruct (utf8_wf false k) eqn:E; simpl.
    - case_decide; set_solver.
    - split; [naive_solver|]. intros Hk. assert (Hin : k ∈ field_names) by set_solver. exfalso.
      unfold field_names in Hin. repeat (apply elem_of_cons in Hin as [->|Hin]; [done|]). set_solver. }
  unfold no_extra. rewrite <-H. destruct (extra_errors data); naive_solver.
Qed.

Lemma non_empty_ok s : _non_empty s = None ↔ s ≠ "".
Proof. unfold _non_empty. case_decide; naive_solver. Qed.

Lemma content_hash_ok s : _content_hash_is_sha256_hex s = None ↔ hex_re 64 s = true.
Proof. unfold _content_hash_is_sha256_hex, _CONTENT_HASH_RE. destruct (hex_re 64 s); naive_solver. Qed.

Lemma received_at_ok v t : type_received_at v = Ok t ↔ type_datetime v = Ok t.
Proof. unfold type_received_at. destruct (type_datetime v); naive_solver. Qed.

(** The fields are accepted exactly when they describe an envelope with valid values. *)
Lemma model_fields_ok data e :
  model_fields data = Ok e ↔
  describes data e ∧ text_ok e ∧ env_source e ≠ "" ∧ env_blob_path e ≠ "" ∧ hex_re 64 (env_content_hash e) = true.
Proof.
  unfold model_fields, describes, text_ok. split.
  - intros ((d & s & p & v & sc & g & t & h & at_ & []) & H & [= <-])%rbind_ok. simpl.
    rewrite !both_ok, !required_ok in H. setoid_rewrite validated_ok in H. setoid_rewrite type_str_ok in H.
    setoid_rewrite non_empty_ok in H. setoid_rewrite content_hash_ok in H. setoid_rewrite type_tier_ok in H.
    setoid_rewrite received_at_ok in H.
    rewrite (defaulted_ok "vertical" None JNull), (defaulted_ok "scenario_id" None JNull),
      (defaulted_ok "allowed_groups" [] (JList [])), !type_opt_str_ok, type_str_list_ok, no_extra_ok in H by done.
    destruct H as (H1 & H2 & H3 & H4 & H5 & H6 & H7 & H8 & H9 & H10).
    rewrite !Forall_cons, !Forall_app. naive_solver.
  - destruct e as [d s p v sc g t h at_]. simpl. rewrite !Forall_cons, !Forall_app.
    intros ((Hx & Hd & Hs & Hp & Hv & Hsc & Hg & Ht & Hh & (w & Hw & Hat)) & (Ud & Us & Up & Uh & Uv & Usc & Ug) & Ns & Np & Nh).
    rewrite (proj2 (both_ok _ _ d (s, (p, (v, (sc, (g, (t, (h, (at_, ())))))))))); [done|].
    rewrite !both_ok, !required_ok.
    rewrite (defaulted_ok "vertical" None JNull), (defaulted_ok "scenario_id" None JNull),
      (defaulted_ok "allowed_groups" [] (JList [])), !type_opt_str_ok, type_str_list_ok, no_extra_ok by done.
    split_and!; try done; eexists; (split; [done|]);
      rewrite ?validated_ok, ?type_str_ok, ?non_empty_ok, ?content_hash_ok, ?type_tier_ok, ?received_at_ok; done.
Qed.

(** Every rejection of a field has an error. *)
Definition proper {A} (m : checked A) : Prop := m ≠ Exc [].

Lemma both_proper {A B} (a : checked A) (b : checked B) : proper a → proper b → proper (both a b).
Proof. unfold proper. destruct a as [|[]], b as [|[]]; simpl; congruence. Qed.

Lemma at_loc_proper {A} loc (m : checked A) : proper m → proper (at_loc loc m).
Proof. unfold proper. destruct m as [|[]]; simpl; congruence. Qed.

Lemma rbind_proper {A B} (m : checked A) (f : A → checked B) : proper m → (∀ a, proper (f a)) → proper (rbind m f).
Proof. unfold proper. destruct m as [|[]]; simpl; naive_solver congruence. Qed.

Lemma field_proper {A} name dflt (typed : json → checked A) data : (∀ v, proper (typed v)) → proper (field name dflt typed data).
Proof. intros H. unfold field. destruct (dict_get name data); [by apply at_loc_proper|]. by destruct dflt. Qed.

Lemma type_str_proper v : proper (type_str v).
Proof. destruct v; try done. simpl. by destruct (utf8_wf false s). Qed.

Lemma validated_proper f m : proper m → proper (validated f m).
Proof. intros. apply rbind_proper; [done|]. intros s. by destruct (f s). Qed.

Lemma type_items_proper i l : proper (type_items i l).
Proof.
  revert i. induction l as [|v l IH]; intros i; simpl; [done|].
  apply rbind_proper; [|by intros []]. apply both_proper; [|done]. apply at_loc_proper, type_str_proper.
Qed.

Lemma model_fields_proper data : proper (model_fields data).
Proof.
  unfold model_fields. apply rbind_proper; [|by intros (?&?&?&?&?&?&?&?&?&?)].
  repeat apply both_proper; try (apply field_proper; intros v); try apply validated_proper; try apply type_str_proper.
  - destruct v; try done; simpl; apply rbind_proper; try done; apply (type_str_proper (JStr _)).
  - destruct v; try done; simpl; apply rbind_proper; try done; apply (type_str_proper (JStr _)).
  - destruct v; try done. apply type_items_proper.
  - destruct v; try done. cbn [type_tier]. by destruct (filter _ _).
  - unfold type_received_at. by destruct (type_datetime v).
  - unfold no_extra. by destruct (extra_errors data).
Qed.

Lemma verify_doc_id_ok e e' :
  env_source e ≠ "" → env_blob_path e ≠ "" →
  _verify_doc_id e = Ok e' ↔ e' = e ∧ derive_doc_id (PyStr (env_source e)) (PyStr (env_blob_path e)) = Ok (env_doc_id e).
Proof.
  intros Hs Hp. unfold _verify_doc_id, compute_doc_id. rewrite derive_doc_id_ok by done. simpl. case_decide; naive_solver congruence.
Qed.

Lemma envelope_ok_parts e :
  envelope_ok e ↔ env_source e ≠ "" ∧ env_blob_path e ≠ "" ∧ hex_re 64 (env_content_hash e) = true ∧
    derive_doc_id (PyStr (env_source e)) (PyStr (env_blob_path e)) = Ok (env_doc_id e).
Proof.
  unfold envelope_ok. split; [naive_solver|]. intros (Hs & Hp & Hh & Hd). split_and!; try done.
  rewrite derive_doc_id_ok in Hd by done. injection Hd as <-. apply hex_re_digest; [apply Sha256.hexdigest_hex|apply Sha256.hexdigest_length].
Qed.

Lemma model_validate_ok v e :
  model_validate v = Ok e ↔ ∃ data, v = JDict data ∧ describes data e ∧ text_ok e ∧ envelope_ok e.
Proof.
  setoid_rewrite envelope_ok_parts. split.
  - destruct v as [| | | | | |data]; try done. simpl. destruct (model_fields data) as [e'|] eqn:E; [|done].
    apply model_fields_ok in E as (Hd & Ht & Hs & Hp & Hh). intros [-> Hid]%verify_doc_id_ok; [|done..]. naive_solver.
  - intros (data & -> & Hd & Ht & Hs & Hp & Hh & Hid). simpl.
    rewrite (proj2 (model_fields_ok data e)) by done. by apply verify_doc_id_ok.
Qed.

Lemma model_validate_rejects v x : model_validate v = Exc x → ∃ f fs, x = EnvelopeValidationError (f :: fs).
Proof.
  destruct v as [| | | | | |data]; simpl; try (intros [= <-]; by do 2 eexists).
  destruct (model_fields data) as [e|errors] eqn:E.
  - apply model_fields_ok in E as (_ & _ & Hs & Hp & _). unfold _verify_doc_id, compute_doc_id. rewrite derive_doc_id_ok by done. simpl.
    case_decide; [done|]. intros [= <-]. by do 2 eexists.
  - intros [= <-]. destruct errors as [|f fs]; [by destruct (model_fields_proper data)|]. by do 2 eexists.
Qed.

(** The exceptions of [loads]: those the caller expects, and two more. *)
Lemma loads_raises r x :
  loads recursion_limit unicode_error r = Exc x →
  ∃ cls msg, x = PyExc cls msg ∧ (cls ∈ malformed ∨ cls = "RecursionError" ∨ cls = "ValueError").
Proof.
  assert (H : ∀ doc, decode_text recursion_limit doc = Exc x →
    ∃ cls msg, x = PyExc cls msg ∧ (cls ∈ malformed ∨ cls = "RecursionError" ∨ cls = "ValueError")).
  { intros doc. unfold decode_text. pose proof (scan_never_out_of_fuel recursion_limit doc).
    destruct (decode _ doc) as [|[]]; [done|..|done]; intros [= <-]; do 2 eexists; (split; [done|]); set_solver. }
  destruct r as [s|b|cls]; cbn [loads].
  - destruct (starts_with _ s); [|eauto]. intros [= <-]. do 2 eexists. split; [done|]. set_solver.
  - destruct (decode_bytes _ b); [eauto|]. intros [= <-]. do 2 eexists. split; [done|]. set_solver.
  - intros [= <-]. do 2 eexists. split; [done|]. set_solver.
Qed.

(** C31: [envelope_from_json] accepts exactly the messages whose JSON is an object that describes
    a valid envelope: no unknown keys, every required field present, strings that are Unicode
    text, a known trust tier, a readable instant, non-empty source and path, a well-formed hash
    and the [doc_id] derived from source and path; missing optional fields are the defaults, so
    a message without groups allows nobody. Every rejection is an [EnvelopeValidationError] with
    at least one field error, except that [RecursionError] and [ValueError] of the JSON parser
    (nesting beyond the limit, an integer of more than 4300 digits) pass through. *)
Theorem envelope_from_json_outcomes r :
  (∀ e, envelope_from_json r = Ok e ↔
     ∃ data, loads recursion_limit unicode_error r = Ok (JDict data) ∧ describes data e ∧ text_ok e ∧ envelope_ok e) ∧
  (∀ x, envelope_from_json r = Exc x →
     (∃ f fs, x = EnvelopeValidationError (f :: fs)) ∨
     loads recursion_limit unicode_error r = Exc x ∧ ∃ msg, x = PyExc "RecursionError" msg ∨ x = PyExc "ValueError" msg).
Proof.
  unfold envelope_from_json. destruct (loads recursion_limit unicode_error r) as [v|x] eqn:El.
  - split; [|intros x Hx; left; by eapply model_validate_rejects].
    intros e. rewrite model_validate_ok. naive_solver.
  - destruct (loads_raises _ _ El) as (cls & msg & -> & Hc). case_decide as Hm.
    + split; [naive_solver|]. intros x [= <-]. left. by do 2 eexists.
    + split; [naive_solver|]. intros x [= <-]. right. split; [done|]. exists msg. naive_solver.
Qed.

(** C32: A message survives the queue: an envelope written by [envelope_to_json] and read by
    [envelope_from_json], as text or as bytes, is the same envelope. *)
Theorem envelope_json_roundtrip `{!DumpLaws} e :
  envelope_ok e → text_ok e →
  envelope_from_json (RawStr (envelope_to_json e)) = Ok e ∧ envelope_from_json (RawBytes (envelope_to_json e)) = Ok e.
Proof.
  intros He Ht. destruct (dump_reads e Ht) as [Hs Hb].
  assert (Hv : model_validate (dumped e) = Ok e).
  { apply model_validate_ok. eexists. split; [done|]. split; [|done]. unfold describes. simpl. split_and!; try done.
    eexists. split; [done|]. apply datetime_reads. }
  unfold envelope_from_json, envelope_to_json. rewrite Hs, Hb. done.
Qed.

(** Two kinds of bad messages escape the declared error: arrays (or objects) nested beyond
    the interpreter's recursion limit raise [RecursionError], and an integer literal of more
    than 4300 digits raises [ValueError]; neither is an [EnvelopeValidationError], so neither has
    the code ENVELOPE_INVALID. *)
Theorem envelope_from_json_escapes n :
  (∃ msg, envelope_from_json (RawStr (foldr String.append "" (repeat "[" (S recursion_limit)))) = Exc (PyExc "RecursionError" msg)) ∧
  ((4300 < n)%nat → ∃ msg, envelope_from_json (RawStr (foldr String.append "" (repeat "1" n))) = Exc (PyExc "ValueError" msg)).
Proof.
  unfold envelope_from_json, loads, decode_text. split.
  - rewrite decode_too_deep. by eexists.
  - intros Hn. rewrite (decode_too_long recursion_limit n) by done. destruct n; [lia|]. by eexists.
Qed.
End json.

(** ** A writer that keeps the laws

    The compact format, with instants as binary numerals. *)

Fixpoint bits (p : positive) : string :=
  match p with xH => "" | xO p => String "0" (bits p) | xI p => String "1" (bits p) end.

Definition instant_text (t : Z) : string :=
  match t with Z0 => "z" | Zpos p => String "+" (bits p) | Zneg p => String "-" (bits p) end.

Fixpoint read_bits (s : string) : positive :=
  match s with "" => xH | String c s' => if (c =? "1")%char then xI (read_bits s') else xO (read_bits s') end.

Definition read_instant (v : json) : result string Z :=
  match v with
  | JStr (String c s) => Ok (if (c =? "+")%char then Zpos (read_bits s) else if (c =? "-")%char then Zneg (read_bits s) else 0)
  | _ => Exc "Input should be a valid datetime"
  end.

Definition compact_pydantic : Pydantic := {|
  recursion_limit := 1000;
  unicode_error _ := "'utf-8' codec can't decode";
  model_dump_json e := print (JDict (dump_values instant_text e));
  datetime_json := instant_text;
  type_datetime := read_instant;
  invalid_key k := ([k], "Keys should be strings");
|}.

Lemma read_bits_bits p : read_bits (bits p) = p.
Proof. induction p as [p IH|p IH|]; simpl; by rewrite ?IH. Qed.

Lemma read_instant_text t : read_instant (JStr (instant_text t)) = Ok t.
Proof. destruct t as [|p|p]; simpl; by rewrite ?read_bits_bits. Qed.

Lemma bits_wf p : utf8_wf true (bits p) = true.
Proof. by induction p. Qed.

Lemma instant_text_wf t : utf8_wf true (instant_text t) = true.
Proof. destruct t as [|p|p]; [done|apply bits_wf..]. Qed.

Lemma tier_wf t : utf8_wf true (trust_tier_value t) = true.
Proof. by destruct t. Qed.

Lemma opt_json_plain d o : plain d (opt_json o).
Proof. destruct o; constructor. Qed.

Lemma dump_values_plain d f e : plain (S (S d)) (JDict (dump_values f e)).
Proof.
  constructor; [by vm_compute; repeat (constructor; [set_solver|]); constructor|].
  unfold dump_values. simpl. repeat (apply Forall_cons; split); try apply opt_json_plain; try constructor.
  apply Forall_map, Forall_true. intros s. constructor.
Qed.

Lemma opt_json_wf o : Forall (λ s, utf8_wf false s = true) (option_list o) → utf8_wf true (print (opt_json o)) = true.
Proof. destruct o as [s|]; [|done]. intros Ho. inversion Ho; subst. by apply print_string_wf, utf8_wf_pass. Qed.

Lemma strings_wf l : Forall (λ s, utf8_wf false s = true) l → utf8_wf true (print (JList (map JStr l))) = true.
Proof.
  intros Hl. change (utf8_wf true (py_join "," (map print (map JStr l)) +:+ "]") = true). rewrite utf8_wf_app; [done|].
  apply join_wf. rewrite !Forall_map. eapply Forall_impl; [exact Hl|]. intros s Hs. by apply print_string_wf, utf8_wf_pass.
Qed.

Lemma dump_wf e : text_ok e → utf8_wf true (print (JDict (dump_values instant_text e))) = true.
Proof.
  unfold text_ok. rewrite !Forall_cons, !Forall_app. intros (Hd & Hs & Hp & Hh & Hv & Hsc & Hg).
  change (utf8_wf true (py_join "," (map (λ kv, print_string kv.1 +:+ ":" +:+ print kv.2) (dump_values instant_text e)) +:+ "}") = true).
  rewrite utf8_wf_app; [done|]. apply join_wf. rewrite Forall_map.
  assert (Hk : ∀ k v, utf8_wf true k = true → utf8_wf true (print v) = true →
    utf8_wf true (print_string k +:+ ":" +:+ print v) = true).
  { intros k v Hk Hw. rewrite utf8_wf_app by (by apply print_string_wf). by rewrite utf8_wf_app. }
  repeat (apply Forall_cons; split); [..|by apply Forall_nil]; cbn [fst snd]; apply Hk; try done;
    first [by apply opt_json_wf | by apply strings_wf | apply print_string_wf];
    first [by apply utf8_wf_pass | apply tier_wf | apply instant_text_wf].
Qed.

#[local] Instance compact_laws : DumpLaws (pyd := compact_pydantic).
Proof.
  split; [|apply read_instant_text]. intros e He. apply loads_print; [apply dump_values_plain|by apply dump_wf|done].
Qed.

(** A message with an accented source, written and read. *)
Definition message_envelope : ArrivalEnvelope :=
  mkEnvelope (Sha256.hexdigest ("blob:é" +:+ "a.pdf")) "blob:é" "a.pdf" None (Some "hr") ["ops"; "hr"] INTERNAL (Sha256.hexdigest "x") 7.

Lemma message_envelope_ok : envelope_ok message_envelope ∧ text_ok message_envelope.
Proof. split; [by vm_compute|]. unfold text_ok. repeat (constructor; [by vm_compute|]). constructor. Qed.

Lemma envelope_json_roundtrip_witness :
  envelope_from_json (pyd := compact_pydantic) (RawStr (envelope_to_json (pyd := compact_pydantic) message_envelope)) = Ok message_envelope ∧
  envelope_from_json (pyd := compact_pydantic) (RawBytes (envelope_to_json (pyd := compact_pydantic) message_envelope)) = Ok message_envelope.
Proof.
  apply (envelope_json_roundtrip (pyd := compact_pydantic)); apply message_envelope_ok.
Defined.

Lemma envelope_from_json_escapes_witness :
  ∃ msg, envelope_from_json (pyd := compact_pydantic) (RawStr (foldr String.append "" (repeat "1" 4301))) = Exc (PyExc "ValueError" msg).
Proof. apply (envelope_from_json_escapes (pyd := compact_pydantic) 4301). lia. Defined.
End EnvelopeJson.
