(* ===== verification/Quickstart.v ===== *)
(** * The example application (examples/quickstart.py)

    The composition root the repository ships: one PDF through envelope, ledger, PyMuPDF parser,
    analyzer, chunker, FastEmbed, embedder, in-memory index and indexer with their default
    settings, and then a search. [main] runs the stages in the order of the script, on stores it
    creates itself; what it prints, and reading the command line, are left out. *)
From S2P Require Import Prelude PyDict Types Sha256 Identity Envelope Ledger Prog System Analyzer Chunker Parsers Embedder Indexer InMemoryIndexer.
From S2P Require Import Pipeline EmbedderAdapters.
#[local] Open Scope Z_scope.

Module Quickstart.
Import Identity Envelope Ledger Pipeline.

#[local] Arguments pbind : simpl never.
#[local] Arguments run : simpl never.

Definition _TARGET_DIMENSIONS : Z := 256.
Definition _QUERY_PREFIX : string := "search_query: ".
Definition fastembed_DEFAULT_MODEL : string := "nomic-ai/nomic-embed-text-v1.5".
Definition in_memory_DEFAULT_INDEX_NAME : string := "in-memory".

(** [AnalyzerConfig()], [ChunkerConfig()] and the other configurations of the script. *)
Definition analyzer_config : Analyzer.AnalyzerConfig := Analyzer.mkAnalyzerConfig 3 50 (f_of_Z 240).
Definition chunker_config : Chunker.ChunkerConfig := Chunker.mkChunkerConfig 512 64 40 800 "tiktoken_cl100k".
Definition embedder_config : Embedder.EmbedderConfig := Embedder.mkEmbedderConfig (Some _TARGET_DIMENSIONS) None.
Definition indexer_config : Indexer.IndexerConfig := Indexer.mkIndexerConfig _TARGET_DIMENSIONS "cosine" None true.

(** What the script uses of the machine: the file, the installed packages, whether the parser
    ends within its time limit, and the iteration order of sets. *)
Record machine := mkMachine {
  pdf_name : string;
  read_bytes : result exn string;
  pymupdf_module : option (string → result exn (list Parsers.page));
  parses_in_time : bool;
  get_encoding : result exn (string → result exn (list Z));
  fastembed_package : option EmbedderAdapters.TextEmbedding;
  set_first : string → list string → string;
}.

Section quickstart.
Context {base : Env} {aenv : Analyzer.AnalyzerEnv} {cenv : Chunker.ChunkerEnv} (m : machine).

(** [FastEmbedEmbedder()]. *)
Definition loaded : result exn (list string → result exn (list (list pyfloat))) :=
  EmbedderAdapters._load_text_embedding (fastembed_package m) (str_repr fastembed_DEFAULT_MODEL) "120.0" fastembed_DEFAULT_MODEL None.

(** The loaded model; its methods are only called when there is one. *)
Definition impl : list string → result exn (list (list pyfloat)) :=
  match loaded with Ok f => f | Exc x => λ _, Exc x end.

#[local] Instance quick_env : Env :=
  InMemoryIndexer.in_memory_env (EmbedderAdapters.fastembed_env fastembed_DEFAULT_MODEL impl base) in_memory_DEFAULT_INDEX_NAME (set_first m).

Definition _load_fastembed_adapter : result exn unit :=
  match loaded with
  | Ok _ => Ok tt
  | Exc x =>
    if decide (exn_error_code x = Some EmbedderAdapters.EMBEDDER_DEPENDENCY_MISSING) then
      let blank_line := String "010" (String "010" "") in
      let quote := String "034" "" in
      Exc (PyExc "SystemExit" ("fastembed is not installed. Run:" +:+ blank_line +:+ "    pip install -e " +:+ quote +:+ ".[local]" +:+ quote +:+
                               blank_line +:+ "then re-run this script."))
    else Exc x
  end.

Definition _l2_normalize (vector : list pyfloat) : list pyfloat :=
  let truncated := py_take _TARGET_DIMENSIONS vector in
  let norm := f_sqrt (f_sum (map (λ value, f_mul value value) truncated)) in
  if f_eq norm (f_of_Z 0) then truncated else map (λ value, f_div value norm) truncated.

(** [TiktokenCounter()]. *)
Definition token_counter : Chunker.TokenCounter := λ text, (Chunker.tiktoken_count (get_encoding m) text (Chunker.mkTiktoken "cl100k_base" None)).1.

Definition parser_registry (open : string → result exn (list Parsers.page)) : list (DetectedType * Analyzer.ParserAdapter) :=
  Analyzer.registry_register DIGITAL_PDF
    (λ envelope reader, if parses_in_time m then Analyzer.Finished (Parsers.pymupdf_parse open envelope reader) else Analyzer.TimedOut) [].

(** A step of the script: the next one runs in the state it leaves, unless it raised. *)
Definition and_then {A B} (r : result exn A * world) (k : A → world → result exn B * world) : result exn B * world :=
  match r with (Ok a, w) => k a w | (Exc x, w) => (Exc x, w) end.

Definition first_of {A} (l : list A) : result exn A :=
  match l with a :: _ => Ok a | [] => Exc (PyExc "IndexError" "list index out of range") end.

(** [Indexer(ledger, config, adapter)]: its constructor establishes the schema. *)
Definition new_indexer (config : Indexer.IndexerConfig) (w : world) : result exn unit * world :=
  match InMemoryIndexer.ensure_schema (Indexer.dimensions config) (Indexer.metric config) (w_index w) with
  | Ok ix => (Ok tt, set_index ix w)
  | Exc x => (Exc x, w)
  end.

Record outcome := mkQuick {
  qs_envelope : ArrivalEnvelope; qs_chunks : list Chunk; qs_result : IndexResult; qs_status : Status;
  qs_hits : list (IndexRecord * pyfloat) }.

(** The steps from the chunks on: loading the model, embedding, indexing, and the search. *)
Definition embed_and_search (query : string) (envelope : ArrivalEnvelope) (chunks : list Chunk) (w : world) : result exn outcome * world :=
  and_then (_load_fastembed_adapter, w) (λ _ w,
  and_then (Embedder.new_embedder embedder_config, w) (λ config w,
  and_then (run handle (Embedder.embed config envelope chunks) w) (λ embedded_chunks w,
  and_then (first_of embedded_chunks, w) (λ _ w,
  and_then (new_indexer indexer_config w) (λ _ w,
  and_then (run handle (Indexer.index indexer_config envelope embedded_chunks) w) (λ result w,
  match get (env_doc_id envelope) (w_ledger w) with
  | None => (Exc (PyExc "AssertionError" ""), w)
  | Some row =>
    and_then (run handle (call (EBatch [_QUERY_PREFIX +:+ query])) w) (λ vectors w,
    and_then (first_of vectors, w) (λ query_vector_native w,
    and_then (InMemoryIndexer.search (_l2_normalize query_vector_native) 3 [] (w_index w), w) (λ hits w,
    (Ok (mkQuick envelope chunks result (row_status row) hits), w))))
  end)))))).

(** The steps from the registration of the envelope on. *)
Definition process (query : string) (envelope : ArrivalEnvelope) (data : string) (w : world) : result exn outcome * world :=
  and_then (run handle (call (LCreate (env_doc_id envelope) (mkSummary "quickstart-v1"))) w) (λ _ w,
  and_then (Parsers._import_pymupdf (pymupdf_module m), w) (λ open w,
  and_then (run handle (Analyzer.analyze analyzer_config (parser_registry open) envelope (Ok data)) w) (λ elements w,
  and_then (run handle (Chunker.chunk (Chunker.new_chunker chunker_config token_counter) envelope elements) w) (λ chunks w,
  embed_and_search query envelope chunks w)))).

(** The stores are new; the envelope takes the first reading of the clock. *)
Definition new_world (scenarios : scenario_state) : world :=
  mkWorld [] [] (InMemoryIndexer.new_in_memory in_memory_DEFAULT_INDEX_NAME) tt scenarios 1.

Definition quick_envelope (data : string) : result exn ArrivalEnvelope :=
  Envelope.build_envelope (clock 0) (PyStr "examples") (PyStr ("examples/" +:+ pdf_name m)) (PyStr (Sha256.hexdigest data)) INTERNAL
    (Some ["ops-team"]) None None None.

Definition main (query : string) (scenarios : scenario_state) : result exn outcome * world :=
  let w := new_world scenarios in
  match read_bytes m with
  | Exc x => (Exc x, w)
  | Ok data =>
    match quick_envelope data with
    | Exc x => (Exc x, w)
    | Ok envelope => process query envelope data w
    end
  end.

(** ** Lemmas *)

(** The script normalises the query exactly as the embedder normalises the chunks. *)
Lemma l2_normalize_mirrors v : _l2_normalize v = Embedder._truncate_and_renormalize v _TARGET_DIMENSIONS.
Proof. done. Qed.

Lemma quick_envelope_ok data :
  ∃ e, quick_envelope data = Ok e ∧ Envelope.envelope_ok e ∧
    e = mkEnvelope (Sha256.hexdigest ("examples" +:+ ("examples/" +:+ pdf_name m))) "examples" ("examples/" +:+ pdf_name m) None None ["ops-team"]
          INTERNAL (Sha256.hexdigest data) (clock 0).
Proof.
  unfold quick_envelope, Envelope.build_envelope, Envelope.compute_doc_id. rewrite Identity.derive_doc_id_ok by done.
  unfold Envelope.construct. rewrite (proj2 (Envelope.field_errors_nil _ _ _ _)).
  2: { eexists _, _, _, _. split_and!; [done..|]. apply Identity.hex_re_digest; [apply Sha256.hexdigest_hex|apply Sha256.hexdigest_length]. }
  unfold Envelope._verify_doc_id, Envelope.compute_doc_id. cbn [Envelope.py_text env_source env_blob_path env_doc_id default].
  rewrite Identity.derive_doc_id_ok by done. cbn [rbind]. rewrite decide_True by done. eexists. split; [done|]. split; [|done].
  unfold Envelope.envelope_ok. cbn [env_source env_blob_path env_content_hash env_doc_id]. rewrite Identity.derive_doc_id_ok by done.
  split_and!; try done; (apply Identity.hex_re_digest; [apply Sha256.hexdigest_hex|apply Sha256.hexdigest_length]).
Qed.

(** A new document after the registration, the analysis and the chunking. *)
Lemma process_chunks query envelope data w open elements chunks :
  Envelope.envelope_ok envelope → dict_get (env_doc_id envelope) (w_ledger w) = None → ledger_ok (w_ledger w) →
  pymupdf_module m = Some open →
  Analyzer.analysis_of analyzer_config (parser_registry open) envelope (Ok data) = Analyzer.Parsed elements → elements ≠ [] →
  Chunker._assemble_chunks (Chunker.new_chunker chunker_config token_counter) (env_doc_id envelope) elements = Ok chunks →
  ∃ w', in_stage (env_doc_id envelope) EMBEDDING "quickstart-v1" w' ∧ w_index w' = w_index w ∧
    process query envelope data w = embed_and_search query envelope chunks w'.
Proof.
  intros He Hnone Hok Hopen Han Hne Has. destruct He as (_ & _ & _ & Hhex & _).
  destruct (create_stage (env_doc_id envelope) "quickstart-v1" w Hok Hhex Hnone) as (row0 & w1 & R1 & S1 & I1).
  destruct (analyze_stage analyzer_config (parser_registry open) envelope (Ok data) elements _ w1 S1 Han) as (w2 & R2 & S2 & I2).
  destruct (chunk_stage (Chunker.new_chunker chunker_config token_counter) envelope elements chunks _ w2 S2 Hne Has) as (w3 & R3 & S3 & I3).
  exists w3. split; [exact S3|]. split; [exact (eq_trans I3 (eq_trans I2 I1))|].
  unfold process. rewrite R1. cbn [and_then]. rewrite Hopen. cbn [Parsers._import_pymupdf and_then]. rewrite R2. cbn [and_then]. rewrite R3. done.
Qed.

(** ** A run with a loaded model *)
Section with_model.
Context (model : list string → result exn (list (list pyfloat))) (f : string → list pyfloat).
Hypotheses (Hfirst : ∀ c cs, set_first m c cs ∈ c :: cs) (Hloaded : loaded = Ok model) (Hmodel : ∀ texts, model texts = Ok (map f texts))
  (Hdims : ∀ t, _TARGET_DIMENSIONS ≤ Z.of_nat (length (f t))).

(** What the script indexes for a chunk, and the vector it searches with. *)
Definition embedded (c : Chunk) : EmbeddedChunk :=
  Embedder._build_embedded_chunk embedder_config c (f ("search_document: " +:+ ck_text c)).
Definition query_vector (query : string) : list pyfloat := Embedder._truncate_and_renormalize (f (_QUERY_PREFIX +:+ query)) _TARGET_DIMENSIONS.

Lemma impl_pointwise texts st : ea_embed_batch texts st = (Ok (map f texts), st).
Proof.
  change (ea_embed_batch texts st) with (EmbedderAdapters.fastembed_embed_batch impl texts, st). unfold EmbedderAdapters.fastembed_embed_batch, impl.
  rewrite Hloaded, Hmodel. cbn [rbind]. do 2 f_equal. rewrite <- (map_id (map f texts)) at 2. apply map_ext. intros v. apply map_id.
Qed.

Lemma embedded_facts c :
  em_chunk (embedded c) = c ∧ em_embedding_model (embedded c) = fastembed_DEFAULT_MODEL ∧ em_embedding_dimensions (embedded c) = _TARGET_DIMENSIONS.
Proof.
  destruct (Embedder.build_dimensions embedder_config c (f ("search_document: " +:+ ck_text c))) as (H1 & H2 & _ & _ & H4).
  fold (embedded c) in *. split_and!; [done|done|]. pose proof (Hdims ("search_document: " +:+ ck_text c)). unfold _TARGET_DIMENSIONS in *.
  rewrite H4 by lia. lia.
Qed.

Lemma constant_dedup (x : string) l : Forall (λ y, y = x) l → (length (dedup_first [] l) ≤ 1)%nat.
Proof.
  intros Hl. pose proof (NoDup_dedup_first [] l (NoDup_nil_2 (A:=string))) as Hnd.
  assert (Hx : ∀ y, y ∈ dedup_first [] l → y = x).
  { intros y [Hy|Hy]%elem_of_dedup_first; [set_solver|]. by eapply Forall_forall in Hl. }
  destruct (dedup_first [] l) as [|a [|b r]]; simpl; [lia..|]. apply NoDup_cons in Hnd as [Ha _]. destruct Ha.
  rewrite (Hx a), (Hx b) by set_solver. set_solver.
Qed.

Lemma embedded_accepted chunks : chunks ≠ [] → Indexer.index_refusal indexer_config (map embedded chunks) = None.
Proof.
  intros Hne. unfold Indexer.index_refusal. rewrite bool_decide_eq_false_2.
  - assert (list_find (λ e, em_embedding_dimensions e ≠ Indexer.dimensions indexer_config) (map embedded chunks) = None) as ->.
    { apply list_find_None, Forall_map, Forall_true. intros c Hc. apply Hc. apply embedded_facts. }
    by destruct chunks.
  - apply Nat.nlt_ge, (constant_dedup fastembed_DEFAULT_MODEL). rewrite !Forall_map. apply Forall_true. intros c. apply embedded_facts.
Qed.

(** The index after the script has indexed the chunks. *)
Lemma indexed_values envelope chunks cv (w : world) records :
  InMemoryIndexer.im_ok (w_index w) → NoDup (map ck_chunk_id chunks) → Forall2 (record_of envelope cv) (map embedded chunks) records →
  (∀ r, r ∈ records → InMemoryIndexer.im_stored (w_index w) (ir_chunk_id r) = Some r) →
  (∀ c r, c ∉ chunk_ids (map embedded chunks) → InMemoryIndexer.im_stored (w_index w) c = Some r → False) →
  dict_values (InMemoryIndexer.im_records (w_index w)) ≡ₚ records.
Proof.
  intros Hok Hnd Hall Hin Hout. pose proof (records_ids _ _ _ _ Hall) as Hids.
  assert (Hc : chunk_ids (map embedded chunks) = map ck_chunk_id chunks).
  { unfold chunk_ids. rewrite map_map. apply map_ext. intros c. by rewrite (proj1 (embedded_facts c)). }
  apply InMemoryIndexer.im_values; [done|by rewrite Hids, Hc|done|]. intros c r Hr. rewrite Hids.
  destruct (decide (c ∈ chunk_ids (map embedded chunks))) as [|Hn]; [done|]. by destruct (Hout c r Hn Hr).
Qed.

(** The answer to a query over [records]: the [min 3 n] most similar of them. Each hit is one of
    the records with its similarity, no record is a hit twice, they come in order of decreasing
    similarity, and no record that is not a hit is more similar than one that is. *)
Definition most_similar (query : list pyfloat) (records : list IndexRecord) (hits : list (IndexRecord * pyfloat)) : Prop :=
  length hits = Nat.min 3 (length records) ∧ NoDup (map (λ h, ir_chunk_id h.1) hits) ∧
  (∀ r s, (r, s) ∈ hits → r ∈ records ∧ InMemoryIndexer._cosine_similarity query (ir_vector r) = Ok s) ∧
  Sorted (λ a b, f_lt a.2 b.2 = false) hits ∧
  ∀ r, r ∈ records → r ∉ map fst hits →
    ∃ s, InMemoryIndexer._cosine_similarity query (ir_vector r) = Ok s ∧ ∀ h, h ∈ hits → f_le s h.2 = true.

(** What a finished run has done with the document. *)
Definition finished (query : string) (envelope : ArrivalEnvelope) (chunks : list Chunk) (out : outcome) (w : world) : Prop :=
  qs_envelope out = envelope ∧ qs_chunks out = chunks ∧ qs_status out = INDEXED ∧ res_chunks_upserted (qs_result out) = Z.of_nat (length chunks) ∧
  ∃ records, Forall2 (record_of envelope "quickstart-v1") (map embedded chunks) records ∧
    dict_values (InMemoryIndexer.im_records (w_index w)) ≡ₚ records ∧ most_similar (query_vector query) records (qs_hits out).

Lemma embed_refusal_none chunks : chunks ≠ [] → Forall (λ c, ck_token_count c ≤ 8192) chunks → Embedder.embed_refusal chunks = None.
Proof.
  intros Hne Ht. unfold Embedder.embed_refusal.
  assert (list_find (λ c, ea_max_input_tokens < ck_token_count c) chunks = None) as ->; [|by destruct chunks].
  apply list_find_None. eapply Forall_impl; [exact Ht|]. intros c Hc Hlt. change (8192 < ck_token_count c) in Hlt. cbv beta in Hc. lia.
Qed.

(** The query can be compared with a chunk: their similarity is a number. *)
Definition comparable (query : string) (c : Chunk) : Prop :=
  ∃ s, InMemoryIndexer._cosine_similarity (query_vector query) (em_vector (embedded c)) = Ok s ∧ is_nan s = false.

Lemma search_indexed query envelope chunks records (ix : InMemoryIndexer.InMemoryIndexer) :
  Forall (comparable query) chunks → NoDup (map ck_chunk_id chunks) →
  Forall2 (record_of envelope "quickstart-v1") (map embedded chunks) records → dict_values (InMemoryIndexer.im_records ix) ≡ₚ records →
  ∃ hits, InMemoryIndexer.search (query_vector query) 3 [] ix = Ok hits ∧ most_similar (query_vector query) records hits.
Proof.
  intros Hcos Hnd Hall Hperm.
  assert (Hc : InMemoryIndexer.candidates [] ix ≡ₚ records).
  { rewrite <- Hperm. unfold InMemoryIndexer.candidates.
    assert (Hid : ∀ l, List.filter (λ c, InMemoryIndexer._matches_filters c []) l = l) by (intros l; induction l as [|r rs IH]; simpl; [done|by f_equal]).
    by rewrite Hid. }
  assert (Hnum : ∀ r, r ∈ InMemoryIndexer.candidates [] ix → ∃ s, InMemoryIndexer._cosine_similarity (query_vector query) (ir_vector r) = Ok s ∧ is_nan s = false).
  { intros r Hr. rewrite Hc in Hr. apply list_elem_of_lookup in Hr as [i Hr]. destruct (Forall2_lookup_r _ _ _ _ _ Hall Hr) as (e & He & _ & _ & Hv & _).
    rewrite Hv. apply list_elem_of_lookup_2 in He. apply list_elem_of_fmap in He as (c & -> & Hin). rewrite Forall_forall in Hcos. by apply Hcos. }
  destruct (InMemoryIndexer.search_returns (query_vector query) 3 [] ix) as [hits Hs].
  { intros r Hr. destruct (Hnum r Hr) as (s & He & _). by exists s. }
  exists hits. split; [done|]. destruct (InMemoryIndexer.search_hits _ _ _ _ _ Hs) as (Hin & Hsort & Hn & _).
  destruct (InMemoryIndexer.search_top _ _ _ _ _ Hs (Zle_0_pos 3)) as (others & Hp & Hcosine & Hbest).
  { intros r s Hr He. destruct (Hnum r Hr) as (s0 & He0 & Hn0). assert (s0 = s) as <- by congruence. exact Hn0. }
  rewrite Hc in Hp.
  unfold most_similar. split_and!.
  - rewrite Hn by lia. by rewrite Hc.
  - assert (Hids : NoDup (map ir_chunk_id records)).
    { rewrite (records_ids _ _ _ _ Hall). unfold chunk_ids. rewrite map_map.
      erewrite map_ext; [exact Hnd|]. intros c. by rewrite (proj1 (embedded_facts c)). }
    rewrite <- Hp, map_map, map_app in Hids. by apply NoDup_app in Hids as [? _].
  - intros r s Hrs. destruct (Hin r s Hrs) as (Hr & _ & Hcr & _). rewrite Hperm in Hr. done.
  - done.
  - intros r Hr Hnot. rewrite <- Hp, map_app, elem_of_app in Hr. destruct Hr as [?|Hr]; [done|].
    apply list_elem_of_fmap in Hr as ([r' s] & -> & Hrs). exists s. split; [apply Hcosine; set_solver|]. intros [r2 s2] Hh. by eapply Hbest.
Qed.

Lemma embed_and_search_ok {cenv' : Chunker.ChunkerEnv} query envelope elements chunks ccfg tc (w : world) :
  in_stage (env_doc_id envelope) EMBEDDING "quickstart-v1" w → w_index w = InMemoryIndexer.new_in_memory in_memory_DEFAULT_INDEX_NAME →
  Chunker._assemble_chunks (Chunker.new_chunker ccfg tc) (env_doc_id envelope) elements = Ok chunks → chunks ≠ [] →
  Forall (λ c, ck_token_count c ≤ 8192) chunks → NoDup (map ck_chunk_id chunks) →
  Forall (comparable query) chunks →
  ∃ out w', embed_and_search query envelope chunks w = (Ok out, w') ∧ finished query envelope chunks out w'.
Proof.
  intros Hst Hix Has Hne Htok Hnd Hcos. unfold embed_and_search, _load_fastembed_adapter. rewrite Hloaded. cbn [and_then].
  change (Embedder.new_embedder embedder_config) with (Ok (E:=exn) embedder_config). cbn [and_then].
  destruct (embed_stage embedder_config envelope chunks f _ w Hst (embed_refusal_none chunks Hne Htok)) as (w1 & R1 & S1 & I1).
  { intros ts st. exists st. apply impl_pointwise. }
  { done. }
  change (map (λ c, Embedder._build_embedded_chunk embedder_config c (f (Embedder._apply_prefix (ck_text c) ea_document_prefix))) chunks)
    with (map embedded chunks) in R1. rewrite R1. cbn [and_then].
  assert (first_of (map embedded chunks) = Ok (default (embedded (mkChunk "" "" 0 [] "" 0 [])) (head (map embedded chunks)))) as -> by (by destruct chunks).
  cbn [and_then]. unfold new_indexer. pose proof (eq_trans I1 Hix) as Hix1.
  set (ix1 := InMemoryIndexer.mkIM in_memory_DEFAULT_INDEX_NAME [] [] (Some (_TARGET_DIMENSIONS, "cosine"))).
  assert (InMemoryIndexer.ensure_schema (Indexer.dimensions indexer_config) (Indexer.metric indexer_config) (w_index w1) = Ok ix1) as ->
    by exact (f_equal (InMemoryIndexer.ensure_schema (Indexer.dimensions indexer_config) (Indexer.metric indexer_config)) Hix1).
  cbn [and_then]. set (w2 := set_index (env := quick_env) ix1 w1).
  destruct (embedded_sectioned ccfg tc embedder_config (env_doc_id envelope) elements chunks (λ c, f ("search_document: " +:+ ck_text c)) Has) as [Hsec Hids].
  change (map (λ c, Embedder._build_embedded_chunk embedder_config c (f ("search_document: " +:+ ck_text c))) chunks) with (map embedded chunks) in Hsec, Hids.
  destruct (index_stage (EmbedderAdapters.fastembed_env fastembed_DEFAULT_MODEL impl base) in_memory_DEFAULT_INDEX_NAME (set_first m)
    indexer_config envelope (map embedded chunks) "quickstart-v1" w2 Hfirst S1 Hsec (embedded_accepted chunks Hne)) as
    (res & row & w3 & records & R3 & Hrow & Hs & _ & Hn & Hall & Hok & Hin & Hout);
    [done|exact (InMemoryIndexer.new_in_memory_ok in_memory_DEFAULT_INDEX_NAME)|by rewrite Hids|done|].
  change (run (@handle quick_env) (@Indexer.index quick_env indexer_config envelope (map embedded chunks)) w2 = (Ok res, w3)) in R3.
  rewrite R3. cbn [and_then].
  change (get (env_doc_id envelope) (@w_ledger quick_env w3) = Some row) in Hrow. rewrite Hrow, run_call. cbn [handle]. rewrite impl_pointwise. cbn [and_then map first_of]. rewrite l2_normalize_mirrors.
  pose proof (indexed_values envelope chunks "quickstart-v1" w3 records Hok Hnd Hall Hin) as Hperm.
  destruct (search_indexed query envelope chunks records (w_index w3) Hcos Hnd Hall) as (hits & Hh & Hbest).
  { apply Hperm. intros c r Hc Hr. pose proof (Hout c r Hc Hr) as Hx. done. }
  change (w_index (set_embed (w_embed w3) w3)) with (w_index w3). fold (query_vector query). rewrite Hh. cbn [and_then].
  eexists _, _. split; [reflexivity|]. unfold finished. cbn [qs_envelope qs_chunks qs_status qs_result qs_hits].
  split_and!; [done..|by rewrite Hn, length_map|]. exists records. split_and!; [done| |done].
  change (w_index (set_embed (w_embed w3) w3)) with (w_index w3). apply Hperm. intros c r Hc Hr. pose proof (Hout c r Hc Hr) as Hx. done.
Qed.
End with_model.

(** The parser of the script on a digital PDF. *)
Lemma quick_analysis envelope data open pages elements :
  Analyzer.detect_type envelope (Ok data) 3 50 = Ok DIGITAL_PDF → parses_in_time m = true →
  open data = Ok pages → Parsers.document_elements 0 pages = Ok elements →
  Analyzer.analysis_of analyzer_config (parser_registry open) envelope (Ok data) = Analyzer.Parsed elements.
Proof.
  intros Hdet Htime Hopen Hel. unfold Analyzer.analysis_of.
  change (Analyzer.scanned_pdf_probe_pages analyzer_config) with 3. change (Analyzer.scanned_pdf_min_chars_per_page analyzer_config) with 50.
  rewrite Hdet, decide_False by done. unfold Analyzer.registry_get, parser_registry, Analyzer.registry_register. cbn [dict_set dict_get].
  rewrite decide_True, Htime by done. unfold Parsers.pymupdf_parse. cbn [rbind]. rewrite Hopen. cbn [rbind]. by rewrite Hel.
Qed.

(** C12: the script as a whole, on a digital PDF whose elements can be chunked. If the local
    model loads, embeds each text on its own and yields at least 256 numbers, the chunks fit its
    input limit and have distinct ids, and the similarity of the query with each chunk is a
    number, then
    [main] returns: the document is [INDEXED], the index holds exactly one record per chunk,
    with its text, the groups and tier of the envelope and the truncated and normalised vector
    of the prefixed text, and the search answers with the [min 3 n] most similar records: different
    ones, in order of decreasing cosine similarity to the query, normalised the same way, and
    none of the others is more similar than any of them. Without the fastembed
    package it exits after chunking, and leaves the document in the [EMBEDDING] stage. *)
Theorem quickstart_end_to_end query scenarios data envelope open pages elements chunks :
  (∀ c cs, set_first m c cs ∈ c :: cs) → read_bytes m = Ok data → quick_envelope data = Ok envelope → pymupdf_module m = Some open →
  Analyzer.detect_type envelope (Ok data) 3 50 = Ok DIGITAL_PDF → parses_in_time m = true →
  open data = Ok pages → Parsers.document_elements 0 pages = Ok elements → elements ≠ [] →
  Chunker._assemble_chunks (Chunker.new_chunker chunker_config token_counter) (env_doc_id envelope) elements = Ok chunks →
  (∀ model f, loaded = Ok model → (∀ texts, model texts = Ok (map f texts)) → (∀ t, 256 ≤ Z.of_nat (length (f t))) →
     chunks ≠ [] → Forall (λ c, ck_token_count c ≤ 8192) chunks → NoDup (map ck_chunk_id chunks) →
     Forall (comparable f query) chunks →
     ∃ out w', main query scenarios = (Ok out, w') ∧ finished f query envelope chunks out w') ∧
  (fastembed_package m = None → ∃ msg w', main query scenarios = (Exc (PyExc "SystemExit" msg), w') ∧
     status_of (env_doc_id envelope) (w_ledger w') = Some EMBEDDING).
Proof.
  intros Hfirst Hread Henv Hmod Hdet Htime Hopen Hel Hne Has.
  assert (He : envelope_ok envelope) by (destruct (quick_envelope_ok data) as (e & He & Hok & _); congruence).
  pose proof (quick_analysis envelope data open pages elements Hdet Htime Hopen Hel) as Han.
  destruct (process_chunks query envelope data (new_world scenarios) open elements chunks He eq_refl ledger_ok_empty Hmod Han Hne Has) as (w1 & S1 & I1 & Hp).
  assert (Hmain : main query scenarios = embed_and_search query envelope chunks w1) by (unfold main; by rewrite Hread, Henv).
  rewrite Hmain. split.
  - intros model f Hl Hm Hd Hcne Htok Hnd Hcos.
    by apply (embed_and_search_ok model f Hfirst Hl Hm Hd query envelope elements chunks chunker_config token_counter w1).
  - intros Hnone. unfold embed_and_search, _load_fastembed_adapter, loaded. rewrite Hnone. cbn [EmbedderAdapters._load_text_embedding].
    rewrite decide_True by done. cbn [and_then]. eexists _, _. split; [reflexivity|]. destruct S1 as (_ & row & Hrow & Hs & _).
    unfold status_of. by rewrite Hrow, <- Hs.
Qed.
End quickstart.

(** ** A concrete run: a page with one line, and a model that yields 256 ones. *)
Definition quick_page : Parsers.page := Parsers.mkPage (Ok []) (Ok (Some [Parsers.text_block "hello" 10 (Parsers.box 0 0 1 1)])).
Definition quick_aenv : Analyzer.AnalyzerEnv := {| Analyzer.pymupdf_open := Some (λ _, Analyzer.Opened false 1 (λ _, Ok 100)); Analyzer.float_repr _ := "240.0" |}.
Definition ones : list pyfloat := replicate 256 (f_of_Z 1).
Definition quick_machine : machine :=
  mkMachine "a.pdf" (Ok "%PDF-1.7") (Some (λ _, Ok [quick_page])) true
    (Ok (λ s, Ok (map (λ _, 0) (String.list_ascii_of_string s)))) (Some (λ _ _, Some (Ok (λ texts, Ok (map (λ _, ones) texts))))) (λ c _, c).

Definition quick_element : Element := mkElement PARAGRAPH "hello" [("page", MInt 0); ("bbox", MBBox (Parsers.box 0 0 1 1))].
Definition quick_doc : string := Sha256.hexdigest ("examples" +:+ "examples/a.pdf").
Definition quick_chunk : Chunk :=
  mkChunk (Sha256.hexdigest (quick_doc +:+ "0")) quick_doc 0 [PARAGRAPH] "hello" 5
    [("strategy", MStr "recursive"); ("section_path", MNone); ("page", MInt 0)].

Lemma quick_assemble :
  @Chunker._assemble_chunks (@Chunker.new_chunker Chunker.example_cenv chunker_config (token_counter (base := unit_env) quick_machine)) quick_doc [quick_element]
  = Ok [quick_chunk].
Proof.
  unfold Chunker._assemble_chunks.
  assert (@Chunker.all_drafts (@Chunker.new_chunker Chunker.example_cenv chunker_config (token_counter (base := unit_env) quick_machine)) [quick_element]
    = Ok [Chunker.mkDraft [PARAGRAPH] "hello" 5 [("strategy", MStr "recursive"); ("section_path", MNone); ("page", MInt 0)]]) as -> by (vm_compute; reflexivity).
  unfold rbind at 1, Chunker._assign_positions, Chunker.assign_from. rewrite derive_chunk_id_ok; [reflexivity| |lia].
  apply hex_re_digest; [apply Sha256.hexdigest_hex|apply Sha256.hexdigest_length].
Qed.

Lemma quickstart_end_to_end_witness :
  ∃ out w', @main unit_env quick_aenv Chunker.example_cenv quick_machine "hi" tt = (Ok out, w') ∧ qs_status out = INDEXED ∧ length (qs_hits out) = 1%nat.
Proof.
  destruct (quick_envelope_ok (base := unit_env) quick_machine "%PDF-1.7") as (e & He & _ & Hee).
  assert (Hd : env_doc_id e = quick_doc) by (rewrite Hee; reflexivity).
  destruct (@quickstart_end_to_end unit_env quick_aenv Chunker.example_cenv quick_machine "hi" tt "%PDF-1.7" e (λ _, Ok [quick_page])
    [quick_page] [quick_element] [quick_chunk]) as [H _].
  - intros c cs. apply elem_of_cons. by left.
  - reflexivity.
  - exact He.
  - reflexivity.
  - rewrite Hee. vm_compute. reflexivity.
  - reflexivity.
  - reflexivity.
  - vm_compute. reflexivity.
  - discriminate.
  - rewrite Hd. exact quick_assemble.
  - destruct (H (λ texts, Ok (map (λ _, ones) texts)) (λ _, ones)) as (out & w' & Hm & _ & _ & Hs & _ & records & Hrec & _ & Hl & _).
    + reflexivity.
    + reflexivity.
    + intros t. vm_compute. discriminate.
    + discriminate.
    + repeat constructor. vm_compute. discriminate.
    + apply NoDup_singleton.
    + constructor; [|constructor]. eexists. split; vm_compute; reflexivity.
    + exists out, w'. split; [exact Hm|]. split; [exact Hs|]. apply Forall2_length in Hrec. rewrite <- Hrec in Hl. exact Hl.
Defined.
End Quickstart.
