(* ===== verification/TableRefinement.v ===== *)
(** * The table-backed registry implements the in-memory one

    Over a network that answers every request, and as long as every index name belongs to one
    vertical, a client of [TableStorageIndexRegistry] cannot tell it from
    [InMemoryIndexRegistry]: every call has the same result, exceptions and their texts
    included. The condition on the names is needed ([table_registry_departures]): the entities
    are keyed by vertical and name. *)
From S2P Require Import Prelude PyDict Types Prog Registry Net Tables MemoryTable TableRegistry.
#[local] Open Scope Z_scope.
#[local] Open Scope py_scope.

Module TableRefinement.
Import Registry TableRegistry.

#[local] Arguments pbind : simpl never.
#[local] Arguments attempt : simpl never.
#[local] Arguments call : simpl never.
#[local] Arguments perform : simpl never.

(** ** The specification: one call of the in-memory registry *)

Definition some_entry (r : result exn IndexRegistryEntry * entries) : result exn (option IndexRegistryEntry) * entries :=
  (rbind r.1 (λ e, Ok (Some e)), r.2).

Definition memory_call (now : Z) (c : rcall) (es : entries) : result exn (option IndexRegistryEntry) * entries :=
  match c with
  | CGet n => (Ok (Registry.get n es), es)
  | CRegister e => let '(e', es') := Registry.register e es in (Ok (Some e'), es')
  | CReclaim n o e => some_entry (Registry.reclaim n o e es)
  | CTouch n => some_entry (Registry.touch_verified now n es)
  | CReady n t => some_entry (Registry.mark_ready now n t es)
  | CFailed n m t => some_entry (Registry.mark_failed n m t es)
  | CRetired n => some_entry (Registry.mark_retired n es)
  | CNetwork _ => (Ok None, es)
  end.

(** A sequence of calls with some readings of the clock. *)
Inductive memory_calls : list rcall → entries → list (result exn (option IndexRegistryEntry)) → entries → Prop :=
| memory_done es : memory_calls [] es [] es
| memory_next now c cs es r rs es1 es2 :
    memory_call now c es = (r, es1) → memory_calls cs es1 rs es2 → memory_calls (c :: cs) es (r :: rs) es2.

Section refinement.
Context {codec : EntryCodec} {tenacity : Tenacity} (settings : RetrySettings) {codec_laws : EntryCodecLaws codec}.
Context {client : TableClient} (stored : tc_state → gmap (string * string) (props * string)) (issued : tc_state → gset string).
Context {laws : TableLaws stored issued} (utc : nat → Z).

(** The vertical every index name belongs to. *)
Context (vert : string → string).

Definition owned (e : IndexRegistryEntry) : Prop := en_vertical e = vert (en_index_name e).

(** The entries a call brings along belong where their names say. *)
Definition compatible (c : rcall) : Prop :=
  match c with
  | CRegister e => owned e
  | CReclaim n _ e => en_index_name e = n ∧ owned e
  | _ => True
  end.

Notation tworld := (nworld tableQ tc_state).
Notation handle := (nhandle serve (λ _, Served) utc).

(** The table holds exactly the entries of the dictionary, each under its vertical and name. *)
Definition abstracts (st : tc_state) (es : entries) : Prop :=
  ∀ pk n,
    match stored st !! (pk, n) with
    | Some (p, _) => ∃ e, p = entity_of pk n (entry_to_entity_data e) ∧ Registry.get n es = Some e ∧ en_index_name e = n ∧ owned e ∧ pk = vert n
    | None => pk = vert n → Registry.get n es = None
    end.

(** ** Requests that are answered *)

(** The world after one request. *)
Definition answered (st : tc_state) (w : tworld) : tworld := mkNW st (nw_inflight w) (1 + nw_calls w) (nw_ticks w).

(** An exception that ends the retries at once. *)
Definition final (x : exn) : bool := negb (_is_retryable x) && negb (Analyzer.Analyzer.is_timeout x).

Lemma run_answered {X} (q : tableQ X) (w : tworld) r st :
  serve X q (nw_state w) = (r, st) → (∀ x, r = Exc x → final x = true) →
  run handle (_with_retry settings q) w = (match r with Ok a => Ok a | Exc x => Exc (retry_error x) end, answered st w).
Proof.
  intros Hs Hr. unfold _with_retry, with_retry. rewrite run_bind, run_attempt, retrying_law, run_bind, run_attempt.
  unfold call_with_timeout. rewrite run_bind, run_perform. cbn [fst snd nhandle]. rewrite Hs. cbn [fst snd].
  destruct r as [a|x]; [done|]. specialize (Hr x eq_refl). unfold final in Hr. apply andb_prop in Hr as [Hx Ht].
  apply negb_true_iff in Ht. rewrite Ht. cbn [fst snd run]. rewrite Hx. done.
Qed.

Lemma to_stored pk n p g e st :
  stored st !! (pk, n) = Some (p, g) → p = entity_of pk n (entry_to_entity_data e) →
  _to_record (mkEntity p g) = mkRec pk n (entry_to_entity_data e) g.
Proof. intros _ ->. apply to_record_entity, entry_data_clean. Qed.

(** Reading by name finds the one entity of that name. *)
Lemma read_by_name n st es :
  abstracts st es →
  match Registry.get n es with
  | Some e => ∃ g l, real_query None (Some n) st = mkRec (vert n) n (entry_to_entity_data e) g :: l ∧ snd <$> stored st !! (vert n, n) = Some g
  | None => real_query None (Some n) st = []
  end.
Proof.
  intros Ha. unfold real_query. cbn [query_filter app fmap list_fmap py_join].
  pose proof (query_row_law (stored := stored) n st) as Hq. set (l := tc_query_entities _ _ st) in *.
  change (tc_query_entities "RowKey eq @rk" [("rk", n)] st) with l in Hq.
  assert (Hin : ∀ en, en ∈ l → ∃ e, Registry.get n es = Some e ∧ stored st !! (vert n, n) = Some (te_props en, te_etag en) ∧
    te_props en = entity_of (vert n) n (entry_to_entity_data e)).
  { intros en Hen. apply Hq in Hen as ([pk n'] & Hk & Hn). simpl in Hn. subst n'. specialize (Ha pk n). rewrite Hk in Ha.
    destruct Ha as (e & Hp & Hg & _ & _ & ->). eauto. }
  destruct (Registry.get n es) as [e|] eqn:Hg.
  - specialize (Ha (vert n) n). destruct (stored st !! (vert n, n)) as [[p g]|] eqn:Hk; [|by rewrite Ha in Hg].
    assert (Hl : l ≠ []). { intros Hl. assert (mkEntity p g ∈ l) as Hx by (apply Hq; by exists (vert n, n)). rewrite Hl in Hx. set_solver. }
    destruct l as [|en l']; [done|]. destruct (Hin en) as (e' & He & Hs & Hp); [set_solver|]. injection He as <-. injection Hs as -> ->.
    exists (te_etag en), (map _to_record l'). split; [|done]. simpl. f_equal.
    destruct en as [p' g']. simpl in *. rewrite Hp. apply to_record_entity, entry_data_clean.
  - destruct l as [|en l']; [done|]. destruct (Hin en) as (e & He & _); [set_solver|done].
Qed.

(** Reading by both keys. *)
Lemma read_by_keys pk n st es :
  abstracts st es →
  match stored st !! (pk, n) with
  | Some (_, g) => ∃ e, Registry.get n es = Some e ∧ pk = vert n ∧ real_get_entity pk n st = Ok (Some (mkRec pk n (entry_to_entity_data e) g))
  | None => real_get_entity pk n st = Ok None ∧ (pk = vert n → Registry.get n es = None)
  end.
Proof.
  intros Ha. specialize (Ha pk n). pose proof (get_entity_law (stored := stored) pk n st) as Hg. unfold real_get_entity.
  destruct (stored st !! (pk, n)) as [[p g]|].
  - rewrite Hg. destruct Ha as (e & -> & He & _ & _ & Hpk). exists e. split_and!; [done..|]. by rewrite to_record_entity by apply entry_data_clean.
  - destruct Hg as [m ->]. by rewrite bool_decide_eq_true_2.
Qed.

(** Storing an entry under its vertical and name. *)
Lemma store_entry n e g st st' es :
  abstracts st es → en_index_name e = n → owned e → stored st' = <[(vert n, n) := (entity_of (vert n) n (entry_to_entity_data e), g)]> (stored st) →
  abstracts st' (dict_set n e es).
Proof.
  intros Ha Hn Ho Hst pk n'. rewrite Hst. unfold Registry.get. destruct (decide ((pk, n') = (vert n, n))) as [[= -> ->]|Hne].
  - rewrite lookup_insert_eq. exists e. by rewrite dict_get_set_eq.
  - rewrite lookup_insert_ne by done. specialize (Ha pk n'). unfold Registry.get in Ha. rewrite dict_get_set.
    destruct (stored st !! (pk, n')) as [[p g']|].
    + destruct Ha as (e' & ? & ? & ? & ? & ->). exists e'. rewrite decide_False by congruence. done.
    + intros ->. rewrite decide_False by congruence. by apply Ha.
Qed.

Lemma run_update n e g w es :
  abstracts (nw_state w) es → en_index_name e = n → owned e → snd <$> stored (nw_state w) !! (vert n, n) = Some g →
  ∃ g' st', run handle (_with_retry settings (upsert_entity (vert n) n (entry_to_entity_data e) (Some g))) w = (Ok g', answered st' w) ∧
    abstracts st' (dict_set n e es).
Proof.
  intros Ha Hn Ho Hg. destruct (entity_of_keys (vert n) n _ (entry_data_clean e)) as [Hpk Hrk].
  pose proof (update_law (stored := stored) _ (vert n) n g (nw_state w) Hpk Hrk) as Hl. rewrite decide_True in Hl by done.
  destruct Hl as (g' & st' & Hu & _ & Hst & _). exists g', st'. split; [|by eapply store_entry].
  by apply (run_answered _ w (Ok g') st').
Qed.

(** The conditional updates. *)
Lemma run_rewrite n check updated f now w es :
  nw_inflight w = [] → abstracts (nw_state w) es →
  (∀ e, en_index_name (f e) = en_index_name e ∧ en_vertical (f e) = en_vertical e) →
  (∀ e w, nw_inflight w = [] → nw_ticks w = now → ∃ k, run handle (updated e) w = (Ok (f e), mkNW (nw_state w) [] (nw_calls w) k)) → nw_ticks w = now →
  ∃ w', run handle (rewrite_entry settings n check updated) w = ((update n check f es).1, w') ∧ nw_inflight w' = [] ∧ abstracts (nw_state w') (update n check f es).2.
Proof.
  intros Hfl Ha Hf Hupd Hnow. unfold rewrite_entry, _require_record. rewrite !run_bind.
  rewrite (run_answered (query None (Some n)) w (Ok (real_query None (Some n) (nw_state w))) (nw_state w)) by done. cbv iota.
  unfold update, _require. change (dict_get n es) with (Registry.get n es). pose proof (read_by_name n _ es Ha) as Hr.
  destruct (Registry.get n es) as [e|] eqn:He; [|rewrite Hr; by eexists]. destruct Hr as (g & l & -> & Hg). cbn [run rbind].
  rewrite run_bind, run_lift, entry_roundtrip, run_bind, run_lift. destruct (check e) as [[]|x]; [|by eexists]. cbn [rbind fst snd].
  rewrite run_bind. destruct (Hupd e (answered (nw_state w) w)) as [k ->]; [done..|]. cbv iota. rewrite run_bind.
  pose proof (Ha (vert n) n) as Hk. destruct (stored (nw_state w) !! (vert n, n)) as [[p g0]|] eqn:Hst; [|done].
  destruct Hk as (e' & _ & He' & Hn & Ho & _). rewrite He in He'. injection He' as <-. destruct (Hf e) as [Hfn Hfv].
  assert (Hv : en_vertical e = vert n) by (unfold owned in Ho; congruence). rewrite Hv.
  destruct (run_update n (f e) g (mkNW (nw_state w) [] (1 + nw_calls w) k) es) as (g' & st' & R & Ha'); [done|congruence|unfold owned in *; congruence|cbn [nw_state]; by rewrite Hst|].
  change (nw_state (answered (nw_state w) w)) with (nw_state w). change (nw_calls (answered (nw_state w) w)) with (1 + nw_calls w)%nat.
  cbn [re_etag]. rewrite R. by eexists.
Qed.

(** ** The calls *)

(** One call has the result and the effect of the specification. *)
Definition refines (c : rcall) : Prop := ∀ w es,
  nw_inflight w = [] → abstracts (nw_state w) es →
  ∃ w', run handle (serve_call settings c) w = ((memory_call (utc (nw_ticks w)) c es).1, w') ∧
    nw_inflight w' = [] ∧ abstracts (nw_state w') (memory_call (utc (nw_ticks w)) c es).2.

Lemma get_refines n : refines (CGet n).
Proof.
  intros w es Hfl Ha. cbn [serve_call memory_call fst snd]. unfold TableRegistry.get. rewrite run_bind.
  rewrite (run_answered (query None (Some n)) w (Ok (real_query None (Some n) (nw_state w))) (nw_state w)) by done. cbv iota.
  exists (answered (nw_state w) w). split; [|done]. pose proof (read_by_name n _ es Ha) as Hr.
  destruct (Registry.get n es) as [e|]; [|by rewrite Hr]. destruct Hr as (g & l & -> & _). by rewrite run_bind, run_lift, entry_roundtrip.
Qed.

Lemma register_refines e : owned e → refines (CRegister e).
Proof.
  intros Ho w es Hfl Ha. set (n := en_index_name e). assert (Hv : en_vertical e = vert n) by exact Ho.
  cbn [serve_call memory_call]. unfold TableRegistry.register, Registry.register. fold n. rewrite Hv, !run_bind, run_attempt.
  destruct (entity_of_keys (vert n) n _ (entry_data_clean e)) as [Hpk Hrk].
  pose proof (create_law (stored := stored) _ (vert n) n (nw_state w) Hpk Hrk) as Hl. pose proof (Ha (vert n) n) as Hk.
  pose proof (read_by_keys (vert n) n (nw_state w) es Ha) as Hr. change (dict_get n es) with (Registry.get n es).
  destruct (stored (nw_state w) !! (vert n, n)) as [[p g]|] eqn:Hst.
  - destruct Hl as [m Hl]. destruct Hk as (e' & _ & He & _). rewrite He. cbn [fst snd].
    rewrite (run_answered _ w (Exc (HttpResponseError (Some 409) None m)) (nw_state w)); [|exact Hl|by intros x [= <-]]. cbn [fst snd].
    change (is_conflict (retry_error (HttpResponseError (Some 409) None m))) with true. cbv iota. rewrite run_bind.
    destruct Hr as (e'' & He'' & _ & Hr). rewrite He in He''. injection He'' as <-.
    rewrite (run_answered (get_entity (vert n) n) _ (Ok (Some (mkRec (vert n) n (entry_to_entity_data e') g))) (nw_state w));
      [|by cbn [serve answered nw_state]; rewrite Hr|done]. cbv iota. rewrite run_lift, entry_roundtrip. by eexists.
  - rewrite (Hk eq_refl). cbn [fst snd]. destruct Hl as (g & st' & Hc & _ & Hst' & _).
    rewrite (run_answered _ w (Ok g) st') by done. cbn [fst snd run]. eexists. split; [reflexivity|]. split; [done|]. by eapply store_entry.
Qed.

Lemma reclaim_refines n o e : en_index_name e = n → owned e → refines (CReclaim n o e).
Proof.
  intros Hn Ho w es Hfl Ha. assert (Hv : en_vertical e = vert n) by (unfold owned in Ho; congruence).
  cbn [serve_call memory_call]. unfold TableRegistry.reclaim, Registry.reclaim, some_entry. rewrite !run_bind. change (dict_get n es) with (Registry.get n es).
  pose proof (read_by_keys (en_vertical o) n (nw_state w) es Ha) as Hr. pose proof (Ha (en_vertical o) n) as Hk.
  destruct (stored (nw_state w) !! (en_vertical o, n)) as [[p g]|] eqn:Hst.
  - destruct Hr as (c & Hc & Hpk & Hr). destruct Hk as (c' & _ & Hc' & Hcn & Hco & _). assert (c' = c) as -> by congruence.
    rewrite (run_answered (get_entity (en_vertical o) n) w (Ok (Some (mkRec (en_vertical o) n (entry_to_entity_data c) g))) (nw_state w));
      [|by cbn [serve]; rewrite Hr|done].
    cbv iota. rewrite run_bind, run_lift, entry_roundtrip, Hc. destruct (decide (c = o)) as [->|Hco'].
    + rewrite !decide_False by naive_solver. rewrite run_bind, Hv. cbn [re_etag].
      destruct (run_update n e g (answered (nw_state w) w) es) as (g' & st' & R & Ha'); [done|done|done|by cbn [answered nw_state]; rewrite <- Hpk, Hst|].
      rewrite R. by eexists.
    + rewrite !decide_True by congruence. by eexists.
  - destruct Hr as [Hr Hnone].
    rewrite (run_answered (get_entity (en_vertical o) n) w (Ok None) (nw_state w)); [|by cbn [serve]; rewrite Hr|done]. cbv iota.
    rewrite decide_True; [by eexists|]. intros Hc. pose proof (Ha (vert n) n) as Hv'.
    destruct (stored (nw_state w) !! (vert n, n)) as [[p g]|] eqn:Hst'; [|rewrite Hv' in Hc; done].
    destruct Hv' as (c & _ & Hc' & Hcn & Hco & _). rewrite Hc in Hc'. injection Hc' as <-. unfold owned in Hco. rewrite Hcn in Hco.
    rewrite Hnone in Hc; done.
Qed.

Lemma update_refines n check updated f now w es :
  nw_inflight w = [] → abstracts (nw_state w) es →
  (∀ e, en_index_name (f e) = en_index_name e ∧ en_vertical (f e) = en_vertical e) →
  (∀ e w, nw_inflight w = [] → nw_ticks w = now → ∃ k, run handle (updated e) w = (Ok (f e), mkNW (nw_state w) [] (nw_calls w) k)) → nw_ticks w = now →
  ∃ w', run handle (e' ← rewrite_entry settings n check updated; Ret (Some e')) w = ((some_entry (update n check f es)).1, w') ∧
    nw_inflight w' = [] ∧ abstracts (nw_state w') (some_entry (update n check f es)).2.
Proof.
  intros Hfl Ha Hf Hupd Hnow. destruct (run_rewrite n check updated f now w es Hfl Ha Hf Hupd Hnow) as (w' & R & Hfl' & Ha').
  exists w'. rewrite run_bind, R. unfold some_entry. destruct (update n check f es) as [[e|x] es']; done.
Qed.

(** The updates that stamp the time, and those that do not. *)
Lemma stamps (f : Z → IndexRegistryEntry → IndexRegistryEntry) e (w : tworld) now :
  nw_inflight w = [] → nw_ticks w = now →
  ∃ k, run handle (t ← perform Utcnow; Ret (f t e : IndexRegistryEntry)) w = (Ok (f (utc now) e), mkNW (nw_state w) [] (nw_calls w) k).
Proof. intros Hfl <-. rewrite run_bind, run_perform. cbn [fst snd nhandle run]. rewrite Hfl. by eexists. Qed.

Lemma keeps (e u : IndexRegistryEntry) (w : tworld) :
  nw_inflight w = [] → ∃ k, run handle (Ret u) w = (Ok u, mkNW (nw_state w) [] (nw_calls w) k).
Proof. intros Hfl. exists (nw_ticks w). destruct w; simpl in *. by rewrite Hfl. Qed.

Lemma call_refines c : compatible c → refines c.
Proof.
  destruct c as [n|e|n o e|n|n t|n m t|n|ds]; cbn [compatible]; intros Hc.
  - apply get_refines.
  - by apply register_refines.
  - apply reclaim_refines; apply Hc.
  - intros w es Hfl Ha. by eapply (update_refines n _ _ (touched (utc (nw_ticks w))) (nw_ticks w)); [..|intros e w' ? ?; apply stamps|].
  - intros w es Hfl Ha. by eapply (update_refines n _ _ (made_ready (utc (nw_ticks w))) (nw_ticks w)); [..|intros e w' ? ?; apply stamps|].
  - intros w es Hfl Ha. by eapply (update_refines n _ _ (made_failed m) (nw_ticks w)); [..|intros e w' ? ?; apply (keeps e)|].
  - intros w es Hfl Ha. by eapply (update_refines n _ _ made_retired (nw_ticks w)); [..|intros e w' ? ?; apply (keeps e)|].
  - intros w es Hfl Ha. cbn [serve_call memory_call fst snd]. exists w. split; [|done]. rewrite run_bind.
    assert (H : run handle (pfold (λ _ i, perform (Deliver i)) tt ds) w = (Ok tt, w)); [|by rewrite H].
    induction ds as [|i ds IH]; [done|]. cbn [pfold]. rewrite run_bind, run_perform. cbn [fst snd nhandle]. rewrite Hfl. cbn [fst snd lookup list_lookup]. exact IH.
Qed.

(** A client that makes one call after the other. *)
Fixpoint table_calls (cs : list rcall) (w : tworld) : list (result exn (option IndexRegistryEntry)) * tworld :=
  match cs with
  | [] => ([], w)
  | c :: cs' => let '(r, w1) := run handle (serve_call settings c) w in let '(rs, w2) := table_calls cs' w1 in (r :: rs, w2)
  end.

(** C18: any sequence of calls on the table-backed registry in which every index name belongs to
    one vertical (each entry registered, or put in place of another by a reclaim, is of the
    vertical of its index name, and a reclaim writes under the name it reclaims), over a network
    that answers every request, has the results of the in-memory registry on the same calls:
    the same entries, the same refusals with the same error codes and texts, and afterwards the
    table holds exactly its entries. Without the condition the two differ
    ([table_registry_departures]), since the table is keyed by vertical and name. *)
Theorem table_registry_refines cs w es :
  Forall compatible cs → nw_inflight w = [] → abstracts (nw_state w) es →
  let '(rs, w') := table_calls cs w in ∃ es', memory_calls cs es rs es' ∧ abstracts (nw_state w') es'.
Proof.
  intros Hc. revert w es. induction Hc as [|c cs Hc _ IH]; intros w es Hfl Ha; cbn [table_calls].
  - exists es. split; [constructor|done].
  - destruct (call_refines c Hc w es Hfl Ha) as (w1 & -> & Hfl1 & Ha1).
    specialize (IH w1 _ Hfl1 Ha1). destruct (table_calls cs w1) as [rs w2]. destruct IH as (es' & Hm & Ha').
    exists es'. split; [|done]. econstructor; [apply surjective_pairing|exact Hm].
Qed.
End refinement.

Lemma empty_abstracts vert : abstracts (codec := example_codec) (client := MemoryTable.memory_client) MemoryTable.stored vert MemoryTable.empty_memory [].
Proof. intros pk n. change (MemoryTable.stored MemoryTable.empty_memory) with (filter (MemoryTable.in_order ∅) (∅ : gmap (string * string) (props * string))).
  rewrite map_filter_empty, lookup_empty. done. Qed.

(** A claim, a second one that loses, a wrong token, the right one, and the retirement. *)
Definition example_calls : list rcall :=
  [CRegister (claim "hr" "a"); CRegister (claim "hr" "b"); CReady "shared-index" (Some "b"); CReady "shared-index" (Some "a");
   CRetired "shared-index"; CGet "other"].

Lemma table_registry_refines_witness :
  ∃ rs w' es', table_calls (codec := example_codec) (tenacity := loop_tenacity) (client := MemoryTable.memory_client) example_settings Z.of_nat
      example_calls (mkNW MemoryTable.empty_memory [] 0 0) = (rs, w') ∧ length rs = 6%nat ∧
    memory_calls example_calls [] rs es'.
Proof.
  pose proof (table_registry_refines (codec := example_codec) (tenacity := loop_tenacity) (client := MemoryTable.memory_client) example_settings
    (codec_laws := example_codec_laws) MemoryTable.stored MemoryTable.me_issued (laws := MemoryTable.memory_laws) Z.of_nat (λ _, "hr") example_calls
    (mkNW MemoryTable.empty_memory [] 0 0) []) as H.
  destruct (table_calls (codec := example_codec) (tenacity := loop_tenacity) (client := MemoryTable.memory_client) example_settings Z.of_nat
      example_calls (mkNW MemoryTable.empty_memory [] 0 0)) as [rs w'] eqn:E.
  destruct H as (es' & Hm & _); [repeat constructor|reflexivity|apply empty_abstracts|].
  exists rs, w', es'. split; [reflexivity|]. split; [|exact Hm]. vm_compute in E. by injection E as <- _.
Defined.
End TableRefinement.
