(* ===== verification/Construction.v ===== *)
(** * Constructing the adapters for optional packages

    The constructors of the adapters and stores whose package is an extra
    (indexer/adapters/azure_ai_search.py, provisioning/adapters/azure_ai_search.py,
    provisioning/stores/table_storage_registry.py, scenario/stores/table_storage_store.py, with
    their [_load_real_backend], and embedder/adapters/fastembed.py) and of the two whose package
    is required (embedder/adapters/azure_openai.py, analyzer/parsers/docint_parser.py).

    The packages are arguments ([Packages]): [None] when the import raises [ImportError]. The
    backend itself is the service of [Tables] and [AzureSearch]; a constructor only decides
    whether there is one, so an injected backend is a flag. *)
From S2P Require Import Prelude PyDict Errors ErrorCodes Types Prog System Registry Net Tables AzureSearch AzureIndexer EmbedderAdapters.
#[local] Open Scope Z_scope.

Module Construction.

Definition INDEXER_DEPENDENCY_MISSING : string := "INDEXER_DEPENDENCY_MISSING".
Definition INDEX_PROVISIONER_DEPENDENCY_MISSING : string := "INDEX_PROVISIONER_DEPENDENCY_MISSING".
Definition SCENARIO_STORE_DEPENDENCY_MISSING : string := "SCENARIO_STORE_DEPENDENCY_MISSING".

Class Packages := {
  (** azure-search-documents: building the credential and the clients for an endpoint. *)
  search_documents : option (string → string → result exn unit);
  (** azure-data-tables: a client from a connection string, and the one request the constructors
      send, which is executed by the service. *)
  data_tables : option (string → result exn unit);
  table_service : Type;
  create_table_if_not_exists : string → table_service → result exn unit * table_service;
  (** The clients of the required packages. *)
  azure_openai_client : string → string → string → result exn unit;
  docint_client : string → string → string → result exn unit;
  (** tenacity's [wait_random_exponential(multiplier=..., max=...)], and [str] of a float. *)
  wait_random_exponential : pyfloat → pyfloat → Z → exn → pyfloat;
  seconds_repr : pyfloat → string;
}.

(** The keyword arguments all of them share, with their defaults. *)
Record options := mkOptions {
  timeout_seconds : pyfloat; max_attempts : Z; backoff_base_seconds : pyfloat; backoff_max_seconds : pyfloat }.

Definition default_options : options := mkOptions (f_of_Z 30) 5 (f_of_Z 2) (f_of_Z 60).

Section constructors.
Context {packages : Packages}.

Definition settings_of (o : options) : RetrySettings :=
  mkSettings (seconds_repr (timeout_seconds o)) (max_attempts o) (wait_random_exponential (backoff_base_seconds o) (backoff_max_seconds o)).

(** ** Azure AI Search: the index adapter *)

Definition indexer_load_real_backend (endpoint api_key : string) : result exn unit :=
  match search_documents with
  | None =>
    Exc (IndexerError "" ("azure-search-documents is not installed; install the 'azure_search' " +:+
                          "extra (pip install vestibule[azure_search]) to use AzureAISearchIndexer") INDEXER_DEPENDENCY_MISSING)
  | Some clients => clients endpoint api_key
  end.

Definition indexer_load_real_backend_lazily (endpoint api_key : string) : result exn unit := indexer_load_real_backend endpoint api_key.

Definition new_azure_ai_search_indexer (endpoint api_key index_name : string) (hnsw_m hnsw_ef_construction hnsw_ef_search : Z) (o : options)
    (injected : bool) : result exn AzureIndexer.AzureAISearchIndexer :=
  rbind (if injected then Ok tt else indexer_load_real_backend_lazily endpoint api_key) (λ _,
  Ok (AzureIndexer.mkAzure index_name hnsw_m hnsw_ef_construction hnsw_ef_search (settings_of o))).

(** ** Azure AI Search: the provisioner adapter *)

Definition provisioner_EXTRA_NAME : string := "azure_search".

Definition provisioner_load_real_backend (endpoint api_key : string) : result exn unit :=
  match search_documents with
  | None =>
    Exc (ProvisioningError "" ("azure-search-documents is not installed; install the 'azure_search' extra (pip install vestibule[" +:+
           provisioner_EXTRA_NAME +:+ "]) to use AzureAISearchProvisioner") INDEX_PROVISIONER_DEPENDENCY_MISSING)
  | Some clients => clients endpoint api_key
  end.

Definition provisioner_load_real_backend_lazily (endpoint api_key : string) : result exn unit := provisioner_load_real_backend endpoint api_key.

Definition new_azure_ai_search_provisioner (endpoint api_key : string) (o : options) (injected : bool) : result exn RetrySettings :=
  rbind (if injected then Ok tt else provisioner_load_real_backend_lazily endpoint api_key) (λ _, Ok (settings_of o)).

(** ** Table Storage: both stores create their table when they are constructed *)

Definition tables_EXTRA_NAME : string := "table_storage".

(** The statements the two copies of [_load_real_backend] share; the request is sent directly,
    outside [_with_retry]. *)
Definition open_table (missing : exn) (connection_string table_name : string) (st : table_service) : result exn unit * table_service :=
  match data_tables with
  | None => (Exc missing, st)
  | Some from_connection_string =>
    match from_connection_string connection_string with
    | Exc x => (Exc x, st)
    | Ok _ =>
      match create_table_if_not_exists table_name st with
      | (Exc x, st') => (Exc x, st')
      | (Ok _, st') => (from_connection_string connection_string, st')
      end
    end
  end.

Definition tables_missing (class_name : string) : string :=
  "azure-data-tables is not installed; install the 'table_storage' extra (pip install vestibule[" +:+ tables_EXTRA_NAME +:+ "]) to use " +:+ class_name.

Definition registry_load_real_backend : string → string → table_service → result exn unit * table_service :=
  open_table (ProvisioningError "" (tables_missing "TableStorageIndexRegistry") INDEX_PROVISIONER_DEPENDENCY_MISSING).
Definition registry_load_real_backend_lazily : string → string → table_service → result exn unit * table_service := registry_load_real_backend.

Definition scenario_load_real_backend : string → string → table_service → result exn unit * table_service :=
  open_table (ScenarioError "" (tables_missing "TableStorageScenarioStore") SCENARIO_STORE_DEPENDENCY_MISSING).
Definition scenario_load_real_backend_lazily : string → string → table_service → result exn unit * table_service := scenario_load_real_backend.

(** The constructors; the object is known by its settings. *)
Definition with_settings (o : options) (r : result exn unit * table_service) : result exn RetrySettings * table_service :=
  (rbind r.1 (λ _, Ok (settings_of o)), r.2).

Definition new_table_storage_index_registry (connection_string table_name : string) (o : options) (injected : bool) (st : table_service)
    : result exn RetrySettings * table_service :=
  with_settings o (if injected then (Ok tt, st) else registry_load_real_backend_lazily connection_string table_name st).

Definition new_table_storage_scenario_store (connection_string table_name : string) (o : options) (injected : bool) (st : table_service)
    : result exn RetrySettings * table_service :=
  with_settings o (if injected then (Ok tt, st) else scenario_load_real_backend_lazily connection_string table_name st).

(** ** The local model and the required packages *)

Definition new_fastembed_embedder (package : option EmbedderAdapters.TextEmbedding) (name_repr : string) (model : string) (cache_dir : option string)
    (load_timeout_seconds : pyfloat) (text_embedding : option (list string → result exn (list (list pyfloat))))
    : result exn (string * (list string → result exn (list (list pyfloat)))) :=
  rbind (match text_embedding with
         | Some impl => Ok impl
         | None => EmbedderAdapters._load_text_embedding package name_repr (seconds_repr load_timeout_seconds) model cache_dir
         end) (λ impl, Ok (model, impl)).

Definition new_azure_openai_embedder (endpoint api_key api_version model : string) (o : options) : result exn EmbedderAdapters.AzureOpenAIEmbedder :=
  rbind (azure_openai_client endpoint api_key api_version) (λ _,
  Ok (EmbedderAdapters.mkOpenAI model (max_attempts o) (wait_random_exponential (backoff_base_seconds o) (backoff_max_seconds o)))).

Definition new_document_intelligence_parser (endpoint api_key api_version model_id : string) : result exn string :=
  rbind (docint_client endpoint api_key api_version) (λ _, Ok model_id).

(** ** Properties *)

(** A permanent failure with the given code. *)
Definition fails_permanently {A} (r : result exn A) (code : string) : Prop :=
  ∃ x, r = Exc x ∧ exn_error_code x = Some code ∧ exn_severity x = Some Errors.PERMANENT.

(** What constructing an adapter for an optional package does. Without its package every one
    of the five fails at once with its permanent DEPENDENCY_MISSING code and without sending
    anything; with an injected backend it never fails; with the package, what the SDK raises is
    passed on unchanged. For the two table-backed stores that includes the answer of the service
    to the request that creates the table: it is sent once, without timeout or retry, and its
    failure is not one of the stores' declared errors. *)
Theorem construction_outcomes package name_repr endpoint api_key index_name m efc efs o load_timeout connection_string table_name st :
  (search_documents = None →
     fails_permanently (new_azure_ai_search_indexer endpoint api_key index_name m efc efs o false) INDEXER_DEPENDENCY_MISSING ∧
     fails_permanently (new_azure_ai_search_provisioner endpoint api_key o false) INDEX_PROVISIONER_DEPENDENCY_MISSING) ∧
  (data_tables = None →
     fails_permanently (new_table_storage_index_registry connection_string table_name o false st).1 INDEX_PROVISIONER_DEPENDENCY_MISSING ∧
     fails_permanently (new_table_storage_scenario_store connection_string table_name o false st).1 SCENARIO_STORE_DEPENDENCY_MISSING ∧
     (new_table_storage_index_registry connection_string table_name o false st).2 = st ∧
     (new_table_storage_scenario_store connection_string table_name o false st).2 = st) ∧
  (package = None → fails_permanently (new_fastembed_embedder package name_repr "m" None load_timeout None) EmbedderAdapters.EMBEDDER_DEPENDENCY_MISSING) ∧
  (∃ s, new_azure_ai_search_indexer endpoint api_key index_name m efc efs o true = Ok s ∧ AzureIndexer.az_settings s = settings_of o) ∧
  new_azure_ai_search_provisioner endpoint api_key o true = Ok (settings_of o) ∧
  new_table_storage_index_registry connection_string table_name o true st = (Ok (settings_of o), st) ∧
  new_table_storage_scenario_store connection_string table_name o true st = (Ok (settings_of o), st) ∧
  (∀ clients, search_documents = Some clients →
     (∀ x, new_azure_ai_search_indexer endpoint api_key index_name m efc efs o false = Exc x ↔ clients endpoint api_key = Exc x) ∧
     (∀ x, new_azure_ai_search_provisioner endpoint api_key o false = Exc x ↔ clients endpoint api_key = Exc x)) ∧
  (∀ connect st', data_tables = Some connect → connect connection_string = Ok tt →
     (create_table_if_not_exists table_name st = (Ok tt, st') →
        new_table_storage_index_registry connection_string table_name o false st = (Ok (settings_of o), st') ∧
        new_table_storage_scenario_store connection_string table_name o false st = (Ok (settings_of o), st')) ∧
     (∀ x, create_table_if_not_exists table_name st = (Exc x, st') →
        new_table_storage_index_registry connection_string table_name o false st = (Exc x, st') ∧
        new_table_storage_scenario_store connection_string table_name o false st = (Exc x, st'))).
Proof.
  unfold fails_permanently, new_azure_ai_search_indexer, new_azure_ai_search_provisioner, new_table_storage_index_registry, new_table_storage_scenario_store,
    indexer_load_real_backend_lazily, indexer_load_real_backend, provisioner_load_real_backend_lazily, provisioner_load_real_backend,
    registry_load_real_backend_lazily, registry_load_real_backend, scenario_load_real_backend_lazily, scenario_load_real_backend, open_table, with_settings.
  split_and!.
  - intros ->. split; eexists; by split_and!.
  - intros ->. split_and!; [eexists; by split_and!..|done|done].
  - intros ->. eexists. by split_and!.
  - by eexists.
  - done.
  - done.
  - done.
  - intros clients ->. destruct (clients endpoint api_key); simpl; naive_solver.
  - intros connect st' -> Hc. rewrite Hc. split; [by intros ->|]. intros x ->. done.
Qed.
End constructors.

(** The service answers 503 to the request that creates the table. *)
Definition example_packages : Packages := {|
  search_documents := None;
  data_tables := Some (λ _, Ok tt);
  table_service := unit;
  create_table_if_not_exists _ st := (Exc (HttpResponseError (Some 503) None "busy"), st);
  azure_openai_client _ _ _ := Ok tt;
  docint_client _ _ _ := Ok tt;
  wait_random_exponential _ _ _ _ := f_of_Z 0;
  seconds_repr _ := "30.0";
|}.

Lemma construction_outcomes_witness :
  fails_permanently (new_azure_ai_search_indexer (packages := example_packages) "e" "k" "i" 4 400 500 default_options false) INDEXER_DEPENDENCY_MISSING ∧
  new_table_storage_scenario_store (packages := example_packages) "c" "t" default_options false tt = (Exc (HttpResponseError (Some 503) None "busy"), tt).
Proof.
  destruct (construction_outcomes (packages := example_packages) None "'m'" "e" "k" "i" 4 400 500 default_options (f_of_Z 120) "c" "t" tt)
    as (H1 & _ & _ & _ & _ & _ & _ & _ & H2).
  split; [apply (H1 eq_refl)|]. destruct (H2 (λ _, Ok tt) tt eq_refl eq_refl) as [_ H]. apply (H _ eq_refl).
Defined.
End Construction.
