(* ===== verification/ScenarioBackend.v ===== *)
(** * The scenario store's own table backend (src/vestibule/scenario/stores/_azure_table_backend.py)

    The scenario store has a copy of the registry's backend. [TableScenarios] is stated over the
    registry's ([Tables.serve]); here the copy is translated on its own, statement by statement,
    and shown to answer every request the same way, so that what is proved of the store holds
    with its own backend. *)
From S2P Require Import Prelude PyDict Types Prog Net Tables.
#[local] Open Scope Z_scope.

Module ScenarioBackend.

Section backend.
Context {client : TableClient}.

(** [_to_record]: the metadata's ETag is the entity's; the four reserved keys are not data. *)
Definition _to_record (entity : TableEntity) : _TableEntityRecord :=
  let etag := te_etag entity in
  let data := foldr (λ kv data,
    if bool_decide (kv.1 = "PartitionKey") || bool_decide (kv.1 = "RowKey") || bool_decide (kv.1 = "Timestamp") || bool_decide (kv.1 = "etag")
    then data else kv :: data) [] (te_props entity) in
  mkRec (prop_str "PartitionKey" (te_props entity)) (prop_str "RowKey" (te_props entity)) data etag.

(** [ResourceNotFoundError] is the SDK's exception for status 404. *)
Definition resource_not_found (x : exn) : bool :=
  match x with HttpResponseError (Some status) _ _ => bool_decide (status = 404) | _ => false end.

Definition get_entity (partition_key row_key : string) (st : tc_state) : result exn (option _TableEntityRecord) :=
  match tc_get_entity partition_key row_key st with
  | Exc x => if resource_not_found x then Ok None else Exc x
  | Ok entity => Ok (Some (_to_record entity))
  end.

Definition query (partition_key row_key : option string) (st : tc_state) : list _TableEntityRecord :=
  let clauses := [] in
  let parameters := [] in
  let '(clauses, parameters) :=
    match partition_key with
    | Some pk => (clauses ++ ["PartitionKey eq @pk"], dict_set "pk" pk parameters)
    | None => (clauses, parameters)
    end in
  let '(clauses, parameters) :=
    match row_key with
    | Some rk => (clauses ++ ["RowKey eq @rk"], dict_set "rk" rk parameters)
    | None => (clauses, parameters)
    end in
  let entities :=
    if decide (clauses = []) then tc_list_entities st else tc_query_entities (py_join " and " clauses) parameters st in
  map _to_record entities.

Definition upsert_entity (partition_key row_key : string) (data : props) (etag : option string) (st : tc_state) : result exn string * tc_state :=
  let entity := fold_left (λ d kv, dict_set kv.1 kv.2 d) data (dict_set "RowKey" (TStr row_key) (dict_set "PartitionKey" (TStr partition_key) [])) in
  match etag with
  | None => tc_create_entity entity st
  | Some etag => tc_update_entity entity etag st
  end.

Definition delete_entity (partition_key row_key : string) (st : tc_state) : result exn unit * tc_state :=
  (Ok tt, tc_delete_entity partition_key row_key st).

Definition serve (X : Type) (q : tableQ X) (st : tc_state) : result exn X * tc_state :=
  match q in tableQ X return result exn X * tc_state with
  | Tables.get_entity pk rk => (get_entity pk rk st, st)
  | Tables.query pk rk => (Ok (query pk rk st), st)
  | Tables.upsert_entity pk rk data etag => upsert_entity pk rk data etag st
  | Tables.delete_entity pk rk => delete_entity pk rk st
  end.

Lemma to_record_agrees entity : _to_record entity = Tables._to_record entity.
Proof.
  unfold _to_record, Tables._to_record. f_equal. induction (te_props entity) as [|[k v] l IH]; [done|]. simpl. rewrite IH.
  destruct (decide (k ∈ reserved)) as [Hk|Hk].
  - rewrite (bool_decide_eq_false_2 (k ∉ reserved)) by tauto. unfold reserved in Hk.
    repeat (apply elem_of_cons in Hk as [->|Hk]; [by simpl|]). by apply elem_of_nil in Hk.
  - rewrite (bool_decide_eq_true_2 (k ∉ reserved)) by done. unfold reserved in Hk. rewrite !not_elem_of_cons in Hk.
    destruct Hk as (H1 & H2 & H3 & H4 & _). by rewrite !bool_decide_eq_false_2.
Qed.

Lemma query_agrees pk rk st : query pk rk st = real_query pk rk st.
Proof.
  unfold query, real_query. destruct pk as [p|], rk as [r|]; cbn [query_filter app fmap list_fmap fst snd]; apply map_ext, to_record_agrees.
Qed.

(** The scenario store's backend answers every request exactly as the registry's, and leaves the
    table in the same state. *)
Theorem backend_copies_agree X (q : tableQ X) st : serve X q st = Tables.serve X q st.
Proof.
  destruct q as [pk rk|pk rk|pk rk data etag|pk rk]; simpl; [|by rewrite query_agrees|done|done]. f_equal.
  unfold get_entity, real_get_entity. destruct (tc_get_entity pk rk st) as [e|x]; [by rewrite to_record_agrees|].
  by destruct x as [| | | | | | | | | | |[s|] ra m| |].
Qed.
End backend.
End ScenarioBackend.
