(* ===== verification/ProvisionerClaims.v ===== *)
(** * Who may create an index

    The purpose of the registry's claims: an index is only created by a worker that has won the
    claim for it, at most once per claim won, and with the schema the claim records. [spends]
    follows the claims a program holds along every path, whatever answers it gets; the log of a
    run ([lhandle]) collects the claims won and the creations of all workers. *)
From S2P Require Import Prelude PyDict Types Prog Rely Registry Templates Provisioner ProvisionerSafety InMemoryProvisioner.
#[local] Open Scope Z_scope.
#[local] Open Scope py_scope.

Module ProvisionerClaims.
Import Registry Templates Provisioner ProvisionerSafety.

#[local] Arguments pbind : simpl never.
#[local] Arguments attempt : simpl never.
#[local] Arguments call : simpl never.
#[local] Arguments perform : simpl never.

(** What a creation needs: the name and the schema of the index. *)
Notation schema := (string * option IndexTemplate * Z * string)%type.

Definition claim_of (e : IndexRegistryEntry) : schema := (en_index_name e, en_resolved_template e, en_dimensions e, en_metric e).

(** The claim an answer of the registry means, if any: [register] returned an entry with the
    token the worker proposed, or [reclaim] succeeded. *)
Definition wins {X} (e : provE X) (r : X) : option schema :=
  match e in provE X return X → option schema with
  | RRegister candidate => λ r,
    match r with
    | Ok x => if decide (en_claim_token x = en_claim_token candidate) then Some (claim_of x) else None
    | Exc _ => None
    end
  | RReclaim _ _ _ => λ r, match r with Ok x => Some (claim_of x) | Exc _ => None end
  | _ => λ _, None
  end r.

Definition creates {X} (e : provE X) : option schema :=
  match e with ACreate n t d m => Some (n, Some t, d, m) | _ => None end.

(** Along every path: a creation spends the claim won last, and a program that returns [a] with
    the unspent claims [held] satisfies [Φ a held]. *)
Fixpoint spends {A} (Φ : A → list schema → Prop) (held : list schema) (p : prog provE A) : Prop :=
  match p with
  | Ret a => Φ a held
  | Raise _ => True
  | Vis e k =>
    match creates e with
    | Some c => match held with c' :: held' => c' = c ∧ ∀ r, spends Φ held' (k r) | [] => False end
    | None => ∀ r, spends Φ (option_list (wins e r) ++ held) (k r)
    end
  end.

Lemma spends_bind {A B} (Φ : A → list schema → Prop) (Ψ : B → list schema → Prop) held p (f : A → prog provE B) :
  spends Φ held p → (∀ a h, Φ a h → spends Ψ h (f a)) → spends Ψ held (pbind p f).
Proof.
  revert held. induction p as [a|x|X e k IH]; intros held Hp Hf; [by apply Hf|done|].
  change (pbind (Vis e k) f) with (Vis e (λ r, pbind (k r) f)). cbn [spends] in *. destruct (creates e) as [c|].
  - destruct held as [|c' held]; [done|]. destruct Hp as [-> Hp]. split; [done|]. intros r. by apply IH.
  - intros r. by apply IH.
Qed.

Lemma spends_attempt {A} (Φ : A → list schema → Prop) (Ψ : result exn A → list schema → Prop) held p :
  spends Φ held p → (∀ a h, Φ a h → Ψ (Ok a) h) → (∀ x h, Ψ (Exc x) h) → spends Ψ held (attempt p).
Proof.
  intros Hp Hok Hexc. revert held Hp. induction p as [a|x|X e k IH]; intros held Hp; [by apply Hok|by apply Hexc|].
  change (attempt (Vis e k)) with (Vis e (λ r, attempt (k r))). cbn [spends] in *. destruct (creates e) as [c|].
  - destruct held as [|c' held]; [done|]. destruct Hp as [-> Hp]. split; [done|]. intros r. by apply IH.
  - intros r. by apply IH.
Qed.

(** Any outcome, with any claims. *)
Notation anything := (λ _ _, True).

Lemma spends_lift {A} (Φ : A → list schema → Prop) held r : (∀ a, r = Ok a → Φ a held) → spends Φ held (lift r).
Proof. destruct r as [a|x]; simpl; [auto|done]. Qed.

Lemma spends_call {A} (Φ : A → list schema → Prop) held (e : provE (result exn A)) :
  creates e = None → (∀ a, Φ a (option_list (wins e (Ok a)) ++ held)) → spends Φ held (call e).
Proof. intros He Ha. unfold call. cbn [spends]. rewrite He. intros [a|x]; simpl; [apply Ha|done]. Qed.

Lemma spends_perform {A} (Φ : A → list schema → Prop) held (e : provE A) :
  creates e = None → (∀ a, Φ a (option_list (wins e a) ++ held)) → spends Φ held (perform e).
Proof. intros He Ha. unfold perform. cbn [spends]. rewrite He. exact Ha. Qed.

Section methods.
Context {env : ProvisionerEnv} (config : ProvisioningConfig) (templates : list (string * IndexTemplate)) (scenario : Scenario).

(** What a tail call needs: to create, the claim on its entry. *)
Definition ready_for (n : next) (held : list schema) : Prop :=
  match n with ClaimAndCreate e => ∃ h, held = claim_of e :: h | _ => True end.

(** Steps over the binds of a method that makes no creation and wins nothing. *)
Ltac walk :=
  repeat first
    [ progress cbn [spends]
    | done
    | eapply (spends_bind anything); [apply spends_lift; done|intros ? ? _]
    | eapply (spends_bind anything); [apply spends_perform; [reflexivity|done]|intros ? ? _]
    | eapply (spends_bind anything); [apply spends_call; [reflexivity|done]|intros ? ? _]
    | eapply (spends_bind anything); [eapply (spends_attempt anything); [apply spends_call; [reflexivity|done]|done..]|intros ? ? _]
    | case_decide | case_bool_decide | case_match ].

Lemma call_adapter_spends {A} n (fn : provE (result exn A)) held : creates fn = None → spends anything held (_call_adapter n fn).
Proof.
  intros Hc. unfold _call_adapter. eapply (spends_bind anything); [|intros [a|x] h _; [done|by destruct x]].
  eapply (spends_attempt anything); [by apply spends_call|done..].
Qed.

Lemma verify_spends e held : spends ready_for held (_verify config templates scenario e).
Proof.
  unfold _verify. eapply (spends_bind anything); [by apply spends_lift|]. intros [[t d] m] h _.
  eapply (spends_bind anything); [by apply call_adapter_spends|]. intros o h' _. walk.
Qed.

Lemma dispatch_spends e held : spends ready_for held (_dispatch_existing config templates scenario e).
Proof.
  unfold _dispatch_existing, _handle_ready. destruct (en_status e); try done.
  destruct (en_last_verified_at e); [|apply verify_spends].
  eapply (spends_bind anything); [by apply spends_perform|]. intros now h _. destruct (_elapsed _ _ _); [apply verify_spends|done].
Qed.

Lemma claim_new_spends held : spends ready_for held (_claim_new config templates scenario).
Proof.
  unfold _claim_new. destruct (negb _); [done|]. eapply (spends_bind anything); [by apply spends_lift|]. intros [[t d] m] h _.
  eapply (spends_bind anything); [by apply spends_perform|]. intros now h1 _.
  eapply (spends_bind anything); [by apply spends_perform|]. intros token h2 _. cbv zeta. set (cand := mkEntry _ _ _ _ _ _ _ _ _ _ _ _ _ _ _ _).
  eapply (spends_bind (λ won h, en_claim_token won = en_claim_token cand → ∃ h', h = claim_of won :: h')).
  - apply spends_call; [done|]. intros won Hw. cbn [wins]. rewrite decide_True by done. by eexists.
  - intros won h3 Hw. case_decide; [by apply Hw|done].
Qed.

Lemma finalize_spends e held : spends ready_for held (_finalize_ready e).
Proof. unfold _finalize_ready. walk. Qed.

Lemma absorb_spends fn held : creates fn = None → spends anything held (_absorb_conflict fn).
Proof.
  intros Hc. unfold _absorb_conflict. eapply (spends_bind anything); [eapply (spends_attempt anything); [by apply spends_call|done..]|].
  intros [a|x] h _; [done|]. by destruct (conflict x).
Qed.

Lemma create_spends e held : spends anything (claim_of e :: held) (_create_if_missing e).
Proof.
  unfold _create_if_missing. cbv zeta. eapply (spends_bind (λ _ h, h = claim_of e :: held)).
  - unfold _call_adapter. eapply (spends_bind (λ _ h, h = claim_of e :: held)); [|intros [a|x] h ->; [done|by destruct x]].
    unfold call. cbn [attempt]. change (attempt (Vis ?e ?k)) with (Vis e (λ r, attempt (k r))). cbn [spends creates wins option_list app].
    by intros [].
  - intros b h ->. destruct b; [done|]. destruct (en_resolved_template e) as [t|] eqn:Ht; [|done].
    eapply (spends_bind anything).
    + eapply (spends_attempt anything); [|done..]. unfold _call_adapter. eapply (spends_bind anything); [|intros [a|x] h _; [done|by destruct x]].
      unfold call. change (attempt (Vis ?e ?k)) with (Vis e (λ r, attempt (k r))). cbn [spends creates]. unfold claim_of. rewrite Ht.
      split; [done|]. by intros [].
    + intros [a|x] h _; [done|]. eapply (spends_bind anything); [by apply absorb_spends|]. done.
Qed.

Lemma claim_and_create_spends e held : spends ready_for (claim_of e :: held) (_claim_and_create e).
Proof.
  unfold _claim_and_create. cbv zeta. eapply (spends_bind anything); [apply create_spends|]. intros _ h _.
  eapply (spends_bind anything); [by apply call_adapter_spends|]. intros o h' _. case_decide; [apply finalize_spends|].
  eapply (spends_bind anything); [by apply absorb_spends|]. done.
Qed.

Lemma try_reclaim_spends e held : spends (λ o h, ∀ x, o = Some x → ∃ h', h = claim_of x :: h') held (_try_reclaim e).
Proof.
  unfold _try_reclaim. eapply (spends_bind anything); [by apply spends_perform|]. intros token h1 _.
  eapply (spends_bind anything); [by apply spends_perform|]. intros now h2 _.
  eapply (spends_bind (λ r h, ∀ x, r = Ok x → ∃ h', h = claim_of x :: h')).
  - eapply (spends_attempt (λ x h, ∃ h', h = claim_of x :: h')); [apply spends_call; [done|]|by intros ??? ? [= <-]|done].
    intros x. cbn [wins]. by eexists.
  - intros [x|x] h3 Hx; [by intros ? [= <-]; apply Hx|]. by destruct (conflict x).
Qed.

Lemma poll_spends n deadline e held : spends ready_for held (_poll config n deadline e).
Proof.
  unfold _poll. eapply (spends_bind anything).
  { unfold _is_stale. destruct (en_claimed_at e); [|done]. eapply (spends_bind anything); [by apply spends_perform|]. done. }
  intros stale h _. eapply (spends_bind (λ o h, ∀ x, o = Some x → ∃ h', h = claim_of x :: h')).
  { destruct stale; [apply try_reclaim_spends|done]. }
  intros [x|] h' Hx; [by apply Hx|]. walk.
Qed.

Lemma step_spends n held : ready_for n held → spends ready_for held (step config templates scenario n).
Proof.
  destruct n as [e| |e|e|e|n d e]; cbn [step]; intros Hn.
  - done.
  - apply claim_new_spends.
  - unfold _after_losing_claim. by destruct (en_status e).
  - destruct Hn as [h ->]. apply claim_and_create_spends.
  - unfold _wait_for_ready. walk.
  - apply poll_spends.
Qed.

Lemma resume_spends fuel n held : ready_for n held → spends anything held (resume config templates scenario fuel n).
Proof.
  revert n held. induction fuel as [|fuel IH]; intros n held Hn; [by destruct n|].
  assert (H : spends anything held (pbind (step config templates scenario n) (resume config templates scenario fuel))).
  { eapply spends_bind; [by apply step_spends|]. intros n' h Hn'. by apply IH. }
  by destruct n.
Qed.

(** [ensure] only creates an index whose claim it has won. *)
Lemma ensure_spends fuel : spends anything [] (ensure config templates scenario fuel).
Proof.
  unfold ensure. eapply (spends_bind (λ _ h, h = [])); [by apply spends_call|]. intros [e|] h ->; [|by apply resume_spends].
  eapply spends_bind; [apply dispatch_spends|]. intros n h' Hn. by apply resume_spends.
Qed.
End methods.

(** ** Any number of workers *)
Section pool.
Context {env : ProvisionerEnv}.

(** The shared objects with the claims won and the creations sent so far. *)
Definition logged : Type := pworld * (list schema * list schema).

Definition lhandle (X : Type) (e : provE X) (s : logged) : X * logged :=
  let '(w, (won, made)) := s in
  ((phandle X e w).1, ((phandle X e w).2, (option_list (wins e (phandle X e w).1) ++ won, option_list (creates e) ++ made))).

(** The claims each worker still holds account for the claims won and not spent. *)
Definition accounted (c : list (prog provE (option IndexRegistryEntry)) * logged) : Prop :=
  ∃ helds, Forall2 (spends anything) helds c.1 ∧ c.2.2.2 ++ mjoin helds ⊆+ c.2.2.1.

Lemma step_accounted c c' : sched_step lhandle c c' → accounted c → accounted c'.
Proof.
  intros [pool [w [won made]] i X e k Hi] (helds & Hall & Hsub). cbn [fst snd] in *.
  destruct (Forall2_lookup_r _ _ _ _ _ Hall Hi) as (held & Hheld & Hp).
  destruct (list_elem_of_split_length _ _ _ Hheld) as (h1 & h2 & -> & ->). cbn [lhandle fst snd] in *.
  set (r := (phandle X e w).1) in *. cbn [spends] in Hp.
  assert (∃ held', spends anything held' (k r) ∧ option_list (creates e) ++ held' ≡ₚ option_list (wins e r) ++ held)
    as (held' & Hk & Hperm).
  { destruct (creates e) as [s|] eqn:Hc; [|by eexists]. destruct held as [|s' held]; [done|]. destruct Hp as [-> Hp].
    exists held. split; [apply Hp|]. by destruct e. }
  exists (h1 ++ held' :: h2). split.
  - replace (h1 ++ held' :: h2) with (<[length h1 := held']> (h1 ++ held :: h2)) by (by rewrite insert_app_r_alt, Nat.sub_diag).
    by apply Forall2_insert.
  - cbn [fst snd] in *. rewrite !join_app in *. cbn [mjoin list_join] in *.
    transitivity (option_list (wins e r) ++ (made ++ mjoin h1 ++ held ++ mjoin h2)); [|by apply submseteq_skips_l].
    apply Permutation_submseteq. trans ((option_list (creates e) ++ held') ++ made ++ mjoin h1 ++ mjoin h2); [solve_Permutation|].
    rewrite Hperm. solve_Permutation.
Qed.

Lemma steps_accounted c c' : rtc (sched_step lhandle) c c' → accounted c → accounted c'.
Proof. induction 1; eauto using step_accounted. Qed.

Lemma step_erased (c c' : list (prog provE (option IndexRegistryEntry)) * logged) :
  sched_step lhandle c c' → sched_step phandle (c.1, c.2.1) (c'.1, c'.2.1).
Proof. intros [pool [w [won made]] i X e k Hi]. by apply (sched_call phandle pool w i X e k). Qed.

(** C7: however the calls of concurrent [ensure]s interleave, and whatever the registry, the
    vector store, the clock and the token generator answer: the creations sent to the vector
    store so far are, with multiplicity, among the claims won so far. So an index is only created
    by a worker whose [register] or [reclaim] has won it, at most once per claim, and with the
    template, dimensions and metric the winning entry records. The run with the log is a run of
    the same workers without it. *)
Theorem creations_spend_claims workers (w w' : pworld) won made pool' :
  rtc (sched_step lhandle) (map worker_prog workers, (w, ([], []))) (pool', (w', (won, made))) →
  made ⊆+ won ∧ rtc (sched_step phandle) (map worker_prog workers, w) (pool', w').
Proof.
  intros Hsteps. split.
  - assert (Hacc : accounted (pool', (w', (won, made)))).
    { apply (steps_accounted _ _ Hsteps). exists (replicate (length workers) []). split.
      - clear. induction workers as [|k workers IH]; [constructor|]. constructor; [apply ensure_spends|exact IH].
      - cbn [fst snd]. clear. induction workers; done. }
    destruct Hacc as (helds & _ & Hsub). cbn [fst snd] in Hsub. etrans; [|exact Hsub]. apply submseteq_inserts_r. done.
  - exact (rtc_congruence (λ c, (c.1, c.2.1)) _ _ _ step_erased Hsteps).
Qed.
End pool.

(** Two workers on the in-memory stores: one claim, one creation. *)
Definition claims_run : list (prog provE (option IndexRegistryEntry)) * @logged InMemoryProvisioner.demo_env :=
  sched_exec (@lhandle InMemoryProvisioner.demo_env) InMemoryProvisioner.demo_schedule
    (InMemoryProvisioner.demo_pool, (InMemoryProvisioner.demo_world [] 0, ([], []))).

Lemma creations_spend_claims_witness :
  claims_run.2.2 = ([("hr-index", Some standard_v1, 384, "cosine")], [("hr-index", Some standard_v1, 384, "cosine")]) ∧
  claims_run.2.2.2 ⊆+ claims_run.2.2.1.
Proof.
  split; [by vm_compute|].
  assert (Hrun : rtc (sched_step (@lhandle InMemoryProvisioner.demo_env))
    (InMemoryProvisioner.demo_pool, (InMemoryProvisioner.demo_world [] 0, ([], []))) claims_run) by apply sched_exec_rtc.
  destruct claims_run as [pool' [w' [won made]]].
  exact (proj1 (creations_spend_claims (env := InMemoryProvisioner.demo_env)
    [InMemoryProvisioner.demo_worker 20; InMemoryProvisioner.demo_worker 20] _ _ _ _ _ Hrun)).
Defined.
End ProvisionerClaims.
