(* ===== verification/Routing.v ===== *)
(** * Routing documents over the YAML scenario store

    The vertical loader (src/vestibule/vertical/loader.py) composed with the store of a directory
    of scenario files (src/vestibule/scenario/stores/yaml_store.py): what its constructor accepts,
    and where [load] then sends every document. *)
From S2P Require Import Prelude PyDict Types Ledger Prog System Templates Scenarios ScenarioStores Vertical.
#[local] Open Scope Z_scope.
#[local] Open Scope py_scope.

Module Routing.
Import Ledger Templates Scenarios ScenarioStores Vertical.

#[local] Arguments pbind : simpl never.
#[local] Arguments call : simpl never.

(** [VerticalLoader.__init__]: the loader is its configuration, once the mappings are checked. *)
Definition new_vertical_loader {env : Env} (config : VerticalLoaderConfig) : component VerticalLoaderConfig :=
  pbind (_validate_mappings (source_mappings config)) (λ _, Ret config).

(** ** The store behind the loader *)

(** The environment with a YAML store as its scenario store. *)
Definition over_yaml (base : Env) : Env := {|
  clock := @clock base; str_repr := @str_repr base; meta_repr := @meta_repr base;
  index_state := @index_state base; ix_upsert := @ix_upsert base; ix_delete_by_doc_id := @ix_delete_by_doc_id base;
  ix_get_doc_version := @ix_get_doc_version base; ix_index_name := @ix_index_name base; ix_max_batch_size := @ix_max_batch_size base;
  embed_state := @embed_state base; ea_embed_batch := @ea_embed_batch base; ea_model_name := @ea_model_name base;
  ea_max_batch_size := @ea_max_batch_size base; ea_max_input_tokens := @ea_max_input_tokens base;
  ea_supports_mrl := @ea_supports_mrl base; ea_document_prefix := @ea_document_prefix base;
  scenario_state := scenarios;
  ss_get i st := (Ok (yaml_get i st), st);
  ss_get_by_vertical v st := (Ok (yaml_get_by_vertical v st), st);
|}.

(** Every scenario is stored under its own id. *)
Definition keyed (st : scenarios) : Prop := dict_wf st ∧ Forall (λ ks, sc_scenario_id ks.2 = ks.1) st.

Lemma keyed_set s st : keyed st → keyed (dict_set (sc_scenario_id s) s st).
Proof.
  intros [Hwf Hall]. split; [by apply dict_set_wf|]. clear Hwf. induction Hall as [|[k s'] st Hk Hall IH]; cbn [dict_set]; [by repeat constructor|].
  by case_decide as Hd; constructor.
Qed.

Lemma load_all_keyed {raw : Type} repr (safe_load : string → yaml_doc raw) raw_id parse verr files loaded st :
  load_all repr safe_load raw_id parse verr loaded files = Ok st → keyed loaded → keyed st.
Proof.
  revert loaded. induction files as [|f files IH]; intros loaded; cbn [load_all]; [by intros [= <-]|].
  intros (s & _ & Hl)%rbind_ok Hk. by eapply IH, keyed_set.
Qed.

(** The enabled scenario of a vertical is found again under its id. *)
Lemma by_vertical_get st v sc :
  keyed st → yaml_get_by_vertical v st = Some sc →
  sc_vertical sc = v ∧ sc_enabled sc = true ∧ yaml_get (sc_scenario_id sc) st = Some sc.
Proof.
  intros [Hwf Hall]. unfold yaml_get_by_vertical. set (cs := List.filter _ _). pose proof (select_spec v cs) as H. intros Hsel.
  rewrite Hsel in H. destruct H as [Hin _]. unfold cs in Hin. rewrite list_elem_of_In, filter_In, <- list_elem_of_In, andb_true_iff, bool_decide_eq_true in Hin.
  destruct Hin as (Hin & Hv & He). split_and!; [done..|]. apply list_elem_of_fmap in Hin as ([k s] & -> & Hks). unfold yaml_get.
  apply dict_elem_get; [done|]. rewrite Forall_forall in Hall. pose proof (Hall _ Hks) as Hk. simpl in *. by subst k.
Qed.

Lemma by_vertical_None st v :
  yaml_get_by_vertical v st = None → ∀ s, s ∈ dict_values st → sc_vertical s = v → sc_enabled s = false.
Proof.
  unfold yaml_get_by_vertical. set (cs := List.filter _ _). pose proof (select_spec v cs) as H. intros Hsel s Hs Hv. rewrite Hsel in H.
  destruct (sc_enabled s) eqn:He; [|done]. assert (Hin : s ∈ cs); [|rewrite H in Hin; by apply elem_of_nil in Hin].
  unfold cs. rewrite list_elem_of_In, filter_In, <- list_elem_of_In, andb_true_iff, bool_decide_eq_true. done.
Qed.

(** ** Routing *)
Section routing.
Context (base : Env).
Notation env := (over_yaml base).

(** The scenario a signal leads to. *)
Definition route (g : signal) (st : scenarios) : option Scenario :=
  match g with
  | SigAssigned i | SigScenario i => yaml_get i st
  | SigVertical v => yaml_get_by_vertical v st
  | SigRule r => yaml_get_by_vertical (sm_vertical r) st
  | SigNone => None
  end.

Lemma same_scenarios (w : @world env) : @set_scenarios env (@w_scenarios env w) w = w.
Proof. by destruct w. Qed.

Lemma route_get st g sc : keyed st → route g st = Some sc → yaml_get (sc_scenario_id sc) st = Some sc.
Proof.
  intros Hk. destruct g as [i|i|v|r|]; simpl; [| |by intros (_ & _ & ?)%by_vertical_get|by intros (_ & _ & ?)%by_vertical_get|done].
  all: intros Hi; assert (sc_scenario_id sc = i) as ->; [|done].
  all: destruct Hk as [_ Hall]; rewrite Forall_forall in Hall; by apply dict_get_elem, Hall in Hi.
Qed.

(** What [load] does with a document that carries any signal. *)
Lemma load_routes config envelope (w : @world env) :
  let g := first_signal (Ledger.get (env_doc_id envelope) (@w_ledger env w)) config envelope in
  keyed (@w_scenarios env w) → g ≠ SigNone →
  match route g (@w_scenarios env w) with
  | Some sc => ∃ r, run (@handle env) (@load env config envelope) w = (Ok (sc, r), w) ∧ vr_source r = signal_source g
  | None => ∃ reason, run (@handle env) (@load env config envelope) w = (Exc (ScenarioError (signal_key g) reason SCENARIO_NOT_FOUND), w)
  end.
Proof.
  intros g Hk Hg. pose proof (@resolve_run env config envelope w) as H. fold g in H. cbv zeta in H.
  assert (Hl : @signal_lookup env g (@w_scenarios env w) = (Ok (route g (@w_scenarios env w)), @w_scenarios env w)) by (by destruct g).
  rewrite Hl in H. cbn [fst snd] in H. rewrite same_scenarios in H. destruct (route g _) as [sc|] eqn:Hr.
  - assert (∃ c reason, run (@handle env) (@resolve env config envelope) w = (Ok (resolved sc (signal_source g) c reason), w))
      as (c & reason & Hres) by (by destruct g).
    exists (resolved sc (signal_source g) c reason). split; [|done]. unfold load. rewrite run_bind, Hres. cbn [vr_scenario_id resolved].
    rewrite run_bind, run_call. cbn [handle ss_get over_yaml]. rewrite (route_get _ _ _ Hk Hr), same_scenarios. done.
  - assert (∃ reason, run (@handle env) (@resolve env config envelope) w = (Exc (ScenarioError (signal_key g) reason SCENARIO_NOT_FOUND), w))
      as (reason & Hres) by (by destruct g).
    exists reason. unfold load. by rewrite run_bind, Hres.
Qed.

Lemma validate_run rules (w : @world env) :
  match run (@handle env) (@_validate_mappings env rules) w with
  | (Ok _, w') => w' = w ∧ Forall (λ r, is_Some (yaml_get_by_vertical (sm_vertical r) (@w_scenarios env w))) rules
  | (Exc x, w') => w' = w ∧ exn_error_code x = Some VERTICAL_MAPPING_INVALID ∧
      Exists (λ r, yaml_get_by_vertical (sm_vertical r) (@w_scenarios env w) = None) rules
  end.
Proof.
  induction rules as [|r rules IH]; [by split|]. cbn [_validate_mappings]. rewrite run_bind, run_call.
  cbn [handle ss_get_by_vertical over_yaml]. rewrite same_scenarios. destruct (yaml_get_by_vertical _ _) as [s|] eqn:Hs; cbn [run].
  - destruct (run _ _ w) as [[u|x] w'].
    + destruct IH as [-> ?]. split; [done|]. constructor; [by rewrite Hs|done].
    + destruct IH as (-> & ? & ?). split_and!; [done..|]. by constructor 2.
  - split_and!; [done..|]. by constructor 1.
Qed.

Lemma selected_rule_in source rules r : _select_source_rule source rules = Some r → r ∈ rules.
Proof.
  intros Hs. destruct (source_rule_selection source rules) as [H _]. rewrite Hs in H. destruct H as (pre & post & -> & _). set_solver.
Qed.

(** C37: routing over a directory of scenario files. Constructing the loader changes nothing, and
    raises VERTICAL_MAPPING_INVALID exactly when some mapping names a vertical without an enabled
    scenario. A constructed loader then sends every document with a signal to the scenario its
    first signal leads to, and leaves the system as it was; it fails only with SCENARIO_NOT_FOUND,
    for a signal that names nothing, and never for a source mapping: a mapped document always gets
    an enabled scenario of the vertical its rule names. *)
Theorem loader_routes {raw : Type} repr (safe_load : string → yaml_doc raw) raw_id parse verr files config (w : @world env) :
  YamlScenarioStore repr safe_load raw_id parse verr files = Ok (@w_scenarios env w) →
  match run (@handle env) (@new_vertical_loader env config) w with
  | (Exc x, w') => w' = w ∧ exn_error_code x = Some VERTICAL_MAPPING_INVALID ∧
      ∃ r, r ∈ source_mappings config ∧ ∀ s, s ∈ dict_values (@w_scenarios env w) → sc_vertical s = sm_vertical r → sc_enabled s = false
  | (Ok loader, w') => w' = w ∧ loader = config ∧
      (∀ r, r ∈ source_mappings config → ∃ s, s ∈ dict_values (@w_scenarios env w) ∧ sc_vertical s = sm_vertical r ∧ sc_enabled s = true) ∧
      ∀ envelope (w1 : @world env), @w_scenarios env w1 = @w_scenarios env w →
      let g := first_signal (Ledger.get (env_doc_id envelope) (@w_ledger env w1)) loader envelope in
      match g, route g (@w_scenarios env w1) with
      | SigNone, _ => run (@handle env) (@resolve env loader envelope) w1 = (Ok (@_unresolved_resolution env (env_source envelope)), w1)
      | _, Some sc => ∃ r, run (@handle env) (@load env loader envelope) w1 = (Ok (sc, r), w1) ∧ vr_source r = signal_source g ∧
          match g with SigRule rule => sc_vertical sc = sm_vertical rule ∧ sc_enabled sc = true | _ => True end
      | _, None => (∃ reason, run (@handle env) (@load env loader envelope) w1 = (Exc (ScenarioError (signal_key g) reason SCENARIO_NOT_FOUND), w1)) ∧
          match g with SigRule _ => False | _ => True end
      end
  end.
Proof.
  intros Hst. assert (Hk : keyed (@w_scenarios env w)) by (eapply load_all_keyed; [exact Hst|by split; [apply dict_wf_nil|constructor]]).
  unfold new_vertical_loader. rewrite run_bind. pose proof (validate_run (source_mappings config) w) as Hv.
  destruct (run _ (_validate_mappings _) w) as [[u|x] w']; cbn [run].
  - destruct Hv as [-> Hall]. split_and!; [done..| |].
    { intros r Hr. rewrite Forall_forall in Hall. destruct (Hall r Hr) as [sc Hsc]. apply by_vertical_get in Hsc as (? & ? & Hget); [|done].
      exists sc. split_and!; [|done..]. by eapply dict_get_value. }
    intros envelope w1 Hw1. set (g := first_signal _ config envelope). pose proof (load_routes config envelope w1) as Hload.
    fold g in Hload. cbv zeta in Hload. rewrite Hw1 in *. specialize (Hload Hk). destruct g as [i|i|v|r|] eqn:Hg.
    5:{ pose proof (@resolve_run env config envelope w1) as H. unfold g in Hg. rewrite Hg in H. exact H. }
    1-3: specialize (Hload ltac:(done)); destruct (route _ _) as [sc|]; [destruct Hload as (rs & ? & ?); by exists rs|done].
    specialize (Hload ltac:(done)). assert (Hr : r ∈ source_mappings config).
    { apply (selected_rule_in (env_source envelope)). unfold g, first_signal in Hg. by repeat case_match; simplify_eq. }
    rewrite Forall_forall in Hall. destruct (Hall r Hr) as [sc Hsc]. cbn [route] in *. rewrite Hsc in *. destruct Hload as (rs & ? & ?).
    apply by_vertical_get in Hsc as (? & ? & _); [|done]. by exists rs.
  - destruct Hv as (-> & ? & Hex). split_and!; [done..|]. apply Exists_exists in Hex as (r & Hr & Hn). exists r. split; [done|].
    by apply by_vertical_None.
Qed.
End routing.

(** ** A concrete system: one scenario file, one mapping *)

Definition one_scenario : Scenario := nomic_scenario (Some 4) 4 "hr-index".
Definition one_file : template_file := mkFile "scenarios/hr.yaml" "hr" "...".
Definition read_it (_ : string) : yaml_doc Scenario := YamlMapping Scenario one_scenario.
Definition hr_mapping : VerticalLoaderConfig := mkLoaderConfig [mkRule "blob:*" (sc_vertical one_scenario)] true true.
Definition one_world : @world (over_yaml unit_env) :=
  @mkWorld (over_yaml unit_env) example_rows [] (@w_index unit_env (unit_world [])) (@w_embed unit_env (unit_world [])) [(sc_scenario_id one_scenario, one_scenario)] 0.

Lemma loader_routes_witness :
  run (@handle (over_yaml unit_env)) (@new_vertical_loader (over_yaml unit_env) hr_mapping) one_world = (Ok hr_mapping, one_world) ∧
  ∃ r, run (@handle (over_yaml unit_env)) (@load (over_yaml unit_env) hr_mapping unsorted_envelope) one_world = (Ok (one_scenario, r), one_world).
Proof.
  assert (Hnew : run (@handle (over_yaml unit_env)) (@new_vertical_loader (over_yaml unit_env) hr_mapping) one_world = (Ok hr_mapping, one_world))
    by (vm_compute; reflexivity).
  split; [exact Hnew|].
  pose proof (loader_routes unit_env (λ s, s) read_it (λ _, "") (λ s, Ok s) (λ _, "") [one_file] hr_mapping one_world eq_refl) as H.
  rewrite Hnew in H. destruct H as (_ & _ & _ & H). specialize (H unsorted_envelope one_world eq_refl).
  assert (Hg : first_signal (Ledger.get (env_doc_id unsorted_envelope) (@w_ledger (over_yaml unit_env) one_world)) hr_mapping unsorted_envelope
    = SigRule (mkRule "blob:*" (sc_vertical one_scenario))) by (vm_compute; reflexivity).
  cbv zeta in H. rewrite Hg in H. assert (Hr : route (SigRule (mkRule "blob:*" (sc_vertical one_scenario))) (@w_scenarios (over_yaml unit_env) one_world) = Some one_scenario)
    by (vm_compute; reflexivity).
  rewrite Hr in H. destruct H as (r & H & _). exists r. exact H.
Defined.
End Routing.
