(* ===== verification/ProvisionerTable.v ===== *)
(** * The provisioner over the table-backed registry

    [IndexProvisioner] (src/vestibule/provisioning/provisioner.py) takes any registry. Here it is
    composed with [TableStorageIndexRegistry]: over a network that answers, [ensure] gives the
    result it gives with the in-memory registry, so that what is proved of it there holds of the
    production pair. The entries [ensure] writes must belong to the one vertical of their index
    name ([TableRefinement]); [keeps_owned] shows that it never writes another. *)
From S2P Require Import Prelude PyDict Types Prog Registry Templates Provisioner Net Tables MemoryTable TableRegistry TableRefinement InMemoryProvisioner.
#[local] Open Scope Z_scope.
#[local] Open Scope py_scope.

Module ProvisionerTable.
Import Templates TableRefinement TableRegistry Registry Provisioner.

#[local] Arguments pbind : simpl never.
#[local] Arguments attempt : simpl never.
#[local] Arguments call : simpl never.
#[local] Arguments perform : simpl never.

(** The same collaborators with another registry. *)
Definition with_registry (reg : IndexRegistry) (base : ProvisionerEnv) : ProvisionerEnv := {|
  pr_registry := reg;
  adapter_state := @adapter_state base;
  pa_index_exists := @pa_index_exists base;
  pa_create_index := @pa_create_index base;
  pa_describe_index := @pa_describe_index base;
  drift := @drift base;
  new_claim_token := @new_claim_token base;
  p_repr := @p_repr base;
|}.

Section composition.
Context {codec : EntryCodec} {tenacity : Tenacity} (settings : RetrySettings) {codec_laws : EntryCodecLaws codec}.
Context {client : TableClient} (stored : tc_state → gmap (string * string) (props * string)) (issued : tc_state → gset string).
Context {laws : TableLaws stored issued} (vert : string → string) (base : ProvisionerEnv).

Notation tworld := (nworld tableQ tc_state).
Notation at_time now := (nhandle serve (λ _, Served) (λ _, now)).
Notation owned := (owned vert).
Notation abstracts := (abstracts stored vert).

(** [TableStorageIndexRegistry] as a registry: each method runs its requests; the instant is the
    one [datetime.now] gives inside it. *)
Definition table_registry : IndexRegistry := {|
  reg_state := tworld;
  r_get n := run (at_time 0) (TableRegistry.get settings n);
  r_register e := run (at_time 0) (TableRegistry.register settings e);
  r_reclaim n o e := run (at_time 0) (TableRegistry.reclaim settings n o e);
  r_touch_verified now n := run (at_time now) (TableRegistry.touch_verified settings n);
  r_mark_ready now n t := run (at_time now) (TableRegistry.mark_ready settings n t);
  r_mark_failed n m t := run (at_time 0) (TableRegistry.mark_failed settings n m t);
  r_mark_retired n := run (at_time 0) (TableRegistry.mark_retired settings n);
|}.

Notation mem := (with_registry in_memory_registry base).
Notation tab := (with_registry table_registry base).

(** ** What the provisioner writes *)

(** The entries a call stores, and the ones its answer carries. *)
Definition asks {X} (e : provE X) : Prop :=
  match e with
  | RRegister c => owned c
  | RReclaim n _ c => en_index_name c = n ∧ owned c
  | _ => True
  end.

Definition gives {X} (e : provE X) : X → Prop :=
  match e in provE X return X → Prop with
  | RGetEntry _ => λ r, ∀ x, r = Ok (Some x) → owned x
  | RRegister _ | RReclaim _ _ _ | RTouch _ | RReady _ _ | RFailed _ _ _ | RRetired _ => λ r, ∀ x, r = Ok x → owned x
  | _ => λ _, True
  end.

(** Along every path, as long as the answers carry owned entries, so do the calls; what is
    returned satisfies [Φ]. *)
Fixpoint keeps_owned {A} (Φ : A → Prop) (p : prog provE A) : Prop :=
  match p with
  | Ret a => Φ a
  | Raise _ => True
  | Vis e k => asks e ∧ ∀ r, gives e r → keeps_owned Φ (k r)
  end.

Lemma keeps_bind {A B} (Φ : A → Prop) (Ψ : B → Prop) p (f : A → prog provE B) :
  keeps_owned Φ p → (∀ a, Φ a → keeps_owned Ψ (f a)) → keeps_owned Ψ (pbind p f).
Proof.
  intros Hp Hf. induction p as [a|x|X e k IH]; [by apply Hf|done|]. destruct Hp as [He Hk].
  change (pbind (Vis e k) f) with (Vis e (λ r, pbind (k r) f)). split; [done|]. intros r Hr. by apply IH, Hk.
Qed.

Lemma keeps_attempt {A} (Φ : A → Prop) (p : prog provE A) :
  keeps_owned Φ p → keeps_owned (λ r, ∀ a, r = Ok a → Φ a) (attempt p).
Proof.
  intros Hp. induction p as [a|x|X e k IH]; [by intros a' [= <-]|by intros a|]. destruct Hp as [He Hk].
  change (attempt (Vis e k)) with (Vis e (λ r, attempt (k r))). split; [done|]. intros r Hr. by apply IH, Hk.
Qed.

Lemma keeps_call {A} (Φ : A → Prop) (e : provE (result exn A)) :
  asks e → (∀ a, gives e (Ok a) → Φ a) → keeps_owned Φ (call e).
Proof. intros He Ha. split; [done|]. intros [a|x] Hr; simpl; auto. Qed.

Lemma keeps_perform {A} (Φ : A → Prop) (e : provE A) : asks e → (∀ a, gives e a → Φ a) → keeps_owned Φ (perform e).
Proof. by split. Qed.

Lemma keeps_lift {A} (Φ : A → Prop) r : (∀ a, r = Ok a → Φ a) → keeps_owned Φ (lift r).
Proof. destruct r as [a|x]; simpl; auto. Qed.

Notation anything := (λ _, True).

Section methods.
Context (config : ProvisioningConfig) (templates : list (string * IndexTemplate)) (scenario : Scenario).
Context (Hscenario : sc_vertical scenario = vert (sc_index_name scenario)).

Notation env := mem.

Definition next_owned (n : next) : Prop :=
  match n with
  | Done e | AfterLosingClaim e | ClaimAndCreate e | WaitForReady e | Poll _ _ e => owned e
  | ClaimNew => True
  end.

(** Steps over binds and case distinctions, and the calls whose answers matter only when an entry is used on. *)
Ltac walk :=
  repeat first
    [ done
    | progress cbn [keeps_owned next_owned]
    | eapply keeps_bind; [apply (keeps_lift anything); done|intros ? _]
    | eapply keeps_bind; [apply (keeps_perform anything); done|intros ? _]
    | case_decide | case_bool_decide | case_match ].

Lemma call_adapter_owned {A} n (fn : provE (result exn A)) : asks fn → keeps_owned anything (@_call_adapter A n fn).
Proof.
  intros Hf. unfold _call_adapter. eapply keeps_bind; [by apply keeps_attempt, (keeps_call anything)|]. intros [a|x] _; [done|by destruct x].
Qed.

Lemma absorb_owned fn : asks fn → keeps_owned anything (_absorb_conflict fn).
Proof.
  intros Hf. unfold _absorb_conflict. eapply keeps_bind; [by apply keeps_attempt, (keeps_call anything)|]. intros [a|x] _; [done|]. by destruct (conflict x).
Qed.

Lemma verify_owned e : keeps_owned next_owned (@_verify env config templates scenario e).
Proof.
  unfold _verify. eapply keeps_bind; [by apply (keeps_lift anything)|]. intros [[t d] m] _.
  eapply keeps_bind; [by apply call_adapter_owned|]. intros o _. eapply keeps_bind; [by apply (keeps_lift anything)|]. intros [] _; [done|].
  eapply keeps_bind; [apply (keeps_call owned); [done|intros a Ha; by apply Ha]|]. by intros a Ha.
Qed.

Lemma dispatch_owned e : owned e → keeps_owned next_owned (@_dispatch_existing env config templates scenario e).
Proof.
  intros He. unfold _dispatch_existing, _handle_ready. destruct (en_status e); try done.
  destruct (en_last_verified_at e); [|apply verify_owned]. eapply keeps_bind; [by apply (keeps_perform anything)|]. intros now _.
  destruct (_elapsed _ _ _); [apply verify_owned|done].
Qed.

Lemma claim_new_owned : keeps_owned next_owned (@_claim_new env config templates scenario).
Proof.
  unfold _claim_new. destruct (negb _); [done|]. eapply keeps_bind; [by apply (keeps_lift anything)|]. intros [[t d] m] _. walk.
  cbv zeta. eapply keeps_bind; [apply (keeps_call owned); [exact Hscenario|intros x Hx; by apply Hx]|]. intros x Hx. by case_decide.
Qed.

Lemma finalize_owned e : keeps_owned next_owned (_finalize_ready e).
Proof.
  unfold _finalize_ready. eapply keeps_bind; [apply keeps_attempt, (keeps_call owned); [done|intros a Ha; by apply Ha]|].
  intros [x|x] Hx; [by apply Hx|]. destruct (conflict x); [|done].
  eapply (keeps_bind (λ o, ∀ y, o = Some y → owned y)); [apply keeps_call; [done|]|].
  - intros o Ho y ->. by apply Ho.
  - intros [y|] Hy; [by apply Hy|done].
Qed.

Lemma claim_and_create_owned e : keeps_owned next_owned (@_claim_and_create env e).
Proof.
  unfold _claim_and_create, _create_if_missing. cbv zeta. eapply (keeps_bind anything); [|intros _ _].
  - eapply keeps_bind; [by apply call_adapter_owned|]. intros [] _; [done|]. destruct (en_resolved_template e); [|done].
    eapply keeps_bind; [by apply keeps_attempt, call_adapter_owned|]. intros [a|x] _; [done|].
    eapply keeps_bind; [by apply absorb_owned|]. done.
  - eapply keeps_bind; [by apply call_adapter_owned|]. intros o _. case_decide; [apply finalize_owned|].
    eapply keeps_bind; [by apply absorb_owned|]. done.
Qed.

Lemma try_reclaim_owned e : owned e → keeps_owned (λ o, ∀ x, o = Some x → owned x) (_try_reclaim e).
Proof.
  intros He. unfold _try_reclaim. walk. eapply keeps_bind; [apply keeps_attempt, (keeps_call owned); [by split|intros x Hx; by apply Hx]|].
  intros [x|x] Hx; [by intros ? [= <-]; apply Hx|]. by destruct (conflict x).
Qed.

Lemma poll_owned n deadline e : owned e → keeps_owned next_owned (_poll config n deadline e).
Proof.
  intros He. unfold _poll. eapply (keeps_bind anything); [unfold _is_stale; by destruct (en_claimed_at e)|]. intros stale _.
  eapply (keeps_bind (λ o, ∀ x, o = Some x → owned x)); [destruct stale; [by apply try_reclaim_owned|done]|].
  intros [x|] Hx; [by apply Hx|]. walk. eapply keeps_bind; [by apply (keeps_call anything)|]. intros _ _.
  eapply (keeps_bind (λ o, ∀ y, o = Some y → owned y)); [apply keeps_call; [done|]|].
  - intros o Ho y ->. by apply Ho.
  - intros [y|] Hy; [|done]. case_decide; by apply Hy.
Qed.

Lemma step_owned n : next_owned n → keeps_owned next_owned (@step env config templates scenario n).
Proof.
  destruct n as [e| |e|e|e|n d e]; cbn [step next_owned]; intros Hn.
  - done.
  - apply claim_new_owned.
  - unfold _after_losing_claim. by destruct (en_status e).
  - apply claim_and_create_owned.
  - unfold _wait_for_ready. walk.
  - by apply poll_owned.
Qed.

Lemma resume_owned fuel n : next_owned n → keeps_owned anything (@resume env config templates scenario fuel n).
Proof.
  revert n. induction fuel as [|fuel IH]; intros n Hn; [by destruct n|].
  assert (H : keeps_owned anything (pbind (@step env config templates scenario n) (@resume env config templates scenario fuel))).
  { eapply keeps_bind; [by apply step_owned|]. apply IH. }
  by destruct n.
Qed.

Lemma ensure_owned fuel : keeps_owned anything (@ensure env config templates scenario fuel).
Proof.
  unfold ensure. eapply (keeps_bind (λ o, ∀ y, o = Some y → owned y)); [apply keeps_call; [done|intros o Ho y ->; by apply Ho]|].
  intros [e|] He; [|by apply resume_owned]. eapply keeps_bind; [by apply dispatch_owned, He|]. apply resume_owned.
Qed.
End methods.

(** ** Simulation *)

(** The table holds the entries of the dictionary, and everything else is the same. *)
Definition same_world (w : @pworld mem) (wt : @pworld tab) : Prop :=
  nw_inflight (@pw_registry tab wt) = [] ∧ abstracts (nw_state (@pw_registry tab wt)) (@pw_registry mem w) ∧
  @pw_adapter tab wt = @pw_adapter mem w ∧ @pw_time tab wt = @pw_time mem w ∧
  @pw_ticks tab wt = @pw_ticks mem w ∧ @pw_tokens tab wt = @pw_tokens mem w.

Lemma abstracts_owned st es n e : abstracts st es → Registry.get n es = Some e → owned e.
Proof.
  intros Ha He. specialize (Ha (vert n) n). destruct (stored st !! (vert n, n)) as [[p g]|].
  - destruct Ha as (e' & _ & He' & _ & Ho & _). congruence.
  - rewrite Ha in He; done.
Qed.

(** One method of the registry, from the call of [TableRefinement] it is. *)
Lemma method_refines now c (p : prog (netE tableQ) IndexRegistryEntry) (f : entries → result exn IndexRegistryEntry * entries) wt es :
  serve_call settings c = (e' ← p; Ret (Some e')) → memory_call now c es = some_entry (f es) → compatible vert c →
  nw_inflight wt = [] → abstracts (nw_state wt) es →
  ∃ wt', run (at_time now) p wt = ((f es).1, wt') ∧ nw_inflight wt' = [] ∧ abstracts (nw_state wt') (f es).2.
Proof.
  intros Hc Hm Hok Hfl Ha. destruct (call_refines settings stored issued (λ _, now) vert c Hok wt es Hfl Ha) as (wt' & Hrun & Hfl' & Ha').
  rewrite Hc, Hm in *. exists wt'. split; [|done]. rewrite run_bind in Hrun. unfold some_entry in Hrun.
  destruct (run (at_time now) p wt) as [[x|x] w1], (f es) as [[y|y] es']; simpl in *; by simplify_eq.
Qed.

(** What a step of the two systems has in common. *)
Definition agree {X} (e : provE X) (a : X * @pworld mem) (b : X * @pworld tab) : Prop :=
  b.1 = a.1 ∧ same_world a.2 b.2 ∧ gives e a.1.

(** A call on the registry that the table answers as the dictionary does. *)
Lemma reg_agree {A} (e : provE (result exn A)) (fm : entries → result exn A * entries) (ft : tworld → result exn A * tworld) w wt :
  (∀ wt es, nw_inflight wt = [] → abstracts (nw_state wt) es →
     ∃ wt', ft wt = ((fm es).1, wt') ∧ nw_inflight wt' = [] ∧ abstracts (nw_state wt') (fm es).2) →
  (∀ st es, abstracts st (fm es).2 → gives e (fm es).1) →
  same_world w wt → agree e (@reg_call mem A fm w) (@reg_call tab A ft wt).
Proof.
  intros Hf Hg (Hfl & Ha & Hrest). destruct (Hf _ _ Hfl Ha) as (wt' & Hft & Hfl' & Ha'). unfold agree, reg_call. rewrite Hft.
  specialize (Hg _ _ Ha'). destruct (fm (@pw_registry mem w)) as [r es']. simpl in *. by split_and!.
Qed.

(** The entry a method returns is the one it has stored. *)
Lemma update_stored n check f es x : (Registry.update n check f es).1 = Ok x → Registry.get n (Registry.update n check f es).2 = Some x.
Proof.
  unfold Registry.update. destruct (rbind _ _) as [c|y]; simpl; [|done]. intros [= <-]. apply dict_get_set_eq.
Qed.

Lemma reclaim_stored n o e es x : (Registry.reclaim n o e es).1 = Ok x → Registry.get n (Registry.reclaim n o e es).2 = Some x.
Proof. unfold Registry.reclaim. case_decide; simpl; [done|]. intros [= <-]. apply dict_get_set_eq. Qed.

Lemma register_stored e es x : (Registry.register e es).1 = x → Registry.get (en_index_name e) (Registry.register e es).2 = Some x.
Proof. unfold Registry.register, Registry.get. destruct (dict_get _ es) eqn:He; simpl; intros <-; [done|]. apply dict_get_set_eq. Qed.

Lemma elapse_same d w wt : same_world w wt → same_world (@elapse mem d w) (@elapse tab d wt) ∧ @pw_now tab wt = @pw_now mem w.
Proof.
  intros (Hfl & Ha & H1 & H2 & H3 & H4). unfold elapse, pw_now, same_world. simpl. rewrite H1, H2, H3, H4. by split_and!.
Qed.

Lemma adapter_agree {A} (e : provE (result exn A)) (f : @adapter_state base → result exn A * @adapter_state base) w wt :
  (∀ r, gives e r) → same_world w wt → agree e (@adapter_call mem A f w) (@adapter_call tab A f wt).
Proof.
  intros Hg (Hfl & Ha & H1 & H2). unfold agree, adapter_call. rewrite H1. simpl. destruct (f (@pw_adapter mem w)) as [r st].
  simpl. split; [done|]. split; [|apply Hg].
  exact (conj Hfl (conj Ha (conj eq_refl H2))).
Qed.

Lemma step_agrees {X} (e : provE X) w wt : asks e → same_world w wt → agree e (@phandle mem X e w) (@phandle tab X e wt).
Proof.
  intros Ha Hw. destruct e as [n|c|n o c|n|n t|n m t|n|n|n t d m|n| |d|]; cbn [phandle asks] in *.
  - apply reg_agree; [|intros st es Hst x [= Hx]; by eapply abstracts_owned|done]. intros wt1 es Hfl Hst. exact (call_refines settings stored issued (λ _, 0) vert (CGet n) I wt1 es Hfl Hst).
  - apply reg_agree; [| |done].
    + intros wt1 es. apply (method_refines 0 (CRegister c) _ _ wt1 es eq_refl); [|done]. simpl. by destruct (Registry.register c es).
    + intros st es. pose proof (register_stored c es) as H. simpl. destruct (Registry.register c es) as [y es']. simpl in *.
      intros Hst x [= <-]. by eapply abstracts_owned, H.
  - apply reg_agree; [|intros st es Hst x Hx; eapply abstracts_owned, reclaim_stored; [exact Hst|exact Hx]|done].
    intros wt1 es. by apply (method_refines 0 (CReclaim n o c) _ _ wt1 es eq_refl).
  - destruct (elapse_same 0 w wt Hw) as [Hw' ->]. apply reg_agree; [|intros st es Hst x Hx; eapply abstracts_owned, update_stored; [exact Hst|exact Hx]|done].
    intros wt1 es. by apply (method_refines (@pw_now mem w) (CTouch n) _ _ wt1 es eq_refl).
  - destruct (elapse_same 0 w wt Hw) as [Hw' ->]. apply reg_agree; [|intros st es Hst x Hx; eapply abstracts_owned, update_stored; [exact Hst|exact Hx]|done].
    intros wt1 es. by apply (method_refines (@pw_now mem w) (CReady n t) _ _ wt1 es eq_refl).
  - apply reg_agree; [|intros st es Hst x Hx; eapply abstracts_owned, update_stored; [exact Hst|exact Hx]|done].
    intros wt1 es. by apply (method_refines 0 (CFailed n m t) _ _ wt1 es eq_refl).
  - apply reg_agree; [|intros st es Hst x Hx; eapply abstracts_owned, update_stored; [exact Hst|exact Hx]|done].
    intros wt1 es. by apply (method_refines 0 (CRetired n) _ _ wt1 es eq_refl).
  - by apply adapter_agree.
  - by apply adapter_agree.
  - by apply adapter_agree.
  - destruct (elapse_same 0 w wt Hw) as [Hw' Hn]. by split_and!.
  - destruct (elapse_same d w wt Hw) as [Hw' Hn]. case_bool_decide; by split_and!.
  - destruct Hw as (? & ? & ? & ? & ? & Ht). unfold agree, same_world. simpl in *. rewrite Ht. by split_and!.
Qed.

Lemma runs_agree {A} (Φ : A → Prop) (p : prog provE A) w wt :
  keeps_owned Φ p → same_world w wt →
  (run (@phandle tab) p wt).1 = (run (@phandle mem) p w).1 ∧ same_world (run (@phandle mem) p w).2 (run (@phandle tab) p wt).2.
Proof.
  revert w wt. induction p as [a|x|X e k IH]; intros w wt Hp Hw; [done..|]. destruct Hp as [He Hk]. cbn [run].
  destruct (step_agrees e w wt He Hw) as (H1 & H2 & H3). destruct (@phandle mem X e w) as [r w1], (@phandle tab X e wt) as [r' wt1].
  simpl in *. subst r'. by apply IH; [apply Hk|].
Qed.

(** C19: over a network that answers, and for a scenario whose vertical is the one its index name
    belongs to, [ensure] with the table-backed registry returns or raises what it does with the
    in-memory registry, from any corresponding state: it leaves the vector store in the same state,
    and the table with exactly the entries of the in-memory registry. *)
Theorem ensure_over_tables config templates scenario fuel w wt :
  sc_vertical scenario = vert (sc_index_name scenario) → same_world w wt →
  (run (@phandle tab) (@ensure tab config templates scenario fuel) wt).1 =
  (run (@phandle mem) (@ensure mem config templates scenario fuel) w).1 ∧
  same_world (run (@phandle mem) (@ensure mem config templates scenario fuel) w).2
             (run (@phandle tab) (@ensure tab config templates scenario fuel) wt).2.
Proof. intros Hv Hw. by eapply runs_agree, Hw; apply ensure_owned. Qed.
End composition.

(** The two in-memory adapters behind an empty table: [ensure] provisions the index there too. *)
Notation demo_mem := (with_registry in_memory_registry InMemoryProvisioner.demo_env).
Notation demo_tab := (with_registry (table_registry (codec := example_codec) (tenacity := loop_tenacity) example_settings
  (client := MemoryTable.memory_client)) InMemoryProvisioner.demo_env).

Definition demo_start : @pworld demo_mem := @mkPW demo_mem [] (InMemoryIndexer.InMemoryIndexer.new_in_memory "hr-index") 0 0 0.
Definition demo_table_start : @pworld demo_tab :=
  @mkPW demo_tab (mkNW MemoryTable.empty_memory [] 0 0) (InMemoryIndexer.InMemoryIndexer.new_in_memory "hr-index") 0 0 0.

Lemma ensure_over_tables_witness :
  same_world (codec := example_codec) (tenacity := loop_tenacity) example_settings (client := MemoryTable.memory_client) MemoryTable.stored (λ _, "hr")
    InMemoryProvisioner.demo_env demo_start demo_table_start ∧
  ∃ e, (run (@phandle demo_tab) (@ensure demo_tab InMemoryProvisioner.demo_config InMemoryProvisioner.demo_templates InMemoryProvisioner.demo_scenario 3)
          demo_table_start).1 = Ok (Some e) ∧ en_status e = ready.
Proof.
  assert (Hw : same_world (codec := example_codec) (tenacity := loop_tenacity) example_settings (client := MemoryTable.memory_client) MemoryTable.stored (λ _, "hr")
    InMemoryProvisioner.demo_env demo_start demo_table_start).
  { split; [done|]. split; [exact (empty_abstracts (λ _, "hr"))|done]. }
  split; [exact Hw|].
  destruct (ensure_over_tables (codec := example_codec) (tenacity := loop_tenacity) example_settings (codec_laws := example_codec_laws)
    (client := MemoryTable.memory_client) MemoryTable.stored MemoryTable.me_issued (laws := MemoryTable.memory_laws) (λ _, "hr") InMemoryProvisioner.demo_env
    InMemoryProvisioner.demo_config InMemoryProvisioner.demo_templates InMemoryProvisioner.demo_scenario 3 demo_start demo_table_start eq_refl Hw) as [H _].
  assert (Hm : ∃ e, (run (@phandle demo_mem) (@ensure demo_mem InMemoryProvisioner.demo_config InMemoryProvisioner.demo_templates InMemoryProvisioner.demo_scenario 3)
    demo_start).1 = Ok (Some e) ∧ en_status e = ready) by (eexists; vm_compute; by split).
  destruct Hm as (e & Hm & Hs). exists e. split; [|exact Hs]. by rewrite H, Hm.
Defined.
End ProvisionerTable.
