(* ===== verification/Deployment.v ===== *)
(** * The provisioner on Azure: two services, one unreliable network

    In production [IndexProvisioner] (src/vestibule/provisioning/provisioner.py) works on
    [TableStorageIndexRegistry] (stores/table_storage_registry.py), usually behind
    [CachedIndexRegistry] (stores/cached_registry.py), and on [AzureAISearchProvisioner]
    (adapters/azure_ai_search.py). [deploy] composes them: every call of [ensure] becomes that
    method's program, whose requests go over the network of [Net] to one of the two services and
    whose cache accesses go to the cache of its process. Any number of workers interleave between
    any two of these steps, every request may be refused, answered, executed without an answer,
    lost, or executed much later, and every method retries.

    The rules of [ProvisionerLogic] hold in this system ([deployed_rules]), and with them what
    [ensure] promises: no stale cache and no request that the network executes late, twice or not
    at all breaks the claim protocol. What makes this work is that a worker's knowledge of an entry
    ([seen]) survives every step of the others, so that it does not matter when it was acquired. *)
From S2P Require Import Prelude PyDict Types Prog Rely Registry Templates Provisioner ProvisionerLogic Net Tables MemoryTable TableRegistry TableRefinement AzureSearch MemorySearch AzureProvisioner ProvisionerSafety InMemoryProvisioner Caches CachedRegistry.
#[local] Open Scope Z_scope.
#[local] Open Scope py_scope.

Module Deployment.
Import Registry Templates Provisioner ProvisionerLogic.

#[local] Arguments pbind : simpl never.
#[local] Arguments attempt : simpl never.
#[local] Arguments call : simpl never.
#[local] Arguments perform : simpl never.

(** ** The system *)

(** A request to one of the two services. *)
Inductive cloudQ : Type → Type :=
| ToTable {X} (q : tableQ X) : cloudQ X
| ToSearch {X} (q : AzureProvisioner.provisionQ X) : cloudQ X.

(** The cache of a [CachedIndexRegistry], each access under its lock. *)
Inductive slotE : Type → Type :=
| CachedName (k : string) : slotE (option (option IndexRegistryEntry))
| CachedVertical (k : string) : slotE (option (list IndexRegistryEntry))
| KeepName (k : string) (v : option IndexRegistryEntry) : slotE unit
| KeepVertical (k : string) (v : list IndexRegistryEntry) : slotE unit
| DropAll : slotE unit.

(** What a worker can do: use the network, the cache of its process, sleep, draw a token. *)
Inductive deployE : Type → Type :=
| Net {X} (e : netE cloudQ X) : deployE X
| Slot (cache : nat) {X} (e : slotE X) : deployE X
| Wait (duration : Z) : deployE (result exn unit)
| FreshToken : deployE string.

(** The calls of a client of one service, addressed to it. *)
Definition reroute {Q Q' : Type → Type} (f : ∀ X, Q X → Q' X) (X : Type) (e : netE Q X) : netE Q' X :=
  match e in netE _ X return netE Q' X with
  | Submit q => Submit (f _ q)
  | Net.Sleep d => Net.Sleep d
  | Utcnow => Utcnow
  | Deliver i => Deliver i
  end.

Definition route {Q : Type → Type} (f : ∀ X, Q X → cloudQ X) {A} (p : prog (netE Q) A) : prog deployE A :=
  translate (λ X e, perform (Net (reroute f X e))) p.

Section system.
Context {codec : TableRegistry.EntryCodec} {tenacity : Tenacity} (registry_settings adapter_settings : RetrySettings).

Notation on_table p := (attempt (route (@ToTable) p)).
Notation on_search p := (attempt (route (@ToSearch) p)).

(** The methods of [TableStorageIndexRegistry]; they read the clock themselves. *)
Definition table_method (X : Type) (e : CachedIndexRegistry.regE X) : prog deployE X :=
  match e in CachedIndexRegistry.regE X return prog deployE X with
  | CachedIndexRegistry.WGet n => on_table (TableRegistry.get registry_settings n)
  | CachedIndexRegistry.WList v => on_table (TableRegistry.list_by_vertical registry_settings v)
  | CachedIndexRegistry.WRegister entry => on_table (TableRegistry.register registry_settings entry)
  | CachedIndexRegistry.WReclaim n observed new_entry => on_table (TableRegistry.reclaim registry_settings n observed new_entry)
  | CachedIndexRegistry.WTouch _ n => on_table (TableRegistry.touch_verified registry_settings n)
  | CachedIndexRegistry.WReady _ n t => on_table (TableRegistry.mark_ready registry_settings n t)
  | CachedIndexRegistry.WFailed n m t => on_table (TableRegistry.mark_failed registry_settings n m t)
  | CachedIndexRegistry.WRetired n => on_table (TableRegistry.mark_retired registry_settings n)
  end.

(** The decorator's accesses to its cache and to the registry it wraps. *)
Definition cache_method (c : nat) (X : Type) (e : CachedIndexRegistry.rcacheE X) : prog deployE X :=
  match e in CachedIndexRegistry.rcacheE X return prog deployE X with
  | CachedIndexRegistry.RWrapped e => table_method _ e
  | CachedIndexRegistry.LookupName k => perform (Slot c (CachedName k))
  | CachedIndexRegistry.LookupVertical k => perform (Slot c (CachedVertical k))
  | CachedIndexRegistry.StoreName k v => perform (Slot c (KeepName k v))
  | CachedIndexRegistry.StoreVertical k v => perform (Slot c (KeepVertical k v))
  | CachedIndexRegistry.RClear => perform (Slot c DropAll)
  end.

Section collaborators.
(** The cache of the worker's process, when its registry is decorated. *)
Context (cache : option nat).

Definition registry_method {A} (direct : CachedIndexRegistry.regE (result exn A)) (decorated : prog CachedIndexRegistry.rcacheE A) : prog deployE (result exn A) :=
  match cache with
  | None => table_method _ direct
  | Some c => attempt (translate (cache_method c) decorated)
  end.

(** The provisioner's collaborators: its registry, its adapter, the clock, [time.sleep] and
    [uuid4]. *)
Definition lower (X : Type) (e : provE X) : prog deployE X :=
  match e in provE X return prog deployE X with
  | RGetEntry n => registry_method (CachedIndexRegistry.WGet n) (CachedIndexRegistry.get n)
  | RRegister entry => registry_method (CachedIndexRegistry.WRegister entry) (CachedIndexRegistry.register entry)
  | RReclaim n observed new_entry =>
    registry_method (CachedIndexRegistry.WReclaim n observed new_entry) (CachedIndexRegistry.reclaim n observed new_entry)
  | RTouch n => registry_method (CachedIndexRegistry.WTouch 0 n) (CachedIndexRegistry.touch_verified 0 n)
  | RReady n t => registry_method (CachedIndexRegistry.WReady 0 n t) (CachedIndexRegistry.mark_ready 0 n t)
  | RFailed n m t => registry_method (CachedIndexRegistry.WFailed n m t) (CachedIndexRegistry.mark_failed n m t)
  | RRetired n => registry_method (CachedIndexRegistry.WRetired n) (CachedIndexRegistry.mark_retired n)
  | AExists n => on_search (AzureProvisioner.index_exists adapter_settings n)
  | ACreate n t d m => on_search (AzureProvisioner.create_index adapter_settings n t d m)
  | ADescribe n => on_search (AzureProvisioner.describe_index adapter_settings n)
  | Clock => perform (Net Utcnow)
  | Sleep d => perform (Wait d)
  | NewToken => perform FreshToken
  end.

Definition deploy {A} (p : prog provE A) : prog deployE A := translate lower p.
End collaborators.

(** ** The services and the network *)
Context {client : TableClient} {sdk : SearchSDK}.
Context (fates : nat → fate) (utc monotonic : nat → Z) (ttl_seconds : Z) (tokens : nat → string).

Notation tstate := (tc_state * list (string * ((string * string) * props)))%type.
Notation cstate := (tstate * sd_state)%type.

(** The table service with the history of its versions, and the search service. *)
Definition cserve (X : Type) (q : cloudQ X) (s : cstate) : result exn X * cstate :=
  match q in cloudQ X return result exn X * cstate with
  | ToTable q => let '(r, t) := hserve _ q s.1 in (r, (t, s.2))
  | ToSearch q => let '(r, t) := AzureProvisioner.serve _ q s.2 in (r, (s.1, t))
  end.

Notation cache := (slot string (option IndexRegistryEntry) * slot string (list IndexRegistryEntry))%type.

Definition shandle (now : Z) (X : Type) (e : slotE X) (c : cache) : X * cache :=
  match e in slotE X return X * cache with
  | CachedName k => (slot_lookup now ttl_seconds k c.1, c)
  | CachedVertical k => (slot_lookup now ttl_seconds k c.2, c)
  | KeepName k v => (tt, (slot_store now k v c.1, c.2))
  | KeepVertical k v => (tt, (c.1, slot_store now k v c.2))
  | DropAll => (tt, ([], []))
  end.

(** The world: the network with the two services behind it, the processes' caches, and how many
    tokens were drawn and accesses to caches made. *)
Record dworld := mkDW { dw_net : nworld cloudQ cstate; dw_caches : nat → cache; dw_tokens : nat; dw_accesses : nat }.

Definition dhandle (X : Type) (e : deployE X) (w : dworld) : X * dworld :=
  match e in deployE X return X * dworld with
  | Net e => let '(r, v) := nhandle cserve fates utc _ e (dw_net w) in (r, mkDW v (dw_caches w) (dw_tokens w) (dw_accesses w))
  | Slot c e =>
    let '(r, s) := shandle (monotonic (dw_accesses w)) _ e (dw_caches w c) in
    (r, mkDW (dw_net w) (λ d, if decide (d = c) then s else dw_caches w d) (dw_tokens w) (S (dw_accesses w)))
  | Wait d => (if bool_decide (d < 0) then Exc (PyExc "ValueError" "sleep length must be non-negative") else Ok tt, w)
  | FreshToken => (tokens (dw_tokens w), mkDW (dw_net w) (dw_caches w) (S (dw_tokens w)) (dw_accesses w))
  end.

Definition cloud (w : dworld) : cstate := nw_state (dw_net w).

(** Before anything has happened. *)
Definition start (s : cstate) : dworld := mkDW (mkNW s [] 0 0) (λ _, ([], [])) 0 0.

(** ** The invariant *)
Context (stored : tc_state → gmap (string * string) (props * string)) (issued : tc_state → gset string) {table_laws : TableLaws stored issued}.
Context (indexes : sd_state → gmap string SearchIndex) {search_laws : SearchLaws indexes}.
Context {codec_laws : TableRegistry.EntryCodecLaws codec}.

(** The vertical every index name belongs to. *)
Context (vert : string → string).

Notation encode := TableRegistry.entry_to_entity_data.
Notation owned := (TableRefinement.owned vert).

Definition live (s : cstate) (n : string) : option IndexDescription :=
  (λ x, mkDescription x.1 x.2) <$> (indexes s.2 !! n ≫= schema_of).

Definition live_grows (s s' : cstate) : Prop := ∀ n d, live s n = Some d → live s' n = Some d.

(** The entity's keys, and the entry that is stored under its own. *)
Definition key_of (e : IndexRegistryEntry) : string * string := (vert (en_index_name e), en_index_name e).
Definition stores (s : cstate) (e : IndexRegistryEntry) : Prop := data_of stored s.1.1 !! key_of e = Some (encode e).

(** A claim carries its token and its template; every other entry has no token; a [ready] entry
    records the schema of a live index. *)
Definition fine (s : cstate) (e : IndexRegistryEntry) : Prop :=
  match en_status e with
  | provisioning => is_Some (en_claim_token e) ∧ is_Some (en_resolved_template e)
  | ready => en_claim_token e = None ∧ live s (en_index_name e) = Some (recorded e)
  | failed | retired => en_claim_token e = None
  end.

(** A version of an entity that may be written. *)
Definition version_ok (s : cstate) (k : string * string) (d : props) : Prop :=
  ∃ e, d = encode e ∧ k = key_of e ∧ owned e ∧ fine s e.

(** Every version ever written is in order. *)
Definition cloud_ok (s : cstate) : Prop :=
  hist_ok stored issued s.1 ∧ ∀ g k d, (g, (k, d)) ∈ s.1.2 → version_ok s k d.

(** A free key may be claimed, and an entry may be replaced by one it evolves to. *)
Definition prov_allowed (k : string * string) (d d' : option props) : Prop :=
  match d, d' with
  | None, Some _ => True
  | Some d, Some d' => ∃ e e', d = encode e ∧ d' = encode e' ∧ evolves e e'
  | _, None => False
  end.

Definition cloud_moves (s s' : cstate) : Prop := Tables.evolves stored prov_allowed s.1 s'.1 ∧ live_grows s s'.

(** The requests that may be executed, now or whenever the network gets to it. *)
Definition admissible (X : Type) (q : cloudQ X) (s : cstate) : Prop :=
  match q with
  | ToTable q => justified prov_allowed _ q s.1 ∧
                 match q with upsert_entity pk n d _ => version_ok s (pk, n) d | delete_entity _ _ => False | _ => True end
  | ToSearch (AzureProvisioner.delete_index_request _) => False
  | ToSearch _ => True
  end.

#[export] Instance cloud_moves_preorder : PreOrder cloud_moves.
Proof.
  split.
  - intros s. split; [reflexivity|by intros n d].
  - intros s1 s2 s3 [H1 L1] [H2 L2]. split; [by etrans|]. intros n d Hd. by apply L2, L1.
Qed.

Lemma fine_later s s' e : live_grows s s' → fine s e → fine s' e.
Proof. intros Hl. unfold fine. destruct (en_status e); try done. intros [? ?]. split; auto. Qed.

Lemma version_later s s' k d : live_grows s s' → version_ok s k d → version_ok s' k d.
Proof. intros Hl (e & ? & ? & ? & ?). exists e. split_and!; [done..|]. by eapply fine_later. Qed.

Lemma admissible_later X (q : cloudQ X) s s' : cloud_moves s s' → admissible X q s → admissible X q s'.
Proof.
  intros [Ht Hl]. destruct q as [X q|X q]; [|by destruct q]. intros [Hj Hv]. split; [by eapply (justified_later stored)|].
  destruct q; try done. by eapply version_later.
Qed.

(** The search service only adds to the live schemas. *)
Lemma search_grows X (q : AzureProvisioner.provisionQ X) s :
  admissible X (ToSearch q) s → live_grows s (cserve X (ToSearch q) s).2.
Proof.
  destruct q as [n|d|n]; [by intros _ k x|intros _|done]. intros k x. unfold live. cbn [cserve AzureProvisioner.serve].
  destruct (AzureProvisioner._build_search_index d) as [i|]; [|done]. destruct (indexes s.2 !! k ≫= schema_of) as [y|] eqn:Hy; [|done].
  pose proof (create_keeps_schema indexes i (AzureProvisioner.df_metric d) 1 s.2 k y Hy) as Hk. simpl in *.
  destruct (sd_create_or_update_index i s.2) as [r t]. simpl in *. by rewrite Hk.
Qed.

Lemma hserve_history X (q : tableQ X) (t : tstate) v :
  v ∈ (hserve X q t).2.2 → v ∈ t.2 ∨ match q with upsert_entity pk n d _ => v.2 = ((pk, n), d) | _ => False end.
Proof.
  unfold hserve. destruct (serve X q t.1) as [r st] eqn:Hs. simpl. destruct q as [| |pk n d e|]; try by left.
  destruct r as [g|]; [|by left]. intros [?|Hv]%elem_of_app; [by left|]. apply list_elem_of_singleton in Hv as ->. by right.
Qed.

(** Executing an admissible request keeps the cloud in order. *)
Lemma cserve_ok X (q : cloudQ X) s :
  cloud_ok s → admissible X q s → cloud_ok (cserve X q s).2 ∧ cloud_moves s (cserve X q s).2.
Proof.
  intros [Hh Hv] Hq. destruct q as [X q|X q].
  - destruct Hq as [Hj Hd]. destruct (hserve_ok stored issued prov_allowed X q s.1 Hh Hj) as [Hh' He].
    pose proof (hserve_history X q s.1) as Hnew. cbn [cserve]. destruct (hserve X q s.1) as [r t]. cbn [fst snd] in *.
    assert (Hl : live_grows s (t, s.2)) by (by intros n x). split; [|by split]. split; [done|]. intros g k d Hin.
    apply (version_later s); [done|]. destruct (Hnew _ Hin) as [?|Hk]; [by eapply Hv|].
    destruct q; try done. simpl in Hk. injection Hk as -> ->. exact Hd.
  - pose proof (search_grows X q s Hq) as Hl. cbn [cserve] in *. destruct (AzureProvisioner.serve X q s.2) as [r t]. cbn [fst snd] in *.
    split; [|split; [reflexivity|done]]. split; [done|]. intros g k d Hin. apply (version_later s); [done|]. by eapply Hv.
Qed.

(** ** Knowledge *)

Lemma encode_inj e e' : encode e = encode e' → e = e'.
Proof.
  intros He. pose proof (TableRegistry.entry_roundtrip e "" "" "") as H1. pose proof (TableRegistry.entry_roundtrip e' "" "" "") as H2.
  rewrite He in H1. congruence.
Qed.

Lemma evolves_name e e' : evolves e e' → en_index_name e' = en_index_name e.
Proof. intros [Hc _]. unfold core in Hc. congruence. Qed.

Lemma evolves_owned e e' : evolves e e' → owned e → owned e'.
Proof. intros [Hc _]. unfold core, TableRefinement.owned in *. congruence. Qed.

Lemma stores_unique s e e' : stores s e → stores s e' → en_index_name e = en_index_name e' → e = e'.
Proof. unfold stores, key_of. intros H1 H2 Hn. rewrite Hn in H1. apply encode_inj. congruence. Qed.

(** A stored entry only evolves. *)
Lemma steps_evolve m m' e :
  rtc (tstep prov_allowed) m m' → m !! key_of e = Some (encode e) → ∃ e', m' !! key_of e' = Some (encode e') ∧ evolves e e'.
Proof.
  intros Hsteps. revert e. induction Hsteps as [m|m m1 m' (k & o & Ha & ->) _ IH]; intros e He; [by exists e|].
  destruct (decide (k = key_of e)) as [->|Hk].
  - rewrite He in Ha. destruct o as [d|]; [|done]. destruct Ha as (e0 & e1 & Heq & -> & Hev). apply encode_inj in Heq as <-.
    destruct (IH e1) as (e' & ? & ?); [|exists e'; split; [done|by etrans]].
    unfold key_of. rewrite (evolves_name e e1 Hev). by rewrite lookup_partial_alter_eq.
  - apply IH. by rewrite lookup_partial_alter_ne.
Qed.

Lemma stores_later s s' e : cloud_moves s s' → stores s e → ∃ e', stores s' e' ∧ evolves e e'.
Proof. intros [[_ Hsteps] _]. by apply steps_evolve. Qed.

(** What a worker knows of an entry it once read. *)
Definition seen (s : cstate) (n : string) (e : IndexRegistryEntry) : Prop :=
  en_index_name e = n ∧ owned e ∧ fine s e ∧ ∃ e', stores s e' ∧ evolves e e'.

Lemma seen_later s s' n e : cloud_moves s s' → seen s n e → seen s' n e.
Proof.
  intros Hm (? & ? & Hf & e' & He' & Hev). destruct (stores_later s s' e' Hm He') as (e'' & ? & ?).
  split_and!; [done..|by eapply fine_later; [apply Hm|]|]. exists e''. split; [done|by etrans].
Qed.

(** The stored entry is the one the worker has seen, evolved. *)
Lemma seen_evolved s n e c : seen s n e → stores s c → en_index_name c = n → evolves e c.
Proof. intros (Hn & _ & _ & e' & He' & Hev) Hc Hcn. rewrite (stores_unique s c e' Hc He'); [done|]. by rewrite (evolves_name e e' Hev), Hn. Qed.

Lemma seen_has_token s n e : seen s n e → is_Some (en_claim_token e) → en_status e = provisioning.
Proof. intros (_ & _ & Hf & _) [t Ht]. unfold fine in Hf. destruct (en_status e); [done|destruct Hf; congruence|congruence..]. Qed.

(** An entity of the table: its record, its entry, its version. *)
Lemma entity_entry s k p g :
  cloud_ok s → stored s.1.1 !! k = Some (p, g) →
  ∃ e, _to_record (mkEntity p g) = mkRec k.1 k.2 (encode e) g ∧ k = key_of e ∧ stores s e ∧ seen s k.2 e ∧ (g, (k, encode e)) ∈ s.1.2.
Proof.
  intros [Hh Hv] Hk. destruct (hist_stored _ _ _ Hh k p g Hk) as (d & -> & Hc & Hin). destruct (Hv g k d Hin) as (e & -> & -> & Ho & Hf).
  assert (Hst : stores s e) by (unfold stores; rewrite (data_of_lookup stored issued) by done; by rewrite Hk, to_record_entity).
  exists e. rewrite to_record_entity by done. split_and!; [done..| |done]. split_and!; [done..|]. exists e. by split.
Qed.

(** [rec] was read under the name [n] by a worker that knew what [s0] shows. *)
Definition reads (s0 : cstate) (n : string) (rec : _TableEntityRecord) (e : IndexRegistryEntry) (s : cstate) : Prop :=
  rec = mkRec (vert n) n (encode e) (re_etag rec) ∧ known rec s.1 ∧ seen s n e ∧ ∀ o, seen s0 n o → evolves o e.

Lemma reads_later s0 n rec e s s' : cloud_moves s s' → reads s0 n rec e s → reads s0 n rec e s'.
Proof.
  intros Hm (? & Hk & ? & ?). split_and!; [done| | |done]; [|by eapply seen_later]. destruct Hm as [Ht _]. by eapply (known_later stored).
Qed.

Lemma stored_reads s0 s k p g :
  cloud_moves s0 s → cloud_ok s → stored s.1.1 !! k = Some (p, g) → ∃ e, reads s0 k.2 (_to_record (mkEntity p g)) e s.
Proof.
  intros Hm Hs Hk. destruct (entity_entry s k p g Hs Hk) as (e & -> & Hke & Hst & Hseen & Hin). exists e. subst k. split_and!; [done..| ].
  intros o Ho. apply (seen_evolved s (en_index_name e)); [by eapply seen_later|done..].
Qed.

Lemma reads_decodes s0 n rec e s : reads s0 n rec e s → TableRegistry.entity_to_entry rec = Ok e.
Proof. intros (-> & _). apply TableRegistry.entry_roundtrip. Qed.

(** ** Programs of one client

    The rules for a program that talks to one of the services: [f] addresses its requests. *)

(** Whatever a cache holds, however old, is an entry some worker has read. *)
Definition caches_ok (w : dworld) : Prop :=
  ∀ c k e t, dict_get k (dw_caches w c).1 = Some (Some e, t) → seen (cloud w) k e.

Definition DI (w : dworld) : Prop := NI cloud_ok admissible (dw_net w) ∧ caches_ok w.
Definition DR (w w' : dworld) : Prop := cloud_moves (cloud w) (cloud w').

#[export] Instance DR_preorder : PreOrder DR.
Proof. unfold DR. split; [intros w; reflexivity|intros w1 w2 w3; by etrans]. Qed.

Lemma DI_ok w : DI w → cloud_ok (cloud w).
Proof. by intros [[? _] _]. Qed.

(** A step of the network. *)
Lemma net_step w v : DI w → NI cloud_ok admissible v → NR cloud_moves (dw_net w) v →
  let w' := mkDW v (dw_caches w) (dw_tokens w) (dw_accesses w) in DI w' ∧ DR w w'.
Proof. intros [_ Hc] Hv HR. split; [|done]. split; [done|]. intros c k e t Hk. eapply seen_later; [exact HR|]. by eapply Hc. Qed.

Lemma submit_safe X (q : cloudQ X) w :
  DI w → admissible X q (cloud w) →
  let '(o, w') := dhandle _ (Net (Submit q)) w in DI w' ∧ DR w w' ∧
    ∀ a, o = Some (Ok a) → (cserve X q (cloud w)).1 = Ok a ∧ cloud w' = (cserve X q (cloud w)).2.
Proof.
  intros Hw Hq. pose proof (submit_step cserve fates utc cloud_ok cloud_moves admissible admissible_later cserve_ok X q (dw_net w) (proj1 Hw) Hq) as H.
  cbn [dhandle]. destruct (nhandle cserve fates utc _ (Submit q) (dw_net w)) as [o v]. destruct H as (H1 & H2 & H3).
  destruct (net_step w v Hw H1 H2). by split_and!.
Qed.

Lemma deliver_safe i w : DI w → let w' := (dhandle _ (Net (Deliver i)) w).2 in DI w' ∧ DR w w'.
Proof.
  intros Hw. pose proof (deliver_step cserve fates utc cloud_ok cloud_moves admissible admissible_later cserve_ok i (dw_net w) (proj1 Hw)) as H.
  cbn [dhandle]. destruct (nhandle cserve fates utc _ (Deliver i) (dw_net w)) as [o v]. destruct H. by apply net_step.
Qed.

Section client.
Context {Q : Type → Type} (f : ∀ X, Q X → cloudQ X).

Notation rh := (λ X e, dhandle X (Net (reroute f X e))).
Notation rsafe := (returns rh DI DR).

Lemma rsafe_sleep d w : rsafe (λ _ _, True) (call (Net.Sleep d)) w.
Proof. apply safe_call. intros w' _ HI. split_and!; [exact HI|unfold DR; reflexivity|]. intros w'' _ _. by case_match. Qed.

Lemma rsafe_utcnow w : rsafe (λ _ _, True) (perform Utcnow) w.
Proof. apply safe_perform. intros w' _ HI. split_and!; [exact HI|unfold DR; reflexivity|done]. Qed.

(** What the service's answer to [q] tells from then on. *)
Definition tells {X} (q : Q X) (w : dworld) (P : X → cstate → Prop) : Prop :=
  ∀ s a s', cloud_moves (cloud w) s → cloud_ok s → (cserve X (f X q) s).1 = Ok a →
    cloud_moves (cserve X (f X q) s).2 s' → cloud_ok s' → P a s'.

Lemma rsafe_call {X} t (q : Q X) (P : X → cstate → Prop) w :
  DI w → (∀ s, cloud_moves (cloud w) s → cloud_ok s → admissible X (f X q) s) → tells q w P →
  rsafe (λ a w, P a (cloud w)) (call_with_timeout t q) w.
Proof.
  intros Hw Hq HP. unfold call_with_timeout.
  eapply (returns_bind _ _ _ (λ o w, ∀ a w', o = Some (Ok a) → DR w w' → DI w' → P a (cloud w'))); [done| |].
  - apply safe_perform. intros w1 HR1 HI1. pose proof (submit_safe X (f X q) w1 HI1 (Hq _ HR1 (DI_ok w1 HI1))) as H.
    cbn [reroute]. destruct (dhandle _ (Net (Submit (f X q))) w1) as [o w2]. destruct H as (HI2 & HR2 & Ha). split_and!; [done..|].
    intros w3 HR3 HI3 a w4 Ho HR4 HI4. cbn [fst] in Ho. destruct (Ha a Ho) as [Hr Hst]. apply (HP (cloud w1) a); [done|by apply DI_ok|done| |by apply DI_ok].
    rewrite <- Hst. exact (transitivity HR3 HR4).
  - intros [[a|x]|] w1 HR1 HI1 Ho; [|destruct (Analyzer.Analyzer.is_timeout x); apply returns_raise|apply returns_raise].
    apply returns_ret. intros w2 HR2 HI2. by apply Ho.
Qed.

Lemma rsafe_retrying {A} max wait retry n (body : prog (netE Q) A) (P : A → dworld → Prop) w :
  DI w → (∀ w', DR w w' → DI w' → rsafe P body w') → rsafe P (retrying max wait retry n body) w.
Proof.
  intros Hw. remember (Z.to_nat (max - n)) as left eqn:Hl. revert n w Hw Hl.
  induction left as [|left IH]; intros n w Hw Hl Hbody; rewrite retrying_law.
  all: eapply returns_bind; [apply _|done|apply returns_attempt, returns_stable; [apply _|by apply Hbody]|].
  all: intros [a|x] w1 HR1 HI1 Ha; [by apply returns_ret; intros; apply Ha|].
  all: destruct (negb (retry x)); [apply returns_raise|]; case_bool_decide; [apply returns_raise|].
  - lia.
  - eapply returns_bind; [apply _|done|apply rsafe_sleep|]. intros [] w2 HR2 HI2 _. apply IH; [done|lia|].
    intros w3 HR3 HI3. apply Hbody; [|done]. by do 2 (etrans; [eassumption|]).
Qed.

Lemma rsafe_with_retry {X} settings is_retryable final_error (q : Q X) (P : X → cstate → Prop) w :
  DI w → (∀ s, cloud_moves (cloud w) s → cloud_ok s → admissible X (f X q) s) → tells q w P →
  rsafe (λ a w, P a (cloud w)) (with_retry settings is_retryable final_error q) w.
Proof.
  intros Hw Hq HP. unfold with_retry. eapply returns_bind; [apply _|done|apply returns_attempt, returns_stable; [apply _|]|].
  - apply rsafe_retrying; [done|]. intros w1 HR1 HI1. apply rsafe_call; [done| |].
    + intros s Hs. apply Hq. by etrans.
    + intros s a s' Hs. apply HP. by etrans.
  - intros [a|x] w1 HR1 HI1 Ha; [by apply returns_ret; intros; apply Ha|apply returns_raise].
Qed.
End client.

(** ** The registry's methods *)

Notation tsafe := (returns (λ X e, dhandle X (Net (reroute (@ToTable) X e))) DI DR).
Notation tretry q := (TableRegistry._with_retry registry_settings q).

Lemma query_reads n w :
  DI w → tsafe (λ l w', Forall (λ rec, ∃ e, reads (cloud w) n rec e (cloud w')) l) (tretry (query None (Some n))) w.
Proof.
  intros Hw. apply (rsafe_with_retry (@ToTable) _ _ _ _ (λ l s, Forall (λ rec, ∃ e, reads (cloud w) n rec e s) l)); [done|by intros|].
  intros s l s' Hm Hs. simpl. intros [= <-] Hm' _. apply Forall_forall. intros rec ([p g] & -> & Hin)%list_elem_of_fmap.
  apply query_row_law in Hin as (k & Hk & <-). simpl in Hk. destruct (stored_reads (cloud w) s k p g Hm Hs Hk) as [e He].
  exists e. eapply reads_later; [exact Hm'|]. done.
Qed.

Lemma get_entity_reads n w :
  DI w → tsafe (λ o w', ∀ rec, o = Some rec → ∃ e, reads (cloud w) n rec e (cloud w')) (tretry (get_entity (vert n) n)) w.
Proof.
  intros Hw. apply (rsafe_with_retry (@ToTable) _ _ _ _ (λ o s, ∀ rec, o = Some rec → ∃ e, reads (cloud w) n rec e s)); [done|by intros|].
  intros s o s' Hm Hs. simpl. unfold real_get_entity. pose proof (get_entity_law (vert n) n s.1.1) as Hl.
  destruct (stored s.1.1 !! (vert n, n)) as [[p g]|] eqn:Hk.
  - rewrite Hl. intros [= <-] Hm' _ rec [= <-]. destruct (stored_reads (cloud w) s (vert n, n) p g Hm Hs Hk) as [e He].
    exists e. eapply reads_later; [exact Hm'|]. done.
  - destruct Hl as [m ->]. simpl. by intros [= <-] _ _ rec.
Qed.

Lemma upsert_seen e etag w :
  DI w → owned e → fine (cloud w) e →
  (∀ s, cloud_moves (cloud w) s → justified prov_allowed _ (upsert_entity (vert (en_index_name e)) (en_index_name e) (encode e) etag) s.1) →
  tsafe (λ _ w', seen (cloud w') (en_index_name e) e) (tretry (upsert_entity (vert (en_index_name e)) (en_index_name e) (encode e) etag)) w.
Proof.
  intros Hw Ho Hf Hj. apply (rsafe_with_retry (@ToTable) _ _ _ _ (λ _ s, seen s (en_index_name e) e)); [done| |].
  - intros s Hm Hs. split; [by apply Hj|]. exists e. split_and!; [done..|]. eapply fine_later; [apply Hm|done].
  - intros s g s' Hm Hs. pose proof (upsert_stored stored issued (vert (en_index_name e)) (en_index_name e) (encode e) etag s.1 g (TableRegistry.entry_data_clean e)) as Hst.
    cbn [cserve]. destruct (hserve _ _ s.1) as [r t]. cbn [fst snd] in *. intros Hr Hm' _. apply (seen_later (t, s.2)); [done|].
    split_and!; [done..|by apply (fine_later (cloud w)); [apply Hm|]|]. exists e. split; [|done]. by apply Hst.
Qed.

(** Replacing what was read by an entry it evolves to. *)
Lemma overwrite_seen s0 n rec e u w :
  DI w → reads s0 n rec e (cloud w) → evolves e u → fine (cloud w) u →
  tsafe (λ _ w', seen (cloud w') n u) (tretry (upsert_entity (vert n) n (encode u) (Some (re_etag rec)))) w.
Proof.
  intros Hw Hr Hev Hf. pose proof Hr as (_ & _ & (Hn & Ho & _) & _). rewrite <- (evolves_name e u Hev) in Hn. subst n.
  apply upsert_seen; [done|by eapply evolves_owned|done|]. intros s Hm. split; [apply TableRegistry.entry_data_clean|].
  destruct (reads_later _ _ _ _ _ _ Hm Hr) as (Hrec & Hk & _ & _). exists (key_of u), (encode e). split.
  - unfold known in Hk. rewrite Hrec in Hk. exact Hk.
  - intros _. exists e, u. done.
Qed.

Lemma reads_vertical s0 n rec e s : reads s0 n rec e s → en_vertical e = vert n.
Proof. intros (_ & _ & (<- & Ho & _) & _). exact Ho. Qed.

Lemma decode_reads s0 n rec e w : reads s0 n rec e (cloud w) → tsafe (λ x w', x = e ∧ reads s0 n rec e (cloud w')) (lift (TableRegistry.entity_to_entry rec)) w.
Proof. intros Hr. rewrite (reads_decodes _ _ _ _ _ Hr). apply returns_ret. intros w' HR _. split; [done|]. by eapply reads_later. Qed.

Lemma get_rule n w : DI w → tsafe (λ o w', ∀ e, o = Some e → seen (cloud w') n e) (TableRegistry.get registry_settings n) w.
Proof.
  intros Hw. unfold TableRegistry.get. eapply returns_bind; [apply _|done|by apply query_reads|].
  intros [|rec l] w1 HR1 HI1 Hl; [by apply returns_ret|]. inversion Hl as [|? ? [e He] _]; subst.
  eapply returns_bind; [apply _|done|by apply decode_reads|]. intros x w2 HR2 HI2 [-> Hr]. apply returns_ret.
  intros w3 HR3 _ e' [= <-]. eapply seen_later; [exact HR3|]. apply Hr.
Qed.

Lemma register_rule e w :
  DI w → owned e → fine (cloud w) e → tsafe (λ x w', seen (cloud w') (en_index_name e) x) (TableRegistry.register registry_settings e) w.
Proof.
  intros Hw Ho Hf. unfold TableRegistry.register. rewrite Ho.
  eapply returns_bind; [apply _|done|apply returns_attempt, upsert_seen; [done..|]|].
  { intros s _. split; [apply TableRegistry.entry_data_clean|done]. }
  intros [g|x] w1 HR1 HI1 Ha; [apply returns_ret; intros w2 HR2 _; by eapply seen_later|].
  destruct (TableRegistry.is_conflict x); [|apply returns_raise].
  rewrite Ho. eapply returns_bind; [apply _|done|by apply get_entity_reads|]. intros [rec|] w2 HR2 HI2 Hr; [|apply returns_raise].
  destruct (Hr rec eq_refl) as [c Hc]. eapply returns_weaken; [apply _| |by apply decode_reads].
  intros x' w3 _ _ [-> (_ & _ & ? & _)]. done.
Qed.

Lemma reclaim_rule n o tok now w :
  DI w → seen (cloud w) n o → en_status o = provisioning →
  tsafe (λ x w', seen (cloud w') n x ∧ en_status x = provisioning) (TableRegistry.reclaim registry_settings n o (reclaimed tok now o)) w.
Proof.
  intros Hw Hseen Hs. pose proof Hseen as (Hn & Ho & _). unfold TableRefinement.owned in Ho. rewrite Hn in Ho.
  unfold TableRegistry.reclaim. cbn [en_vertical reclaimed]. rewrite Ho.
  eapply returns_bind; [apply _|done|by apply get_entity_reads|]. intros [rec|] w1 HR1 HI1 Hr; [|apply returns_raise].
  destruct (Hr rec eq_refl) as [c Hc]. eapply returns_bind; [apply _|done|by apply decode_reads|]. intros x w2 HR2 HI2 [-> Hc2].
  case_decide as Hne; [apply returns_raise|]. subst c.
  assert (Hf : fine (cloud w2) (reclaimed tok now o)).
  { destruct Hc2 as (_ & _ & (_ & _ & Hf & _) & _). unfold fine in *. cbn [en_status reclaimed]. rewrite Hs in *. destruct Hf. split; [by eexists|done]. }
  eapply returns_bind; [apply _|done|eapply overwrite_seen; [done|exact Hc2| |exact Hf]|].
  - split; [done|]. cbn [en_status reclaimed]. rewrite Hs. eauto.
  - intros g w3 HR3 HI3 Hx. apply returns_ret. intros w4 HR4 _. split; [by eapply seen_later|done].
Qed.

(** The conditional updates. *)
Lemma rewrite_rule n check updated (P : IndexRegistryEntry → Prop) w :
  DI w →
  (∀ e w', DR w w' → DI w' → seen (cloud w') n e → (∀ o, seen (cloud w) n o → evolves o e) → check e = Ok tt →
     tsafe (λ u w', P u ∧ evolves e u ∧ fine (cloud w') u) (updated e) w') →
  tsafe (λ x w', seen (cloud w') n x ∧ P x) (TableRegistry.rewrite_entry registry_settings n check updated) w.
Proof.
  intros Hw Hupd. unfold TableRegistry.rewrite_entry, TableRegistry._require_record.
  eapply (returns_bind _ _ _ (λ rec w', ∃ e, reads (cloud w) n rec e (cloud w'))); [done| |].
  { eapply returns_bind; [apply _|done|by apply query_reads|]. intros [|rec l] w1 HR1 HI1 Hl; [apply returns_raise|].
    inversion Hl as [|? ? [e He] _]; subst. apply returns_ret. intros w2 HR2 _. exists e. by eapply reads_later. }
  intros rec w1 HR1 HI1 [e Hr1]. eapply returns_bind; [apply _|done|by apply decode_reads|]. intros x w2 HR2 HI2 [-> Hr2].
  eapply (returns_bind _ _ _ (λ _ _, check e = Ok tt)); [done|by apply returns_lift; intros []|]. intros [] w3 HR3 HI3 Hchk.
  pose proof (reads_later _ _ _ _ _ _ HR3 Hr2) as Hr3. pose proof Hr3 as (_ & _ & Hseen & Hknow).
  eapply returns_bind; [apply _|done|apply Hupd; [by do 2 (etrans; [eassumption|])|done..]|]. intros u w4 HR4 HI4 (HP & Hev & Hf).
  rewrite (reads_vertical _ _ _ _ _ Hr3).
  eapply returns_bind; [apply _|done|eapply overwrite_seen; [done|by eapply reads_later|exact Hev|exact Hf]|].
  intros g w5 HR5 HI5 Hx. apply returns_ret. intros w6 HR6 _. split; [by eapply seen_later|done].
Qed.

Lemma touch_rule n e w :
  DI w → seen (cloud w) n e → en_status e = ready →
  tsafe (λ x w', seen (cloud w') n x ∧ en_status x = ready) (TableRegistry.touch_verified registry_settings n) w.
Proof.
  intros Hw Hseen Hs. apply rewrite_rule; [done|]. intros c w1 HR1 HI1 Hc Hknow _.
  destruct (Hknow e Hseen) as [_ Hev]. rewrite Hs in Hev. assert (Hcs : en_status c = ready) by by destruct (en_status c).
  eapply returns_bind; [apply _|done|apply rsafe_utcnow|]. intros now w2 HR2 HI2 _. apply returns_ret. intros w3 HR3 _.
  split_and!; [done|split; [done|]; cbn [en_status touched]; rewrite Hcs; eauto|].
  assert (Hf : fine (cloud w3) c) by (eapply seen_later; [exact (transitivity HR2 HR3)|done]).
  unfold fine in *. cbn [en_status touched]. by rewrite Hcs in *.
Qed.

(** A write that presents the token of a claim meets that claim. *)
Lemma token_meets_claim s0 s n won c :
  seen s0 n won → en_status won = provisioning → seen s n c → evolves won c →
  _check_claim_token c (en_claim_token won) = Ok tt → en_status c = provisioning ∧ core c = core won ∧ en_index_name c = n.
Proof.
  intros (_ & _ & Hf & _) Hs Hc [Hcore _] Hchk. pose proof (check_claim_token_ok c (en_claim_token won)) as Ht. rewrite Hchk in Ht.
  unfold fine in Hf. rewrite Hs in Hf. destruct Hf as [[t Htok] _]. rewrite Htok in Ht. destruct Ht as [|Ht]; [done|].
  split_and!; [|done|by destruct Hc]. eapply seen_has_token; [exact Hc|]. by rewrite Ht.
Qed.

Lemma ready_rule n won w :
  DI w → seen (cloud w) n won → en_status won = provisioning → live (cloud w) n = Some (recorded won) →
  tsafe (λ x w', seen (cloud w') n x ∧ en_status x = ready) (TableRegistry.mark_ready registry_settings n (en_claim_token won)) w.
Proof.
  intros Hw Hseen Hs Hlive. apply rewrite_rule; [done|]. intros c w1 HR1 HI1 Hc Hknow Hchk.
  destruct (token_meets_claim (cloud w) (cloud w1) n won c) as (Hcs & Hcore & Hn); [done..|by apply Hknow|done|].
  eapply returns_bind; [apply _|done|apply rsafe_utcnow|]. intros now w2 HR2 HI2 _. apply returns_ret. intros w3 HR3 _.
  split_and!; [done|split; [done|]; cbn [en_status made_ready]; by rewrite Hcs|]. split; [done|]. cbn [en_index_name made_ready]. rewrite Hn.
  assert (Hm : live_grows (cloud w) (cloud w3)) by apply (transitivity HR1 (transitivity HR2 HR3)).
  rewrite (Hm _ _ Hlive). unfold recorded, core in *. cbn [en_dimensions en_metric made_ready]. congruence.
Qed.

Lemma failed_rule n m won w :
  DI w → seen (cloud w) n won → en_status won = provisioning →
  tsafe (λ _ _, True) (TableRegistry.mark_failed registry_settings n m (en_claim_token won)) w.
Proof.
  intros Hw Hseen Hs. eapply returns_weaken; [apply _| |apply (rewrite_rule _ _ _ (λ _, True)); [done|]]; [done|].
  intros c w1 HR1 HI1 Hc Hknow Hchk.
  destruct (token_meets_claim (cloud w) (cloud w1) n won c) as (Hcs & Hcore & Hn); [done..|by apply Hknow|done|].
  apply returns_ret. intros w3 HR3 _. split_and!; [done|split; [done|]; cbn [en_status made_failed]; by rewrite Hcs|done].
Qed.

(** ** The adapter's methods *)

Notation ssafe := (returns (λ X e, dhandle X (Net (reroute (@ToSearch) X e))) DI DR).
Notation sretry q := (AzureProvisioner._with_retry adapter_settings q).

Lemma schema_rule n w :
  DI w → ssafe (λ o w', ∀ x, o = Some x → live (cloud w') n = Some (mkDescription x.1 x.2)) (sretry (AzureProvisioner.get_index_schema n)) w.
Proof.
  intros Hw. apply (rsafe_with_retry (@ToSearch) _ _ _ _ (λ o s, ∀ x, o = Some x → live s n = Some (mkDescription x.1 x.2))); [done|done|].
  intros s o s' Hm Hs. cbn [cserve AzureProvisioner.serve fst snd]. rewrite (real_get_index_schema_ok indexes). intros [= <-] Hm' _ x Hx.
  apply Hm'. unfold live. simpl. by rewrite Hx.
Qed.

Lemma exists_rule n w : DI w → ssafe (λ _ _, True) (AzureProvisioner.index_exists adapter_settings n) w.
Proof. intros Hw. eapply returns_bind; [apply _|done|by apply schema_rule|]. intros o w1 _ _ _. by apply returns_ret. Qed.

Lemma describe_rule n w : DI w → ssafe (λ o w', ∀ d, o = Some d → live (cloud w') n = Some d) (AzureProvisioner.describe_index adapter_settings n) w.
Proof.
  intros Hw. eapply returns_bind; [apply _|done|by apply schema_rule|]. intros o w1 _ _ Ho. apply returns_ret.
  intros w2 HR2 _ d. destruct o as [[dim m]|]; [|done]. intros [= <-]. apply HR2. by apply (Ho _ eq_refl).
Qed.

Lemma create_rule n t d m w : DI w → ssafe (λ _ _, True) (AzureProvisioner.create_index adapter_settings n t d m) w.
Proof. intros Hw. by apply (rsafe_with_retry (@ToSearch) _ _ _ _ (λ _ _, True)). Qed.

(** ** The cache *)

(** What may be put into a cache, and what it gives back. *)
Definition may_keep {X} (e : slotE X) (s : cstate) : Prop :=
  match e with KeepName k (Some v) => seen s k v | _ => True end.

Definition gives_back {X} (e : slotE X) (r : X) (s : cstate) : Prop :=
  match e in slotE X return X → Prop with CachedName k => λ r, ∀ v, r = Some (Some v) → seen s k v | _ => λ _, True end r.

Lemma shandle_ok (P : string → IndexRegistryEntry → Prop) now X (e : slotE X) c :
  (∀ k v t, dict_get k c.1 = Some (Some v, t) → P k v) →
  match e with KeepName k (Some v) => P k v | _ => True end →
  (∀ k v t, dict_get k (shandle now X e c).2.1 = Some (Some v, t) → P k v) ∧
  match e in slotE X return X → Prop with CachedName k => λ r, ∀ v, r = Some (Some v) → P k v | _ => λ _, True end (shandle now X e c).1.
Proof.
  intros Hc. destruct e as [k|k|k v|k v|]; cbn [shandle fst snd]; intros He; [|by split| |by split|by split].
  - split; [done|]. intros v (t & Hv & _)%slot_lookup_some. by eapply Hc.
  - split; [|done]. intros k' v' t' Hk'.
    by eapply (slot_store_inv (λ k o _, ∀ v, o = Some v → P k v) now k v c.1); [naive_solver| |exact Hk'|]; [destruct v; naive_solver|].
Qed.

Lemma slot_safe c X (e : slotE X) w :
  DI w → may_keep e (cloud w) →
  let '(r, w') := dhandle _ (Slot c e) w in DI w' ∧ DR w w' ∧ gives_back e r (cloud w').
Proof.
  intros [Hn Hc] He. pose proof (shandle_ok (seen (cloud w)) (monotonic (dw_accesses w)) X e (dw_caches w c) (Hc c) He) as [Hs Hr].
  cbn [dhandle]. destruct (shandle _ X e (dw_caches w c)) as [r s]. split_and!; [|unfold DR; reflexivity|exact Hr].
  split; [exact Hn|]. intros d k v t. cbn [dw_caches]. case_decide; [apply Hs|apply Hc].
Qed.

Lemma slot_perform c X (e : slotE X) w :
  (∀ w', DR w w' → may_keep e (cloud w')) →
  returns dhandle DI DR (λ r w', gives_back e r (cloud w')) (perform (Slot c e)) w.
Proof.
  intros He. apply safe_perform. intros w' HR HI. pose proof (slot_safe c X e w' HI (He w' HR)) as H.
  destruct (dhandle _ (Slot c e) w') as [r w'']. destruct H as (HI' & HR' & Hr). split_and!; [done..|]. cbn [fst snd] in *. intros w3 HR3 _.
  destruct e as [k|k|k v|k v|]; try done. simpl in *. intros v Hv. eapply seen_later; [exact HR3|]. by apply Hr.
Qed.

(** ** The registry, with or without its decorator *)

Notation csafe c := (returns_via dhandle DI DR (cache_method c)).

(** A call on the wrapped registry. *)
Lemma wrapped_safe {A} c (P : A → dworld → Prop) (d : CachedIndexRegistry.regE (result exn A)) p w :
  table_method _ d = attempt (route (@ToTable) p) → tsafe P p w → csafe c P (call (CachedIndexRegistry.RWrapped d)) w.
Proof. intros Hd Hp. eapply via_call; [apply _|exact Hd|]. by apply returns_renamed. Qed.

Lemma write_through_safe {A} c (P : A → dworld → Prop) (d : CachedIndexRegistry.regE (result exn A)) p w :
  DI w → table_method _ d = attempt (route (@ToTable) p) → tsafe P p w →
  csafe c P (write_through (CachedIndexRegistry.RWrapped d) CachedIndexRegistry.RClear) w.
Proof.
  intros Hw Hd Hp. unfold write_through. eapply via_bind; [apply _|done|by eapply wrapped_safe; [exact Hd|apply returns_stable; [apply _|exact Hp]]|].
  intros a w1 HR1 HI1 Ha. eapply via_bind; [apply _|done|apply via_perform; [apply _|by apply slot_perform]|].
  intros [] w2 HR2 HI2 _ w3 HR3 HI3. apply Ha; [by etrans|done].
Qed.

Lemma cached_get_safe c n w : DI w → csafe c (λ o w', ∀ e, o = Some e → seen (cloud w') n e) (CachedIndexRegistry.get n) w.
Proof.
  intros Hw. unfold CachedIndexRegistry.get, read_through.
  eapply via_bind; [apply _|done|apply via_perform; [apply _|by apply (slot_perform c _ (CachedName n))]|]. intros [o|] w1 HR1 HI1 Ho.
  { intros w2 HR2 _ e ->. eapply seen_later; [exact HR2|]. by apply Ho. }
  eapply via_bind; [apply _|done|by eapply wrapped_safe; [reflexivity|apply get_rule]|]. intros o w2 HR2 HI2 Hv.
  eapply via_bind; [apply _|done|apply via_perform; [apply _|apply (slot_perform c _ (KeepName n o))]|].
  - intros w3 HR3. destruct o as [e|]; [|done]. eapply seen_later; [exact HR3|]. by apply Hv.
  - intros [] w3 HR3 HI3 _ w4 HR4 _ e ->. eapply seen_later; [exact (transitivity HR3 HR4)|]. by apply Hv.
Qed.

(** ** The provisioner's logic *)

Section worker.
Context (cache : option nat).

Definition deployed_logic : ProvLogic := {|
  pl_world := dworld; pl_ok := DI; pl_moves := DR; pl_live w := live (cloud w); pl_seen w := seen (cloud w);
  pl_claimable vertical n := vertical = vert n;
  psafe A := returns_via dhandle DI DR (lower cache);
|}.

Notation wsafe := (returns_via dhandle DI DR (lower cache)).

(** A write on the registry, from what the table-backed method does. *)
Lemma registry_write {A} (P : A → dworld → Prop) (e : provE (result exn A)) d p w :
  DI w → lower cache _ e = registry_method cache d (write_through (CachedIndexRegistry.RWrapped d) CachedIndexRegistry.RClear) →
  table_method _ d = attempt (route (@ToTable) p) → tsafe P p w → wsafe P (call e) w.
Proof.
  intros Hw He Hd Hp. unfold registry_method in He. destruct cache as [c|].
  - eapply via_call; [apply _|exact He|]. apply via_translate; [apply _|done|]. by eapply write_through_safe.
  - rewrite Hd in He. eapply via_call; [apply _|exact He|]. by apply returns_renamed.
Qed.

Lemma registry_get n w : DI w → wsafe (λ o w', ∀ e, o = Some e → seen (cloud w') n e) (call (RGetEntry n)) w.
Proof.
  intros Hw. destruct cache as [c|] eqn:Hc.
  - eapply via_call; [apply _|reflexivity|]. apply via_translate; [apply _|done|]. by apply cached_get_safe.
  - eapply via_call; [apply _|reflexivity|]. by apply returns_renamed, get_rule.
Qed.

Lemma search_call {A} (P : A → dworld → Prop) (e : provE (result exn A)) p w :
  lower cache _ e = attempt (route (@ToSearch) p) → ssafe P p w → wsafe P (call e) w.
Proof. intros He Hp. eapply via_call; [apply _|exact He|]. by apply returns_renamed. Qed.

Lemma deployed_rules : ProvRules deployed_logic.
Proof.
  constructor; cbn [deployed_logic pl_world pl_ok pl_moves pl_live pl_seen pl_claimable psafe].
  - apply _.
  - intros w w' n d [_ Hl]. apply Hl.
  - intros w w' n e. apply seen_later.
  - by intros w n e [? _].
  - intros w n e. apply seen_has_token.
  - intros A B P Q p f w Hw. by apply via_bind; [apply _|].
  - intros A P p w. apply via_attempt. apply _.
  - intros A P a w H. exact H.
  - done.
  - intros A P Q p w. apply via_weaken. apply _.
  - intros w Hw. apply via_perform; [apply _|]. apply safe_perform. intros w1 _ HI. split_and!; [exact HI|unfold DR; reflexivity|done].
  - intros w Hw. apply via_perform; [apply _|]. apply safe_perform. intros w1 _ HI. split_and!; [exact HI|unfold DR; reflexivity|done].
  - intros d w Hw. intros w1 _ HI. split_and!; [exact HI|unfold DR; reflexivity|]. cbn. case_bool_decide; by intros w2.
  - intros n w. apply registry_get.
  - intros e w Hw Hv Hs Ht Hr. eapply registry_write; [done|reflexivity..|]. apply register_rule; [done|done|]. unfold fine. by rewrite Hs.
  - intros n o tok now w Hw Hseen Hs. by eapply registry_write; [done|reflexivity..|apply reclaim_rule].
  - intros n e w Hw Hseen Hs. by eapply registry_write; [done|reflexivity..|eapply touch_rule].
  - intros n won w Hw Hseen Hs Hl. by eapply registry_write; [done|reflexivity..|apply ready_rule].
  - intros n m won w Hw Hseen Hs. by eapply registry_write; [done|reflexivity..|apply failed_rule].
  - intros n w Hw. eapply search_call; [done|by apply exists_rule].
  - intros n w Hw. eapply search_call; [done|by apply describe_rule].
  - intros n t d m w Hw. eapply search_call; [done|by apply create_rule].
Qed.
End worker.

(** ** The processes of a deployment *)

(** A worker that runs [ensure], on the table-backed registry or on its decorator with the given
    cache; or the network executing delayed requests. *)
Inductive process :=
| Worker (cache : option nat) (k : ProvisionerSafety.worker)
| Network (deliveries : list nat).

(** Of the environment only [repr] is used. *)
Context {env : ProvisionerEnv}.

Definition process_prog (p : process) : prog deployE (option IndexRegistryEntry) :=
  match p with
  | Worker cache k => deploy cache (ProvisionerSafety.worker_prog k)
  | Network ds => pfold (λ _ i, perform (Net (Deliver i))) tt ds ;; Ret None
  end.

Definition process_post (p : process) (o : option IndexRegistryEntry) (w : dworld) : Prop :=
  match p with
  | Worker _ k => ∀ e, o = Some e → seen (cloud w) (sc_index_name (ProvisionerSafety.wk_scenario k)) e ∧ en_status e = ready
  | Network _ => True
  end.

(** The scenario's index name belongs to its vertical. *)
Definition scenario_owned (p : process) : Prop :=
  match p with
  | Worker _ k => sc_vertical (ProvisionerSafety.wk_scenario k) = vert (sc_index_name (ProvisionerSafety.wk_scenario k))
  | Network _ => True
  end.

Lemma deployed_network_safe ds w : DI w → returns dhandle DI DR (λ _ _, True) (pfold (λ _ i, perform (Net (Deliver i))) tt ds) w.
Proof.
  revert w. induction ds as [|i ds IH]; intros w Hw; cbn [pfold]; [by apply returns_ret|].
  eapply (returns_bind _ _ _ (λ _ _, True)); [done| |intros [] w' _ HI' _; by apply IH].
  apply safe_perform. intros w' _ HI'. destruct (deliver_safe i w' HI'). by split_and!.
Qed.

Lemma deployed_process_safe p w : DI w → scenario_owned p → returns dhandle DI DR (process_post p) (process_prog p) w.
Proof.
  intros Hw Hp. destruct p as [cache k|ds].
  - apply via_translate; [apply _|done|].
    by apply (psafe_ensure (logic := deployed_logic cache) (rules := deployed_rules cache) _ _ (ProvisionerSafety.wk_scenario k) Hp).
  - eapply returns_bind; [apply _|done|by apply deployed_network_safe|]. intros _ w' _ _ _. by apply returns_ret.
Qed.

Lemma deployed_pool_safe processes w pool' w' :
  DI w → Forall scenario_owned processes → rtc (sched_step dhandle) (map process_prog processes, w) (pool', w') →
  DI w' ∧ DR w w' ∧ ∀ i p o, processes !! i = Some p → pool' !! i = Some (Ret o) → process_post p o w'.
Proof.
  intros Hw Hall Hsteps.
  set (post i (r : result exn (option IndexRegistryEntry)) w :=
    match r with Ok o => ∀ p, processes !! i = Some p → process_post p o w | Exc _ => True end).
  destruct (safe_pool dhandle DI DR post (map process_prog processes) pool' w w' Hw) as (HI & HR & Hpost); [|done|].
  - intros i q Hq. rewrite list_lookup_fmap in Hq. destruct (processes !! i) as [p|] eqn:Hi; [|done]. injection Hq as <-.
    eapply safe_weaken; [apply _| |apply (deployed_process_safe p w Hw); by eapply Forall_lookup_1].
    intros [o|x] w1 _ _; [|done]. intros Ho p' Hp'. rewrite Hi in Hp'. by injection Hp' as <-.
  - split_and!; [done..|]. intros i p o Hi Ho. exact (Hpost i _ Ho w' (reflexivity w') HI p Hi).
Qed.

(** The table holds nothing but entries in order. *)
Lemma table_versions s k d : cloud_ok s → data_of stored s.1.1 !! k = Some d → version_ok s k d.
Proof.
  intros Hs. rewrite (data_of_lookup stored issued) by apply Hs. destruct (stored s.1.1 !! k) as [[p g]|] eqn:Hk; [|done].
  destruct (entity_entry s k p g Hs Hk) as (e & -> & -> & _ & (_ & Ho & Hf & _) & _). intros [= <-]. by exists e.
Qed.

Lemma ready_evolves e e' : en_status e = ready → evolves e e' → e' = e ∨ ∃ now, e' = touched now e.
Proof. intros Hs [_ Hev]. rewrite Hs in Hev. by destruct (en_status e'). Qed.
End system.

(** ** Properties *)

(** C4: the provisioner in production. Any number of workers run [ensure] at once; each of its
    registry calls is [TableStorageIndexRegistry]'s reads and conditional writes on Azure Table
    Storage, behind [CachedIndexRegistry] and a cache shared with other workers or not, and each of
    its adapter calls is [AzureAISearchProvisioner]'s requests to Azure AI Search, with timeouts
    and retries. They interleave between any two requests, every request may be refused, executed
    without an answer, lost, or executed at any later moment, and caches may be stale; every index
    name belongs to one vertical, the table being keyed by both. Then the
    table only ever holds entries in order, under their own keys (a claim with its token and its
    template, a finished entry without token, a ready entry whose schema is that of a live index);
    every stored entry only moves along the protocol; no live index is lost or changes its schema;
    and an [ensure] that returns gives a ready entry of its scenario's index, which is live with
    the dimensions and metric the entry records, and which is still stored, up to later
    verifications. *)
Theorem deployment_safe {codec : TableRegistry.EntryCodec} {tenacity : Tenacity} registry_settings adapter_settings
    {client : TableClient} {sdk : SearchSDK} fates utc monotonic ttl_seconds tokens stored issued (table_laws : TableLaws stored issued)
    indexes (search_laws : SearchLaws indexes) (codec_laws : TableRegistry.EntryCodecLaws codec) vert {env : ProvisionerEnv}
    processes s pool' w' :
  cloud_ok stored issued indexes vert s → Forall (scenario_owned vert) processes →
  rtc (sched_step (dhandle fates utc monotonic ttl_seconds tokens))
    (map (process_prog registry_settings adapter_settings) processes, start s) (pool', w') →
  let s' := cloud w' in
  (∀ k d, data_of stored s'.1.1 !! k = Some d → version_ok indexes vert s' k d) ∧
  (∀ e, stores stored vert s e → ∃ e', stores stored vert s' e' ∧ evolves e e') ∧
  (∀ n d, live indexes s n = Some d → live indexes s' n = Some d) ∧
  ∀ i c k e, processes !! i = Some (Worker c k) → pool' !! i = Some (Ret (Some e)) →
    en_status e = ready ∧ en_index_name e = sc_index_name (ProvisionerSafety.wk_scenario k) ∧
    live indexes s' (en_index_name e) = Some (recorded e) ∧
    ∃ e', stores stored vert s' e' ∧ (e' = e ∨ ∃ now, e' = touched now e).
Proof.
  intros Hs Hall Hsteps s'.
  assert (Hw : DI stored issued indexes vert (start s)).
  { split; [|done]. split; [done|]. intros X q Hin. by apply elem_of_nil in Hin. }
  destruct (deployed_pool_safe registry_settings adapter_settings fates utc monotonic ttl_seconds tokens stored issued indexes vert _ _ _ _ Hw Hall Hsteps) as (HI & HR & Hpost).
  split_and!; [intros k d; by apply (table_versions stored issued indexes vert), (DI_ok stored issued indexes vert)|by intros e; apply (stores_later stored indexes vert)|apply HR|].
  intros i c k e Hi Ho. destruct (Hpost i _ _ Hi Ho e eq_refl) as [(Hn & _ & Hf & e' & He' & Hev) Hr].
  unfold fine in Hf. rewrite Hr in Hf. split_and!; [done..|apply Hf|]. exists e'. split; [done|by apply ready_evolves].
Qed.

(** ** A concrete deployment

    Two workers on one scenario and an empty cloud, one of them with a cache; the answer to a claim is lost, and a request
    times out that the network executes at the end. *)

Definition demo_fates (n : nat) : fate := match n with 2%nat => ServedSilently | 7%nat => Delayed | _ => Served end.

Notation demo_handle := (dhandle (client := MemoryTable.memory_client) (sdk := memory_search []) demo_fates Z.of_nat Z.of_nat 3 pretty).
Notation demo_process := (process_prog (codec := TableRegistry.example_codec) (tenacity := loop_tenacity) (env := InMemoryProvisioner.demo_env)
  TableRegistry.example_settings AzureProvisioner.example_settings).

Definition demo_cloud : (MemoryTable.memory * list (string * ((string * string) * props))) * search_state :=
  ((MemoryTable.empty_memory, []), mkSearch ∅ (λ _, ∅)).

Definition demo_processes : list process :=
  [Worker (Some 0%nat) (InMemoryProvisioner.demo_worker 12); Worker None (InMemoryProvisioner.demo_worker 12); Network [0%nat]].

Definition demo_final :=
  sched_exec demo_handle (concat (replicate 60 [0; 1]) ++ [2])%nat (map demo_process demo_processes, start (client := MemoryTable.memory_client) (sdk := memory_search []) demo_cloud).

Definition demo_entry : IndexRegistryEntry :=
  mkEntry "hr-index" "hr" "hr-1" "standard-v1" "1" 384 "cosine" "nomic" ready 0 (Some 5) None None None None None.

Lemma demo_cloud_ok :
  cloud_ok (codec := TableRegistry.example_codec) (client := MemoryTable.memory_client) (sdk := memory_search []) MemoryTable.stored MemoryTable.me_issued
    ms_indexes (λ _, "hr") demo_cloud.
Proof. split; [apply MemoryTable.empty_hist_ok|]. intros g k d Hin. by apply elem_of_nil in Hin. Qed.

Lemma deployment_demo_steps :
  rtc (sched_step demo_handle) (map demo_process demo_processes, start (client := MemoryTable.memory_client) (sdk := memory_search []) demo_cloud) (demo_final.1, demo_final.2).
Proof. rewrite <- surjective_pairing. unfold demo_final. apply sched_exec_rtc. Qed.

Lemma deployment_safe_witness :
  demo_final.1 !! 0%nat = Some (Ret (Some demo_entry)) ∧
  live (sdk := memory_search []) (client := MemoryTable.memory_client) ms_indexes (cloud demo_final.2) "hr-index" = Some (mkDescription 384 "cosine").
Proof.
  assert (Hpool : demo_final.1 !! 0%nat = Some (Ret (Some demo_entry))) by (vm_compute; reflexivity). split; [exact Hpool|].
  destruct (deployment_safe (codec := TableRegistry.example_codec) (tenacity := loop_tenacity) TableRegistry.example_settings AzureProvisioner.example_settings
    (client := MemoryTable.memory_client) (sdk := memory_search []) demo_fates Z.of_nat Z.of_nat 3 pretty MemoryTable.stored MemoryTable.me_issued MemoryTable.memory_laws
    ms_indexes (memory_search_laws []) TableRegistry.example_codec_laws (λ _, "hr") (env := InMemoryProvisioner.demo_env)
    demo_processes demo_cloud demo_final.1 demo_final.2 demo_cloud_ok) as (_ & _ & _ & H); [by repeat constructor|exact deployment_demo_steps|].
  destruct (H 0%nat (Some 0%nat) (InMemoryProvisioner.demo_worker 12) demo_entry eq_refl Hpool) as (_ & _ & Hl & _). exact Hl.
Defined.
End Deployment.
