(* ===== verification/IndexConcurrency.v ===== *)
(** * The Azure index under concurrency

    Several workers use the adapter of indexer/adapters/azure_ai_search.py on one index at the
    same time, over a network that may execute any of their requests late, twice, or not at all.
    The service has no conditional writes, so workers can overwrite and delete each other's
    records; what holds is that a stored document is always one whole record of some worker, that
    each change of it is a step of some call, and that calls on other documents do not touch it. *)
From S2P Require Import Prelude PyDict Types Prog Rely Net AzureSearch MemorySearch AzureIndexer.
#[local] Open Scope Z_scope.
#[local] Open Scope py_scope.

Module IndexConcurrency.
Import AzureIndexer.

#[local] Arguments pbind : simpl never.
#[local] Arguments attempt : simpl never.
#[local] Arguments call : simpl never.
#[local] Arguments perform : simpl never.
#[local] Opaque record_map.

(** ** The calls of the workers *)

Inductive icall :=
| IUpsert (records : list IndexRecord)
| IDelete (doc_id : string)
| IVersion (doc_id : string)
| ICount (doc_id : string)
(** The network executes delayed requests. *)
| INetwork (deliveries : list nat).

Inductive ireply :=
| Upserted (outcome : UpsertOutcome)
| Deleted (n : Z)
| VersionIs (v : option string)
| Counted (n : Z)
| Delivered.

Section calls.
Context {sdk : SearchSDK} (docs : sd_state → string → gmap string (gmap string jval)) {doc_laws : DocumentLaws docs}.
Context {codec : DocumentCodec} (fromisoformat : string → option Z) (iso_roundtrip : ∀ t, fromisoformat (isoformat t) = Some t).
Context {tenacity : Tenacity} (self : AzureAISearchIndexer) (fates : nat → fate) (utc : nat → Z).

Notation name := (az_index_name self).

Definition serve_icall (c : icall) : prog (netE searchQ) ireply :=
  match c with
  | IUpsert rs => o ← upsert self rs; Ret (Upserted o)
  | IDelete d => n ← delete_by_doc_id self d; Ret (Deleted n)
  | IVersion d => v ← get_doc_version self d; Ret (VersionIs v)
  | ICount d => n ← count_by_doc_id self d; Ret (Counted n)
  | INetwork ds => pfold (λ _ i, perform (Deliver i)) tt ds ;; Ret Delivered
  end.

(** The record stored under a chunk id. *)
Definition record_at (st : sd_state) (c : string) : option IndexRecord := docs st name !! c ≫= doc_record fromisoformat.

(** The records that were there, what may be upserted in one call and which documents may be
    deleted, and the document a chunk id belongs to. *)
Context (initial : IndexRecord → Prop) (may_upsert : list IndexRecord → Prop) (may_delete : string → Prop) (owner : string → string).

(** The records that may be found in the index. *)
Definition upserted (r : IndexRecord) : Prop := ∃ rs, may_upsert rs ∧ r ∈ rs.
Definition written (r : IndexRecord) : Prop := initial r ∨ upserted r.

(** One call's effect on the record of a chunk: an upsert's record replaces what is there, or a
    deletion of its document removes it. *)
Definition record_step (c : string) (o o' : option IndexRecord) : Prop :=
  match o' with
  | Some r => ir_chunk_id r = c ∧ upserted r
  | None => ∃ r, o = Some r ∧ may_delete (ir_doc_id r)
  end.

(** A chunk id belongs to one document, and an upsert names each chunk once. *)
Definition well_keyed : Prop :=
  (∀ r, written r → ir_doc_id r = owner (ir_chunk_id r)) ∧ ∀ rs, may_upsert rs → NoDup (map ir_chunk_id rs).

Context (Hkeyed : well_keyed).

Definition intact (st : sd_state) : Prop :=
  ∀ c m, docs st name !! c = Some m → ∃ r, written r ∧ m = record_map r ∧ ir_chunk_id r = c.

Definition record_moves (st st' : sd_state) : Prop := ∀ c, rtc (record_step c) (record_at st c) (record_at st' c).

(** The requests the calls make, and nothing else. *)
Definition requested (X : Type) (q : searchQ X) (st : sd_state) : Prop :=
  match q with
  | upload_documents n ds => n = name ∧ ∃ rs, may_upsert rs ∧ ds = map _record_to_document rs
  | delete_documents n cs => n = name ∧ ∃ d, may_delete d ∧ Forall (λ c, owner c = d) cs
  | create_or_update_index _ => False
  | _ => True
  end.

#[local] Instance record_moves_preorder : PreOrder record_moves.
Proof. split; [intros st c; reflexivity|]. intros s1 s2 s3 H1 H2 c. etrans; [apply H1|apply H2]. Qed.

Lemma record_at_map st c r : docs st name !! c = Some (record_map r) → record_at st c = Some r.
Proof. intros Hc. unfold record_at. rewrite Hc. simpl. by rewrite doc_record_map. Qed.

(** What one request changes about one chunk. *)
Lemma intact_by st st' :
  intact st →
  (∀ c, docs st' name !! c = docs st name !! c ∨
        (∃ r, upserted r ∧ ir_chunk_id r = c ∧ docs st' name !! c = Some (record_map r)) ∨
        (may_delete (owner c) ∧ docs st' name !! c = None)) →
  intact st' ∧ record_moves st st'.
Proof.
  intros Hst Hc. split.
  - intros c m Hm. destruct (Hc c) as [Hsame|[(r & Hr & Hrc & Hnew)|[_ Hnone]]].
    + rewrite Hsame in Hm. by apply Hst.
    + rewrite Hnew in Hm. injection Hm as <-. exists r. split; [by right|done].
    + congruence.
  - intros c. destruct (Hc c) as [Hsame|[(r & Hr & Hrc & Hnew)|[Hdel Hnone]]].
    + unfold record_at. by rewrite Hsame.
    + rewrite (record_at_map st' c r Hnew). apply rtc_once. done.
    + destruct (docs st name !! c) as [m|] eqn:Hm; [|unfold record_at; by rewrite Hm, Hnone].
      destruct (Hst c m Hm) as (r & Hr & -> & <-). rewrite (record_at_map st _ r Hm).
      replace (record_at st' (ir_chunk_id r)) with (@None IndexRecord) by (unfold record_at; by rewrite Hnone).
      apply rtc_once. exists r. split; [done|]. by rewrite (proj1 Hkeyed r Hr).
Qed.

Lemma upload_keys rs : map doc_key (map _record_to_document rs) = map Some (map ir_chunk_id rs).
Proof. rewrite !map_map. by apply map_ext. Qed.

Lemma serve_requested X (q : searchQ X) st :
  intact st → requested X q st → intact (serve X q st).2 ∧ record_moves st (serve X q st).2.
Proof.
  intros Hst. destruct q as [n|d|n ds|n cs|n d]; cbn [requested serve snd]; [by intros _|done| | |by intros _].
  - intros (-> & rs & Hrs & ->). pose proof (upload_law name _ _ st (upload_keys rs) (proj2 Hkeyed rs Hrs)) as Hl.
    destruct (sd_merge_or_upload_documents name _ st) as [r st']. destruct Hl as [Hl _]. apply intact_by; [done|]. intros c.
    destruct (Hl c) as [?|(d & Hd & Hdk & Hm)]; [by left|]. right. left. apply list_elem_of_fmap in Hd as (r0 & -> & Hr0).
    exists r0. split_and!; [by exists rs|by injection Hdk|]. cbn [snd]. rewrite Hm. f_equal. apply merged_record. intros m Hc.
    destruct (Hst c m Hc) as (r1 & _ & -> & _). by exists r1.
  - intros (-> & d & Hd & Hcs). unfold real_delete_documents.
    assert (Hkeys : map doc_key (map (λ cid, [("chunk_id", JStr cid)]) cs) = map Some cs) by by rewrite map_map.
    pose proof (delete_documents_law name _ cs st Hkeys) as Hl. destruct (sd_delete_documents name _ st) as [r st'].
    assert (Hc : ∀ c, docs st' name !! c = docs st name !! c ∨ c ∈ cs ∧ docs st' name !! c = None) by apply Hl.
    assert (Hgoal : intact st' ∧ record_moves st st'); [|by destruct r].
    apply intact_by; [done|]. intros c. destruct (Hc c) as [?|[Hin Hnone]]; [by left|]. right. right. split; [|done].
    rewrite Forall_forall in Hcs. by rewrite (Hcs c Hin).
Qed.

(** ** Each call is safe *)

Notation isafe := (nsafe serve fates utc intact record_moves requested).
Notation istable := (stable record_moves).
Notation NI' := (NI intact requested).

Lemma requested_later X (q : searchQ X) st st' : record_moves st st' → requested X q st → requested X q st'.
Proof. by destruct q. Qed.

Lemma retry_safe {X} (Φ : X → sd_state → Prop) (q : searchQ X) w :
  NI' w → istable Φ → (∀ st, requested X q st) →
  (∀ st a, intact st → (serve X q st).1 = Ok a → Φ a (serve X q st).2) →
  isafe Φ (_with_retry self q) w.
Proof.
  intros Hw Hst Hq HΦ. apply nsafe_with_retry; [apply _|apply requested_later|apply serve_requested|done..|].
  intros st a _ Hi. by apply HΦ.
Qed.

Lemma istable_pure {A} (P : A → Prop) : istable (λ a _, P a).
Proof. by intros a st st' _. Qed.

(** A document of a search: a record of the document asked for. *)
Definition found (d : string) (m : document) : Prop :=
  ∃ r, written r ∧ ir_doc_id r = d ∧ m = project ["chunk_id"; "doc_version"] (record_map r).

Lemma search_safe d w : NI' w → isafe (λ l _, Forall (found d) l) (_with_retry self (documents_for_doc_id name d)) w.
Proof.
  intros Hw. apply retry_safe; [done|by apply istable_pure|done|]. intros st l Hst Hl. cbn [serve fst] in Hl.
  destruct (search_law name (doc_id_filter d) d _ _ _ (doc_id_filter_exact d) Hl) as (ms & Hms & ->).
  apply Forall_forall. intros m ([c m'] & -> & Hin)%list_elem_of_fmap. rewrite Hms in Hin.
  apply list_elem_of_filter in Hin as [Hd Hin%elem_of_map_to_list]. destruct (Hst c m' Hin) as (r & Hr & -> & _). exists r. split_and!; [done| |done].
  simpl in Hd. rewrite (proj1 (proj2 (record_map_lookup r))) in Hd. by injection Hd.
Qed.

Lemma found_fields r :
  project ["chunk_id"; "doc_version"] (record_map r) = [("chunk_id", JStr (ir_chunk_id r)); ("doc_version", JStr (ir_doc_version r))].
Proof. destruct (record_map_lookup r) as (H1 & _ & H3). unfold project. simpl. by rewrite H1, H3. Qed.

Lemma found_owned d l cs : Forall (found d) l → rmap chunk_id_of l = Ok cs → Forall (λ c, owner c = d) cs.
Proof.
  intros Hl. revert cs. induction Hl as [|m l (r & Hr & Hd & ->) Hl IH]; intros cs; cbn [rmap]; [by intros [= <-]|].
  rewrite found_fields. unfold chunk_id_of at 1. simpl. destruct (rmap chunk_id_of l) as [cs'|]; [|done]. simpl. intros [= <-].
  constructor; [by rewrite <- (proj1 Hkeyed r Hr)|by apply IH].
Qed.

(** What a call's reply tells. *)
Definition ipost (c : icall) (a : ireply) (st : sd_state) : Prop :=
  match c, a with
  | IUpsert rs, Upserted o => ∀ ch, ch ∈ up_succeeded o → ∃ r, r ∈ rs ∧ ir_chunk_id r = ch ∧ rtc (record_step ch) (Some r) (record_at st ch)
  | IVersion d, VersionIs (Some v) => ∃ r, written r ∧ ir_doc_id r = d ∧ ir_doc_version r = v
  | _, _ => True
  end.

Lemma ipost_stable c : istable (ipost c).
Proof.
  intros a st st' Hm. destruct c as [rs| | | |], a as [o| | | |]; try done. simpl. intros Ho ch Hch. destruct (Ho ch Hch) as (r & Hr & Hc & Hs).
  exists r. split_and!; [done..|]. etrans; [exact Hs|apply Hm].
Qed.

Lemma succeeded_true results c : c ∈ up_succeeded (outcome_of results) → ∃ msg, (c, true, msg) ∈ results.
Proof.
  simpl. intros ([[c' b] msg] & -> & Hin)%list_elem_of_fmap. apply list_elem_of_In, filter_In in Hin as [Hin Hb]. simpl in *. subst b.
  exists msg. by apply list_elem_of_In.
Qed.

Lemma upsert_icall_safe rs w : may_upsert rs → NI' w → isafe (λ o, ipost (IUpsert rs) (Upserted o)) (upsert self rs) w.
Proof.
  intros Hrs Hw. unfold upsert. cbv zeta.
  assert (Hst : istable (λ o, ipost (IUpsert rs) (Upserted o))) by (intros o st st'; apply (ipost_stable (IUpsert rs) (Upserted o))).
  eapply (nsafe_bind _ _ _ _ _ _ (λ _ _, True)); [done|by apply nsafe_lift|]. intros _ w1 _ HI1 _.
  eapply (nsafe_bind _ _ _ _ _ _ (λ res, ipost (IUpsert rs) (Upserted (outcome_of res)))); [done|apply retry_safe; [done| |by split; [|exists rs]|]|].
  - intros res st st'. apply (ipost_stable (IUpsert rs) (Upserted (outcome_of res))).
  - intros st res Hi Hres ch (msg & Hin)%succeeded_true. cbn [serve] in *.
    pose proof (upload_law name _ _ st (upload_keys rs) (proj2 Hkeyed rs Hrs)) as Hl.
    destruct (sd_merge_or_upload_documents name _ st) as [r0 st']. destruct Hl as [_ Hl]. simpl in Hres. destruct (Hl res Hres) as [Hids Hstored].
    assert (Hch : ch ∈ map ir_chunk_id rs) by (rewrite <- Hids; by apply (list_elem_of_fmap_2 (λ x, x.1.1)) in Hin).
    apply list_elem_of_fmap in Hch as (r & -> & Hr). exists r. split_and!; [done..|].
    specialize (Hstored _ (_record_to_document r) msg Hin (list_elem_of_fmap_2 _ _ _ Hr) eq_refl). cbn [snd].
    rewrite (record_at_map st' _ r); [done|]. rewrite Hstored. f_equal. apply merged_record. intros m Hm.
    destruct (Hi _ m Hm) as (r1 & _ & -> & _). by exists r1.
  - intros res w2 _ _ Hres. by apply nsafe_ret.
Qed.

Lemma delete_icall_safe d w : may_delete d → NI' w → isafe (λ _ _, True) (delete_by_doc_id self d) w.
Proof.
  intros Hd Hw. unfold delete_by_doc_id. eapply nsafe_bind; [apply _|done|by apply search_safe|]. intros l w1 _ HI1 Hl.
  destruct l as [|m l]; [by apply nsafe_ret|].
  eapply (nsafe_bind _ _ _ _ _ _ (λ cs _, Forall (λ c, owner c = d) cs)); [done|apply nsafe_lift; [by apply istable_pure|]|].
  { intros cs. by apply found_owned. }
  intros cs w2 _ HI2 Hcs. eapply (nsafe_bind _ _ _ _ _ _ (λ _ _, True)); [done| |intros _ w3 _ _ _; by apply nsafe_ret].
  apply retry_safe; [done|done| |done]. intros st. split; [done|]. by exists d.
Qed.

Lemma version_icall_safe d w : NI' w → isafe (λ v, ipost (IVersion d) (VersionIs v)) (get_doc_version self d) w.
Proof.
  intros Hw. unfold get_doc_version. eapply nsafe_bind; [apply _|done|by apply search_safe|]. intros l w1 _ HI1 Hl.
  assert (Hst : istable (λ v, ipost (IVersion d) (VersionIs v))) by (intros v st st'; apply (ipost_stable (IVersion d) (VersionIs v))).
  destruct Hl as [|m l (r & Hr & Hd & ->) _]; [by apply nsafe_ret|]. apply nsafe_ret; [done|]. rewrite found_fields. simpl. by exists r.
Qed.

Definition permitted (c : icall) : Prop :=
  match c with IUpsert rs => may_upsert rs | IDelete d => may_delete d | _ => True end.

Lemma icall_safe c w : permitted c → NI' w → isafe (ipost c) (serve_icall c) w.
Proof.
  intros Hc Hw. pose proof (ipost_stable c) as Hst. destruct c as [rs|d|d|d|ds]; cbn [serve_icall].
  - eapply nsafe_bind; [apply _|done|by apply upsert_icall_safe|]. intros o w1 _ _ Ho. by apply nsafe_ret.
  - eapply nsafe_bind; [apply _|done|by apply delete_icall_safe|]. intros n w1 _ _ _. by apply nsafe_ret.
  - eapply nsafe_bind; [apply _|done|by apply version_icall_safe|]. intros v w1 _ _ Hv. by apply nsafe_ret.
  - eapply (nsafe_bind _ _ _ _ _ _ (λ _ _, True)); [done| |intros n w1 _ _ _; by apply nsafe_ret].
    eapply nsafe_bind; [apply _|done|by apply search_safe|]. intros l w1 _ _ _. by apply nsafe_ret.
  - eapply nsafe_bind; [apply _|done|apply nsafe_network; [apply _|apply requested_later|apply serve_requested|done]|].
    intros [] w1 _ _ _. by apply nsafe_ret.
Qed.

Lemma docs_record st c : intact st → docs st name !! c = record_map <$> record_at st c.
Proof.
  intros Hst. unfold record_at. destruct (docs st name !! c) as [m|] eqn:Hm; [|done]. destruct (Hst c m Hm) as (r & _ & -> & _).
  simpl. by rewrite doc_record_map.
Qed.

Lemma docs_owner st c r : intact st → record_at st c = Some r → ir_doc_id r = owner c.
Proof.
  intros Hst. unfold record_at. destruct (docs st name !! c) as [m|] eqn:Hm; [|done]. destruct (Hst c m Hm) as (r' & Hw & -> & <-).
  cbn [mbind option_bind]. rewrite doc_record_map by done. intros [= <-]. by apply (proj1 Hkeyed).
Qed.

(** A document nobody writes or deletes stays as it is. *)
Lemma untouched st st' c :
  intact st → intact st' → record_moves st st' → (∀ r, upserted r → ir_chunk_id r ≠ c) → ¬ may_delete (owner c) →
  docs st' name !! c = docs st name !! c.
Proof.
  intros Hst Hst' Hm Hup Hdel. rewrite !docs_record by done. f_equal. specialize (Hm c).
  destruct (record_at st c) as [r|] eqn:Hr; inversion Hm as [|? o ? Hstep _]; [done| |done|]; subst; destruct o as [r'|]; simpl in Hstep.
  - naive_solver.
  - destruct Hstep as (r0 & [= <-] & Hin). rewrite <- (docs_owner st c r) in Hdel; done.
  - naive_solver.
  - naive_solver.
Qed.
End calls.

(** ** Properties *)

(** What a list of calls may upsert and delete. *)
Definition upserts (calls : list icall) (rs : list IndexRecord) : Prop := IUpsert rs ∈ calls.
Definition deletes (calls : list icall) (d : string) : Prop := IDelete d ∈ calls.

(** C14: any number of workers upsert, delete and query one Azure AI Search index at once, over a
    network that may refuse, lose or repeat their requests or execute them long after their caller
    gave up, each chunk id belonging to one document. Then every stored document is exactly one
    record that was there before or that one of the upserts brought, never a mixture; the record of
    each chunk only changes by an upsert of that chunk or by a deletion of its document, so a chunk
    no call is about is left alone; a record an upsert reported as stored was stored, and what is
    there now came from it by such steps; and a reported version is that of a record of the
    document asked for. *)
Theorem azure_index_concurrent {sdk : SearchSDK} docs (laws : DocumentLaws docs) {codec : DocumentCodec} fromisoformat {tenacity : Tenacity}
    self fates utc initial (calls : list icall) owner st pool w' :
  (∀ t, fromisoformat (isoformat t) = Some t) → well_keyed initial (upserts calls) owner → intact docs self initial (upserts calls) st →
  rtc (sched_step (nhandle serve fates utc)) (map (serve_icall self) calls, mkNW st [] 0 0) (pool, w') →
  let at_ := record_at docs fromisoformat self in
  let st' := nw_state w' in
  let step := record_step (upserts calls) (deletes calls) in
  intact docs self initial (upserts calls) st' ∧
  (∀ c, rtc (step c) (at_ st c) (at_ st' c)) ∧
  (∀ c, (∀ r, upserted (upserts calls) r → ir_chunk_id r ≠ c) → ¬ deletes calls (owner c) →
     docs st' (az_index_name self) !! c = docs st (az_index_name self) !! c) ∧
  (∀ i rs o c, calls !! i = Some (IUpsert rs) → pool !! i = Some (Ret (Upserted o)) → c ∈ up_succeeded o →
     ∃ r, r ∈ rs ∧ ir_chunk_id r = c ∧ rtc (step c) (Some r) (at_ st' c)) ∧
  ∀ i d v, calls !! i = Some (IVersion d) → pool !! i = Some (Ret (VersionIs (Some v))) →
    ∃ r, written initial (upserts calls) r ∧ ir_doc_id r = d ∧ ir_doc_version r = v.
Proof.
  intros Hiso Hkeyed Hst Hsteps at_ st' step.
  pose proof (record_moves_preorder docs fromisoformat self (upserts calls) (deletes calls)) as Hpre.
  destruct (nsafe_pool serve fates utc (intact docs self initial (upserts calls)) (record_moves docs fromisoformat self (upserts calls) (deletes calls))
    (requested self (upserts calls) (deletes calls) owner)
    (serve_icall self) (ipost docs fromisoformat self initial (upserts calls) (deletes calls)) calls st pool w' Hst) as (Hst' & Hm & Hpost); [|exact Hsteps|].
  { intros c w Hc Hw. apply (icall_safe docs fromisoformat Hiso self fates utc initial (upserts calls) (deletes calls) owner Hkeyed); [by destruct c|done]. }
  split_and!; [done|exact Hm| | |].
  - intros c. by eapply (untouched docs fromisoformat Hiso self initial (upserts calls) (deletes calls) owner Hkeyed).
  - intros i rs o c Hi Hp. exact (Hpost i _ _ Hi Hp c).
  - intros i d v Hi Hp. exact (Hpost i _ _ Hi Hp).
Qed.

(** ** A concrete run

    A document is indexed, deleted and indexed again in a new version; the upload that timed out
    in the first step, and was retried, is executed at the very end. *)

Definition demo_record (c v : string) : IndexRecord := example_azure_record c "doc" v.

Definition demo_calls : list icall :=
  [IUpsert [demo_record "c1" "v1"; demo_record "c2" "v1"]; IDelete "doc"; IUpsert [demo_record "c1" "v2"]; IVersion "doc"; INetwork [0%nat]].

Definition demo_fates (n : nat) : fate := match n with O => Delayed | _ => Served end.

Notation demo_handle := (nhandle (serve (sdk := memory_search [])) demo_fates (λ _, 0)).
Notation demo_call := (serve_icall (codec := example_codec) (tenacity := loop_tenacity) example_adapter).

Definition demo_final :=
  sched_exec demo_handle (replicate 4 0 ++ replicate 3 1 ++ replicate 2 2 ++ replicate 2 3 ++ [4])%nat (map demo_call demo_calls, wide_world).

Lemma index_demo_steps : rtc (sched_step demo_handle) (map demo_call demo_calls, wide_world) (demo_final.1, demo_final.2).
Proof. rewrite <- surjective_pairing. unfold demo_final. apply sched_exec_rtc. Qed.

(** [_call_with_timeout] abandons a call without stopping it. Here the abandoned upload brings back
    both records of the old version, one of them over the record of the new version, after the old
    version had been deleted and the new one read back. *)
Theorem late_upload_reverts :
  let at_ := record_at (sdk := memory_search []) ms_docs MemoryTable.MemoryTable.undump example_adapter (nw_state demo_final.2) in
  demo_final.1 !! 3%nat = Some (Ret (VersionIs (Some "v2"))) ∧
  at_ "c1" = Some (demo_record "c1" "v1") ∧ at_ "c2" = Some (demo_record "c2" "v1").
Proof. vm_compute. split_and!; reflexivity. Qed.

Lemma index_demo_keyed : well_keyed (λ _, False) (upserts demo_calls) (λ _, "doc").
Proof.
  assert (H : Forall (λ c, match c with IUpsert rs => Forall (λ r, ir_doc_id r = "doc") rs ∧ NoDup (map ir_chunk_id rs) | _ => True end) demo_calls).
  { repeat constructor; by apply (bool_decide_unpack _). }
  rewrite Forall_forall in H. split.
  - intros r [Hr|(rs & Hrs & Hr)]; [done|]. destruct (H _ Hrs) as [H1 _]. rewrite Forall_forall in H1. by apply H1.
  - intros rs Hrs. by destruct (H _ Hrs).
Qed.

Lemma azure_index_concurrent_witness :
  demo_final.1 = [Ret (Upserted (mkOutcome ["c1"; "c2"] [])); Ret (Deleted 2); Ret (Upserted (mkOutcome ["c1"] [])); Ret (VersionIs (Some "v2")); Ret Delivered] ∧
  ∃ r, r ∈ [demo_record "c1" "v2"] ∧ ir_chunk_id r = "c1" ∧
    rtc (record_step (upserts demo_calls) (deletes demo_calls) "c1") (Some r)
      (record_at (sdk := memory_search []) ms_docs MemoryTable.MemoryTable.undump example_adapter (nw_state demo_final.2) "c1").
Proof.
  assert (Hpool : demo_final.1 = [Ret (Upserted (mkOutcome ["c1"; "c2"] [])); Ret (Deleted 2); Ret (Upserted (mkOutcome ["c1"] [])); Ret (VersionIs (Some "v2")); Ret Delivered])
    by (vm_compute; reflexivity).
  split; [exact Hpool|].
  destruct (azure_index_concurrent (sdk := memory_search []) ms_docs (memory_document_laws []) (codec := example_codec) MemoryTable.MemoryTable.undump
    (tenacity := loop_tenacity) example_adapter demo_fates (λ _, 0) (λ _, False) demo_calls (λ _, "doc") (nw_state wide_world) demo_final.1 demo_final.2)
    as (_ & _ & _ & H & _).
  - intros t. apply MemoryTable.MemoryTable.undump_dump.
  - exact index_demo_keyed.
  - intros c m Hm. done.
  - exact index_demo_steps.
  - refine (H 2%nat [demo_record "c1" "v2"] (mkOutcome ["c1"] []) "c1" eq_refl _ _); [|by apply (bool_decide_unpack _)].
    rewrite Hpool. exact eq_refl.
Defined.
End IndexConcurrency.
