(* ===== verification/PipelineAzure.v ===== *)
(** * The pipeline's workers on the Azure index

    The stages of [Pipeline] with the index adapter of indexer/adapters/azure_ai_search.py in place
    of an atomic index: a worker's call on its index becomes the adapter's requests, and any other
    worker may run between two of them, or between a request and its late execution. The ledger
    keeps the guarantees it gives with an atomic index, and the index those of [IndexConcurrency]. *)
From S2P Require Import Prelude PyDict Types Identity Ledger Prog Rely System Analyzer Chunker Embedder Indexer Vertical Pipeline Net AzureSearch MemorySearch AzureIndexer IndexConcurrency.
#[local] Open Scope Z_scope.
#[local] Open Scope py_scope.

Module PipelineAzure.
Import Identity Ledger Pipeline.


(** ** The system *)

(** A step of a worker: a request of its index adapter, or a call on another shared object. *)
Inductive stageE : Type → Type :=
| Request {X} (e : netE AzureIndexer.searchQ X) : stageE X
| Shared {X} (e : sysE X) : stageE X.

Section system.
Context {sdk : SearchSDK} {codec : AzureIndexer.DocumentCodec} {tenacity : Tenacity}.
Context (self : AzureIndexer.AzureAISearchIndexer) (fates : nat → fate) (utc : nat → Z) (base : Env).

Notation env := (AzureIndexer.azure_env self fates utc base).
Notation requests p := (attempt (translate (λ X e, perform (Request e)) p)).

(** The adapter's methods as their requests. *)
Definition lower (X : Type) (e : sysE X) : prog stageE X :=
  match e in sysE X return prog stageE X with
  | IUpsert rs => requests (AzureIndexer.upsert self rs)
  | IDelete d => requests (AzureIndexer.delete_by_doc_id self d)
  | IVersion d => requests (AzureIndexer.get_doc_version self d)
  | e => perform (Shared e)
  end.

(** The world of the stages, the network and the search service being its index. *)
Definition shandle (X : Type) (e : stageE X) (w : @world env) : X * @world env :=
  match e in stageE X return X * @world env with
  | Request e => let '(r, v) := nhandle AzureIndexer.serve fates utc _ e (@w_index env w) in (r, @set_index env v w)
  | Shared e => @handle env _ e w
  end.

(** A worker of the pipeline, or the network executing delayed requests. *)
Inductive process {aenv : Analyzer.AnalyzerEnv} :=
| Stage (x : worker)
| Network (deliveries : list nat).

Definition process_prog {aenv : Analyzer.AnalyzerEnv} (p : process) : prog stageE unit :=
  match p with
  | Stage x => translate lower (@worker_prog env aenv x)
  | Network ds => pfold (λ _ i, perform (Request (Deliver i))) tt ds
  end.

(** ** What the workers may write to the index *)
Context {aenv : Analyzer.AnalyzerEnv} (processes : list process) (owner : string → string).

Definition indexes_doc (envelope : ArrivalEnvelope) (chunks : list EmbeddedChunk) : Prop :=
  ∃ config, Stage (WIndex config envelope chunks) ∈ processes.

(** A record an [index] call makes of one of its chunks. *)
Definition made (r : IndexRecord) : Prop :=
  ∃ envelope chunks config_version indexed_at e, indexes_doc envelope chunks ∧ e ∈ chunks ∧
    @Indexer.build_record env (env_doc_id envelope) envelope config_version indexed_at e = Ok r.

Definition may_upsert (rs : list IndexRecord) : Prop := NoDup (map ir_chunk_id rs) ∧ Forall made rs.
Definition may_delete (d : string) : Prop := ∃ envelope chunks, indexes_doc envelope chunks ∧ env_doc_id envelope = d.

Definition chunk_ids (chunks : list EmbeddedChunk) : list string := map (λ e, ck_chunk_id (em_chunk e)) chunks.

(** The chunks of an [index] call have distinct ids, which belong to its document. *)
Definition chunks_owned : Prop :=
  ∀ envelope chunks, indexes_doc envelope chunks →
    NoDup (chunk_ids chunks) ∧ Forall (λ c, owner c = env_doc_id envelope) (chunk_ids chunks).

Definition index_op (X : Type) (e : sysE X) : Prop :=
  match e with IUpsert rs => may_upsert rs | IDelete d => may_delete d | _ => True end.

(** ** The stages' calls on the index *)

(** Only the [index] stage calls the index. *)
Definition no_index (X : Type) (e : sysE X) : Prop :=
  match e with IUpsert _ | IDelete _ | IVersion _ => False | _ => True end.

Lemma transition_no_index d t ec em a : all_ops no_index (transition_or_benign d t ec em a).
Proof. unfold transition_or_benign, triage. repeat (all_ops_tac; try done). Qed.

Ltac no_index_tac := repeat (all_ops_tac; try (done || apply transition_no_index)).

Lemma analyze_no_index config registry envelope reader : all_ops no_index (@Analyzer.analyze aenv config registry envelope reader).
Proof.
  unfold Analyzer.analyze, Analyzer._detect_and_parse, Analyzer._parse_with_recovery, Analyzer._terminalize, Analyzer._self_transition_and_raise, triage.
  no_index_tac.
Qed.

Lemma chunk_no_index ch envelope elements : all_ops no_index (@Chunker.chunk ch envelope elements).
Proof.
  unfold Chunker.chunk, Chunker._terminalize_empty_elements, Chunker._build_chunks, Chunker._self_transition_and_raise, Chunker._transition_to_embedding.
  no_index_tac.
Qed.

Lemma embed_no_index config envelope chunks : all_ops no_index (@Embedder.embed env config envelope chunks).
Proof.
  assert (Hv : ∀ d cs, all_ops no_index (@Embedder._validate_input_lengths env d cs)).
  { intros d. induction cs as [|c cs IH]; simpl; [done|]. unfold Embedder._terminalize. case_bool_decide; [|done]. no_index_tac. }
  unfold Embedder.embed, Embedder._terminalize, Embedder._run_with_recovery, Embedder._self_transition_and_raise, Embedder._transition_to_indexing.
  repeat (all_ops_tac; try (done || apply Hv || apply transition_no_index || (eapply all_ops_mono; [|apply (@Embedder.embed_all_calls env config)]; by intros X []))).
Qed.

Lemma load_no_index config envelope : all_ops no_index (@Vertical.load env config envelope).
Proof.
  unfold Vertical.load, Vertical.resolve, Vertical._assigned_scenario_id, Vertical._resolve_review_assignment, Vertical._resolve_scenario_id,
    Vertical._resolve_vertical, Vertical._match_source_mapping, Vertical._park. no_index_tac.
Qed.

Lemma reject_no_index d reason : all_ops no_index (Vertical.reject d reason).
Proof. unfold Vertical.reject, Vertical._require_needs_review. no_index_tac. Qed.

(** The records of an [index] call, and every batch of them. *)
Lemma made_records envelope chunks cv now rs :
  chunks_owned → indexes_doc envelope chunks → rmap (@Indexer.build_record env (env_doc_id envelope) envelope cv now) chunks = Ok rs → may_upsert rs.
Proof.
  intros Howned Hdoc Hrs%rmap_ok. split.
  - assert (Hids : map ir_chunk_id rs = chunk_ids chunks).
    { clear -Hrs. induction Hrs as [|e r es rs Hr _ IH]; [done|]. simpl. rewrite IH. f_equal. unfold Indexer.build_record in Hr.
      by destruct (Indexer.section_path_of _); simplify_eq/=. }
    rewrite Hids. by apply (Howned envelope).
  - apply Forall_forall. intros r [i Hi]%list_elem_of_lookup. destruct (Forall2_lookup_r _ _ _ _ _ Hrs Hi) as (e & He & Hr).
    exists envelope, chunks, cv, now, e. split_and!; [done| |done]. by eapply list_elem_of_lookup_2.
Qed.

Lemma may_upsert_sublist rs rs' : rs' `sublist_of` rs → may_upsert rs → may_upsert rs'.
Proof.
  intros Hsub [Hnd Hall]. split.
  - eapply sublist_NoDup; [exact Hnd|]. by apply fmap_sublist.
  - rewrite Forall_forall in *. intros r Hr. apply Hall. by eapply elem_of_sublist.
Qed.

Lemma no_index_ops {A} (p : component A) : all_ops no_index p → all_ops index_op p.
Proof. apply all_ops_mono. by intros X []. Qed.

Lemma upsert_all_ops config envelope chunks rs :
  indexes_doc envelope chunks → may_upsert rs → all_ops index_op (@Indexer._upsert_all env config (env_doc_id envelope) rs).
Proof.
  intros Hdoc Hrs. unfold Indexer._upsert_all. destruct rs as [|r rs]; [done|]. set (all := r :: rs) in *.
  apply all_ops_bind; [|intros deleted].
  { unfold Indexer._maybe_delete_stale_version. all_ops_tac; [done|]. by exists envelope, chunks. }
  unfold Indexer._batched. destruct (py_batched _ all _) as [bs|] eqn:Hbs; [|done]. cbn [lift pbind].
  apply all_ops_bind; [|done]. apply all_ops_pfold_in. intros n b Hb. apply all_ops_bind; [|done].
  assert (Hup : may_upsert b) by (eapply may_upsert_sublist; [by eapply py_batched_sublist|done]).
  unfold Indexer._upsert_batch_with_retry. apply all_ops_bind; [by apply all_ops_call|]. intros outcome. destruct (up_failed outcome) as [|f fs]; [done|].
  apply all_ops_bind; [|intros o; by destruct (up_failed o)]. apply all_ops_call. eapply may_upsert_sublist; [apply sublist_filter|done].
Qed.

Lemma index_ops config envelope chunks :
  chunks_owned → indexes_doc envelope chunks → all_ops index_op (@Indexer.index env config envelope chunks).
Proof.
  intros Howned Hdoc. unfold Indexer.index. apply all_ops_bind; [|intros _].
  { apply no_index_ops. unfold Indexer._terminalize. destruct chunks; no_index_tac. }
  apply all_ops_bind; [|intros _].
  { apply no_index_ops. unfold Indexer._validate_batch, Indexer._terminalize. apply all_ops_bind; [destruct (bool_decide _); no_index_tac|].
    intros _. clear Hdoc. induction chunks as [|c cs IH]; simpl; [done|]. unfold Indexer._terminalize. case_bool_decide; [|done]. no_index_tac. }
  unfold Indexer._build_records, Indexer._config_version_for, perform. cbn [pbind all_ops]. split; [exact I|]. intros row. split; [exact I|]. intros now.
  destruct (rmap _ chunks) as [rs|] eqn:Hrs; [|done]. cbn [lift pbind].
  apply all_ops_bind; [|intros res; apply no_index_ops; unfold Indexer._transition_to_indexed; no_index_tac].
  unfold Indexer._run_with_recovery. apply all_ops_bind; [|intros r; apply no_index_ops; unfold Indexer._terminalize, Indexer._self_transition_and_raise; no_index_tac].
  apply all_ops_attempt, (upsert_all_ops _ _ chunks); [done|]. by eapply made_records.
Qed.

Lemma worker_ops x : chunks_owned → Stage x ∈ processes → all_ops index_op (@worker_prog env aenv x).
Proof.
  intros Howned Hx. destruct x; cbn [worker_prog]; try apply all_ops_forget.
  - apply no_index_ops, analyze_no_index.
  - apply no_index_ops, chunk_no_index.
  - apply no_index_ops, embed_no_index.
  - apply index_ops; [done|]. by eexists.
  - apply no_index_ops, load_no_index.
  - apply no_index_ops, reject_no_index.
Qed.

(** ** Safety *)
Context (docs : sd_state → string → gmap string (gmap string jval)) {doc_laws : DocumentLaws docs}.
Context (fromisoformat : string → option Z) (iso_roundtrip : ∀ t, fromisoformat (AzureIndexer.isoformat t) = Some t).
Context (initial : IndexRecord → Prop).

Definition records_keyed : Prop := chunks_owned ∧ ∀ r, initial r → ir_doc_id r = owner (ir_chunk_id r).
Context (Hkeyed : records_keyed).

Notation sworld := (@world env).
Notation intact := (IndexConcurrency.intact docs self initial may_upsert).
Notation record_moves := (IndexConcurrency.record_moves docs fromisoformat self may_upsert may_delete).
Notation requested := (IndexConcurrency.requested self may_upsert may_delete owner).

Lemma built_keys d envelope cv now e r :
  @Indexer.build_record env d envelope cv now e = Ok r → ir_doc_id r = d ∧ ir_chunk_id r = ck_chunk_id (em_chunk e).
Proof. unfold Indexer.build_record. destruct (Indexer.section_path_of _); by intros [= <-]. Qed.

Lemma workers_keyed : IndexConcurrency.well_keyed initial may_upsert owner.
Proof.
  destruct Hkeyed as [Howned Hinit]. split; [|by intros rs [? _]]. intros r [Hr|(rs & [_ Hall] & Hin)]; [by apply Hinit|].
  rewrite Forall_forall in Hall. destruct (Hall r Hin) as (envelope & chunks & cv & now & e & Hdoc & He & Hb).
  apply built_keys in Hb as [-> ->]. destruct (Howned envelope chunks Hdoc) as [_ Ho]. rewrite Forall_forall in Ho. symmetry. apply Ho.
  by apply (list_elem_of_fmap_2 (λ e, ck_chunk_id (em_chunk e))).
Qed.

(** A record that is upserted belongs to a document that is being indexed. *)
Lemma upserted_owner r : IndexConcurrency.upserted may_upsert r → may_delete (owner (ir_chunk_id r)).
Proof.
  intros Hr. rewrite <- (proj1 workers_keyed r (or_intror Hr)). destruct Hr as (rs & [_ Hall] & Hin). rewrite Forall_forall in Hall.
  destruct (Hall r Hin) as (envelope & chunks & cv & now & e & Hdoc & _ & Hb). apply built_keys in Hb as [-> _]. by exists envelope, chunks.
Qed.

(** The rest of the world: the ledger only moves forward. *)
Definition rest_moves (w w' : sworld) : Prop := @ledger_evolves env w w' ∧ @advances env w w'.

Definition SI (w : sworld) : Prop := NI intact requested (@w_index env w).
Definition SR (w w' : sworld) : Prop := NR record_moves (@w_index env w) (@w_index env w') ∧ rest_moves w w'.

Lemma advances_refl (w : sworld) : @advances env w w.
Proof. intros d cur Hc. exists cur. split; [done|]. by split. Qed.

Lemma rest_same (w w' : sworld) : @w_ledger env w' = @w_ledger env w → rest_moves w w'.
Proof. intros Hl. split; [by exists []|]. intros d cur Hc. exists cur. rewrite Hl. split; [done|]. by split. Qed.

#[local] Instance records_preorder : PreOrder record_moves := IndexConcurrency.record_moves_preorder docs fromisoformat self may_upsert may_delete.

#[local] Instance SR_preorder : PreOrder SR.
Proof.
  split.
  - intros w. split; [unfold NR; reflexivity|by apply rest_same].
  - intros w1 w2 w3 [N1 [E1 A1]] [N2 [E2 A2]]. split; [unfold NR in *; by etrans|].
    split; [by eapply ledger_evolves_trans|by eapply advances_trans].
Qed.

(** A method of the adapter, from its safety on the network alone. *)
Lemma adapter_safe {A} (Φ : A → sd_state → Prop) (p : prog (netE AzureIndexer.searchQ) A) w :
  nsafe AzureIndexer.serve fates utc intact record_moves requested Φ p (@w_index env w) →
  returns shandle SI SR (λ _ _, True) (requests p) w.
Proof.
  intros Hp. eapply returns_weaken; [apply _| |apply returns_attempt, (returns_renamed shandle SI SR (λ X e, Request e) (λ _ _, True))]; [done|].
  eapply safe_weaken; [apply _| |apply (safe_part (nhandle AzureIndexer.serve fates utc) (NI intact requested) (NR record_moves) (@w_index env) (@set_index env) rest_moves); [done| |exact Hp]].
  - by intros [].
  - intros v t. by apply rest_same.
Qed.

Lemma handle_index X (e : sysE X) (w : sworld) : no_index X e → @w_index env (@handle env X e w).2 = @w_index env w.
Proof. destruct e; simpl; intros H; try done; try (by destruct (create _ _ _ _) as [[]|]); try (by destruct (transition _ _ _ _ _ _ _ _) as [[]|]); by case_match. Qed.

Lemma shared_safe X (e : sysE X) w :
  no_index X e → targets_in stage_targets X e → returns shandle SI SR (λ _ _, True) (perform (Shared e)) w.
Proof.
  intros Hn Ht. apply safe_perform. intros w' _ HI. cbn [shandle]. pose proof (handle_index X e w' Hn) as Hi. split_and!; [|split|done].
  - unfold SI. by rewrite Hi.
  - unfold NR. rewrite Hi. reflexivity.
  - split; [apply handle_evolves|by apply handle_advances].
Qed.

Lemma lower_safe X (e : sysE X) w :
  index_op X e ∧ targets_in stage_targets X e → SI w → returns shandle SI SR (λ _ _, True) (lower X e) w.
Proof.
  intros [Hi Ht] Hw. destruct e; try by apply shared_safe.
  - eapply adapter_safe. by apply (IndexConcurrency.upsert_icall_safe docs fromisoformat iso_roundtrip self fates utc initial may_upsert may_delete owner workers_keyed).
  - eapply adapter_safe. by apply (IndexConcurrency.delete_icall_safe docs fromisoformat iso_roundtrip self fates utc initial may_upsert may_delete owner workers_keyed).
  - eapply adapter_safe. by apply (IndexConcurrency.version_icall_safe docs fromisoformat iso_roundtrip self fates utc initial may_upsert may_delete owner workers_keyed).
Qed.

Lemma stage_network_safe ds w : SI w → returns shandle SI SR (λ _ _, True) (pfold (λ _ i, perform (Request (Deliver i))) tt ds) w.
Proof.
  revert w. induction ds as [|i ds IH]; intros w Hw; cbn [pfold]; [by apply returns_ret|].
  eapply (returns_bind _ _ _ (λ _ _, True)); [done| |intros [] w' _ HI' _; by apply IH].
  apply safe_perform. intros w' _ HI'. cbn [shandle].
  pose proof (deliver_step AzureIndexer.serve fates utc intact record_moves requested
    (IndexConcurrency.requested_later docs fromisoformat self may_upsert may_delete owner)
    (IndexConcurrency.serve_requested docs fromisoformat iso_roundtrip self initial may_upsert may_delete owner workers_keyed) i (@w_index env w') HI') as H.
  destruct (nhandle _ _ _ _ (Deliver i) (@w_index env w')) as [r v]. destruct H as [H1 H2]. split_and!; [exact H1|split; [exact H2|by apply rest_same]|done].
Qed.

Lemma stage_process_safe p w : p ∈ processes → SI w → returns shandle SI SR (λ _ _, True) (process_prog p) w.
Proof.
  intros Hp Hw. destruct p as [x|ds]; [|by apply stage_network_safe]. apply via_translate; [apply _|done|].
  eapply via_all_ops; [apply _|apply lower_safe| |done]. apply all_ops_and; [|apply worker_targets]. by apply worker_ops; [apply Hkeyed|].
Qed.

Lemma stage_pool_safe w pool' w' :
  SI w → rtc (sched_step shandle) (map process_prog processes, w) (pool', w') → SI w' ∧ SR w w'.
Proof.
  intros Hw Hsteps.
  destruct (safe_pool shandle SI SR (λ _ r _, match r with Ok _ => True | Exc _ => True end) (map process_prog processes) pool' w w' Hw)
    as (? & ? & _); [|done|done].
  intros i p Hp. rewrite list_lookup_fmap in Hp. destruct (processes !! i) as [q|] eqn:Hi; [|done]. injection Hp as <-.
  apply stage_process_safe; [by eapply list_elem_of_lookup_2|done].
Qed.
End system.

(** ** Properties *)

(** C3: the pipeline's workers with the Azure index, request by request. Whatever stage calls run
    concurrently, on whatever documents and with whatever inputs, however their ledger writes and
    their index requests interleave, and whether the network refuses, loses, repeats or delays a
    request: the ledger stays well-formed, no document moves backwards, a failed one is never
    reopened and an indexed or archived row never changes; every document of the index is one
    whole record, which was there before or which an [index] call made of one of its chunks; and
    the records of a document no [index] call is about stay as they are. The chunk ids of a call
    are distinct and belong to its document, as [derive_chunk_id] makes them. *)
Theorem pipeline_on_azure {sdk : SearchSDK} {codec : AzureIndexer.DocumentCodec} {tenacity : Tenacity} self fates utc (base : Env)
    {aenv : Analyzer.AnalyzerEnv} docs (doc_laws : DocumentLaws docs) fromisoformat initial (processes : list process) owner
    (w : @world (AzureIndexer.azure_env self fates utc base)) pool' w' :
  let env := AzureIndexer.azure_env self fates utc base in
  let docs_of w := docs (nw_state (@w_index env w)) (AzureIndexer.az_index_name self) in
  (∀ t, fromisoformat (AzureIndexer.isoformat t) = Some t) →
  records_keyed processes owner initial →
  nw_inflight (@w_index env w) = [] →
  (∀ c m, docs_of w !! c = Some m → ∃ r, initial r ∧ m = AzureIndexer.record_map r ∧ ir_chunk_id r = c) →
  rtc (sched_step (shandle self fates utc base)) (map (process_prog self fates utc base) processes, w) (pool', w') →
  (ledger_ok (@w_ledger env w) → ledger_ok (@w_ledger env w')) ∧
  (∀ d cur, dict_get d (@w_ledger env w) = Some cur → ∃ cur', dict_get d (@w_ledger env w') = Some cur' ∧
     (rank (row_status cur) ≤ rank (row_status cur'))%nat ∧ (row_status cur ∈ [FAILED; INDEXED; ARCHIVED] → cur' = cur)) ∧
  (∀ c m, docs_of w' !! c = Some m → ∃ r, (initial r ∨ made self fates utc base processes r) ∧ m = AzureIndexer.record_map r ∧ ir_chunk_id r = c) ∧
  ∀ c, ¬ may_delete processes (owner c) → docs_of w' !! c = docs_of w !! c.
Proof.
  intros env docs_of. unfold docs_of, env. clear docs_of env. intros Hiso Hkeyed Hfl Hinit Hsteps.
  set (env := AzureIndexer.azure_env self fates utc base) in *.
  assert (Hst : IndexConcurrency.intact docs self initial (may_upsert self fates utc base processes) (nw_state (@w_index env w))).
  { intros c m Hc. destruct (Hinit c m Hc) as (r & ? & ? & ?). exists r. split; [by left|done]. }
  destruct (stage_pool_safe self fates utc base processes owner docs fromisoformat Hiso initial Hkeyed w pool' w') as ([HJ _] & Hm & [ops Hops] & Hadv); [|done|].
  { split; [exact Hst|]. intros X q. fold env. rewrite Hfl. by intros ?%elem_of_nil. }
  split_and!; [intros Hok; apply (eq_ind_r ledger_ok (ops_ok ops _ Hok) Hops)|exact Hadv| |].
  - intros c m Hc. destruct (HJ c m Hc) as (r & Hr & ? & ?). exists r. split; [|done]. destruct Hr as [?|(rs & [_ Hall] & Hin)]; [by left|right].
    rewrite Forall_forall in Hall. by apply Hall.
  - intros c Hc. apply (IndexConcurrency.untouched docs fromisoformat Hiso self initial (may_upsert self fates utc base processes) (may_delete processes) owner); [|done..| |done].
    + by apply workers_keyed.
    + intros r Hr <-. apply Hc. apply (upserted_owner self fates utc base processes owner initial Hkeyed r Hr).
Qed.
(** ** A concrete run

    Two deliveries of one document to the indexing stage; an upload times out and is executed at
    the end. *)

Definition demo_fates (n : nat) : fate := match n with 2%nat => Delayed | _ => Served end.

Notation demo_env := (@AzureIndexer.azure_env AzureIndexer.example_codec loop_tenacity AzureIndexer.example_adapter (memory_search []) demo_fates (λ _, 0) unit_env).
Notation demo_handle := (@shandle (memory_search []) AzureIndexer.example_codec loop_tenacity AzureIndexer.example_adapter demo_fates (λ _, 0) unit_env).
Notation demo_process := (@process_prog (memory_search []) AzureIndexer.example_codec loop_tenacity AzureIndexer.example_adapter demo_fates (λ _, 0) unit_env Analyzer.example_aenv).

Definition demo_chunks : list EmbeddedChunk := [Indexer.embedded 0 4; Indexer.embedded 1 4].

Definition demo_processes : list (@process Analyzer.example_aenv) :=
  [Stage (WIndex (Indexer.mkIndexerConfig 4 "cosine" None true) Indexer.index_envelope demo_chunks);
   Stage (WIndex (Indexer.mkIndexerConfig 4 "cosine" None true) Indexer.index_envelope demo_chunks); Network [0%nat]].

Definition demo_world : @world demo_env := @mkWorld demo_env [(example_doc, Indexer.indexing_row)] [] AzureIndexer.wide_world tt tt 100.

Definition demo_final := sched_exec demo_handle (concat (replicate 12 [0; 1]) ++ [2])%nat (map demo_process demo_processes, demo_world).

Lemma stage_demo_steps : rtc (sched_step demo_handle) (map demo_process demo_processes, demo_world) (demo_final.1, demo_final.2).
Proof. rewrite <- surjective_pairing. unfold demo_final. apply sched_exec_rtc. Qed.

Lemma stage_demo_keyed : records_keyed demo_processes (λ _, example_doc) (λ _, False).
Proof.
  split; [|done]. intros envelope chunks [config Hin].
  assert (H : Forall (λ p, match p with Stage (WIndex _ envelope chunks) => NoDup (chunk_ids chunks) ∧ Forall (λ _, example_doc = env_doc_id envelope) (chunk_ids chunks) | _ => True end) demo_processes).
  { repeat constructor; by apply (bool_decide_unpack _). }
  rewrite Forall_forall in H. exact (H _ Hin).
Qed.

Lemma pipeline_on_azure_witness :
  ledger_ok (@w_ledger demo_env demo_final.2) ∧
  ∃ m, ms_docs (nw_state (@w_index demo_env demo_final.2)) "idx" !! "0" = Some m ∧ ∃ r, ir_chunk_id r = "0" ∧ m = @AzureIndexer.record_map AzureIndexer.example_codec r.
Proof.
  assert (Hdoc : is_Some (ms_docs (nw_state (@w_index demo_env demo_final.2)) "idx" !! "0")) by (apply (bool_decide_unpack _); vm_compute; exact I).
  destruct (@pipeline_on_azure (memory_search []) AzureIndexer.example_codec loop_tenacity AzureIndexer.example_adapter demo_fates (λ _, 0) unit_env Analyzer.example_aenv
    ms_docs (memory_document_laws []) MemoryTable.MemoryTable.undump (λ _, False) demo_processes (λ _, example_doc) demo_world demo_final.1 demo_final.2) as (Hl & _ & Hd & _).
  - intros t. apply MemoryTable.MemoryTable.undump_dump.
  - exact stage_demo_keyed.
  - reflexivity.
  - intros c m Hm. vm_compute in Hm. discriminate Hm.
  - exact stage_demo_steps.
  - split; [apply Hl; exact Indexer.indexing_rows_ok|]. destruct Hdoc as [m Hm]. exists m. split; [exact Hm|]. destruct (Hd "0" m Hm) as (r & _ & Hr & Hc).
    exists r. split; [exact Hc|exact Hr].
Defined.

End PipelineAzure.
